(* ===== verification/_CoqProject ===== *)
-Q . S2P
Prelude.v
GoStrings.v
GoStrconv.v
GoPath.v
Paths.v
GoFiles.v
FilesLogic.v
Disk.v
GoJson.v
GoTime.v
GoFlag.v
GoFloat.v
GoRat.v
GoQuote.v
Catalog.v
Config.v
Control.v
ProcessJson.v
Pmon.v
Observe.v
Manager.v
Node.v
ProcessNode.v
Locking.v
CudaEngine.v
CudaBackend.v
LibCuda.v
Render.v
Scenario.v
ControlCLI.v
LlamaConfig.v
LlamaRegistry.v
LlamaServer.v
LlamaHTTP.v
LlamaMain.v
Bundle.v
Injection.v
InjectionSafety.v
Kubernetes.v
KubernetesSpec.v
ManifestSpec.v
Installer.v
InstallerSpec.v
Upstream.v
FakeNvidia.v
FakeNvidiaSpec.v
UpDown.v
NvmlPmon.v
SmiWrapper.v
NvmlSpec.v
