(* ===== verification/Prelude.v ===== *)
(** * fake-nvidia: verification development

    fake-nvidia makes containers believe they have NVIDIA GPUs.  A catalog of
    GPU profiles ([src/profiles]) is composed into a Mock NVML configuration
    ([src/internal/config]); a mock NVML library and the command
    [nvml-mock-ctl] hold the node's state; [src/internal/control] reads that
    state through [nvidia-smi] and changes it through [nvml-mock-ctl]; the
    CUDA shim ([src/internal/cuda], [src/cmd/libcuda]) charges allocations to
    it; scenarios, a fake llama server and a command line drive it.  A bundle
    of these libraries and commands ([src/internal/runtimebundle]) is copied
    to an injection root that containers mount ([src/internal/injection]); on
    Kubernetes a DaemonSet stages that root on each node and publishes a CDI
    specification for it ([src/internal/kubernetes],
    [src/cmd/fake-nvidia-k8s-installer]).

    ** Files and what they model

    - [Prelude.v]: Go errors ([error], [errors_Is]), results, the
      state-and-error monad [M], uint64 arithmetic with its wrap-around, loops
      over slices, tactics ([word], [guards], [invert_ok]) and shared lemmas.
    - [GoStrings.v], [GoStrconv.v], [GoPath.v], [Paths.v], [GoJson.v],
      [GoTime.v], [GoFlag.v], [GoFloat.v], [GoRat.v], [GoQuote.v]: the parts of
      Go's [strings], [strconv], [path/filepath], [encoding/json], [time],
      [flag] and [math/big] the sources call.  [Paths.v] has the lexical facts
      about [Clean], [Join], [Dir] and [Base] that the file-system proofs use.
    - [GoFiles.v]: the class [Files] of the system calls and [os] functions
      the sources use (their outcome may be any error), [filepath.Walk], and
      the class [LawfulFiles]: what a call that succeeds does to the tree of
      files, and that one that fails changes nothing outside what it was
      given.  [FilesLogic.v]: assertions about trees and the rules that carry
      them through a program.  [Disk.v]: a concrete file system that
      obeys every law, on which the examples run.
    - [Catalog.v] (Module [profiles]): [profiles/catalog.go].
    - [Config.v] (Module [config]): [internal/config/config.go].
    - [Control.v] (Module [control]): [internal/control/control.go],
      [process_memory.go], [env_runner.go] and the two client methods of
      [manager.go].  The class [OS] is the operating system: commands, file
      lock, environment, files.
    - [ProcessJson.v] (Module [payload]): a JSON reader, escapes included, of
      the process list that a command line carries.
    - [Pmon.v] (Module [pmon]): [internal/pmon/pmon.go].
    - [Observe.v] (Module [observe]): [internal/control/observe.go].  The class
      [NvidiaSmi] says what the three queries print for a node state [gpus];
      this repository's own [pmon] wrapper obeys it on nodes of compute
      processes only ([NvmlSpec.v] says what it prints on the others).
    - [Manager.v] (Module [manager]): [internal/control/manager.go].
    - [Node.v] (Module [node]): the class [NvmlMock] says what a [set] of the
      memory counters does to the node; the manager's operations against it;
      a concrete node ([Machine]) that obeys all the laws.
    - [ProcessNode.v] (Module [process_node]): the class [NvmlMockProcesses]
      says what a [set] of a process list does to the node, which the
      manager's replacement of processes is proved against.
    - [Locking.v] (Module [locking]): concurrent control processes as a step
      relation around the mutation lock.
    - [CudaEngine.v] (Module [cuda]): [internal/cuda/engine.go] over a record
      of backend operations; the class [AccountingBackend] is the contract
      the engine's theorems need.
    - [CudaBackend.v] (Module [cuda_backend]): [internal/cuda/backend.go]; an
      instance of that contract on every node that obeys [NvmlMock].

    - [LibCuda.v] (Module [libcuda]): the exported C functions of
      [src/cmd/libcuda] (the cgo bridge and [helpers.c]) over the engine.
    - [Render.v] (Module [render]): [internal/config/render.go].
    - [Scenario.v] (Module [scenario]): [internal/scenario/scenario.go] over
      an abstract executor, clock and event source.
    - [LlamaConfig.v] (Module [llama]), [LlamaRegistry.v] (Module [registry]),
      [LlamaServer.v] (Module [server]), [LlamaHTTP.v] (Module [http]):
      [config.go], [registry.go] and [server.go] (its lifecycle and its HTTP
      handlers) of [internal/fakellama].  The server is a function of the
      list of [Event]s that end its waits, in the order they happen: the
      cancellation, the HTTP server, its timers and the signal handler.  The
      class [LawfulRegistry] is what a registry promises to the server.
    - [LlamaMain.v] (Module [llama_main]): [src/cmd/fake-llama-server].
    - [ControlCLI.v] (Module [controlcli]): [internal/controlcli]; it ties the
      client, the manager and the scenario runner to command lines.  The class
      [Console] is what surrounds the process beside [OS]: its output, files
      it writes, decoded documents, timers.

    - [Bundle.v] (Module [bundle]): [internal/runtimebundle/bundle.go].
    - [Injection.v] (Module [injection]): [internal/injection/injection.go] and
      the commands of [cmd/fake-nvidia/injection.go]; [InjectionSafety.v]: what
      [Prepare] and [Down] do to the file system, on any [LawfulFiles].
    - [Kubernetes.v] (Module [kubernetes]): [cdi.go] and [manifest.go] of
      [internal/kubernetes]; [KubernetesSpec.v]: the CDI names as a grammar and
      what a CDI device exposes; [ManifestSpec.v]: a reader of the rendered
      manifest (documents and literal blocks of YAML).
    - [Installer.v] (Module [installer]): the node installer
      [cmd/fake-nvidia-k8s-installer]; [InstallerSpec.v]: what it stages,
      serves and withdraws.
    - [Upstream.v] (Module [upstream]): [internal/upstream/upstream.go].
    - [FakeNvidia.v] (Module [fake_nvidia]): the command [cmd/fake-nvidia] and
      the entry point of [cmd/fake-nvidia-ctl]; [FakeNvidiaSpec.v]: what its
      subcommands print; [UpDown.v]: [down] undoes [up].  Both run on a disk
      with a standard output ([Host]).
    - [NvmlPmon.v] (Module [nvmlpmon]): [internal/nvmlpmon] over the class
      [Native], the cgo functions it calls; [SmiWrapper.v] (Module
      [smi_wrapper]): [cmd/nvidia-smi-wrapper]; [NvmlSpec.v]: handles the
      collector opens and closes ([Accounted]) and what the wrapper prints when
      the library answers ([ServesNvml]).

    Definitions keep the Go names; a field or method whose name clashes with
    another of the same module has a short prefix or suffix ([p_ID],
    [Type_], [engine_Device]).  A pointer that may be nil is an [option], a
    function that returns an error is a [result], one that also runs commands
    is in the monad [M W] over the world [W], a [uint64] is a [Z] whose
    wrapping operations are written [⊕], [⊖], [⊗], and a Go map is a [gmap] or
    an association list when its order matters.

    ** Outside the sources

    [nvml-mock-ctl], [nvidia-smi] and the operating system are parameters
    (class [OS]); what the code relies on of them is the classes [NvidiaSmi]
    and [NvmlMock], with [Machine] as the concrete instance.  The laws are
    restricted to MiB-aligned memory counters, GPUs named by their decimal
    index and counters that fit the device.

    ** What the theorems show

    - Composition: [Compose] accepts exactly the specs that meet a contract
      stated without the code's validators (a grammar of versions, ranges in
      exact arithmetic, a real probability), and what it builds has exact memory accounting and distinct identities; the catalog
      loads only well-formed data.
    - Observation: the parsers invert the output formats, and everything
      reported is MiB-granular and bounded.
    - Control: exact accounting of reconciled updates, the three-way merge of
      process lists, and the effect of each memory operation on the node.
    - Concurrency: with the lock, linearizability, no lost reservation and
      progress; without it, a lost update.
    - CUDA: exact accounting over any run of allocations of sizes the backend
      accounts for exactly (whole MiB on the node; the part below a MiB of
      another size is lost, [unaligned_reservation_unobservable]), frees,
      resets and device switches, fault injection, and the same end to end on
      the node and through the exported C functions, with the host tokens they
      use.
    - Rendering: a version [M.m] of a specification is read back from the
      rendered configuration when [m] is at most 99, and refused otherwise.
    - The process payload of a command line is read back as the list that was
      encoded, every byte that is not UTF-8 as U+FFFD.
    - Scenarios: what is valid; what a run attempts and in which order, with
      its cleanup; which lines an event consumes.
    - The fake llama server: a registration over several GPUs is atomic,
      charges exactly the requested memory and is undone by its release; the
      process gives back whatever it took when it ends, unless a hanging
      shutdown's release is followed by the growth timer
      ([hang_shutdown_leaks]); [Run] returns; the server answers exactly while
      it is ready, from the end of the load to a release or the end of [Run],
      except that a release during the load is forgotten
      ([released_during_load_serves]); configurations are typed and sizes
      exact; the manager's device selection reaches the targets.
    - Injection: [Prepare] changes nothing outside the directory it may own,
      and when it succeeds the directory holds exactly the copy of the runtime,
      the configuration, the overrides it had and the marker; [Down] removes only a
      directory that carries the marker, and [fake-nvidia down] undoes
      [fake-nvidia up].
    - Kubernetes: CDI names are accepted exactly by their grammar; a CDI
      device exposes only the device nodes, mounts and environment of the fake
      runtime; the rendered manifest, read back as YAML, carries the
      configuration, and installer arguments that the installer reads as the
      requested devices and CDI kind (for an image name of one line); both ways of selecting GPUs give the
      same output.
    - The installer stages what the CDI specification refers to before it
      installs the specification, never touches a specification it does not
      own, and withdraws its own when it is told to stop.
    - The NVML collector closes what it opens and shuts down what it
      initialised, on every path; the wrapper of [nvidia-smi] prints the table
      that the observer parses, every process as a compute process.
    - Command lines: sizes and process edits are parsed exactly, and memory
      commands, alone or in a scenario, refine one abstract step on the
      node's GPUs.

    ** Bounds and fuel

    Decimal formatting uses the bit length of the number as fuel, which
    [fuel_for_enough] shows is enough.  The duration scanner uses the length
    of its text, enough by [pairs_fuel] because every pair consumes a byte.
    The shortest digits of a float are searched up to seventeen, which always
    identify a binary64.  Loops that wait take a list of events or turns
    and return [None] when it is exhausted; [Run_terminates] gives the events
    after which [Run] has returned.  The retries of a release are as many as
    its timer fires before the deadline ([ticks]).

    [filepath.Walk] descends at most [max_depth] directories, the depth at
    which a path no longer fits what the system accepts: a deeper directory
    cannot be listed.

    ** Not modelled

    The decoder of [encoding/json] and of YAML (their outcome is a parameter
    of the loaders), the usage text of [flag], the HTTP library and its
    shutdown, and the code behind [dlopen] and cgo: the functions of the NVML
    library and the loader are operations of [Native], and the pointers that
    callers give the shim are flags that they are not NULL.  The two
    [doc.go] files of the tests hold no code, and neither does the empty [main]
    of [cmd/libcuda]. *)

From stdpp Require Export base tactics list gmap strings.
From Stdlib Require Export ZArith Lia Ascii.

#[global] Open Scope string_scope.
#[global] Open Scope list_scope.
#[global] Open Scope Z_scope.
#[global] Set Default Goal Selector "!".

(** ** Go errors

    An error value keeps the format string of the source verbatim and the
    formatted operands as data.  [Sentinel] is a package-level
    [errors.New] variable compared by identity with [errors.Is];
    [Wrapf] is a [fmt.Errorf] with a [%w] verb (the wrapped error is
    [inner]); [Joined] is the value built by [errors.Join]. *)
Inductive error :=
  | Sentinel (name : string)
  | Errorf (format : string) (args : list arg)
  | Wrapf (format : string) (args : list arg) (inner : error)
  | Joined (e1 e2 : error)
with arg :=
  | AZ (z : Z)
  | AS (s : string)
  | AE (e : error).

(** [errors.Is(e, target)] for a sentinel target. *)
Fixpoint errors_Is (e : error) (target : string) : bool :=
  match e with
  | Sentinel n => String.eqb n target
  | Errorf _ _ => false
  | Wrapf _ _ inner => errors_Is inner target
  | Joined e1 e2 => errors_Is e1 target || errors_Is e2 target
  end.

(** [errors.Join(a, b)]: nil operands are dropped. *)
Definition errors_Join (a b : option error) : option error :=
  match a, b with
  | None, x | x, None => x
  | Some e1, Some e2 => Some (Joined e1 e2)
  end.

(** ** Results: a Go [(A, error)] pair whose value is unused on error *)
Inductive result (A : Type) :=
  | Ok (a : A)
  | Err (e : error).
Arguments Ok {A} a.
Arguments Err {A} e.

#[export] Instance result_ret : MRet result := @Ok.
#[export] Instance result_bind : MBind result := fun A B f m =>
  match m with Ok a => f a | Err e => Err e end.

(** [fmt.Errorf("...: %w", err)] applied to the error of a call. *)
Definition wrap_err {A} (f : error -> error) (m : result A) : result A :=
  match m with Ok a => Ok a | Err e => Err (f e) end.

Definition is_ok {A} (m : result A) : bool :=
  match m with Ok _ => true | Err _ => false end.

Lemma result_bind_ok {A B} (m : result A) (f : A -> result B) b :
  (m ≫= f) = Ok b <-> exists a, m = Ok a /\ f a = Ok b.
Proof.
  destruct m; cbn; split; [eauto | | discriminate | ].
  - by intros (a' & [= <-] & ?).
  - by intros (? & [=] & ?).
Qed.

(** A step of which only the success matters. *)
Lemma result_seq_ok {B} (m : result unit) (n : result B) b :
  (_ ← m; n) = Ok b <-> m = Ok tt /\ n = Ok b.
Proof. rewrite result_bind_ok. split; [by intros ([] & ? & ?) | by intros [? ?]; exists tt]. Qed.

Lemma wrap_err_ok {A} f (m : result A) a : wrap_err f m = Ok a <-> m = Ok a.
Proof. destruct m; cbn; split; congruence. Qed.

Lemma is_ok_true {A} (m : result A) : is_ok m = true <-> exists a, m = Ok a.
Proof. destruct m; cbn; split; eauto; [discriminate | by intros [? [=]]]. Qed.

(** ** State and errors: code that runs against a world [W]

    A Go function that performs effects and returns an error: the world is
    threaded, and the effects performed before an error are kept. *)
Definition M (W A : Type) : Type := W -> result A * W.

#[export] Instance M_ret W : MRet (M W) := fun A a w => (Ok a, w).
#[export] Instance M_bind W : MBind (M W) := fun A B f m w =>
  match m w with
  | (Ok a, w') => f a w'
  | (Err e, w') => (Err e, w')
  end.

Definition throw {W A} (e : error) : M W A := fun w => (Err e, w).
Definition lift {W A} (r : result A) : M W A := fun w => (r, w).
Definition wrapM {W A} (f : error -> error) (m : M W A) : M W A := fun w =>
  let '(r, w') := m w in (wrap_err f r, w').

Lemma M_bind_ok {W A B} (m : M W A) (f : A -> M W B) w a w' :
  m w = (Ok a, w') -> (m ≫= f) w = f a w'.
Proof. intros H. unfold mbind, M_bind. by rewrite H. Qed.

Lemma M_bind_err {W A B} (m : M W A) (f : A -> M W B) w e w' :
  m w = (Err e, w') -> (m ≫= f) w = (Err e, w').
Proof. intros H. unfold mbind, M_bind. by rewrite H. Qed.

Lemma M_bind_inv {W A B} (m : M W A) (f : A -> M W B) w b w' :
  (m ≫= f) w = (Ok b, w') -> exists a w1, m w = (Ok a, w1) /\ f a w1 = (Ok b, w').
Proof.
  unfold mbind, M_bind. destruct (m w) as [[a | e] w1]; [eauto | discriminate].
Qed.

Lemma lift_bind_ok {W A B} (r : result A) (f : A -> M W B) w a :
  r = Ok a -> (lift r ≫= f) w = f a w.
Proof. by intros ->. Qed.

Lemma lift_bind_err {W A B} (r : result A) (f : A -> M W B) w e :
  r = Err e -> (lift r ≫= f) w = (Err e, w).
Proof. by intros ->. Qed.

(** ** 64-bit unsigned integers

    A [uint64] is a [Z]; the operations that can wrap around are written
    with [wrap64]. *)
Definition u64_max : Z := 18446744073709551615.
Definition u32_max : Z := 4294967295.
Definition wrap64 (z : Z) : Z := z mod 18446744073709551616.
Definition u64 (z : Z) : Prop := 0 <= z <= u64_max.
Definition u32 (z : Z) : Prop := 0 <= z <= u32_max.

#[export] Instance u64_dec z : Decision (u64 z).
Proof. unfold u64. apply _. Defined.
#[export] Instance u32_dec z : Decision (u32 z).
Proof. unfold u32. apply _. Defined.

Declare Scope u64_scope.
Delimit Scope u64_scope with u64.
Notation "a ⊕ b" := (wrap64 (a + b)) (at level 50, left associativity) : u64_scope.
Notation "a ⊖ b" := (wrap64 (a - b)) (at level 50, left associativity) : u64_scope.
Notation "a ⊗ b" := (wrap64 (a * b)) (at level 40, left associativity) : u64_scope.
#[global] Open Scope u64_scope.

(** One mebibyte, the constant [mib] the packages share. *)
Definition mib : Z := 1048576.

Lemma wrap64_small z : u64 z -> wrap64 z = z.
Proof. unfold u64, wrap64, u64_max. intros. apply Z.mod_small. lia. Qed.

Lemma wrap64_u64 z : u64 (wrap64 z).
Proof.
  unfold u64, wrap64, u64_max.
  pose proof (Z.mod_pos_bound z 18446744073709551616). lia.
Qed.

(** Arithmetic over machine words: unfold the ranges, then [lia]. *)
Ltac word :=
  unfold u64, u32, u64_max, u32_max, mib in *; lia.
Ltac word_nia :=
  unfold u64, u32, u64_max, u32_max, mib in *; nia.

(** Drop every [wrap64] whose operand is in range. *)
Ltac unwrap64 :=
  repeat match goal with
  | |- context [wrap64 ?z] => rewrite (wrap64_small z) by word
  | H : context [wrap64 ?z] |- _ => rewrite (wrap64_small z) in H by word
  end.

(** ** Boolean guards to propositions *)
Create Rewrite HintDb guards.
#[export] Hint Rewrite Z.ltb_lt Z.ltb_ge Z.leb_le Z.leb_gt Z.gtb_lt Z.geb_le
  Z.eqb_eq Z.eqb_neq String.eqb_eq String.eqb_neq
  Nat.ltb_lt Nat.ltb_ge Nat.leb_le Nat.leb_gt Nat.eqb_eq Nat.eqb_neq
  orb_true_iff orb_false_iff andb_true_iff andb_false_iff
  negb_true_iff negb_false_iff bool_decide_eq_true bool_decide_eq_false
  : guards.

Lemma gtb_false a b : (a >? b) = false <-> a <= b.
Proof. rewrite Z.gtb_ltb. apply Z.ltb_ge. Qed.
Lemma geb_false a b : (a >=? b) = false <-> a < b.
Proof. rewrite Z.geb_leb. apply Z.leb_gt. Qed.
#[export] Hint Rewrite gtb_false geb_false : guards.

Ltac to_prop := autorewrite with guards in *.

(** Take one [if] of the goal, or of a hypothesis, apart. *)
Ltac guard_step :=
  match goal with
  | |- context [if ?b then _ else _] =>
      lazymatch type of b with bool => destruct b eqn:? end
  | H : context [if ?b then _ else _] |- _ =>
      lazymatch type of b with bool => destruct b eqn:? end
  end.
Ltac guards := repeat (guard_step; try discriminate); to_prop.

(** Take a guard of a hypothesis equating a computation with [Ok]. *)
Ltac invert_ok H :=
  repeat match type of H with
  | (if ?b then Err _ else _) = Ok _ => destruct b eqn:?; [discriminate H |]
  | (_ ≫= _) = Ok _ =>
      let Hx := fresh "Hstep" in
      apply result_bind_ok in H as (? & Hx & H)
  | wrap_err _ _ = Ok _ => apply wrap_err_ok in H
  end;
  repeat match goal with u : unit |- _ => destruct u end.

(** ** Lists *)
Fixpoint sumZ {A} (f : A -> Z) (l : list A) : Z :=
  match l with
  | [] => 0
  | a :: r => f a + sumZ f r
  end.

Lemma sumZ_app {A} (f : A -> Z) l k : sumZ f (l ++ k) = sumZ f l + sumZ f k.
Proof. induction l as [| a l IH]; cbn; [done | rewrite IH; lia]. Qed.

Lemma sumZ_nonneg {A} (f : A -> Z) l : Forall (fun a => 0 <= f a) l -> 0 <= sumZ f l.
Proof. induction 1; cbn; lia. Qed.

Lemma sumZ_perm {A} (f : A -> Z) l k : l ≡ₚ k -> sumZ f l = sumZ f k.
Proof. induction 1; cbn; lia. Qed.

#[export] Instance sumZ_Proper {A} (f : A -> Z) : Proper ((≡ₚ) ==> eq) (sumZ f).
Proof. intros l k H. by apply sumZ_perm. Qed.

Lemma sumZ_filter_split {A} (f : A -> Z) (P : A -> Prop) `{!∀ x, Decision (P x)} l :
  sumZ f l = sumZ f (filter P l) + sumZ f (filter (fun x => ~ P x) l).
Proof.
  induction l as [| a l IH]; [done |].
  rewrite !filter_cons. case_decide; case_decide; cbn; try tauto; lia.
Qed.

(** The first element of a Go slice that satisfies a boolean test, as a
    [for ... range] loop that returns from its body finds it. *)
Fixpoint find_first {A} (p : A -> bool) (l : list A) : option A :=
  match l with
  | [] => None
  | a :: r => if p a then Some a else find_first p r
  end.

Lemma find_first_some {A} (p : A -> bool) l a :
  find_first p l = Some a -> a ∈ l /\ p a = true.
Proof.
  induction l as [| b l IH]; cbn; [discriminate |].
  destruct (p b) eqn:E; [intros [= ->]; split; [left | done] |].
  intros H. destruct (IH H). split; [by right | done].
Qed.

Lemma find_first_none {A} (p : A -> bool) l :
  find_first p l = None <-> forall a, a ∈ l -> p a = false.
Proof.
  induction l as [| b l IH]; cbn.
  - split; [by intros _ a ?%elem_of_nil | done].
  - destruct (p b) eqn:E; split.
    + discriminate.
    + intros H. specialize (H b). rewrite E in H. ospecialize (H _); [left | done].
    + intros H a [-> | Ha]%elem_of_cons; [done |]. by apply IH.
    + intros H. apply IH. intros a Ha. apply H. by right.
Qed.

(** A loop over a slice that returns the first error of its body. *)
Fixpoint foldM {A S} (f : S -> A -> result S) (l : list A) (s : S) : result S :=
  match l with
  | [] => Ok s
  | a :: r => s' ← f s a; foldM f r s'
  end.

Lemma foldM_inv {A S} (f : S -> A -> result S) (I : list A -> S -> Prop) l s s' :
  I [] s ->
  (forall done a s1 s2, I done s1 -> f s1 a = Ok s2 -> I (done ++ [a]) s2) ->
  foldM f l s = Ok s' -> I l s'.
Proof.
  intros H0 Hstep.
  assert (forall done, I done s -> foldM f l s = Ok s' -> I (done ++ l) s') as Hgen.
  { clear H0. revert s. induction l as [| a l IH]; intros s done Hd; cbn.
    - intros [= <-]. by rewrite app_nil_r.
    - intros (s1 & Hf & Hl)%result_bind_ok.
      replace (done ++ a :: l) with ((done ++ [a]) ++ l) by by rewrite <- app_assoc.
      eapply IH; eauto. }
  by apply (Hgen []).
Qed.

(** [for i, x := range l { if err := f(i, x); err != nil { return err } }] *)
Fixpoint for_each {A} (f : Z -> A -> result unit) (i : Z) (l : list A) : result unit :=
  match l with
  | [] => Ok tt
  | a :: r => _ ← f i a; for_each f (i + 1) r
  end.

(** The same loop when its body appends one value to the output slice. *)
Fixpoint map_each {A B} (f : Z -> A -> result B) (i : Z) (l : list A) : result (list B) :=
  match l with
  | [] => Ok []
  | a :: r => b ← f i a; bs ← map_each f (i + 1) r; Ok (b :: bs)
  end.

Lemma for_each_ok {A} (f : Z -> A -> result unit) i l :
  for_each f i l = Ok tt <->
  forall k a, l !! k = Some a -> f (i + Z.of_nat k) a = Ok tt.
Proof.
  revert i. induction l as [| a l IH]; intros i; cbn [for_each].
  - split; [by intros _ k a ? | done].
  - rewrite result_bind_ok. split.
    + intros ([] & Ha & Hl) [| k] b Hk; cbn in Hk.
      * simplify_eq. by rewrite Z.add_0_r.
      * rewrite IH in Hl. specialize (Hl k b Hk). by replace (i + Z.of_nat (S k)) with (i + 1 + Z.of_nat k) by lia.
    + intros H. exists tt. split.
      * specialize (H 0%nat a eq_refl). by rewrite Z.add_0_r in H.
      * apply IH. intros k b Hk. specialize (H (S k) b Hk).
        by replace (i + 1 + Z.of_nat k) with (i + Z.of_nat (S k)) by lia.
Qed.

Lemma map_each_ok {A B} (f : Z -> A -> result B) i l bs :
  map_each f i l = Ok bs <->
  length bs = length l /\
  forall k a, l !! k = Some a -> exists b, bs !! k = Some b /\ f (i + Z.of_nat k) a = Ok b.
Proof.
  revert i bs. induction l as [| a l IH]; intros i bs; cbn [map_each].
  - split.
    + intros [= <-]. split; [done | by intros k a ?].
    + intros [Hlen _]. by destruct bs.
  - rewrite result_bind_ok. setoid_rewrite result_bind_ok. split.
    + intros (b & Hb & bs' & Hbs & [= <-]). apply IH in Hbs as [Hlen Hall].
      split; [cbn; by rewrite Hlen |]. intros [| k] c Hk; cbn in Hk.
      * simplify_eq. exists b. by rewrite Z.add_0_r.
      * destruct (Hall k c Hk) as (b' & ? & ?). exists b'.
        by replace (i + Z.of_nat (S k)) with (i + 1 + Z.of_nat k) by lia.
    + intros [Hlen Hall]. destruct bs as [| b bs]; [done |].
      destruct (Hall 0%nat a eq_refl) as (b' & Hb' & Hf). cbn in Hb'. simplify_eq.
      rewrite Z.add_0_r in Hf. exists b'. split; [done |]. exists bs. split; [| done].
      apply IH. split; [cbn in Hlen; lia |]. intros k c Hk.
      destruct (Hall (S k) c Hk) as (b & ? & ?). exists b.
      by replace (i + 1 + Z.of_nat k) with (i + Z.of_nat (S k)) by lia.
Qed.

Lemma map_each_length {A B} (f : Z -> A -> result B) i l bs :
  map_each f i l = Ok bs -> length bs = length l.
Proof. by intros [? _]%map_each_ok. Qed.

(** The loop succeeds exactly when its body does on every element. *)
Lemma map_each_total {A B} (f : Z -> A -> result B) i l :
  (forall k a, l !! k = Some a -> exists b, f (i + Z.of_nat k) a = Ok b) ->
  exists bs, map_each f i l = Ok bs.
Proof.
  revert i. induction l as [| a l IH]; intros i H; cbn [map_each]; [eauto |].
  destruct (H 0%nat a eq_refl) as (b & Hb). rewrite Z.add_0_r in Hb.
  destruct (IH (i + 1)) as (bs & Hbs).
  - intros k c Hk. destruct (H (S k) c Hk) as (b' & Hb'). exists b'.
    by replace (i + 1 + Z.of_nat k) with (i + Z.of_nat (S k)) by lia.
  - exists (b :: bs). by rewrite Hb, Hbs.
Qed.

(** Elements of a list with pairwise distinct keys are equal when their keys are. *)
Lemma NoDup_map_inj {A B} (f : A -> B) l x y :
  NoDup (map f l) -> x ∈ l -> y ∈ l -> f x = f y -> x = y.
Proof.
  intros Hnd [i Hi]%list_elem_of_lookup [j Hj]%list_elem_of_lookup E.
  assert (i = j) as ->; [| congruence].
  apply (NoDup_lookup (map f l) i j (f x)); [done | |];
    rewrite list_lookup_fmap; [by rewrite Hi | rewrite Hj; cbn; by rewrite E].
Qed.
