(* ===== verification/GoStrings.v ===== *)
(** * Go's [strings] package: the functions the sources call

    A Go string is a byte string, a Rocq [string].  White space is Go's
    [unicode.IsSpace]: the six ASCII characters and the UTF-8 encodings of
    the two- and three-byte space runes.  No encoding of a space occurs
    inside another rune, so a scan over bytes decides as Go's scan over
    runes does. *)
From S2P Require Import Prelude.

(** ** Bytes *)
Definition byte_val (c : ascii) : Z := Z.of_N (N_of_ascii c).
Definition byte_of (z : Z) : ascii := ascii_of_N (Z.to_N z).
Definition char_eqb (a b : ascii) : bool := Ascii.eqb a b.
Definition in_range (lo c hi : Z) : bool := (lo <=? c) && (c <=? hi).

Definition newline : ascii := byte_of 10.
Definition dquote : ascii := byte_of 34.

Notation "c ::: s" := (String c s) (at level 60, right associativity).
Definition chr (c : ascii) : string := String c EmptyString.

Fixpoint slen (s : string) : Z :=
  match s with EmptyString => 0 | _ ::: r => 1 + slen r end.

Fixpoint srev_app (s acc : string) : string :=
  match s with EmptyString => acc | c ::: r => srev_app r (c ::: acc) end.
Definition srev (s : string) : string := srev_app s EmptyString.

(** ** White space *)
Definition is_space1 (c : ascii) : bool :=
  let v := byte_val c in in_range 9 v 13 || (v =? 32).

(** U+0085 and U+00A0. *)
Definition is_space2 (c1 c2 : ascii) : bool :=
  (byte_val c1 =? 0xC2) && ((byte_val c2 =? 0x85) || (byte_val c2 =? 0xA0)).

(** U+1680, U+2000..U+200A, U+2028, U+2029, U+202F, U+205F, U+3000. *)
Definition is_space3 (c1 c2 c3 : ascii) : bool :=
  let a := byte_val c1 in let b := byte_val c2 in let c := byte_val c3 in
  ((a =? 0xE1) && (b =? 0x9A) && (c =? 0x80)) ||
  ((a =? 0xE2) && (b =? 0x80) &&
     (in_range 0x80 c 0x8A || (c =? 0xA8) || (c =? 0xA9) || (c =? 0xAF))) ||
  ((a =? 0xE2) && (b =? 0x81) && (c =? 0x9F)) ||
  ((a =? 0xE3) && (b =? 0x80) && (c =? 0x80)).

(** Drop the leading spaces, for a given encoding of the space runes. *)
Fixpoint drop_spaces (sp2 : ascii -> ascii -> bool)
    (sp3 : ascii -> ascii -> ascii -> bool) (s : string) : string :=
  match s with
  | EmptyString => s
  | c1 ::: r1 =>
      if is_space1 c1 then drop_spaces sp2 sp3 r1 else
      match r1 with
      | EmptyString => s
      | c2 ::: r2 =>
          if sp2 c1 c2 then drop_spaces sp2 sp3 r2 else
          match r2 with
          | EmptyString => s
          | c3 ::: r3 => if sp3 c1 c2 c3 then drop_spaces sp2 sp3 r3 else s
          end
      end
  end.

Definition TrimSpaceLeft (s : string) : string := drop_spaces is_space2 is_space3 s.
Definition TrimSpaceRight (s : string) : string :=
  srev (drop_spaces (fun a b => is_space2 b a) (fun a b c => is_space3 c b a) (srev s)).

(** [strings.TrimSpace]. *)
Definition TrimSpace (s : string) : string := TrimSpaceRight (TrimSpaceLeft s).

(** [strings.Fields]: the maximal runs of non-space characters; [cur] is
    the run being read. *)
Definition flush (cur : string) (rest : list string) : list string :=
  match cur with EmptyString => rest | _ => cur :: rest end.

Fixpoint fields_from (s cur : string) : list string :=
  match s with
  | EmptyString => flush cur []
  | c1 ::: r1 =>
      if is_space1 c1 then flush cur (fields_from r1 EmptyString) else
      match r1 with
      | EmptyString => flush (cur +:+ chr c1) []
      | c2 ::: r2 =>
          if is_space2 c1 c2 then flush cur (fields_from r2 EmptyString) else
          match r2 with
          | c3 ::: r3 =>
              if is_space3 c1 c2 c3 then flush cur (fields_from r3 EmptyString)
              else fields_from r1 (cur +:+ chr c1)
          | EmptyString => fields_from r1 (cur +:+ chr c1)
          end
      end
  end.
Definition Fields (s : string) : list string := fields_from s EmptyString.

(** [strings.FieldsFunc] for a test on ASCII bytes. *)
Fixpoint fields_func_from (p : ascii -> bool) (s cur : string) : list string :=
  match s with
  | EmptyString => flush cur []
  | c ::: r =>
      if p c then flush cur (fields_func_from p r EmptyString)
      else fields_func_from p r (cur +:+ chr c)
  end.
Definition FieldsFunc (s : string) (p : ascii -> bool) : list string :=
  fields_func_from p s EmptyString.

(** ** Separators, prefixes, suffixes *)

(** [strings.Split] for a one-byte separator. *)
Fixpoint Split (s : string) (sep : ascii) : list string :=
  match s with
  | EmptyString => [EmptyString]
  | c ::: r =>
      if char_eqb c sep then EmptyString :: Split r sep
      else match Split r sep with
           | x :: xs => (c ::: x) :: xs
           | [] => [chr c]
           end
  end.

(** [strings.Join]. *)
Definition Join (l : list string) (sep : string) : string := String.concat sep l.

(** [strings.Cut] for a one-byte separator. *)
Fixpoint Cut (s : string) (sep : ascii) : option (string * string) :=
  match s with
  | EmptyString => None
  | c ::: r =>
      if char_eqb c sep then Some (EmptyString, r)
      else match Cut r sep with
           | Some (a, b) => Some (c ::: a, b)
           | None => None
           end
  end.

Definition HasPrefix (s pre : string) : bool := String.prefix pre s.
Definition HasSuffix (s suf : string) : bool := String.prefix (srev suf) (srev s).

Fixpoint drop_bytes (n : nat) (s : string) : string :=
  match n, s with
  | O, _ => s
  | S n', _ ::: r => drop_bytes n' r
  | S _, EmptyString => EmptyString
  end.

Definition TrimPrefix (s pre : string) : string :=
  if HasPrefix s pre then drop_bytes (String.length pre) s else s.
Definition TrimSuffix (s suf : string) : string :=
  if HasSuffix s suf then srev (drop_bytes (String.length suf) (srev s)) else s.

(** [strings.TrimLeft(s, cutset)] and [strings.Trim] for a one-byte cutset. *)
Fixpoint TrimLeft (s : string) (c : ascii) : string :=
  match s with
  | EmptyString => s
  | a ::: r => if char_eqb a c then TrimLeft r c else s
  end.
Definition Trim (s : string) (c : ascii) : string :=
  srev (TrimLeft (srev (TrimLeft s c)) c).

(** ** Character classes used in statements *)
Fixpoint sforall (p : ascii -> bool) (s : string) : bool :=
  match s with EmptyString => true | c ::: r => p c && sforall p r end.

(** An ASCII byte that is not white space. *)
Definition graph (c : ascii) : bool := in_range 33 (byte_val c) 126.
Definition is_digit (c : ascii) : bool := in_range 48 (byte_val c) 57.
(** [sep] does not occur in [s]. *)
Definition free_of (sep : ascii) (s : string) : bool :=
  sforall (fun c => negb (char_eqb c sep)) s.

(** ** Lemmas *)
Lemma char_eqb_eq a b : char_eqb a b = true <-> a = b.
Proof. apply Ascii.eqb_eq. Qed.
Lemma char_eqb_neq a b : char_eqb a b = false <-> a <> b.
Proof. apply Ascii.eqb_neq. Qed.
Lemma char_eqb_refl a : char_eqb a a = true.
Proof. apply Ascii.eqb_refl. Qed.
#[export] Hint Rewrite char_eqb_eq char_eqb_neq : guards.

Lemma byte_val_bounds c : 0 <= byte_val c < 256.
Proof.
  unfold byte_val. pose proof (N_ascii_bounded c). lia.
Qed.

Lemma byte_val_of z : 0 <= z < 256 -> byte_val (byte_of z) = z.
Proof.
  intros. unfold byte_val, byte_of. rewrite N_ascii_embedding; lia.
Qed.

Lemma byte_of_val c : byte_of (byte_val c) = c.
Proof. unfold byte_of, byte_val. rewrite N2Z.id. apply ascii_N_embedding. Qed.

Lemma append_nil_r s : s +:+ EmptyString = s.
Proof. induction s as [| c s IH]; [done |]. change ((c ::: s) +:+ "") with (c ::: (s +:+ "")). by rewrite IH. Qed.

Lemma append_cons c s t : (c ::: s) +:+ t = c ::: (s +:+ t).
Proof. done. Qed.

Lemma append_assoc s t u : (s +:+ t) +:+ u = s +:+ (t +:+ u).
Proof. induction s as [| c s IH]; [done |]. rewrite !append_cons. by rewrite IH. Qed.

Lemma srev_app_spec s acc : srev_app s acc = srev s +:+ acc.
Proof.
  unfold srev. revert acc. induction s as [| c s IH]; intros acc; [done |]. cbn.
  rewrite IH, (IH (c ::: "")), append_assoc. done.
Qed.

Lemma srev_cons c s : srev (c ::: s) = srev s +:+ chr c.
Proof. unfold srev at 1. cbn. by rewrite srev_app_spec. Qed.

Lemma srev_append s t : srev (s +:+ t) = srev t +:+ srev s.
Proof.
  induction s as [| c s IH].
  - change ("" +:+ t) with t. change (srev "") with "". by rewrite append_nil_r.
  - rewrite append_cons, !srev_cons, IH. by rewrite append_assoc.
Qed.

Lemma srev_involutive s : srev (srev s) = s.
Proof.
  induction s as [| c s IH]; [done |]. rewrite srev_cons, srev_append, IH. done.
Qed.

Lemma sforall_append p s t : sforall p (s +:+ t) = sforall p s && sforall p t.
Proof.
  induction s as [| c s IH]; [done |]. rewrite append_cons. cbn. rewrite IH.
  by rewrite andb_assoc.
Qed.

Lemma sforall_impl (p q : ascii -> bool) s :
  (forall c, p c = true -> q c = true) -> sforall p s = true -> sforall q s = true.
Proof.
  intros Hpq. induction s as [| c s IH]; [done |]. cbn.
  intros [? ?]%andb_true_iff. rewrite Hpq, IH; done.
Qed.

Lemma srev_sforall p s : sforall p (srev s) = sforall p s.
Proof.
  induction s as [| c s IH]; [done |]. rewrite srev_cons, sforall_append, IH. cbn.
  rewrite andb_true_r. apply andb_comm.
Qed.

(** *** Spaces *)
Lemma graph_not_space c : graph c = true -> is_space1 c = false.
Proof.
  unfold graph, is_space1, in_range. intros.
  destruct (9 <=? byte_val c) eqn:?, (byte_val c <=? 13) eqn:?,
    (byte_val c =? 32) eqn:?; cbn; to_prop; try done; lia.
Qed.

Lemma space2_lead c1 c2 : is_space2 c1 c2 = true -> 128 <= byte_val c1 /\ 128 <= byte_val c2.
Proof. unfold is_space2. intros. to_prop. lia. Qed.

Lemma space3_lead c1 c2 c3 : is_space3 c1 c2 c3 = true ->
  128 <= byte_val c1 /\ 128 <= byte_val c2 /\ 128 <= byte_val c3.
Proof. unfold is_space3, in_range. intros. to_prop. lia. Qed.

Lemma graph_bound c : graph c = true -> byte_val c < 128.
Proof. unfold graph, in_range. intros. to_prop. lia. Qed.

Lemma drop_spaces_graph sp2 sp3 c s :
  graph c = true ->
  (forall a b, sp2 a b = true -> 128 <= byte_val a) ->
  (forall a b d, sp3 a b d = true -> 128 <= byte_val a) ->
  drop_spaces sp2 sp3 (c ::: s) = c ::: s.
Proof.
  intros Hc H2 H3. pose proof (graph_bound c Hc) as Hb. cbn.
  rewrite (graph_not_space c Hc).
  destruct s as [| c2 s]; [done |].
  destruct (sp2 c c2) eqn:E2; [apply H2 in E2; lia |].
  destruct s as [| c3 s]; [done |].
  destruct (sp3 c c2 c3) eqn:E3; [apply H3 in E3; lia | done].
Qed.

Lemma TrimSpaceLeft_graph c s : graph c = true -> TrimSpaceLeft (c ::: s) = c ::: s.
Proof.
  intros. apply drop_spaces_graph; [done | |].
  - intros a b E. apply space2_lead in E; lia.
  - intros a b d E. apply space3_lead in E; lia.
Qed.

Lemma TrimSpaceRight_graph s c : graph c = true -> TrimSpaceRight (s +:+ chr c) = s +:+ chr c.
Proof.
  intros. unfold TrimSpaceRight. rewrite srev_append. change (srev (chr c)) with (chr c).
  change (chr c +:+ srev s) with (c ::: srev s). rewrite drop_spaces_graph; [| done | |].
  - rewrite srev_cons, srev_involutive. done.
  - intros a b E. apply space2_lead in E; lia.
  - intros a b d E. apply space3_lead in E; lia.
Qed.

(** A string whose first and last bytes are graphic is not changed. *)
Lemma TrimSpace_graph_ends c s d t :
  graph c = true -> graph d = true -> c ::: s = t +:+ chr d ->
  TrimSpace (c ::: s) = c ::: s.
Proof.
  intros Hc Hd E. unfold TrimSpace. rewrite (TrimSpaceLeft_graph _ _ Hc), E.
  by apply TrimSpaceRight_graph.
Qed.

Lemma TrimSpace_space s : TrimSpace (" " +:+ s) = TrimSpace s.
Proof. done. Qed.

Lemma string_snoc s : s = EmptyString \/ exists t d, s = t +:+ chr d.
Proof.
  induction s as [| c s [-> | (t & d & ->)]]; [by left | | ]; right.
  - by exists "", c.
  - by exists (c ::: t), d.
Qed.

Lemma TrimSpace_graph s : sforall graph s = true -> TrimSpace s = s.
Proof.
  intros H. destruct s as [| c s]; [done |].
  destruct (string_snoc (c ::: s)) as [? | (t & d & E)]; [done |].
  pose proof H as H'. rewrite E, sforall_append in H'. cbn in H, H'.
  eapply TrimSpace_graph_ends; [| | exact E]; to_prop; tauto.
Qed.

(** *** Splitting *)
Lemma Split_nonempty s sep : Split s sep <> [].
Proof.
  destruct s as [| c s]; cbn; [done |].
  destruct (char_eqb c sep); [done |]. by destruct (Split s sep).
Qed.

Lemma Split_free s sep : free_of sep s = true -> Split s sep = [s].
Proof.
  induction s as [| c s IH]; cbn; [done |].
  intros [Hc Hs]%andb_true_iff. apply negb_true_iff in Hc. rewrite Hc.
  by rewrite (IH Hs).
Qed.

Lemma Split_app s t sep :
  free_of sep s = true -> Split (s +:+ (sep ::: t)) sep = s :: Split t sep.
Proof.
  induction s as [| c s IH]; cbn [free_of sforall].
  - intros _. change ("" +:+ (sep ::: t)) with (sep ::: t). cbn [Split].
    by rewrite char_eqb_refl.
  - intros [Hc Hs]%andb_true_iff. apply negb_true_iff in Hc.
    rewrite append_cons. cbn [Split]. rewrite Hc. by rewrite (IH Hs).
Qed.

(** *** Fields *)
Lemma fields_from_space s cur :
  fields_from (" " +:+ s) cur = flush cur (fields_from s EmptyString).
Proof. done. Qed.

Lemma fields_from_graph c s cur :
  graph c = true -> fields_from (c ::: s) cur = fields_from s (cur +:+ chr c).
Proof.
  intros Hc. pose proof (graph_bound c Hc) as Hb. cbn.
  rewrite (graph_not_space c Hc).
  destruct s as [| c2 s]; [done |].
  destruct (is_space2 c c2) eqn:E2; [apply space2_lead in E2; lia |].
  destruct s as [| c3 s]; [done |].
  destruct (is_space3 c c2 c3) eqn:E3; [apply space3_lead in E3; lia | done].
Qed.

Lemma fields_from_word w s cur :
  sforall graph w = true -> fields_from (w +:+ s) cur = fields_from s (cur +:+ w).
Proof.
  revert cur. induction w as [| c w IH]; intros cur.
  - intros _. by rewrite append_nil_r.
  - cbn [sforall]. intros [Hc Hw]%andb_true_iff. rewrite append_cons.
    rewrite fields_from_graph, IH by done. by rewrite append_assoc.
Qed.

Lemma Fields_word w s :
  w <> EmptyString -> sforall graph w = true ->
  Fields (w +:+ (" " +:+ s)) = w :: Fields s.
Proof.
  intros Hne Hw. unfold Fields. rewrite (fields_from_word w _ _ Hw), fields_from_space.
  change ("" +:+ w) with w. by destruct w.
Qed.

Fixpoint spaces (n : nat) : string :=
  match n with O => EmptyString | S k => " " +:+ spaces k end.

Lemma Fields_spaces n s : Fields (spaces n +:+ s) = Fields s.
Proof.
  induction n as [| n IH]; [done |]. cbn [spaces]. rewrite append_assoc.
  unfold Fields at 1. rewrite fields_from_space. exact IH.
Qed.

(** *** Strings whose first and last bytes are graphic *)
Definition first_graph (s : string) : bool :=
  match s with c ::: _ => graph c | EmptyString => false end.
Definition edged (s : string) : bool := first_graph s && first_graph (srev s).

Lemma edged_nonempty s : edged s = true -> s <> EmptyString.
Proof. by destruct s. Qed.

Lemma edged_TrimSpace s : edged s = true -> TrimSpace s = s.
Proof.
  unfold edged. intros [H1 H2]%andb_true_iff. destruct s as [| c s]; [done |].
  destruct (string_snoc (c ::: s)) as [? | (t & d & E)]; [done |].
  eapply TrimSpace_graph_ends; [exact H1 | | exact E].
  rewrite E, srev_append in H2. exact H2.
Qed.

Lemma first_graph_app s t : first_graph s = true -> first_graph (s +:+ t) = true.
Proof. by destruct s. Qed.

Lemma edged_append s t u : edged s = true -> edged u = true -> edged (s +:+ t +:+ u) = true.
Proof.
  unfold edged. intros [H1 _]%andb_true_iff [_ H2]%andb_true_iff.
  rewrite !srev_append, append_assoc. by rewrite !first_graph_app.
Qed.

Lemma graph_edged s : s <> EmptyString -> sforall graph s = true -> edged s = true.
Proof.
  intros Hne H. unfold edged. rewrite <- (srev_sforall graph s) in H. pose proof H as H'.
  rewrite srev_sforall in H'. destruct s as [| c s]; [done |].
  destruct (srev (c ::: s)) as [| d t] eqn:E.
  - rewrite srev_cons in E. by destruct (srev s).
  - cbn in *. to_prop. tauto.
Qed.

Lemma TrimSpace_spaces n s : TrimSpace (spaces n +:+ s) = TrimSpace s.
Proof. induction n as [| n IH]; [done |]. exact IH. Qed.

Lemma fields_from_nonempty s cur : cur <> EmptyString -> fields_from s cur <> [].
Proof.
  revert cur. induction s as [| c1 s IH]; intros cur Hne; cbn [fields_from].
  { by destruct cur. }
  assert (forall l, flush cur l <> []) as Hf by (intros; by destruct cur).
  assert (cur +:+ chr c1 <> EmptyString) as Hne' by by destruct cur.
  destruct (is_space1 c1); [apply Hf |].
  destruct s as [| c2 s]; [by destruct (cur +:+ chr c1) |].
  destruct (is_space2 c1 c2); [apply Hf |].
  destruct s as [| c3 s]; [by apply IH |].
  destruct (is_space3 c1 c2 c3); [apply Hf | by apply IH].
Qed.

Lemma Fields_edged s : edged s = true -> Fields s <> [].
Proof.
  unfold edged. intros [H _]%andb_true_iff. destruct s as [| c s]; [done |].
  unfold Fields. rewrite fields_from_graph by done. by apply fields_from_nonempty.
Qed.

Lemma free_of_append sep s t : free_of sep (s +:+ t) = free_of sep s && free_of sep t.
Proof. apply sforall_append. Qed.

(** *** Lines *)
Fixpoint unlines (l : list string) : string :=
  match l with
  | [] => EmptyString
  | s :: r => s +:+ (newline ::: unlines r)
  end.

Lemma Split_unlines l :
  Forall (fun s => free_of newline s = true) l -> Split (unlines l) newline = l ++ [""].
Proof.
  induction 1 as [| s l Hs _ IH]; [done |]. cbn [unlines]. rewrite Split_app by done. by rewrite IH.
Qed.

(** *** Rows of cells *)
Lemma Split_Join_comma f fs :
  Forall (fun s => free_of "," s = true) (f :: fs) ->
  Split (Join (f :: fs) ", ") "," = f :: map (fun g => " " +:+ g) fs.
Proof.
  revert f. induction fs as [| g fs IH]; intros f; intros [Hf Hfs]%Forall_cons.
  - by apply Split_free.
  - change (Join (f :: g :: fs) ", ") with (f +:+ (","%char ::: (" " +:+ Join (g :: fs) ", "))).
    rewrite Split_app by done. pose proof (IH g Hfs) as E. cbn [map]. f_equal.
    change (Split (" " +:+ Join (g :: fs) ", ") ",") with
      (match Split (Join (g :: fs) ", ") "," with x :: xs => (" " +:+ x) :: xs | [] => [" "] end).
    by rewrite E.
Qed.

(** ** Facts of every byte, by computation *)
Definition every_byte (p : ascii -> bool) : bool := forallb (fun n => p (ascii_of_nat n)) (seq 0 256).
Lemma every_byte_spec p : every_byte p = true -> forall c, p c = true.
Proof.
  intros H c. unfold every_byte in H. rewrite forallb_forall in H. rewrite <- (ascii_nat_embedding c). apply H.
  apply in_seq. pose proof (nat_ascii_bounded c). lia.
Qed.
Ltac each_byte c := clear; revert c; apply every_byte_spec; vm_compute; reflexivity.

(** ** UTF-8: width of the valid rune a string starts with, 0 when invalid *)
Definition cont (c : ascii) : bool := in_range 0x80 (byte_val c) 0xBF.

Definition utf8_width (s : string) : nat :=
  match s with
  | EmptyString => 0%nat
  | c1 ::: r1 =>
      let b1 := byte_val c1 in
      if b1 <? 0x80 then 1%nat else
      match r1 with
      | EmptyString => 0%nat
      | c2 ::: r2 =>
          let b2 := byte_val c2 in
          if in_range 0xC2 b1 0xDF then (if cont c2 then 2%nat else 0%nat) else
          match r2 with
          | EmptyString => 0%nat
          | c3 ::: r3 =>
              let lo3 := if b1 =? 0xE0 then 0xA0 else 0x80 in
              let hi3 := if b1 =? 0xED then 0x9F else 0xBF in
              if in_range 0xE0 b1 0xEF
              then (if in_range lo3 b2 hi3 && cont c3 then 3%nat else 0%nat) else
              match r3 with
              | EmptyString => 0%nat
              | c4 ::: _ =>
                  let lo4 := if b1 =? 0xF0 then 0x90 else 0x80 in
                  let hi4 := if b1 =? 0xF4 then 0x8F else 0xBF in
                  if in_range 0xF0 b1 0xF4 && in_range lo4 b2 hi4 && cont c3 && cont c4
                  then 4%nat else 0%nat
              end
          end
      end
  end.

(** [utf8.RuneCountInString]: an invalid byte counts as one rune; [skip]
    bytes of the current rune are still to be passed over. *)
Fixpoint rune_count_from (s : string) (skip : nat) : nat :=
  match s with
  | EmptyString => 0%nat
  | _ ::: r =>
      match skip with
      | S k => rune_count_from r k
      | O => S (rune_count_from r (Nat.pred (utf8_width s)))
      end
  end.
Definition RuneCount (s : string) : nat := rune_count_from s 0%nat.

Example rune_count_ex : RuneCount (byte_of 0xC3 ::: byte_of 0xA9 ::: byte_of 0xFF ::: "a") = 3%nat.
Proof. reflexivity. Qed.

(** The bytes of a rune after its first are not ASCII. *)
Fixpoint high_bytes (k : nat) (s : string) : bool :=
  match k, s with S k, c ::: r => (0x80 <=? byte_val c) && high_bytes k r | _, _ => true end.

Lemma utf8_tail c r k : utf8_width (c ::: r) = S k -> high_bytes k r = true.
Proof.
  cbn [utf8_width]. destruct (byte_val c <? 128); [by intros [= <-] |].
  destruct r as [| c2 r]; [done |]. unfold cont, in_range. destruct (_ && _).
  { destruct (_ && _) eqn:E; [| done]. intros [= <-]. cbn. to_prop. lia. }
  destruct r as [| c3 r]; [done |]. destruct (_ && _).
  { destruct (_ && _) eqn:E; [| done]. intros [= <-]. cbn. to_prop. destruct (byte_val c =? 224); lia. }
  destruct r as [| c4 r]; [done |]. destruct (_ && _) eqn:E; [| done]. intros [= <-]. cbn. to_prop. destruct (byte_val c =? 240); lia.
Qed.

(** *** Valid texts
    [to_valid] is what [encoding/json] makes of a text: every byte that is
    part of no rune becomes U+FFFD.  [skip] bytes of the current rune are
    still to be copied. *)
Definition replacement : string := byte_of 0xEF ::: byte_of 0xBF ::: chr (byte_of 0xBD).

Fixpoint to_valid_from (s : string) (skip : nat) : string :=
  match s with
  | EmptyString => EmptyString
  | c ::: r =>
      match skip with
      | S k => c ::: to_valid_from r k
      | O => match utf8_width s with
             | O => replacement +:+ to_valid_from r 0%nat
             | S k => c ::: to_valid_from r k
             end
      end
  end.
Definition to_valid (s : string) : string := to_valid_from s 0%nat.

Fixpoint valid_from (s : string) (skip : nat) : bool :=
  match s with
  | EmptyString => true
  | c ::: r =>
      match skip with
      | S k => valid_from r k
      | O => match utf8_width s with O => false | S k => valid_from r k end
      end
  end.
Definition valid_utf8 (s : string) : bool := valid_from s 0%nat.

Lemma to_valid_from_id s skip : valid_from s skip = true -> to_valid_from s skip = s.
Proof.
  revert skip. induction s as [| c s IH]; intros skip Hv; [done |]. cbn [valid_from to_valid_from] in *.
  destruct skip as [| k]; [| by rewrite IH]. destruct (utf8_width (c ::: s)); [done | by rewrite IH].
Qed.

Lemma to_valid_id s : valid_utf8 s = true -> to_valid s = s.
Proof. apply to_valid_from_id. Qed.

(** A rune of [k] more bytes is followed by these bytes. *)
Lemma utf8_split c r k : utf8_width (c ::: r) = S k ->
  exists t r', r = t +:+ r' /\ String.length t = k /\ sforall (fun b => 0x80 <=? byte_val b) t = true.
Proof.
  intros Hw. assert (k <= String.length r)%nat as Hlen.
  { revert Hw. cbn [utf8_width]. destruct (byte_val c <? 128); [intros [= <-]; lia |].
    destruct r as [| c2 r]; [done |]. destruct (in_range 0xC2 _ _); [destruct (cont c2); [intros [= <-]; cbn; lia | done] |].
    destruct r as [| c3 r]; [done |]. destruct (in_range 0xE0 _ _); [destruct (_ && _); [intros [= <-]; cbn; lia | done] |].
    destruct r as [| c4 r]; [done |]. destruct (_ && _); [intros [= <-]; cbn; lia | done]. }
  apply utf8_tail in Hw. clear c. revert r Hw Hlen. induction k as [| k IH]; intros r Hw Hlen.
  - by exists EmptyString, r.
  - destruct r as [| c r]; [cbn in Hlen; lia |]. cbn [high_bytes] in Hw. apply andb_true_iff in Hw as [Hc Hw].
    destruct (IH r Hw) as (t & r' & -> & <- & Ht); [cbn in Hlen; lia |].
    exists (c ::: t), r'. split; [done |]. split; [done |]. cbn [sforall]. by rewrite Hc.
Qed.

Lemma to_valid_from_app t r : to_valid_from (t +:+ r) (String.length t) = t +:+ to_valid r.
Proof. induction t as [| c t IH]; [done |]. rewrite !append_cons. cbn [to_valid_from String.length]. by rewrite IH. Qed.

(** *** Prefixes *)
Lemma HasPrefix_app p s : HasPrefix (p +:+ s) p = true.
Proof.
  unfold HasPrefix. induction p as [| c p IH]; [by destruct s |]. rewrite append_cons. cbn.
  by destruct (ascii_dec c c).
Qed.

Lemma drop_bytes_app p s : drop_bytes (String.length p) (p +:+ s) = s.
Proof. induction p as [| c p IH]; [done |]. exact IH. Qed.

Lemma TrimPrefix_app p s : TrimPrefix (p +:+ s) p = s.
Proof. unfold TrimPrefix. by rewrite HasPrefix_app, drop_bytes_app. Qed.

(** ** Sorting: [sort.Strings], byte order *)
Fixpoint insert_string (x : string) (l : list string) : list string :=
  match l with
  | [] => [x]
  | y :: r => if String.leb x y then x :: y :: r else y :: insert_string x r
  end.
Definition sort_strings (l : list string) : list string := foldr insert_string [] l.

Lemma insert_string_perm x l : insert_string x l ≡ₚ x :: l.
Proof.
  induction l as [| y l IH]; cbn; [done |]. destruct (String.leb x y); [done |].
  rewrite IH. apply Permutation_swap.
Qed.

Lemma sort_strings_perm l : sort_strings l ≡ₚ l.
Proof. induction l as [| x l IH]; cbn; [done |]. by rewrite insert_string_perm, IH. Qed.

(** *** Suffixes and trailing spaces *)
Lemma length_srev s : String.length (srev s) = String.length s.
Proof.
  induction s as [| c s IH]; [done |]. rewrite srev_cons. cbn [String.length]. rewrite <- IH.
  generalize (srev s). intros t. induction t as [| d t IHt]; [done |]. rewrite append_cons. cbn. by rewrite IHt.
Qed.

Lemma TrimSuffix_app s suf : TrimSuffix (s +:+ suf) suf = s.
Proof.
  unfold TrimSuffix, HasSuffix. rewrite srev_append. fold (HasPrefix (srev suf +:+ srev s) (srev suf)).
  rewrite HasPrefix_app, <- length_srev, drop_bytes_app. apply srev_involutive.
Qed.

Lemma srev_spaces n : srev (spaces n) = spaces n.
Proof.
  induction n as [| n IH]; [done |]. cbn [spaces]. change (" " +:+ spaces n) with (" "%char ::: spaces n).
  rewrite srev_cons, IH. clear IH. induction n as [| n IH]; [done |]. cbn [spaces].
  change (" " +:+ spaces n) with (" "%char ::: spaces n). rewrite append_cons. by rewrite IH.
Qed.

Lemma TrimSpace_edged_spaces s n : edged s = true -> TrimSpace (s +:+ spaces n) = s.
Proof.
  intros He. rewrite <- (edged_TrimSpace s He) at 2. pose proof He as [H _]%andb_true_iff.
  destruct s as [| c s]; [done |]. unfold TrimSpace. rewrite append_cons, !TrimSpaceLeft_graph by exact H.
  unfold TrimSpaceRight. rewrite <- append_cons, srev_append, srev_spaces. f_equal. by induction n.
Qed.
