(* ===== verification/GoStrconv.v ===== *)
(** * Go's [strconv] and integer [fmt] verbs: the functions the sources call

    [ParseUint], [ParseInt]/[Atoi] follow the digit loop of the library with
    its cutoff and wrap-around tests; [FormatUint]/[Itoa] and the [%d], [%x]
    verbs follow its repeated division.  The round trips are proved for the
    whole 64-bit range. *)
From S2P Require Import Prelude GoStrings.

(** ** Printing *)
Definition digit_char (d : Z) : ascii :=
  if d <? 10 then byte_of (48 + d) else byte_of (87 + d).

Fixpoint digits (base : Z) (fuel : nat) (n : Z) (acc : string) : string :=
  match fuel with
  | O => acc
  | S f =>
      let acc' := digit_char (n mod base) ::: acc in
      if n <? base then acc' else digits base f (n / base) acc'
  end.

(** One more digit than the binary logarithm is always enough. *)
Definition fuel_for (n : Z) : nat := S (Z.to_nat (Z.log2 n)).

(** [strconv.FormatUint(n, 10)]. *)
Definition FormatUint (n : Z) : string := digits 10 (fuel_for n) n EmptyString.

(** [strconv.Itoa(n)], and [%d] on a signed integer. *)
Definition Itoa (n : Z) : string :=
  if n <? 0 then "-" +:+ FormatUint (- n) else FormatUint n.

(** [%x]. *)
Definition FormatHex (n : Z) : string := digits 16 (fuel_for n) n EmptyString.

Fixpoint repeat_char (n : nat) (c : ascii) : string :=
  match n with O => EmptyString | S k => c ::: repeat_char k c end.

(** Pad on the left to [w] bytes, as [%5d] and [%012x] do. *)
Definition pad_left (w : nat) (c : ascii) (s : string) : string :=
  repeat_char (w - String.length s) c +:+ s.

(** [%5s] pads to a number of runes. *)
Definition pad_string (w : nat) (s : string) : string :=
  repeat_char (w - RuneCount s) " " +:+ s.

Lemma repeat_spaces n : repeat_char n " " = spaces n.
Proof. induction n as [| n IH]; [done |]. cbn [repeat_char spaces]. by rewrite IH. Qed.

(** ** Parsing *)
Definition ErrSyntax : string := "strconv.ErrSyntax".
Definition ErrRange : string := "strconv.ErrRange".
Definition num_error (fn s : string) (why : string) : error :=
  Wrapf "strconv.%s: parsing %q: %w" [AS fn; AS s] (Sentinel why).

Definition cutoff10 : Z := u64_max / 10 + 1.

Fixpoint parse_loop (s0 : string) (maxVal : Z) (s : string) (n : Z) : result Z :=
  match s with
  | EmptyString => Ok n
  | c ::: r =>
      if negb (is_digit c) then Err (num_error "ParseUint" s0 ErrSyntax) else
      if n >=? cutoff10 then Err (num_error "ParseUint" s0 ErrRange) else
      let n10 := n ⊗ 10 in
      let n1 := n10 ⊕ (byte_val c - 48) in
      if (n1 <? n10) || (n1 >? maxVal)
      then Err (num_error "ParseUint" s0 ErrRange)
      else parse_loop s0 maxVal r n1
  end.

(** [strconv.ParseUint(s, 10, bits)] with [maxVal = 1<<bits - 1]. *)
Definition ParseUint (s : string) (maxVal : Z) : result Z :=
  match s with
  | EmptyString => Err (num_error "ParseUint" s ErrSyntax)
  | _ => parse_loop s maxVal s 0
  end.

Definition int64_cutoff : Z := 9223372036854775808.

(** [strconv.ParseInt(s, 10, 64)], which [strconv.Atoi] agrees with. *)
Definition ParseInt (s : string) : result Z :=
  match s with
  | EmptyString => Err (num_error "ParseInt" s ErrSyntax)
  | c ::: r =>
      let neg := char_eqb c "-" in
      let digits := if char_eqb c "+" || neg then r else s in
      un ← ParseUint digits u64_max;
      if negb neg && (un >=? int64_cutoff) then Err (num_error "ParseInt" s ErrRange) else
      if neg && (un >? int64_cutoff) then Err (num_error "ParseInt" s ErrRange) else
      Ok (if neg then - un else un)
  end.
Definition Atoi (s : string) : result Z := ParseInt s.

Definition int64 (z : Z) : Prop := - int64_cutoff <= z < int64_cutoff.
#[export] Instance int64_dec z : Decision (int64 z).
Proof. unfold int64. apply _. Defined.

(** ** Lemmas *)
Lemma digit_char_val d : 0 <= d < 10 -> byte_val (digit_char d) = 48 + d.
Proof.
  intros. unfold digit_char. destruct (Z.ltb_spec d 10); [| lia].
  apply byte_val_of. lia.
Qed.

Lemma digit_char_is_digit d : 0 <= d < 10 -> is_digit (digit_char d) = true.
Proof. intros. unfold is_digit, in_range. rewrite digit_char_val by done. to_prop. lia. Qed.

Lemma is_digit_graph c : is_digit c = true -> graph c = true.
Proof. unfold is_digit, graph, in_range. intros. to_prop. lia. Qed.

Lemma digits_is_digit fuel n acc :
  0 <= n -> sforall is_digit acc = true -> sforall is_digit (digits 10 fuel n acc) = true.
Proof.
  revert n acc. induction fuel as [| fuel IH]; intros n acc Hn Hacc; cbn [digits]; [done |].
  assert (sforall is_digit (digit_char (n mod 10) ::: acc) = true) as Hacc'.
  { cbn [sforall]. rewrite digit_char_is_digit, Hacc; [done |]. apply Z.mod_pos_bound. lia. }
  destruct (n <? 10); [done |]. apply IH; [| done]. apply Z.div_pos; lia.
Qed.

Lemma FormatUint_digits n : 0 <= n -> sforall is_digit (FormatUint n) = true.
Proof. intros. by apply digits_is_digit. Qed.

Lemma FormatUint_graph n : 0 <= n -> sforall graph (FormatUint n) = true.
Proof.
  intros. eapply sforall_impl; [apply is_digit_graph | by apply FormatUint_digits].
Qed.

Lemma digits_nonempty base fuel n acc :
  acc <> EmptyString -> digits base fuel n acc <> EmptyString.
Proof.
  revert n acc. induction fuel as [| fuel IH]; intros n acc; cbn [digits]; [done |].
  intros _. destruct (n <? base); [done |]. by apply IH.
Qed.

Lemma FormatUint_nonempty n : FormatUint n <> EmptyString.
Proof.
  unfold FormatUint, fuel_for. cbn [digits]. destruct (n <? 10); [done |].
  by apply digits_nonempty.
Qed.

Lemma FormatUint_free sep n :
  0 <= n -> is_digit sep = false -> free_of sep (FormatUint n) = true.
Proof.
  intros Hn Hsep. unfold free_of. eapply sforall_impl; [| by apply FormatUint_digits].
  intros c Hc. apply negb_true_iff, char_eqb_neq. intros ->. congruence.
Qed.

Lemma fuel_for_enough n : 0 <= n -> n < 10 ^ Z.of_nat (fuel_for n).
Proof.
  intros Hn. unfold fuel_for.
  destruct (Z.eq_dec n 0) as [-> | Hnz]; [done |].
  pose proof (Z.log2_spec n ltac:(lia)) as [_ Hlt]. pose proof (Z.log2_nonneg n).
  rewrite Nat2Z.inj_succ, Z2Nat.id by lia.
  eapply Z.lt_le_trans; [exact Hlt |]. apply Z.pow_le_mono_l. lia.
Qed.

(** One digit of the parser's loop, when the value stays in range. *)
Lemma parse_loop_digit s0 maxVal d r m :
  0 <= d < 10 -> 0 <= m -> maxVal <= u64_max -> m * 10 + d <= maxVal ->
  parse_loop s0 maxVal (digit_char d ::: r) m = parse_loop s0 maxVal r (m * 10 + d).
Proof.
  intros Hd Hm Hmax Hle. cbn [parse_loop]. rewrite digit_char_is_digit by done.
  cbn [negb]. rewrite digit_char_val by done.
  replace (48 + d - 48) with d by lia.
  assert (cutoff10 = 1844674407370955162) as Hc by done.
  destruct (m >=? cutoff10) eqn:E1; to_prop; [rewrite Hc in E1; word |].
  cbv zeta. unwrap64.
  destruct (_ || _) eqn:E2; to_prop; [lia | done].
Qed.

Lemma parse_loop_digits s0 maxVal fuel n acc :
  0 <= n <= maxVal -> maxVal <= u64_max -> n < 10 ^ Z.of_nat fuel -> fuel <> O ->
  parse_loop s0 maxVal (digits 10 fuel n acc) 0 = parse_loop s0 maxVal acc n.
Proof.
  revert n acc. induction fuel as [| fuel IH]; intros n acc Hn Hmax Hlt Hf; [done |].
  cbn [digits].
  pose proof (Z.mod_pos_bound n 10 ltac:(lia)) as Hmod.
  pose proof (Z.div_mod n 10 ltac:(lia)) as Hdm.
  destruct (Z.ltb_spec n 10) as [Hlt10 | Hge].
  - rewrite Z.mod_small by lia. rewrite parse_loop_digit by lia. f_equal.
  - assert (0 <= n / 10) by (apply Z.div_pos; lia).
    rewrite Nat2Z.inj_succ, Z.pow_succ_r in Hlt by lia.
    assert (n / 10 < 10 ^ Z.of_nat fuel) by (apply Z.div_lt_upper_bound; lia).
    rewrite IH; [| lia | done | done |].
    + rewrite parse_loop_digit by lia. f_equal. lia.
    + intros ->. cbn in *. lia.
Qed.

(** Printing then parsing is the identity on the range of the parser. *)
Lemma ParseUint_FormatUint n maxVal :
  0 <= n <= maxVal -> maxVal <= u64_max -> ParseUint (FormatUint n) maxVal = Ok n.
Proof.
  intros Hn Hmax. unfold ParseUint.
  pose proof (FormatUint_nonempty n) as Hne.
  destruct (FormatUint n) as [| c r] eqn:E; [done |]. rewrite <- E.
  unfold FormatUint at 2. rewrite parse_loop_digits; [done | done | done | | done].
  apply fuel_for_enough. lia.
Qed.

Lemma FormatUint_inj n m : u64 n -> u64 m -> FormatUint n = FormatUint m -> n = m.
Proof.
  intros Hn Hm E. pose proof (ParseUint_FormatUint n u64_max) as P1.
  pose proof (ParseUint_FormatUint m u64_max) as P2.
  unfold u64 in *. rewrite E, P2 in P1 by lia. injection P1; [done | lia | lia].
Qed.

Lemma FormatUint_first n :
  0 <= n -> exists c r, FormatUint n = c ::: r /\ is_digit c = true.
Proof.
  intros Hn. pose proof (FormatUint_digits n Hn) as Hd.
  pose proof (FormatUint_nonempty n) as Hne.
  destruct (FormatUint n) as [| c r]; [done |]. exists c, r. cbn in Hd.
  to_prop. tauto.
Qed.

Lemma Atoi_nonneg n : 0 <= n < int64_cutoff -> Atoi (FormatUint n) = Ok n.
Proof.
  intros Hn. unfold Atoi, ParseInt.
  destruct (FormatUint_first n) as (c & r & E & Hc); [lia |]. rewrite E.
  assert (char_eqb c "-" = false) as ->.
  { apply char_eqb_neq. intros ->. discriminate Hc. }
  assert (char_eqb c "+" = false) as ->.
  { apply char_eqb_neq. intros ->. discriminate Hc. }
  cbn [orb]. rewrite <- E. rewrite ParseUint_FormatUint by (unfold int64_cutoff in *; word).
  cbn [mbind result_bind negb andb].
  destruct (n >=? int64_cutoff) eqn:E1; to_prop; [lia | done].
Qed.

Lemma Atoi_Itoa n : int64 n -> Atoi (Itoa n) = Ok n.
Proof.
  intros [Hlo Hhi]. unfold Itoa. destruct (Z.ltb_spec n 0); [| apply Atoi_nonneg; lia].
  change ("-" +:+ FormatUint (- n)) with ("-"%char ::: FormatUint (- n)).
  unfold Atoi, ParseInt. cbn [char_eqb Ascii.eqb Bool.eqb orb].
  change (char_eqb "-" "-") with true. change (char_eqb "-" "+") with false. cbn [orb].
  rewrite ParseUint_FormatUint by (unfold int64_cutoff in *; word).
  cbn [mbind result_bind negb andb].
  destruct (- n >? int64_cutoff) eqn:E1; to_prop; [lia |]. f_equal. lia.
Qed.

Lemma Itoa_inj n m : int64 n -> int64 m -> Itoa n = Itoa m -> n = m.
Proof.
  intros Hn Hm E. pose proof (Atoi_Itoa n Hn) as P1. rewrite E, Atoi_Itoa in P1 by done.
  by injection P1.
Qed.

Lemma Itoa_nonneg n : 0 <= n -> Itoa n = FormatUint n.
Proof. intros. unfold Itoa. destruct (Z.ltb_spec n 0); [lia | done]. Qed.

(** What a successful parse returns fits the requested width. *)
Lemma parse_loop_range s0 maxVal s m n :
  0 <= m <= maxVal -> maxVal <= u64_max ->
  parse_loop s0 maxVal s m = Ok n -> 0 <= n <= maxVal.
Proof.
  revert m. induction s as [| c s IH]; intros m Hm Hmax; cbn [parse_loop].
  - by intros [= <-].
  - destruct (is_digit c); [| discriminate]. cbn [negb].
    destruct (m >=? cutoff10); [discriminate |]. cbv zeta.
    destruct (_ || _) eqn:E; [discriminate |]. apply IH; [| done]. to_prop.
    pose proof (wrap64_u64 (m ⊗ 10 + (byte_val c - 48))). word.
Qed.

Lemma ParseUint_range s maxVal n :
  0 <= maxVal <= u64_max -> ParseUint s maxVal = Ok n -> 0 <= n <= maxVal.
Proof.
  intros. unfold ParseUint in *. destruct s; [discriminate |].
  eapply parse_loop_range; [| | eassumption]; lia.
Qed.

Lemma ParseInt_range s n : ParseInt s = Ok n -> int64 n.
Proof.
  unfold ParseInt, int64. destruct s as [| c r]; [discriminate |]. cbv zeta.
  intros (un & Hun & H)%result_bind_ok.
  apply ParseUint_range in Hun; [| word].
  destruct (char_eqb c "-"); cbn [negb andb] in H; guards; simplify_eq; unfold int64_cutoff in *; lia.
Qed.

(** ** What the parsers accept *)

(** The number the decimal digits [s] continue, from [acc]: no bound, no
    overflow. *)
Fixpoint decimal (acc : Z) (s : string) : Z :=
  match s with
  | EmptyString => acc
  | c ::: r => decimal (acc * 10 + (byte_val c - 48)) r
  end.

(** [s] is a decimal numeral of [n]: at least one digit, after at most one
    sign. *)
Definition numeral (s : string) (n : Z) : Prop :=
  exists sign ds, s = sign +:+ ds /\ ds <> "" /\ sforall is_digit ds = true /\
    (sign ∈ [""; "+"] /\ n = decimal 0 ds \/ sign = "-" /\ n = - decimal 0 ds).

Lemma is_digit_val c : is_digit c = true -> 0 <= byte_val c - 48 < 10.
Proof. unfold is_digit, in_range. intros. to_prop. lia. Qed.

Lemma decimal_ge acc s : sforall is_digit s = true -> 0 <= acc -> acc <= decimal acc s.
Proof.
  revert acc. induction s as [| c s IH]; intros acc; cbn [sforall decimal]; [lia |].
  intros [Hc Hs]%andb_true_iff Hacc. apply is_digit_val in Hc.
  specialize (IH (acc * 10 + (byte_val c - 48)) Hs). lia.
Qed.

(** The wrap-around tests of the loop refuse exactly the numbers above 64
    bits. *)
Lemma parse_loop_decimal s0 s m n : 0 <= m <= u64_max ->
  parse_loop s0 u64_max s m = Ok n <-> sforall is_digit s = true /\ decimal m s = n /\ n <= u64_max.
Proof.
  revert m. induction s as [| c s IH]; intros m Hm; cbn [parse_loop sforall decimal].
  { split; [intros [= <-]; intuition lia | by intros (_ & -> & _)]. }
  destruct (is_digit c) eqn:Hc; cbn [negb andb]; [| by split; [| intros (? & _)]].
  pose proof (is_digit_val c Hc) as Hd.
  assert (cutoff10 = 1844674407370955162) as Hcut by done.
  assert (u64_max = 18446744073709551615) as Hmax by done.
  assert (sforall is_digit s = true -> m * 10 + (byte_val c - 48) <= decimal (m * 10 + (byte_val c - 48)) s) as Hge.
  { intros. apply decimal_ge; [done | lia]. }
  destruct (m >=? cutoff10) eqn:E1; to_prop.
  { split; [done |]. intros (Hs & <- & Hle). specialize (Hge Hs). lia. }
  cbv zeta. rewrite (wrap64_small (m * 10)) by word.
  destruct (Z.le_gt_cases (m * 10 + (byte_val c - 48)) u64_max) as [Hfit | Hover].
  - rewrite wrap64_small by word.
    destruct (_ || _) eqn:E2; to_prop; [lia |]. apply IH. lia.
  - assert ((m * 10 ⊕ (byte_val c - 48) <? m * 10) = true) as ->.
    { apply Z.ltb_lt. replace (m * 10 + (byte_val c - 48)) with ((m * 10 + (byte_val c - 48) - 2 ^ 64) + 2 ^ 64) by lia.
      unfold wrap64. rewrite <- (Z.mul_1_l (2 ^ 64)) at 2. rewrite Z.mod_add, Z.mod_small; lia. }
    cbn [orb]. split; [done |]. intros (Hs & <- & Hle). specialize (Hge Hs). lia.
Qed.

Lemma ParseUint_decimal s n :
  ParseUint s u64_max = Ok n <-> s <> "" /\ sforall is_digit s = true /\ decimal 0 s = n /\ n <= u64_max.
Proof.
  unfold ParseUint. destruct s as [| c r]; [by split; [| intros (? & _)] |].
  rewrite parse_loop_decimal by done. split; [by intros H; split | tauto].
Qed.

(** [Atoi] reads exactly the numerals of the 64-bit signed numbers. *)
Lemma Atoi_numeral s n : Atoi s = Ok n <-> numeral s n /\ int64 n.
Proof.
  assert (int64_cutoff <= u64_max) as Hle by (unfold int64_cutoff; word).
  unfold Atoi, ParseInt. split.
  - destruct s as [| c r]; [done |]. cbv zeta. intros (un & Hun & H)%result_bind_ok.
    assert (un = decimal 0 (if char_eqb c "+" || char_eqb c "-" then r else c ::: r) /\
            numeral (c ::: r) (if char_eqb c "-" then - un else un)) as [Hv Hnum].
    { apply ParseUint_decimal in Hun as (Hne & Hd & <- & _). split; [done |].
      destruct (char_eqb c "-") eqn:Em; [apply char_eqb_eq in Em as -> |].
      - rewrite orb_true_r in *. exists "-", r. split; [done |]. split; [done |]. split; [done |]. by right.
      - destruct (char_eqb c "+") eqn:Ep; cbn [orb] in *.
        + apply char_eqb_eq in Ep as ->. exists "+", r. do 3 (split; [done |]). left. split; [set_solver | done].
        + exists "", (c ::: r). do 3 (split; [done |]). left. split; [set_solver | done]. }
    apply ParseUint_decimal in Hun as (_ & Hd & E & _).
    pose proof (decimal_ge 0 _ Hd ltac:(lia)) as Hpos. unfold int64.
    destruct (char_eqb c "-"); cbn [negb andb] in H; guards; injection H as <-;
      (split; [exact Hnum | unfold int64_cutoff in *; lia]).
  - intros ((sign & ds & -> & Hne & Hd & Hsign) & Hn). unfold int64 in Hn.
    pose proof (decimal_ge 0 ds Hd ltac:(lia)) as Hpos.
    assert (ParseUint ds u64_max = Ok (decimal 0 ds)) as HU.
    { apply ParseUint_decimal. repeat split; try done. destruct Hsign as [[_ ->] | [_ ->]]; lia. }
    destruct Hsign as [[Hs ->] | [-> ->]].
    + apply elem_of_cons in Hs as [-> | ->%list_elem_of_singleton].
      * destruct ds as [| c r]; [done |]. cbn [sforall] in Hd. apply andb_true_iff in Hd as [Hc _].
        change ("" +:+ c ::: r) with (c ::: r). cbv beta iota zeta.
        assert (char_eqb c "+" = false) as -> by (apply char_eqb_neq; by intros ->).
        assert (char_eqb c "-" = false) as -> by (apply char_eqb_neq; by intros ->).
        cbn [orb negb andb]. rewrite HU. cbn [mbind result_bind].
        by rewrite (proj2 (geb_false _ _)) by lia.
      * change ("+" +:+ ds) with ("+"%char ::: ds). cbv beta iota zeta. change (char_eqb "+" "-") with false.
        cbn [char_eqb Ascii.eqb Bool.eqb orb negb andb]. rewrite HU. cbn [mbind result_bind]. by rewrite (proj2 (geb_false _ _)) by lia.
    + change ("-" +:+ ds) with ("-"%char ::: ds). cbv beta iota zeta. change (char_eqb "-" "-") with true.
      rewrite orb_true_r. cbn [negb andb]. rewrite HU. cbn [mbind result_bind]. by rewrite (proj2 (gtb_false _ _)) by lia.
Qed.

Lemma FormatUint_no_newline n : 0 <= n -> free_of newline (FormatUint n) = true.
Proof. intros. by apply FormatUint_free. Qed.
#[export] Hint Resolve FormatUint_graph FormatUint_nonempty FormatUint_no_newline : core.

Example format_ex : FormatUint 18446744073709551615 = "18446744073709551615".
Proof. reflexivity. Qed.
Example parse_overflow_ex : is_ok (ParseUint "18446744073709551616" u64_max) = false.
Proof. reflexivity. Qed.
Example hex_ex : pad_left 12 "0" (FormatHex 255) = "0000000000ff".
Proof. reflexivity. Qed.
