(* ===== verification/GoPath.v ===== *)
(** * Go's [path/filepath] on slash-separated paths: [Clean], [Dir], [Base],
    [Join] and [IsAbs] *)
From S2P Require Import Prelude GoStrings.

Module filepath.

Definition slash : ascii := byte_of 47.

Definition IsAbs (path : string) : bool :=
  match path with c ::: _ => char_eqb c slash | EmptyString => false end.

(** One path element onto the cleaned elements so far (last one first). *)
Definition clean_step (rooted : bool) (stack : list string) (elem : string) : list string :=
  if String.eqb elem "" || String.eqb elem "." then stack else
  if String.eqb elem ".." then
    match stack with
    | top :: below => if String.eqb top ".." then ".." :: stack else below
    | [] => if rooted then [] else [".."]
    end
  else elem :: stack.

Definition clean_elems (path : string) : list string :=
  rev (fold_left (clean_step (IsAbs path)) (Split path slash) []).

Definition Clean (path : string) : string :=
  let out := (if IsAbs path then "/" else "") +:+ Join (clean_elems path) "/" in
  if String.eqb out "" then "." else out.

(** The text up to and including the last slash, and the rest. *)
Fixpoint split_last (path : string) : string * string :=
  match path with
  | EmptyString => ("", "")
  | c ::: r =>
      let '(dir, base) := split_last r in
      if String.eqb dir "" then
        if char_eqb c slash then (chr c, base) else ("", c ::: base)
      else (c ::: dir, base)
  end.

Definition Dir (path : string) : string := Clean (split_last path).1.

(** [filepath.Base]: trailing slashes are dropped first. *)
Definition Base (path : string) : string :=
  if String.eqb path "" then "." else
  let trimmed := srev (TrimLeft (srev path) slash) in
  if String.eqb trimmed "" then "/" else (split_last trimmed).2.

Definition path_join (elems : list string) : string :=
  match List.filter (fun e => negb (String.eqb e "")) elems with
  | [] => ""
  | parts => Clean (Join parts "/")
  end.

Example clean_ex1 : Clean "/a/./b//../c/" = "/a/c". Proof. reflexivity. Qed.
Example clean_ex2 : Clean "a/../../b" = "../b". Proof. reflexivity. Qed.
Example clean_ex3 : Clean "/../a" = "/a". Proof. reflexivity. Qed.
Example clean_ex4 : Clean "" = ".". Proof. reflexivity. Qed.
Example dir_ex1 : Dir "/var/lib/x.yaml" = "/var/lib". Proof. reflexivity. Qed.
Example dir_ex2 : Dir "x.yaml" = ".". Proof. reflexivity. Qed.
Example base_ex1 : Base "/a/b/" = "b". Proof. reflexivity. Qed.
Example base_ex2 : Base "//" = "/". Proof. reflexivity. Qed.

End filepath.
