(* ===== verification/Paths.v ===== *)
(** * Absolute paths as lists of elements

    [filepath.Clean], [Join], [Dir] and [Rel] on absolute paths, in terms of
    the list of the path's elements: [abs_path ["a"; "b"]] is [/a/b].  [Rel] is
    modelled here, the others in [GoPath]. *)
From S2P Require Import Prelude GoStrings GoPath.

Module paths.
Import filepath.

(** An element that [Clean] keeps. *)
Definition plain (e : string) : bool :=
  negb (String.eqb e "") && negb (String.eqb e ".") && negb (String.eqb e "..") && free_of slash e.
Definition plain_list (l : list string) : Prop := Forall (fun e => plain e = true) l.
#[export] Instance plain_list_dec l : Decision (plain_list l).
Proof. unfold plain_list. apply _. Defined.

Definition abs_path (l : list string) : string := "/" +:+ Join l "/".

(** ** [filepath.Rel] *)
(** The elements that remain of both paths after their common start. *)
Fixpoint strip_common (base targ : list string) : list string * list string :=
  match base, targ with
  | b :: base', t :: targ' => if String.eqb b t then strip_common base' targ' else (base, targ)
  | _, _ => (base, targ)
  end.

(** The elements of a cleaned path; only as a target does "." count as one. *)
Definition Rel (basepath targpath : string) : result string :=
  let base := Clean basepath in
  let targ := Clean targpath in
  if String.eqb targ base then Ok "." else
  let fail := Err (Errorf "Rel: can't make %s relative to %s" [AS targpath; AS basepath]) in
  if negb (Bool.eqb (IsAbs base) (IsAbs targ)) then fail else
  let '(up, down) := strip_common (clean_elems base) (if String.eqb targ "." then ["."] else clean_elems targ) in
  if match up with top :: _ => String.eqb top ".." | [] => false end then fail
  else Ok (Join (map (fun _ => "..") up ++ down) "/").

Example rel_ex1 : Rel "/a/b" "/a/b/c/d" = Ok "c/d". Proof. reflexivity. Qed.
Example rel_ex2 : Rel "/a/b/c" "/a/d" = Ok "../../d". Proof. reflexivity. Qed.
Example rel_ex3 : Rel "/a" "/a/" = Ok ".". Proof. reflexivity. Qed.
Example rel_ex4 : is_ok (Rel "../a" "b") = false. Proof. reflexivity. Qed.
Example rel_ex5 : Rel "/" "/a" = Ok "a". Proof. reflexivity. Qed.

(** ** Lemmas *)
Lemma Split_Join l sep : l <> [] -> Forall (fun s => free_of sep s = true) l -> Split (Join l (chr sep)) sep = l.
Proof.
  intros Hne Hl. induction Hl as [| x l Hx Hl IH]; [done |]. destruct l as [| y l]; [by apply Split_free |].
  change (Join (x :: y :: l) (chr sep)) with (x +:+ (sep ::: Join (y :: l) (chr sep))).
  rewrite Split_app by done. by rewrite IH.
Qed.

Lemma Join_Split s sep : Join (Split s sep) (chr sep) = s.
Proof.
  induction s as [| c s IH]; [done |]. cbn [Split]. destruct (char_eqb c sep) eqn:E.
  - apply char_eqb_eq in E as ->. pose proof (Split_nonempty s sep) as Hne.
    destruct (Split s sep) as [| x xs]; [done |].
    change (Join ("" :: x :: xs) (chr sep)) with (sep ::: Join (x :: xs) (chr sep)). by rewrite IH.
  - pose proof (Split_nonempty s sep) as Hne. destruct (Split s sep) as [| x xs]; [done |].
    destruct xs as [| y ys]; [by rewrite <- IH |].
    change (Join ((c ::: x) :: y :: ys) (chr sep)) with (c ::: Join (x :: y :: ys) (chr sep)). by rewrite IH.
Qed.

Lemma HasPrefix_split s p : HasPrefix s p = true -> exists u, s = p +:+ u.
Proof.
  unfold HasPrefix. revert s. induction p as [| c p IH]; intros s Hp; [by exists s |]. destruct s as [| d s]; [done |].
  cbn in Hp. destruct (Ascii.ascii_dec c d) as [<- |]; [| done]. destruct (IH s Hp) as [u ->]. by exists u.
Qed.

Lemma free_of_Split s sep : Forall (fun e => free_of sep e = true) (Split s sep).
Proof.
  induction s as [| c s IH]; cbn; [by repeat constructor |].
  destruct (char_eqb c sep) eqn:E; [by constructor |].
  destruct IH as [| x l Hx Hl]; constructor; try done; cbn; by rewrite E.
Qed.

Lemma plain_elem e : plain e = true <-> e <> "" /\ e <> "." /\ e <> ".." /\ free_of slash e = true.
Proof. unfold plain. to_prop. tauto. Qed.

Lemma plain_snoc l e : plain_list (l ++ [e]) <-> plain_list l /\ plain e = true.
Proof.
  unfold plain_list. rewrite Forall_app. split; [intros [? He]; by inversion He | intros []; split; [done |]; by constructor].
Qed.

Lemma plain_free l : plain_list l -> Forall (fun e => free_of slash e = true) l.
Proof. intros Hl. eapply Forall_impl; [exact Hl |]. intros e He. by apply plain_elem in He as (_ & _ & _ & ?). Qed.

Lemma clean_step_plain rooted stack e : plain e = true -> clean_step rooted stack e = e :: stack.
Proof.
  intros (H1 & H2 & H3 & _)%plain_elem. unfold clean_step.
  by rewrite !(proj2 (String.eqb_neq _ _)) by done.
Qed.

Lemma clean_steps_plain rooted l stack : plain_list l -> fold_left (clean_step rooted) l stack = rev l ++ stack.
Proof.
  intros Hl. revert stack. induction Hl as [| e l He _ IH]; intros stack; [done |].
  cbn [fold_left rev]. rewrite clean_step_plain, IH by done. by rewrite <- app_assoc.
Qed.

(** A rooted path only ever has plain elements. *)
Lemma clean_steps_rooted l stack : Forall (fun e => free_of slash e = true) l -> plain_list stack ->
  plain_list (fold_left (clean_step true) l stack).
Proof.
  intros Hl. revert stack. induction Hl as [| e l He _ IH]; intros stack Hs; [done |]. cbn [fold_left]. apply IH.
  unfold clean_step. destruct (String.eqb e "") eqn:E1; [done |]. destruct (String.eqb e ".") eqn:E2; [done |].
  cbn [orb]. destruct (String.eqb e "..") eqn:E3.
  - destruct Hs as [| top below Ht Hb]; [constructor |]. apply plain_elem in Ht as Hp.
    rewrite (proj2 (String.eqb_neq top "..")) by tauto. done.
  - to_prop. constructor; [by apply plain_elem | done].
Qed.

Lemma IsAbs_abs l : IsAbs (abs_path l) = true.
Proof. done. Qed.

Lemma Split_abs l : plain_list l -> exists blank, Forall (fun e => e = "") blank /\ Split (abs_path l) slash = blank ++ l.
Proof.
  intros Hl. unfold abs_path. change ("/" +:+ Join l "/") with ("" +:+ (slash ::: Join l (chr slash))).
  rewrite Split_app by done. destruct l as [| e l].
  - exists [""; ""]. split; [by repeat constructor | done].
  - exists [""]. split; [by repeat constructor |]. by rewrite Split_Join by (done || by apply plain_free).
Qed.

Lemma clean_steps_blank rooted blank stack : Forall (fun e => e = "") blank ->
  fold_left (clean_step rooted) blank stack = stack.
Proof. intros Hb. revert stack. induction Hb as [| ? ? -> _ IH]; intros stack; [done |]. apply IH. Qed.

Lemma clean_elems_abs l : plain_list l -> clean_elems (abs_path l) = l.
Proof.
  intros Hl. unfold clean_elems. destruct (Split_abs l Hl) as (blank & Hb & ->). rewrite IsAbs_abs, fold_left_app.
  rewrite clean_steps_plain, clean_steps_blank by done. by rewrite app_nil_r, rev_involutive.
Qed.

Lemma Clean_rooted p : IsAbs p = true -> Clean p = abs_path (clean_elems p) /\ plain_list (clean_elems p).
Proof.
  intros Hp. unfold Clean. rewrite Hp. split; [done |]. unfold clean_elems. rewrite Hp.
  apply Forall_rev, clean_steps_rooted; [apply free_of_Split | constructor].
Qed.

Lemma Clean_abs l : plain_list l -> Clean (abs_path l) = abs_path l.
Proof. intros Hl. rewrite (proj1 (Clean_rooted _ (IsAbs_abs l))). by rewrite clean_elems_abs. Qed.

Lemma abs_path_inj l1 l2 : plain_list l1 -> plain_list l2 -> abs_path l1 = abs_path l2 -> l1 = l2.
Proof. intros H1 H2 E. rewrite <- (clean_elems_abs l1 H1), E. by apply clean_elems_abs. Qed.

Lemma abs_path_eqb l1 l2 : plain_list l1 -> plain_list l2 ->
  String.eqb (abs_path l1) (abs_path l2) = bool_decide (l1 = l2).
Proof.
  intros H1 H2. destruct (decide (l1 = l2)) as [-> | Hne].
  - by rewrite String.eqb_refl, bool_decide_true.
  - rewrite bool_decide_false by done. apply String.eqb_neq. intros E. by apply Hne, abs_path_inj.
Qed.

(** ** Joining *)
Definition no_blanks (l : list string) : list string := List.filter (fun e => negb (String.eqb e "")) l.

Lemma no_blanks_cons e l : no_blanks (e :: l) = if String.eqb e "" then no_blanks l else e :: no_blanks l.
Proof. unfold no_blanks. cbn. by destruct (String.eqb e ""). Qed.

Lemma no_blanks_plain l : plain_list l -> no_blanks l = l.
Proof.
  induction 1 as [| e l He _ IH]; [done |]. rewrite no_blanks_cons. apply plain_elem in He as (He & _).
  rewrite (proj2 (String.eqb_neq _ _)) by done. by rewrite IH.
Qed.

Lemma no_blanks_app l1 l2 : no_blanks (l1 ++ l2) = no_blanks l1 ++ no_blanks l2.
Proof. apply List.filter_app. Qed.

Lemma clean_steps_mixed rooted l stack : plain_list (no_blanks l) ->
  fold_left (clean_step rooted) l stack = rev (no_blanks l) ++ stack.
Proof.
  revert stack. induction l as [| e l IH]; intros stack; [done |]. rewrite no_blanks_cons. cbn [fold_left].
  destruct (String.eqb e "") eqn:E.
  - intros Hl. apply String.eqb_eq in E as ->. by apply IH.
  - intros Hl. apply Forall_cons in Hl as [He Hl]. rewrite clean_step_plain by done. rewrite IH by done.
    cbn [rev]. by rewrite <- app_assoc.
Qed.

(** The text of a rooted path, blanks between slashes included. *)
Lemma Clean_Join l : l <> [] -> Forall (fun e => free_of slash e = true) l -> plain_list (no_blanks l) ->
  Clean ("/" +:+ Join l "/") = abs_path (no_blanks l).
Proof.
  intros Hne Hf Hp. rewrite (proj1 (Clean_rooted ("/" +:+ Join l "/") eq_refl)). f_equal. unfold clean_elems.
  change ("/" +:+ Join l "/") with ("" +:+ (slash ::: Join l (chr slash))). rewrite Split_app, Split_Join by done.
  cbn [fold_left IsAbs]. rewrite clean_steps_mixed by done. by rewrite app_nil_r, rev_involutive.
Qed.

Lemma Join_app l1 l2 sep : l1 <> [] -> l2 <> [] -> Join (l1 ++ l2) sep = Join l1 sep +:+ sep +:+ Join l2 sep.
Proof.
  intros H1 H2. induction l1 as [| x l1 IH]; [done |]. destruct l1 as [| y l1].
  - destruct l2; [done |]. done.
  - change (Join ((x :: y :: l1) ++ l2) sep) with (x +:+ sep +:+ Join ((y :: l1) ++ l2) sep).
    change (Join (x :: y :: l1) sep) with (x +:+ sep +:+ Join (y :: l1) sep). rewrite IH by done.
    by rewrite !append_assoc.
Qed.

(** A non-empty list whose text is the path's after the slash. *)
Definition elems_of (l : list string) : list string := match l with [] => [""] | _ => l end.

Lemma abs_path_elems l : abs_path l = "/" +:+ Join (elems_of l) "/".
Proof. by destruct l. Qed.

Lemma elems_of_spec l : plain_list l ->
  elems_of l <> [] /\ Forall (fun e => free_of slash e = true) (elems_of l) /\ no_blanks (elems_of l) = l.
Proof.
  intros Hl. split; [by destruct l |]. split; [| destruct l; [done | by apply no_blanks_plain]].
  destruct l; [by repeat constructor | by apply plain_free].
Qed.

Lemma path_join_eq l : path_join l = match no_blanks l with [] => "" | parts => Clean (Join parts "/") end.
Proof. done. Qed.

Lemma path_join_rel l r : plain_list l -> plain_list r -> r <> [] ->
  path_join [abs_path l; Join r "/"] = abs_path (l ++ r).
Proof.
  intros Hl Hr Hne. destruct (elems_of_spec l Hl) as (He & Hf & Hb). unfold path_join.
  assert (Join r "/" <> "") as Hj.
  { destruct r as [| x r]; [done |]. apply Forall_cons in Hr as [(Hx & _)%plain_elem _].
    destruct r; [done |]. change (x +:+ ("/" +:+ Join (s :: r) "/") <> ""). by destruct x. }
  cbn [List.filter]. rewrite (proj2 (String.eqb_neq _ "") Hj). change (String.eqb (abs_path l) "") with false. cbn [negb].
  change (Join [abs_path l; Join r "/"] "/") with (abs_path l +:+ "/" +:+ Join r "/").
  rewrite abs_path_elems, !append_assoc, <- Join_app by done. rewrite Clean_Join.
  - by rewrite no_blanks_app, Hb, no_blanks_plain.
  - by destruct (elems_of l).
  - apply Forall_app. split; [done | by apply plain_free].
  - rewrite no_blanks_app, Hb, no_blanks_plain by done. by apply Forall_app.
Qed.

Lemma path_join_abs l r : plain_list l -> plain_list r -> path_join (abs_path l :: r) = abs_path (l ++ r).
Proof.
  intros Hl Hr. destruct r as [| x r].
  - rewrite app_nil_r. unfold path_join. cbn [List.filter]. change (String.eqb (abs_path l) "") with false. cbn [negb].
    change (Join [abs_path l] "/") with (abs_path l). by apply Clean_abs.
  - rewrite <- path_join_rel by done. rewrite !path_join_eq, !no_blanks_cons.
    change (String.eqb (abs_path l) "") with false. rewrite <- (no_blanks_cons x r), (no_blanks_plain (x :: r)) by done.
    apply Forall_cons in Hr as [(Hx & _)%plain_elem _].
    assert (Join (x :: r) "/" <> "") as Hj.
    { destruct r; [done |]. change (x +:+ ("/" +:+ Join (s :: r) "/") <> ""). by destruct x. }
    by rewrite (proj2 (String.eqb_neq _ "") Hj).
Qed.

(** ** Directories *)
Lemma split_last_free e : free_of slash e = true -> split_last e = ("", e).
Proof.
  induction e as [| c e IH]; cbn; [done |]. intros [Hc He]%andb_true_iff. rewrite IH by done. cbn.
  apply negb_true_iff in Hc. by rewrite Hc.
Qed.

Lemma split_last_slash p e : free_of slash e = true -> split_last (p +:+ "/" +:+ e) = (p +:+ "/", e).
Proof.
  intros He. induction p as [| c p IH].
  - change ("" +:+ "/" +:+ e) with (slash ::: e). cbn [split_last]. by rewrite split_last_free.
  - rewrite !(append_cons c p). cbn [split_last]. rewrite IH.
    assert (String.eqb (p +:+ "/") "" = false) as ->; [| done]. by destruct p.
Qed.

Lemma Dir_abs l e : plain_list l -> plain e = true -> Dir (abs_path (l ++ [e])) = abs_path l.
Proof.
  intros Hl He. apply plain_elem in He as Hp. destruct (elems_of_spec l Hl) as (Hne & Hf & Hb). unfold Dir.
  destruct l as [| x l].
  - change (abs_path ([] ++ [e])) with ("" +:+ "/" +:+ e). rewrite split_last_slash by tauto. done.
  - assert (abs_path ((x :: l) ++ [e]) = abs_path (x :: l) +:+ "/" +:+ e) as ->.
    { unfold abs_path. by rewrite Join_app, !append_assoc. }
    rewrite split_last_slash by tauto. cbn [fst].
    assert (abs_path (x :: l) +:+ "/" = "/" +:+ Join ((x :: l) ++ [""]) "/") as ->.
    { unfold abs_path. rewrite Join_app by done. by rewrite !append_assoc. }
    rewrite Clean_Join; [by rewrite no_blanks_app, no_blanks_plain, app_nil_r by done | done | |].
    + apply Forall_app. split; [by apply plain_free | by repeat constructor].
    + by rewrite no_blanks_app, no_blanks_plain, app_nil_r by done.
Qed.

Lemma Dir_root : Dir (abs_path []) = abs_path [].
Proof. reflexivity. Qed.

(** ** Relative paths *)
Lemma strip_common_prefix a r : strip_common a (a ++ r) = ([], r).
Proof. induction a as [| x a IH]; cbn; [by destruct r |]. by rewrite String.eqb_refl. Qed.

Lemma strip_common_spec a b : exists c a' b', a = c ++ a' /\ b = c ++ b' /\ strip_common a b = (a', b').
Proof.
  revert b. induction a as [| x a IH]; intros b.
  - exists [], [], b. by destruct b.
  - destruct b as [| y b]; [by exists [], (x :: a), [] |]. cbn. destruct (String.eqb x y) eqn:E.
    + apply String.eqb_eq in E as ->. destruct (IH b) as (c & a' & b' & -> & -> & ->). by exists (y :: c), a', b'.
    + by exists [], (x :: a), (y :: b).
Qed.

Lemma abs_path_not_dot l : String.eqb (abs_path l) "." = false.
Proof. done. Qed.

Lemma Rel_abs a b : plain_list a -> plain_list b -> a <> b ->
  exists c a' b', a = c ++ a' /\ b = c ++ b' /\ strip_common a b = (a', b') /\
    Rel (abs_path a) (abs_path b) = Ok (Join (map (fun _ => "..") a' ++ b') "/").
Proof.
  intros Ha Hb Hne. destruct (strip_common_spec a b) as (c & a' & b' & Ea & Eb & E). exists c, a', b'.
  split_and!; try done. unfold Rel. rewrite !Clean_abs, abs_path_eqb by done.
  rewrite bool_decide_false by done. rewrite !IsAbs_abs, abs_path_not_dot, !clean_elems_abs, E by done. cbn [negb Bool.eqb].
  destruct a' as [| x a']; [done |]. rewrite Ea in Ha. apply Forall_app in Ha as [_ [(_ & _ & Hx & _)%plain_elem _]%Forall_cons].
  by rewrite (proj2 (String.eqb_neq x "..") Hx).
Qed.

(** A target below the base. *)
Lemma Rel_below a r : plain_list a -> plain_list r -> r <> [] -> Rel (abs_path a) (abs_path (a ++ r)) = Ok (Join r "/").
Proof.
  intros Ha Hr Hne. destruct (Rel_abs a (a ++ r)) as (c & a' & b' & _ & _ & E & ->).
  - done.
  - by apply Forall_app.
  - intros E. apply (f_equal length) in E. rewrite length_app in E. destruct r; [done |]. cbn in E. lia.
  - rewrite strip_common_prefix in E. by injection E as <- <-.
Qed.
End paths.
