(* ===== verification/GoFiles.v ===== *)
(** * Files: the part of Go's [os], [io] and [path/filepath] the sources call

    The operations are the class [Files]; the class [LawfulFiles] says what
    they do to the tree of files, for paths that reach their entry without
    going through a symbolic link.  Every operation may fail at any time; the
    laws say what a failure can leave behind.  Other processes do not touch
    the tree between two operations. *)
From S2P Require Import Prelude GoStrings GoPath Paths.

Module files.
Import filepath paths.

(** ** Trees *)
Inductive node :=
  | Dir (perm : Z)
  | File (perm : Z) (content : string)
  | Symlink (target : string)
  | Device (perm : Z) (dev : Z).
#[export] Instance node_eq_dec : EqDecision node.
Proof. solve_decision. Defined.

Inductive kind := KDir | KRegular | KSymlink | KOther.
#[export] Instance kind_eq_dec : EqDecision kind.
Proof. solve_decision. Defined.

(** Permission bits, one octal digit each for the user, the group and others. *)
Definition rwx (u g o : Z) : Z := 64 * u + 8 * g + o.

(** What [fs.FileInfo] tells: the type bits and the permission bits. *)
Record info := { i_kind : kind; i_perm : Z }.

Definition kind_of (n : node) : kind :=
  match n with Dir _ => KDir | File _ _ => KRegular | Symlink _ => KSymlink | Device _ _ => KOther end.
Definition perm_of (n : node) : Z :=
  match n with Dir p | File p _ | Device p _ => p | Symlink _ => rwx 7 7 7 end.
Definition info_of (n : node) : info := {| i_kind := kind_of n; i_perm := perm_of n |}.

(** A tree maps the elements of an absolute path to the entry there. *)
Abbreviation tree := (gmap (list string) node).

Definition is_dir (t : tree) (l : list string) : Prop := exists p, t !! l = Some (Dir p).
Definition parent (l : list string) : list string := removelast l.

Definition placed (t : tree) (l : list string) : Prop :=
  plain_list l /\ (l <> [] -> match t !! parent l with Some (Dir _) => True | _ => False end).
#[export] Instance placed_dec t l : Decision (placed t l).
Proof. unfold placed. apply and_dec; [apply _ |]. apply impl_dec; [apply _ |]. destruct (t !! parent l) as [[] |]; apply _. Defined.

(** Every entry has a plain path, in a directory. *)
Definition well_formed (t : tree) : Prop := map_Forall (fun l _ => placed t l) t.
#[export] Instance well_formed_dec t : Decision (well_formed t).
Proof. unfold well_formed. apply _. Defined.

(** No symbolic link on the way to the entry. *)
Definition reaches (t : tree) (l : list string) : Prop :=
  plain_list l /\ forall q target, q `prefix_of` l -> q <> l -> t !! q <> Some (Symlink target).
(** ... nor at its end. *)
Definition solid (t : tree) (l : list string) : Prop :=
  reaches t l /\ forall target, t !! l <> Some (Symlink target).

(** Only entries at and below [l] may differ. *)
Definition only_under (l : list string) (t t' : tree) : Prop := forall q, ~ l `prefix_of` q -> t' !! q = t !! q.
(** The tree without [l] and what is below. *)
Definition prune (l : list string) (t : tree) : tree := filter (fun kv => ~ l `prefix_of` kv.1) t.

Definition ErrNotExist : string := "fs.ErrNotExist".
Definition ErrExist : string := "fs.ErrExist".

(** ** The operations *)
(** An open file is named by its path. *)
Class Files (W : Type) := {
  getwd : M W string;
  lstat : string -> M W info;
  stat : string -> M W info;
  read_file : string -> M W string;
  read_dir : string -> M W (list (string * kind));
  readlink : string -> M W string;
  mkdir_all : string -> Z -> M W unit;
  mkdir_temp : string -> string -> M W string;
  create_temp : string -> string -> M W string;
  write_file : string -> string -> Z -> M W unit;
  symlink : string -> string -> M W unit;
  mknod : string -> Z -> Z -> M W unit;
  rename : string -> string -> M W unit;
  remove : string -> M W unit;
  remove_all : string -> M W unit;
  open_read : string -> M W unit;
  create_excl : string -> Z -> M W unit;
  io_copy : string -> string -> M W unit;      (* destination, source *)
  file_write : string -> string -> M W unit;
  file_chmod : string -> Z -> M W unit;
  file_close : string -> M W unit;
  max_depth : nat                              (* no longer path can be listed: PATH_MAX *)
}.

(** Go on with whatever an operation returned. *)
Definition attempt {W A B} (m : M W A) (k : result A -> M W B) : M W B := fun w => let '(r, w1) := m w in k r w1.

(** A call whose outcome is ignored, and a deferred function. *)
Definition ignore {W A} (m : M W A) : W -> W := fun w => (m w).2.
Definition finally {W A} (m : M W A) (f : result A -> W -> W) : M W A := fun w => let '(r, w1) := m w in (r, f r w1).

(** [filepath.Abs]. *)
Definition Abs {W} `{Files W} (path : string) : M W string :=
  if IsAbs path then mret (Clean path) else wd ← getwd; mret (path_join [wd; path]).

(** ** [filepath.WalkDir]

    An entry: its type, and its information when already known.  No callback
    here returns [SkipDir].  The fuel is the number of levels, see
    [max_depth]. *)
Record entry := { e_kind : kind; e_info : option info }.

Section walk.
Context {W : Type} `{Files W}.
Variable fn : string -> option entry -> option error -> M W unit.

Fixpoint walk_each (visit : string -> entry -> M W unit) (path : string) (entries : list (string * kind)) : M W unit :=
  match entries with
  | [] => mret tt
  | (name, k) :: rest =>
      _ ← visit (path_join [path; name]) {| e_kind := k; e_info := None |};
      walk_each visit path rest
  end.

Fixpoint walk (fuel : nat) (path : string) (d : entry) : M W unit :=
  match fuel with
  | O => mret tt
  | S fuel =>
      _ ← fn path (Some d) None;
      if negb (bool_decide (e_kind d = KDir)) then mret tt else
      attempt (read_dir path) (fun r =>
        match r with
        | Err e => fn path (Some d) (Some e)
        | Ok entries => walk_each (walk fuel) path entries
        end)
  end.

Definition WalkDir (root : string) : M W unit :=
  attempt (lstat root) (fun r =>
    match r with
    | Err e => fn root None (Some e)
    | Ok i => walk (S (S max_depth)) root {| e_kind := i_kind i; e_info := Some i |}
    end).
End walk.

(** [entry.Info()]. *)
Definition entry_info {W} `{Files W} (path : string) (d : entry) : M W info :=
  match e_info d with Some i => mret i | None => lstat path end.

(** ** What the operations do *)
(** What one run of an operation may do to the tree. *)
Definition reads {W A : Type} (tree_of : W -> tree) (m : M W A) (w : W) (post : result A -> Prop) : Prop :=
  tree_of (m w).2 = tree_of w /\ post (m w).1.
Definition writes {W A : Type} (tree_of : W -> tree) (m : M W A) (w : W) (post : result A -> tree -> Prop) : Prop :=
  post (m w).1 (tree_of (m w).2).

Definition not_exist (e : error) : Prop := errors_Is e ErrNotExist = true.

(** A device may read as anything. *)
Definition may_read (t : tree) (l : list string) (s : string) : Prop :=
  match t !! l with Some (File _ content) => content = s | Some (Device _ _) => True | _ => False end.

(** New directories on the way to [l]. *)
Definition grown (l : list string) (perm : Z) (t t' : tree) : Prop :=
  t ⊆ t' /\ forall q n, t' !! q = Some n -> t !! q = None -> q `prefix_of` l /\ n = Dir perm.

Class LawfulFiles (W : Type) `{Files W} := {
  tree_of : W -> tree;
  umask : Z;
  cwd : string;
  tree_wf w : well_formed (tree_of w);
  cwd_abs : IsAbs cwd = true;
  getwd_law w : reads tree_of getwd w (fun r => match r with Ok d => d = cwd | Err _ => True end);
  lstat_law l w : reaches (tree_of w) l -> reads tree_of (lstat (abs_path l)) w (fun r =>
    match r with Ok i => info_of <$> tree_of w !! l = Some i | Err e => not_exist e -> tree_of w !! l = None end);
  lstat_same path w : tree_of (lstat path w).2 = tree_of w;
  stat_same path w : tree_of (stat path w).2 = tree_of w;
  stat_law l w : reaches (tree_of w) l -> tree_of w !! l = None -> is_ok (stat (abs_path l) w).1 = false;
  read_file_law l w : solid (tree_of w) l -> reads tree_of (read_file (abs_path l)) w (fun r =>
    match r with Ok s => may_read (tree_of w) l s | Err e => not_exist e -> tree_of w !! l = None end);
  read_dir_law l w : solid (tree_of w) l -> reads tree_of (read_dir (abs_path l)) w (fun r =>
    match r with
    | Ok entries => is_dir (tree_of w) l /\ (length l < max_depth)%nat /\ NoDup (map fst entries) /\
        forall c k, (c, k) ∈ entries <-> kind_of <$> tree_of w !! (l ++ [c]) = Some k
    | Err _ => True
    end);
  readlink_law l w : reaches (tree_of w) l -> reads tree_of (readlink (abs_path l)) w (fun r =>
    match r with Ok target => tree_of w !! l = Some (Symlink target) | Err _ => True end);
  mkdir_all_law l perm w : solid (tree_of w) l -> writes tree_of (mkdir_all (abs_path l) perm) w (fun r t' =>
    grown l (Z.ldiff perm umask) (tree_of w) t' /\ match r with Ok _ => is_dir t' l | Err _ => True end);
  mkdir_temp_law l pattern w : solid (tree_of w) l -> writes tree_of (mkdir_temp (abs_path l) pattern) w (fun r t' =>
    match r with
    | Ok path => exists name, path = abs_path (l ++ [name]) /\ plain name = true /\ HasPrefix name pattern = true /\
        tree_of w !! (l ++ [name]) = None /\ t' = <[l ++ [name] := Dir (Z.ldiff (rwx 7 0 0) umask)]> (tree_of w)
    | Err _ => t' = tree_of w
    end);
  create_temp_law l pattern w : solid (tree_of w) l -> writes tree_of (create_temp (abs_path l) pattern) w (fun r t' =>
    match r with
    | Ok path => exists name, path = abs_path (l ++ [name]) /\ plain name = true /\ HasPrefix name pattern = true /\
        tree_of w !! (l ++ [name]) = None /\ t' = <[l ++ [name] := File (Z.ldiff (rwx 6 0 0) umask) ""]> (tree_of w)
    | Err _ => t' = tree_of w
    end);
  write_file_law l content perm w : solid (tree_of w) l -> writes tree_of (write_file (abs_path l) content perm) w (fun r t' =>
    match r with
    | Ok _ =>
        match tree_of w !! l with
        | None => t' = <[l := File (Z.ldiff perm umask) content]> (tree_of w)
        | Some (File p _) => t' = <[l := File p content]> (tree_of w)
        | Some (Device _ _) => t' = tree_of w   (* the device takes the bytes *)
        | Some _ => False
        end
    | Err _ => only_under l (tree_of w) t'
    end);
  symlink_law target l w : reaches (tree_of w) l -> writes tree_of (symlink target (abs_path l)) w (fun r t' =>
    match r with
    | Ok _ => tree_of w !! l = None /\ t' = <[l := Symlink target]> (tree_of w)
    | Err _ => t' = tree_of w
    end);
  mknod_law l perm dev w : reaches (tree_of w) l -> writes tree_of (mknod (abs_path l) perm dev) w (fun r t' =>
    match r with
    | Ok _ => tree_of w !! l = None /\ t' = <[l := Device (Z.ldiff perm umask) dev]> (tree_of w)
    | Err e => t' = tree_of w /\ (errors_Is e ErrExist = true -> tree_of w !! l <> None)
    end);
  rename_law l l2 w : reaches (tree_of w) l -> reaches (tree_of w) l2 ->
    ~ l `prefix_of` l2 -> ~ l2 `prefix_of` l -> writes tree_of (rename (abs_path l) (abs_path l2)) w (fun r t' =>
    match r with
    | Ok _ => (forall q, t' !! (l2 ++ q) = tree_of w !! (l ++ q)) /\ (forall q, t' !! (l ++ q) = None) /\
        (forall q, ~ l `prefix_of` q -> ~ l2 `prefix_of` q -> t' !! q = tree_of w !! q)
    | Err _ => t' = tree_of w
    end);
  remove_law l w : reaches (tree_of w) l -> writes tree_of (remove (abs_path l)) w (fun r t' =>
    match r with Ok _ => t' = delete l (tree_of w) | Err _ => t' = tree_of w end);
  remove_all_law l w : reaches (tree_of w) l -> writes tree_of (remove_all (abs_path l)) w (fun r t' =>
    match r with Ok _ => t' = prune l (tree_of w) | Err _ => only_under l (tree_of w) t' /\ t' ⊆ tree_of w end);
  open_read_law path w : tree_of (open_read path w).2 = tree_of w;
  file_close_law path w : tree_of (file_close path w).2 = tree_of w;
  create_excl_law l perm w : reaches (tree_of w) l -> writes tree_of (create_excl (abs_path l) perm) w (fun r t' =>
    match r with
    | Ok _ => tree_of w !! l = None /\ t' = <[l := File (Z.ldiff perm umask) ""]> (tree_of w)
    | Err _ => t' = tree_of w
    end);
  io_copy_law l src w p c q content : reaches (tree_of w) l -> reaches (tree_of w) src ->
    tree_of w !! l = Some (File p c) -> tree_of w !! src = Some (File q content) ->
    writes tree_of (io_copy (abs_path l) (abs_path src)) w (fun r t' =>
    match r with
    | Ok _ => t' = <[l := File p content]> (tree_of w)
    | Err _ => exists c', t' = <[l := File p c']> (tree_of w)
    end);
  file_write_law l content w p : reaches (tree_of w) l -> tree_of w !! l = Some (File p "") ->
    writes tree_of (file_write (abs_path l) content) w (fun r t' =>
    match r with
    | Ok _ => t' = <[l := File p content]> (tree_of w)
    | Err _ => exists c', t' = <[l := File p c']> (tree_of w)
    end);
  file_chmod_law l perm w p c : reaches (tree_of w) l -> tree_of w !! l = Some (File p c) ->
    writes tree_of (file_chmod (abs_path l) perm) w (fun r t' =>
    match r with Ok _ => t' = <[l := File perm c]> (tree_of w) | Err _ => t' = tree_of w end)
}.
End files.
