(* ===== verification/FilesLogic.v ===== *)
(** * Reasoning about programs on files

    [post m w Q]: running [m] from [w] gives a result and a world in [Q].  Its
    rules follow the combinators of the programs, and the lemmas on trees say
    how the operations' effects compose. *)
From S2P Require Import Prelude GoStrings GoPath Paths GoFiles.

Module fileslogic.
Import filepath paths files.

Definition post {W A} (m : M W A) (w : W) (Q : result A -> W -> Prop) : Prop := Q (m w).1 (m w).2.

Section post.
Context {W : Type}.

Lemma post_mono {A} (m : M W A) w (P Q : result A -> W -> Prop) :
  post m w P -> (forall r w', P r w' -> Q r w') -> post m w Q.
Proof. unfold post. auto. Qed.

Lemma post_ret {A} (a : A) w (Q : result A -> W -> Prop) : Q (Ok a) w -> post (mret a) w Q.
Proof. done. Qed.

Lemma post_throw {A} e w (Q : result A -> W -> Prop) : Q (Err e) w -> post (throw e) w Q.
Proof. done. Qed.

Lemma post_lift {A} (r : result A) w (Q : result A -> W -> Prop) : Q r w -> post (lift r) w Q.
Proof. done. Qed.

Lemma post_bind {A B} (m : M W A) (f : A -> M W B) w (Q : result B -> W -> Prop) :
  post m w (fun r w' => match r with Ok a => post (f a) w' Q | Err e => Q (Err e) w' end) -> post (m ≫= f) w Q.
Proof. unfold post, mbind, M_bind. destruct (m w) as [[a | e] w1]; done. Qed.

Lemma post_wrapM {A} f (m : M W A) w (Q : result A -> W -> Prop) :
  post m w (fun r w' => Q (wrap_err f r) w') -> post (wrapM f m) w Q.
Proof. unfold post, wrapM. destruct (m w) as [r w1]. done. Qed.

Lemma post_attempt {A B} (m : M W A) (k : result A -> M W B) w (Q : result B -> W -> Prop) :
  post m w (fun r w' => post (k r) w' Q) -> post (attempt m k) w Q.
Proof. unfold post, attempt. destruct (m w) as [r w1]. done. Qed.

Lemma post_finally {A} (m : M W A) f w (Q : result A -> W -> Prop) :
  post m w (fun r w' => Q r (f r w')) -> post (finally m f) w Q.
Proof. unfold post, finally. destruct (m w) as [r w1]. done. Qed.

Lemma post_reads {A : Type} (tree_of : W -> tree) (m : M W A) (w : W) (P : result A -> Prop) (Q : result A -> W -> Prop) :
  reads tree_of m w P -> (forall r w', tree_of w' = tree_of w -> P r -> Q r w') -> post m w Q.
Proof. intros [H1 H2] HQ. by apply HQ. Qed.

Lemma post_writes {A : Type} (tree_of : W -> tree) (m : M W A) (w : W) (P : result A -> tree -> Prop) (Q : result A -> W -> Prop) :
  writes tree_of m w P -> (forall r w', P r (tree_of w') -> Q r w') -> post m w Q.
Proof. intros H1 HQ. by apply HQ. Qed.

(** An operation of which only the tree it leaves matters. *)
Lemma post_tree {A : Type} (tree_of : W -> tree) (m : M W A) (w : W) (Q : result A -> W -> Prop) :
  tree_of (m w).2 = tree_of w -> (forall r w', tree_of w' = tree_of w -> Q r w') -> post m w Q.
Proof. intros H1 HQ. by apply HQ. Qed.

Lemma post_ignore {A} (m : M W A) w (P : W -> Prop) : post m w (fun _ w' => P w') -> P (ignore m w).
Proof. done. Qed.

Lemma post_if {A} (b : bool) (m n : M W A) w (Q : result A -> W -> Prop) :
  (b = true -> post m w Q) -> (b = false -> post n w Q) -> post (if b then m else n) w Q.
Proof. destruct b; auto. Qed.
End post.

(** ** Trees *)
Lemma prefix_snoc_inv {A} (q l : list A) c : q `prefix_of` l ++ [c] -> q = l ++ [c] \/ q `prefix_of` l.
Proof.
  intros [k E]. destruct k as [| x k _] using rev_ind; [left; by rewrite app_nil_r in E |].
  rewrite app_assoc in E. apply app_inj_tail in E as [-> _]. right. by exists k.
Qed.

Lemma prefix_app_self {A} (l k : list A) : l `prefix_of` l ++ k.
Proof. by exists k. Qed.
#[export] Hint Resolve prefix_app_self : core.

Lemma parent_snoc l c : parent (l ++ [c]) = l.
Proof. apply removelast_last. Qed.

Lemma snoc_not_nil {A} (l : list A) c : l ++ [c] <> [].
Proof. by destruct l. Qed.

Lemma not_prefix_snoc {A} (l : list A) c : ~ l ++ [c] `prefix_of` l.
Proof. intros [k E]. apply (f_equal length) in E. rewrite !length_app in E. cbn in E. lia. Qed.

Lemma prefix_sibling {A} (l : list A) a b y : l ++ [a] `prefix_of` l ++ b :: y -> a = b.
Proof. intros [k E]. rewrite <- app_assoc in E. apply app_inv_head in E. by injection E. Qed.

Lemma only_under_refl l t : only_under l t t.
Proof. by intros q. Qed.

Lemma only_under_trans l t1 t2 t3 : only_under l t1 t2 -> only_under l t2 t3 -> only_under l t1 t3.
Proof. intros H1 H2 q Hq. by rewrite (H2 q Hq), (H1 q Hq). Qed.

Lemma only_under_weaken l k t t' : only_under (l ++ k) t t' -> only_under l t t'.
Proof. intros Ho q Hq. apply Ho. intros [k' ->]. apply Hq. rewrite <- app_assoc. auto. Qed.

Lemma only_under_insert l n t : only_under l t (<[l := n]> t).
Proof. intros q Hq. apply lookup_insert_ne. by intros <-. Qed.

Lemma only_under_delete l t : only_under l t (delete l t).
Proof. intros q Hq. apply lookup_delete_ne. by intros <-. Qed.

Lemma lookup_prune l t q : prune l t !! q = if decide (l `prefix_of` q) then None else t !! q.
Proof.
  unfold prune. destruct (decide (l `prefix_of` q)) as [Hq | Hq].
  - apply map_lookup_filter_None. right. intros n _. cbn. tauto.
  - destruct (t !! q) as [n |] eqn:E.
    + by apply map_lookup_filter_Some.
    + apply map_lookup_filter_None. by left.
Qed.

Lemma only_under_prune l t : only_under l t (prune l t).
Proof. intros q Hq. rewrite lookup_prune. by destruct (decide _). Qed.

Lemma prune_subset l t : prune l t ⊆ t.
Proof. apply map_filter_subseteq. Qed.

Lemma well_formed_at t l n : well_formed t -> t !! l = Some n -> plain_list l /\ (l <> [] -> is_dir t (parent l)).
Proof.
  intros Ht Hl. destruct (Ht l n Hl) as [Hp Hd]. split; [done |]. intros Hne. specialize (Hd Hne).
  unfold is_dir. destruct (t !! parent l) as [[p | | |] |]; eauto; done.
Qed.

(** What is above an entry is a directory. *)
Lemma above_is_dir t l k n : well_formed t -> t !! (l ++ k) = Some n -> k <> [] -> is_dir t l.
Proof.
  intros Ht. revert n. induction k as [| c k IH] using rev_ind; intros n Hl Hne; [done |].
  rewrite app_assoc in Hl. destruct (well_formed_at _ _ _ Ht Hl) as [_ Hd]. specialize (Hd (snoc_not_nil _ _)).
  rewrite parent_snoc in Hd. destruct k as [| c' k']; [by rewrite app_nil_r in Hd |]. destruct Hd as [p Hd]. by eapply IH.
Qed.

Lemma absent_below t l k : well_formed t -> t !! l = None -> t !! (l ++ k) = None.
Proof.
  intros Ht Hl. destruct k as [| c k]; [by rewrite app_nil_r |]. destruct (t !! (l ++ c :: k)) eqn:E; [| done].
  destruct (above_is_dir _ _ _ _ Ht E) as [p Hd]; [done |]. by rewrite Hl in Hd.
Qed.

Lemma not_dir_below t l k n : well_formed t -> t !! l = Some n -> kind_of n <> KDir -> k <> [] -> t !! (l ++ k) = None.
Proof.
  intros Ht Hl Hn Hk. destruct (t !! (l ++ k)) eqn:E; [| done].
  destruct (above_is_dir _ _ _ _ Ht E Hk) as [p Hd]. rewrite Hl in Hd. injection Hd as ->. done.
Qed.

(** A directory is reached without links, and so is what is in it. *)
Lemma dir_reaches t l p c : well_formed t -> t !! l = Some (Dir p) -> plain c = true -> reaches t (l ++ [c]).
Proof.
  intros Ht Hl Hc. destruct (well_formed_at _ _ _ Ht Hl) as [Hp _]. split.
  - apply Forall_app. by repeat constructor.
  - intros q target Hq Hne. apply prefix_snoc_inv in Hq as [-> | [k ->]]; [done |].
    destruct k as [| c' k]; [rewrite app_nil_r in *; by rewrite Hl |].
    destruct (above_is_dir _ _ _ _ Ht Hl) as [p' ->]; done.
Qed.

Lemma entry_reaches t l n : well_formed t -> t !! l = Some n -> reaches t l.
Proof.
  intros Ht Hl. destruct (well_formed_at _ _ _ Ht Hl) as [Hp Hd].
  destruct l as [| c l _] using rev_ind.
  { split; [exact Hp |]. intros q target Hq Hne. by destruct Hne, (prefix_nil_inv q Hq). }
  destruct (Hd (snoc_not_nil _ _)) as [p Hpar]. rewrite parent_snoc in Hpar. eapply dir_reaches; [done | done |].
  by apply plain_snoc in Hp as [_ ?].
Qed.

Lemma dir_solid t l p : well_formed t -> t !! l = Some (Dir p) -> solid t l.
Proof.
  intros Ht Hl. destruct (well_formed_at _ _ _ Ht Hl) as [Hp _]. split; [split; [done |] | by rewrite Hl].
  intros q target [k ->] Hne. destruct k as [| c k]; [by rewrite app_nil_r in Hne |].
  destruct (above_is_dir _ _ _ _ Ht Hl) as [p' ->]; done.
Qed.

Lemma reaches_prefix t l k : reaches t (l ++ k) -> k <> [] -> solid t l.
Proof.
  intros [Hp Hl] Hk. apply Forall_app in Hp as [Hp _]. split; [split; [done |] |].
  - intros q target Hq Hne. apply Hl; [by apply prefix_app_r |]. intros ->. destruct Hq as [k' E].
    apply (f_equal length) in E. rewrite !length_app in E. destruct k; [done |]. cbn in E. lia.
  - intros target. apply Hl; [auto |]. intros E. apply (f_equal length) in E. rewrite length_app in E.
    destruct k; [done |]. cbn in E. lia.
Qed.

Lemma reaches_insert t q l n : reaches t q -> (forall target, n <> Symlink target) -> reaches (<[l := n]> t) q.
Proof.
  intros [Hp Hq] Hn. split; [done |]. intros q' target Hpre Hne. destruct (decide (q' = l)) as [-> | Hl].
  - rewrite lookup_insert_eq. intros [= E]. by apply (Hn target).
  - rewrite lookup_insert_ne by done. by apply Hq.
Qed.

Lemma solid_insert t q l n : solid t q -> (forall target, n <> Symlink target) -> solid (<[l := n]> t) q.
Proof.
  intros [Hr Hq] Hn. split; [by apply reaches_insert |]. intros target. destruct (decide (q = l)) as [-> | Hl].
  - rewrite lookup_insert_eq. intros [= E]. by apply (Hn target).
  - by rewrite lookup_insert_ne.
Qed.

(** Two places of which neither is below the other. *)
Definition apart (a b : list string) : Prop := ~ a `prefix_of` b /\ ~ b `prefix_of` a.

Lemma apart_below a b x y : apart a b -> ~ (a ++ x) `prefix_of` (b ++ y).
Proof.
  intros [H1 H2] Hp. assert (a `prefix_of` b ++ y) as Ha by (by eapply prefix_app_l).
  destruct (prefix_weak_total a b (b ++ y) Ha (prefix_app_self _ _)); done.
Qed.

Lemma apart_sym a b : apart a b -> apart b a.
Proof. intros []. by split. Qed.

(** Growing by one directory. *)
Lemma grown_one t t' l c perm : well_formed t -> is_dir t l -> t !! (l ++ [c]) = None ->
  grown (l ++ [c]) perm t t' -> is_dir t' (l ++ [c]) -> t' = <[l ++ [c] := Dir perm]> t.
Proof.
  intros Ht [p Hl] Hc [Hsub Hnew] [p' Hd]. apply map_eq. intros q. destruct (decide (q = l ++ [c])) as [-> | Hne].
  - rewrite lookup_insert_eq. destruct (Hnew _ _ Hd Hc) as [_ E]. by rewrite Hd, E.
  - rewrite lookup_insert_ne by done. destruct (t !! q) as [n |] eqn:E.
    + eapply lookup_weaken; done.
    + destruct (t' !! q) as [n |] eqn:E'; [| done]. destruct (Hnew _ _ E' E) as [Hq _].
      apply prefix_snoc_inv in Hq as [-> | [k ->]]; [done |]. destruct k as [| c' k].
      * rewrite app_nil_r in *. by rewrite Hl in E.
      * destruct (above_is_dir _ _ _ _ Ht Hl) as [? Hx]; [done |]. by rewrite Hx in E.
Qed.

Lemma grown_only_under t t' l c perm : well_formed t -> is_dir t l -> grown (l ++ [c]) perm t t' -> only_under (l ++ [c]) t t'.
Proof.
  intros Ht [p Hl] [Hsub Hnew] q Hq. destruct (t !! q) as [m |] eqn:E; [by eapply lookup_weaken |].
  destruct (t' !! q) as [m |] eqn:E'; [| done]. destruct (Hnew _ _ E' E) as [[-> | [k ->]]%prefix_snoc_inv _].
  - by destruct Hq.
  - destruct k as [| c' k]; [rewrite app_nil_r in *; by rewrite Hl in E |].
    destruct (above_is_dir _ _ _ _ Ht Hl) as [? Hx]; [done |]. by rewrite Hx in E.
Qed.

Lemma reaches_outside t t' k l : reaches t l -> only_under k t t' -> ~ k `prefix_of` l -> reaches t' l.
Proof.
  intros [Hp Hl] Hu Hk. split; [done |]. intros q target Hq Hne. rewrite Hu; [by apply Hl |].
  intros Hkq. apply Hk. by etrans.
Qed.

Lemma reaches_subset t t' l : reaches t l -> t' ⊆ t -> reaches t' l.
Proof. intros [Hp Hl] Hsub. split; [done |]. intros q target Hq Hne Hs. eapply Hl; [done | done |]. by eapply lookup_weaken. Qed.

Lemma grown_same t t' l perm q : grown l perm t t' -> ~ q `prefix_of` l -> t' !! q = t !! q.
Proof.
  intros [Hsub Hnew] Hq. destruct (t !! q) as [n |] eqn:E; [by eapply lookup_weaken |].
  destruct (t' !! q) as [n |] eqn:E'; [| done]. by destruct (Hnew _ _ E' E).
Qed.

Lemma grown_symlink t t' l perm q target : grown l perm t t' -> t' !! q = Some (Symlink target) -> t !! q = Some (Symlink target).
Proof.
  intros [Hsub Hnew] Hq. destruct (t !! q) as [n |] eqn:E.
  - assert (t' !! q = Some n) as Hq' by (by eapply lookup_weaken). congruence.
  - by destruct (Hnew _ _ Hq E).
Qed.

Lemma grown_reaches t t' l perm q : grown l perm t t' -> reaches t q -> reaches t' q.
Proof.
  intros Hg [Hp Hq]. split; [done |]. intros q' target Hpre Hne Hs. eapply Hq; [done | done |]. by eapply grown_symlink.
Qed.

Lemma grown_solid t t' l perm q : grown l perm t t' -> solid t q -> solid t' q.
Proof. intros Hg [Hr Hq]. split; [by eapply grown_reaches |]. intros target Hs. eapply Hq. by eapply grown_symlink. Qed.

Lemma grown_trans l perm t1 t2 t3 : grown l perm t1 t2 -> grown l perm t2 t3 -> grown l perm t1 t3.
Proof.
  intros [S1 N1] [S2 N2]. split; [by etrans |]. intros q n E3 E1. destruct (t2 !! q) as [m |] eqn:E2; [| by eapply N2].
  assert (t3 !! q = Some m) as E3' by (by eapply lookup_weaken). rewrite E3 in E3'. injection E3' as ->. by eapply N1.
Qed.
End fileslogic.
