(* ===== verification/Disk.v ===== *)
(** * A disk: a concrete instance of the laws of [GoFiles]

    The tree with a plan of which operations fail.  An operation that would
    leave an entry without its directory fails without effect.  Paths are
    looked up as they are, without following links (only [stat] follows a
    link at the end of its path). *)
From S2P Require Import Prelude GoStrings GoPath Paths GoFiles FilesLogic.

Module disk.
Import filepath paths files fileslogic.

Record Disk := { disk_tree : tree; disk_wf : well_formed disk_tree; disk_plan : list bool (* true: the operation fails *) }.

Definition EIO : error := Errorf "input/output error" [].
Definition EINVAL : error := Errorf "invalid argument" [].
Definition ENOENT : error := Sentinel ErrNotExist.
Definition EEXIST : error := Sentinel ErrExist.

(** One operation: what it returns and the tree it would leave. *)
Definition on_disk {A : Type} (f : tree -> result (A * tree)) : M Disk A := fun d =>
  let rest := tl (disk_plan d) in
  let d0 := {| disk_tree := disk_tree d; disk_wf := disk_wf d; disk_plan := rest |} in
  if hd false (disk_plan d) then (Err EIO, d0) else
  match f (disk_tree d) with
  | Err e => (Err e, d0)
  | Ok (a, t') =>
      match decide (well_formed t') with
      | left Hwf => (Ok a, {| disk_tree := t'; disk_wf := Hwf; disk_plan := rest |})
      | right _ => (Err EINVAL, d0)
      end
  end.

Lemma on_disk_spec {A : Type} (f : tree -> result (A * tree)) (d : Disk) : post (on_disk f) d (fun r d' =>
  match r with
  | Ok a => f (disk_tree d) = Ok (a, disk_tree d')
  | Err e => disk_tree d' = disk_tree d /\ (e = EIO \/ e = EINVAL \/ f (disk_tree d) = Err e)
  end).
Proof.
  unfold post, on_disk. destruct (hd false (disk_plan d)); cbn; [by auto |].
  destruct (f (disk_tree d)) as [[a t'] | e]; cbn; [| by auto]. destruct (decide (well_formed t')); cbn; auto.
Qed.

(** ** The operations on trees *)
Definition look {A : Type} (f : tree -> result A) : tree -> result (A * tree) := fun t => a ← f t; Ok (a, t).

Definition do_lstat (path : string) (t : tree) : result info :=
  match t !! clean_elems path with Some n => Ok (info_of n) | None => Err ENOENT end.

Definition do_stat (path : string) (t : tree) : result info :=
  match t !! clean_elems path with
  | Some (Symlink target) =>
      match t !! clean_elems (if IsAbs target then target else path_join [filepath.Dir path; target]) with
      | Some (Symlink _) => Err EINVAL
      | Some n => Ok (info_of n)
      | None => Err ENOENT
      end
  | Some n => Ok (info_of n)
  | None => Err ENOENT
  end.

Definition do_read (path : string) (t : tree) : result string :=
  match t !! clean_elems path with Some (File _ c) => Ok c | Some _ => Err EINVAL | None => Err ENOENT end.

Definition do_readlink (path : string) (t : tree) : result string :=
  match t !! clean_elems path with Some (Symlink target) => Ok target | Some _ => Err EINVAL | None => Err ENOENT end.

Definition name_in (l k : list string) : option string :=
  match last k with Some c => if decide (k = l ++ [c]) then Some c else None | None => None end.
Definition children (l : list string) (t : tree) : list (string * kind) :=
  omap (fun kv => (fun c => (c, kind_of kv.2)) <$> name_in l kv.1) (map_to_list t).

Definition depth : nat := 100%nat.
Definition do_read_dir (path : string) (t : tree) : result (list (string * kind)) :=
  let l := clean_elems path in
  match t !! l with
  | Some (files.Dir _) => if (length l <? depth)%nat then Ok (children l t) else Err EINVAL
  | Some _ => Err EINVAL
  | None => Err ENOENT
  end.

(** A new entry where there is none. *)
Definition fresh_entry (l : list string) (n : node) (t : tree) : result (unit * tree) :=
  match t !! l with Some _ => Err EEXIST | None => Ok (tt, <[l := n]> t) end.

Fixpoint prefixes (l : list string) : list (list string) :=
  match l with [] => [[]] | c :: l => [] :: map (cons c) (prefixes l) end.
Definition add_dir (perm : Z) (t : tree) (k : list string) : tree :=
  match t !! k with Some _ => t | None => <[k := files.Dir perm]> t end.
Definition do_mkdir_all (path : string) (perm : Z) (t : tree) : result (unit * tree) :=
  let l := clean_elems path in
  let t' := fold_left (add_dir perm) (prefixes l) t in
  match t' !! l with Some (files.Dir _) => Ok (tt, t') | _ => Err EINVAL end.

Definition do_temp (path pattern : string) (n : node) (t : tree) : result (string * tree) :=
  let name := pattern +:+ "0" in
  let l := clean_elems path ++ [name] in
  if negb (plain name) then Err EINVAL else _ ← fresh_entry l n t; Ok (abs_path l, <[l := n]> t).

Definition do_write (path content : string) (perm : Z) (t : tree) : result (unit * tree) :=
  let l := clean_elems path in
  match t !! l with
  | None => Ok (tt, <[l := File perm content]> t)
  | Some (File p _) => Ok (tt, <[l := File p content]> t)
  | Some (Device _ _) => Ok (tt, t)
  | Some _ => Err EINVAL
  end.

Definition rekey (l l2 k : list string) : list string := if decide (l `prefix_of` k) then l2 ++ drop (length l) k else k.
Definition do_rename (path path2 : string) (t : tree) : result (unit * tree) :=
  let l := clean_elems path in
  let l2 := clean_elems path2 in
  if decide (t !! l = None) then Err ENOENT else
  if decide (t !! l2 = None) then Ok (tt, list_to_map (map (fun kv => (rekey l l2 kv.1, kv.2)) (map_to_list t))) else Err EEXIST.

Definition do_remove (path : string) (t : tree) : result (unit * tree) :=
  match t !! clean_elems path with Some _ => Ok (tt, delete (clean_elems path) t) | None => Err ENOENT end.

(** A change of an existing file. *)
Definition on_file (path : string) (f : Z -> string -> result node) (t : tree) : result (unit * tree) :=
  match t !! clean_elems path with
  | Some (File p c) => n ← f p c; Ok (tt, <[clean_elems path := n]> t)
  | _ => Err EINVAL
  end.

Definition the_umask : Z := rwx 0 2 2.
Definition masked (perm : Z) : Z := Z.ldiff perm the_umask.

#[export] Instance disk_files : Files Disk := {|
  getwd := on_disk (look (fun _ => Ok "/work"));
  lstat path := on_disk (look (do_lstat path));
  stat path := on_disk (look (do_stat path));
  read_file path := on_disk (look (do_read path));
  read_dir path := on_disk (look (do_read_dir path));
  readlink path := on_disk (look (do_readlink path));
  mkdir_all path perm := on_disk (do_mkdir_all path (masked perm));
  mkdir_temp path pattern := on_disk (do_temp path pattern (files.Dir (masked (rwx 7 0 0))));
  create_temp path pattern := on_disk (do_temp path pattern (File (masked (rwx 6 0 0)) ""));
  write_file path content perm := on_disk (do_write path content (masked perm));
  symlink target path := on_disk (fresh_entry (clean_elems path) (Symlink target));
  mknod path perm dev := on_disk (fresh_entry (clean_elems path) (Device (masked perm) dev));
  rename path path2 := on_disk (do_rename path path2);
  remove path := on_disk (do_remove path);
  remove_all path := on_disk (fun t => Ok (tt, prune (clean_elems path) t));
  open_read path := on_disk (look (fun t => _ ← do_read path t; Ok tt));
  create_excl path perm := on_disk (fresh_entry (clean_elems path) (File (masked perm) ""));
  io_copy path src := on_disk (fun t => c ← do_read src t; on_file path (fun p _ => Ok (File p c)) t);
  file_write path content := on_disk (on_file path (fun p c => Ok (File p (c +:+ content))));
  file_chmod path perm := on_disk (on_file path (fun _ c => Ok (File perm c)));
  file_close path := on_disk (look (fun _ => Ok tt));
  max_depth := depth
|}.

(** ** Lemmas *)
Lemma look_spec {A : Type} (f : tree -> result A) (d : Disk) : post (on_disk (look f)) d (fun r d' =>
  disk_tree d' = disk_tree d /\ match r with Ok a => f (disk_tree d) = Ok a | Err e => e = EIO \/ e = EINVAL \/ f (disk_tree d) = Err e end).
Proof.
  eapply post_mono; [apply on_disk_spec |]. unfold look. intros [a | e] d'.
  - intros (a' & Ha & [= <- <-])%result_bind_ok. done.
  - intros [-> He]. split; [done |]. destruct He as [-> | [-> | He]]; auto. right; right.
    destruct (f (disk_tree d)); [done | by injection He as ->].
Qed.

Lemma look_reads {A : Type} (f : tree -> result A) (d : Disk) (P : result A -> Prop) :
  (forall a, f (disk_tree d) = Ok a -> P (Ok a)) ->
  (forall e, e = EIO \/ e = EINVAL \/ f (disk_tree d) = Err e -> P (Err e)) -> reads disk_tree (on_disk (look f)) d P.
Proof. intros H1 H2. pose proof (look_spec f d) as [E Hr]. split; [done |]. destruct (on_disk (look f) d) as [[a | e] d']; cbn in *; auto. Qed.

Lemma disk_writes {A : Type} (f : tree -> result (A * tree)) (d : Disk) (P : result A -> tree -> Prop) :
  (forall a t', well_formed t' -> f (disk_tree d) = Ok (a, t') -> P (Ok a) t') ->
  (forall e, e = EIO \/ e = EINVAL \/ f (disk_tree d) = Err e -> P (Err e) (disk_tree d)) -> writes disk_tree (on_disk f) d P.
Proof.
  intros H1 H2. pose proof (on_disk_spec f d) as Hs. unfold post, writes in *. destruct (on_disk f d) as [[a | e] d']; cbn in *.
  - apply H1; [apply disk_wf | done].
  - destruct Hs as [-> He]. by apply H2.
Qed.

Lemma reaches_elems t l : reaches t l -> clean_elems (abs_path l) = l.
Proof. intros [Hp _]. by apply clean_elems_abs. Qed.

Lemma name_in_spec l k c : name_in l k = Some c <-> k = l ++ [c].
Proof.
  unfold name_in. destruct (last k) as [c' |] eqn:E.
  - destruct (decide (k = l ++ [c'])) as [-> | Hne]; split.
    + by intros [= ->].
    + intros E'. apply app_inj_tail in E' as [_ ->]. done.
    + done.
    + intros ->. rewrite last_snoc in E. by injection E as ->.
  - split; [done |]. intros ->. by rewrite last_snoc in E.
Qed.

Lemma children_spec l t c k : (c, k) ∈ children l t <-> kind_of <$> t !! (l ++ [c]) = Some k.
Proof.
  unfold children. rewrite list_elem_of_omap. split.
  - intros ([key n] & Hin & Hf). apply elem_of_map_to_list in Hin. cbn in Hf.
    destruct (name_in l key) as [c' |] eqn:E; [| done]. cbn in Hf. injection Hf as -> <-.
    apply name_in_spec in E as ->. by rewrite Hin.
  - intros Hk. destruct (t !! (l ++ [c])) as [n |] eqn:E; [| done]. injection Hk as <-. exists (l ++ [c], n). split.
    + by apply elem_of_map_to_list.
    + cbn. by rewrite (proj2 (name_in_spec l (l ++ [c]) c)).
Qed.

Lemma children_NoDup l t : NoDup (map fst (children l t)).
Proof.
  unfold children. pose proof (NoDup_fst_map_to_list t) as Hnd. revert Hnd. generalize (map_to_list t). intros kvs.
  induction kvs as [| [k n] kvs IH]; intros Hnd; [constructor |]. cbn [omap list_omap]. apply NoDup_cons in Hnd as [Hk Hnd].
  cbn [fst snd]. destruct (name_in l k) as [c |] eqn:E; cbn; [| by apply IH]. constructor; [| by apply IH].
  intros Hin. apply Hk. apply name_in_spec in E as ->. apply list_elem_of_fmap in Hin as ([c' k'] & -> & Hin).
  apply list_elem_of_omap in Hin as ([key m] & Hin & Hf). cbn in Hf.
  destruct (name_in l key) as [c'' |] eqn:E; [| done]. cbn in Hf. injection Hf as -> <-.
  apply name_in_spec in E as ->. apply list_elem_of_fmap. by exists (l ++ [c'], m).
Qed.

(** *** Directories on the way *)
Lemma prefixes_spec l q : q ∈ prefixes l -> q `prefix_of` l.
Proof.
  revert q. induction l as [| c l IH]; cbn; intros q Hq.
  - apply list_elem_of_singleton in Hq as ->. done.
  - apply elem_of_cons in Hq as [-> | Hq]; [apply prefix_nil |]. apply list_elem_of_fmap in Hq as (q' & -> & Hq').
    by apply prefix_cons, IH.
Qed.

Lemma grown_refl l perm t : grown l perm t t.
Proof. split; [done |]. intros q n E1 E2. by rewrite E1 in E2. Qed.

Lemma add_dir_grown l perm q t : q `prefix_of` l -> grown l perm t (add_dir perm t q).
Proof.
  intros Hq. unfold add_dir. destruct (t !! q) as [n |] eqn:E; [apply grown_refl |]. split; [by apply insert_subseteq |].
  intros q' n Hn Hnone. destruct (decide (q' = q)) as [-> | Hne].
  - rewrite lookup_insert_eq in Hn. by injection Hn as <-.
  - rewrite lookup_insert_ne in Hn by done. by rewrite Hn in Hnone.
Qed.

Lemma add_dirs_grown l perm ks t : Forall (fun q => q `prefix_of` l) ks -> grown l perm t (fold_left (add_dir perm) ks t).
Proof.
  intros Hks. revert t. induction Hks as [| q ks Hq _ IH]; intros t; [apply grown_refl |].
  eapply grown_trans; [by apply (add_dir_grown _ _ q) | apply IH].
Qed.

(** *** Moving *)
Lemma moved_lookup l l2 t q n : apart l l2 -> (forall k, t !! (l2 ++ k) = None) ->
  (list_to_map (map (fun kv => (rekey l l2 kv.1, kv.2)) (map_to_list t)) : tree) !! q = Some n <->
  exists k, t !! k = Some n /\ rekey l l2 k = q.
Proof.
  intros Hap Hnone. rewrite <- elem_of_list_to_map.
  - rewrite list_elem_of_fmap. split.
    + intros ([k n'] & [= -> ->] & Hin%elem_of_map_to_list). by exists k.
    + intros (k & Hk & <-). exists (k, n). split; [done | by apply elem_of_map_to_list].
  - assert (forall k1 k2, is_Some (t !! k1) -> is_Some (t !! k2) -> rekey l l2 k1 = rekey l l2 k2 -> k1 = k2) as Hinj.
    { intros k1 k2 [n1 H1] [n2 H2]. unfold rekey.
      destruct (decide (l `prefix_of` k1)) as [[x ->] |], (decide (l `prefix_of` k2)) as [[y ->] |]; rewrite ?drop_app_length.
      - intros E. apply app_inv_head in E as ->. done.
      - intros <-. by rewrite Hnone in H2.
      - intros ->. by rewrite Hnone in H1.
      - done. }
    assert (Forall (fun kv => is_Some (t !! kv.1)) (map_to_list t)) as Hall.
    { apply Forall_forall. intros [k n'] Hin%elem_of_map_to_list. by eexists. }
    pose proof (NoDup_fst_map_to_list t) as Hnd. revert Hnd Hall. generalize (map_to_list t). intros kvs.
    induction kvs as [| [k n'] kvs IH]; cbn; intros Hnd Hall; [constructor |].
    apply NoDup_cons in Hnd as [Hk Hnd]. apply Forall_cons in Hall as [Hk1 Hall]. constructor; [| by apply IH].
    intros Hin. apply list_elem_of_fmap in Hin as ([k2 n2] & E & Hin). cbn in E.
    apply list_elem_of_fmap in Hin as ([k3 n3] & [= -> ->] & Hin). apply Hk, list_elem_of_fmap. exists (k3, n3). split; [| done].
    rewrite Forall_forall in Hall. cbn. apply Hinj; [done | by apply (Hall (k3, n3)) | done].
Qed.

Lemma moved_spec l l2 t : apart l l2 -> (forall k, t !! (l2 ++ k) = None) ->
  let t' : tree := list_to_map (map (fun kv => (rekey l l2 kv.1, kv.2)) (map_to_list t)) in
  (forall q, t' !! (l2 ++ q) = t !! (l ++ q)) /\ (forall q, t' !! (l ++ q) = None) /\
  (forall q, ~ l `prefix_of` q -> ~ l2 `prefix_of` q -> t' !! q = t !! q).
Proof.
  intros Hap Hnone t'. pose proof (fun q n => moved_lookup l l2 t q n Hap Hnone) as Hl. fold t' in Hl.
  split_and!.
  - intros q. apply option_eq. intros n. rewrite Hl. split.
    + intros (k & Hk & E). unfold rekey in E. destruct (decide (l `prefix_of` k)) as [[x ->] |].
      * rewrite drop_app_length in E. apply app_inv_head in E as ->. done.
      * subst k. by rewrite Hnone in Hk.
    + intros Hq. exists (l ++ q). split; [done |]. unfold rekey. rewrite decide_True by auto. by rewrite drop_app_length.
  - intros q. destruct (t' !! (l ++ q)) as [n |] eqn:E; [| done]. apply Hl in E as (k & Hk & E). unfold rekey in E.
    destruct (decide (l `prefix_of` k)) as [[x ->] | Hn].
    + rewrite drop_app_length in E. exfalso. apply (apart_below l2 l x q); [by apply apart_sym |]. rewrite E. done.
    + subst k. exfalso. apply Hn. auto.
  - intros q Hq1 Hq2. apply option_eq. intros n. rewrite Hl. split.
    + intros (k & Hk & E). unfold rekey in E. destruct (decide (l `prefix_of` k)) as [[x ->] |]; [| by subst k].
      exfalso. apply Hq2. rewrite <- E. auto.
    + intros Hk. exists q. split; [done |]. unfold rekey. by rewrite decide_False.
Qed.

(** ** The laws *)
Lemma fresh_entry_ok l n t t' : fresh_entry l n t = Ok (tt, t') -> t !! l = None /\ t' = <[l := n]> t.
Proof. unfold fresh_entry. destruct (t !! l); [done |]. by intros [= <-]. Qed.

Lemma do_temp_law t l pattern n path t' : reaches t l -> well_formed t' -> do_temp (abs_path l) pattern n t = Ok (path, t') ->
  exists name, path = abs_path (l ++ [name]) /\ plain name = true /\ HasPrefix name pattern = true /\
    t !! (l ++ [name]) = None /\ t' = <[l ++ [name] := n]> t.
Proof.
  intros Hr _ Hok. unfold do_temp in Hok. rewrite (reaches_elems _ _ Hr) in Hok. set (name := pattern +:+ "0") in *.
  destruct (plain name) eqn:E; [| done]. cbn [negb] in Hok.
  apply result_bind_ok in Hok as ([[] t1] & Hf & Hok). apply fresh_entry_ok in Hf as [Hnone _]. injection Hok as <- <-.
  exists name. split_and!; try done. apply HasPrefix_app.
Qed.

Ltac disk_error := intros e [-> | [-> | He]]; try done.

#[export] Instance disk_lawful : LawfulFiles Disk.
Proof.
  refine {| tree_of := disk_tree; umask := the_umask; cwd := "/work" |}.
  - apply disk_wf.
  - done.
  - intros w. apply look_reads; [by intros a [= <-] | done].
  - intros l w Hr. cbn. apply look_reads; unfold do_lstat; rewrite (reaches_elems _ _ Hr).
    + intros i Hi. destruct (disk_tree w !! l); [by injection Hi as <- | done].
    + disk_error. by destruct (disk_tree w !! l).
  - intros path w. apply (look_spec (do_lstat path) w).
  - intros path w. apply (look_spec (do_stat path) w).
  - intros l w Hr Hnone. cbn. pose proof (look_spec (do_stat (abs_path l)) w) as [_ Hs].
    destruct (on_disk _ w) as [[i | e] d']; [| done]. cbn in Hs. unfold do_stat in Hs.
    by rewrite (reaches_elems _ _ Hr), Hnone in Hs.
  - intros l w [Hr Hs]. cbn. apply look_reads; unfold do_read, may_read; rewrite (reaches_elems _ _ Hr).
    + intros s Hok. destruct (disk_tree w !! l) as [[] |]; try done. by injection Hok.
    + disk_error. destruct (disk_tree w !! l) as [[] |]; try done; by injection He as <-.
  - intros l w [Hr Hs]. cbn. apply look_reads; unfold do_read_dir; rewrite (reaches_elems _ _ Hr); [| done].
    intros entries Hok. destruct (disk_tree w !! l) as [[p | | |] |] eqn:E; try done.
    destruct (length l <? depth)%nat eqn:Ed; [| done]. injection Hok as <-. apply Nat.ltb_lt in Ed.
    split_and!; [by eexists | done | apply children_NoDup | intros c k; apply children_spec].
  - intros l w Hr. cbn. apply look_reads; unfold do_readlink; rewrite (reaches_elems _ _ Hr); [| done].
    intros s Hok. destruct (disk_tree w !! l) as [[] |]; try done. by injection Hok as ->.
  - intros l perm w [Hr Hs]. cbn. apply disk_writes.
    + intros [] t' _ Hok. unfold do_mkdir_all in Hok. rewrite (reaches_elems _ _ Hr) in Hok.
      set (t1 := fold_left _ _ _) in Hok. destruct (t1 !! l) as [[p | | |] |] eqn:E; try done. injection Hok as <-.
      split; [| by eexists]. apply add_dirs_grown. apply Forall_forall. intros q. apply prefixes_spec.
    + intros e _. split; [apply grown_refl | done].
  - intros l pattern w [Hr Hs]. cbn. apply disk_writes; [| done]. intros path t' Hwf Hok. by eapply do_temp_law.
  - intros l pattern w [Hr Hs]. cbn. apply disk_writes; [| done]. intros path t' Hwf Hok. by eapply do_temp_law.
  - intros l content perm w [Hr Hs]. cbn. apply disk_writes; [| by intros; apply only_under_refl].
    intros [] t' _ Hok. unfold do_write in Hok. rewrite (reaches_elems _ _ Hr) in Hok.
    destruct (disk_tree w !! l) as [[] |]; try done; by injection Hok as <-.
  - intros target l w Hr. cbn. apply disk_writes; [| done]. intros [] t' _. rewrite (reaches_elems _ _ Hr).
    apply fresh_entry_ok.
  - intros l perm dev w Hr. cbn. apply disk_writes.
    + intros [] t' _. rewrite (reaches_elems _ _ Hr). apply fresh_entry_ok.
    + intros e He. split; [done |]. destruct He as [-> | [-> | He]]; try done. unfold fresh_entry in He.
      rewrite (reaches_elems _ _ Hr) in He. by destruct (disk_tree w !! l).
  - intros l l2 w Hr Hr2 Hl Hl2. cbn. apply disk_writes; [| done]. intros [] t' _ Hok. unfold do_rename in Hok.
    rewrite (reaches_elems _ _ Hr), (reaches_elems _ _ Hr2) in Hok. destruct (decide (disk_tree w !! l = None)); [done |].
    destruct (decide (disk_tree w !! l2 = None)) as [Hnone |]; [| done]. injection Hok as <-. apply moved_spec; [done |].
    intros k. apply absent_below; [apply disk_wf | done].
  - intros l w Hr. cbn. apply disk_writes; [| done]. intros [] t' _ Hok. unfold do_remove in Hok.
    rewrite (reaches_elems _ _ Hr) in Hok. destruct (disk_tree w !! l); [by injection Hok as <- | done].
  - intros l w Hr. cbn. apply disk_writes.
    + intros [] t' _ Hok. rewrite (reaches_elems _ _ Hr) in Hok. by injection Hok as <-.
    + intros e _. split; [apply only_under_refl | done].
  - intros path w. apply (look_spec (fun t => _ ← do_read path t; Ok tt) w).
  - intros path w. apply (look_spec (fun _ => Ok tt) w).
  - intros l perm w Hr. cbn. apply disk_writes; [| done]. intros [] t' _. rewrite (reaches_elems _ _ Hr). apply fresh_entry_ok.
  - intros l src w p c q content Hr Hrs Hl Hsrc. cbn. apply disk_writes.
    + intros [] t' _ Hok. apply result_bind_ok in Hok as (s & Hread & Hok). unfold do_read, on_file in *.
      rewrite (reaches_elems _ _ Hrs), Hsrc in Hread. injection Hread as <-. rewrite (reaches_elems _ _ Hr), Hl in Hok.
      by injection Hok as <-.
    + intros e _. exists c. by rewrite insert_id.
  - intros l content w p Hr Hl. cbn. apply disk_writes.
    + intros [] t' _ Hok. unfold on_file in Hok. rewrite (reaches_elems _ _ Hr), Hl in Hok. by injection Hok as <-.
    + intros e _. exists "". by rewrite insert_id.
  - intros l perm w p c Hr Hl. cbn. apply disk_writes; [| done].
    intros [] t' _ Hok. unfold on_file in Hok. rewrite (reaches_elems _ _ Hr), Hl in Hok. by injection Hok as <-.
Defined.

(** ** Examples *)
Lemma prefixes_complete l q : q `prefix_of` l -> q ∈ prefixes l.
Proof.
  revert q. induction l as [| c l IH]; intros q Hq.
  - apply prefix_nil_inv in Hq as ->. apply list_elem_of_here.
  - destruct q as [| d q]; [apply list_elem_of_here |]. apply prefix_cons_inv_1 in Hq as Hd. subst d.
    apply prefix_cons_inv_2 in Hq. cbn. right. apply list_elem_of_fmap. exists q. split; [done | by apply IH].
Qed.

(** A decidable form of [solid]. *)
Definition clear_way (t : tree) (l : list string) : bool :=
  forallb plain l && forallb (fun q => match t !! q with Some (Symlink _) => false | _ => true end) (prefixes l).

Lemma clear_way_solid t l : clear_way t l = true -> solid t l.
Proof.
  intros [Hp Hq]%andb_true_iff. rewrite forallb_forall in Hp, Hq.
  assert (forall q target, q `prefix_of` l -> t !! q <> Some (Symlink target)) as Hall.
  { intros q target Hpre E. specialize (Hq q). rewrite E in Hq. by discriminate Hq; apply list_elem_of_In, prefixes_complete. }
  split; [split |].
  - apply Forall_forall. intros e He. by apply Hp, list_elem_of_In.
  - intros q target Hpre _. by apply Hall.
  - intros target. by apply Hall.
Qed.

(** A host with a runtime bundle and an injection root that was prepared
    before and has overrides. *)
Definition file_at (path : string) (perm : Z) (content : string) : list string * node := (clean_elems path, File perm content).
Definition dir_at (path : string) : list string * node := (clean_elems path, files.Dir (rwx 7 5 5)).
Definition link_at (path target : string) : list string * node := (clean_elems path, Symlink target).

Definition bundle_entries : list (list string * node) := [
  dir_at "/"; dir_at "/rt"; dir_at "/rt/bin"; dir_at "/rt/lib";
  file_at "/rt/bin/nvidia-smi" (rwx 7 7 5) "smi"; file_at "/rt/bin/nvidia-smi.real" (rwx 7 5 5) "real";
  file_at "/rt/bin/nvml-mock-ctl" (rwx 7 5 5) "ctl"; file_at "/rt/bin/fake-llama-server" (rwx 7 5 5) "llama";
  file_at "/rt/lib/libnvidia-ml.so.1" (rwx 6 4 4) "nvml"; file_at "/rt/lib/libcuda.so.1" (rwx 6 4 4) "cuda";
  link_at "/rt/lib/libcuda.so" "libcuda.so.1"; link_at "/rt/lib/libcudart.so.12" "libcuda.so.1";
  link_at "/rt/lib/libcudart.so.13" "libcuda.so.1"; link_at "/rt/lib/libcudart.so" "libcuda.so.1"].

Definition make_disk (t : tree) (Hwf : well_formed t) (plan : list bool) : Disk :=
  {| disk_tree := t; disk_wf := Hwf; disk_plan := plan |}.
End disk.
