(* ===== verification/GoJson.v ===== *)
(** * Go's [encoding/json]: strings and integers, and reading one document

    [json_string] is the encoder's string routine with HTML escaping on (the
    default of [json.Marshal]): ASCII bytes outside the safe set are escaped,
    invalid UTF-8 becomes the replacement rune, and U+2028/U+2029 are
    escaped. *)
From S2P Require Import Prelude GoStrings GoStrconv.

(** ** Strings *)
Definition backslash : ascii := byte_of 92.
Definition esc (s : string) : string := backslash ::: s.

Definition html_safe (b : Z) : bool :=
  in_range 0x20 b 0x7F && negb (b =? 34) && negb (b =? 92) && negb (b =? 60) &&
  negb (b =? 62) && negb (b =? 38).

Definition json_ascii (c : ascii) : string :=
  let b := byte_val c in
  if html_safe b then chr c else
  if (b =? 34) || (b =? 92) then esc (chr c) else
  if b =? 8 then esc "b" else
  if b =? 12 then esc "f" else
  if b =? 10 then esc "n" else
  if b =? 13 then esc "r" else
  if b =? 9 then esc "t" else
  esc ("u00" +:+ chr (digit_char (b / 16)) +:+ chr (digit_char (b mod 16))).

Fixpoint take_bytes (n : nat) (s : string) : string :=
  match n, s with
  | S k, c ::: r => c ::: take_bytes k r
  | _, _ => EmptyString
  end.

(** U+2028 and U+2029 in UTF-8. *)
Definition line_sep (s : string) : option string :=
  match s with
  | c1 ::: c2 ::: c3 ::: _ =>
      if (byte_val c1 =? 0xE2) && (byte_val c2 =? 0x80) then
        if byte_val c3 =? 0xA8 then Some (esc "u2028") else
        if byte_val c3 =? 0xA9 then Some (esc "u2029") else None
      else None
  | _ => None
  end.

(** [skip] counts the bytes of a multi-byte rune still to be copied or
    dropped: the encoder's loop advances by the width of the rune. *)
Fixpoint json_body (s : string) (skip : nat) (copy : bool) : string :=
  match s with
  | EmptyString => EmptyString
  | c ::: r =>
      match skip with
      | S k => if copy then c ::: json_body r k copy else json_body r k copy
      | O =>
          if byte_val c <? 0x80 then json_ascii c +:+ json_body r 0%nat true else
          match utf8_width s with
          | O => esc "ufffd" +:+ json_body r 0%nat true
          | S k =>
              match line_sep s with
              | Some e => e +:+ json_body r k false
              | None => c ::: json_body r k true
              end
          end
      end
  end.

Definition quoted (s : string) : string := chr dquote +:+ s +:+ chr dquote.
Definition json_string (s : string) : string := quoted (json_body s 0%nat true).

(** ** Objects *)
Definition json_field (key value : string) : string := quoted key +:+ ":" +:+ value.

(** [omitempty] on a string and on an unsigned integer. *)
Definition omit_string (key v : string) : list string :=
  if String.eqb v "" then [] else [json_field key (json_string v)].
Definition omit_uint (key : string) (v : Z) : list string :=
  if v =? 0 then [] else [json_field key (FormatUint v)].

Definition json_object (fields : list string) : string := "{" +:+ Join fields "," +:+ "}".
Definition json_array (items : list string) : string := "[" +:+ Join items "," +:+ "]".

(** ** Indented output: [Encoder.SetIndent] with an empty prefix and two spaces *)
Inductive json :=
  | JText (text : string)
  | JArray (items : list json)
  | JObject (fields : list (string * json)).

Definition line_break (indent : string) : string := chr newline +:+ indent.

(** [indent] is that of the line the value starts on. *)
Fixpoint indent_json (indent : string) (j : json) : string :=
  let inner := indent +:+ "  " in
  match j with
  | JText text => text
  | JArray [] => "[]"
  | JArray items =>
      "[" +:+ line_break inner +:+ Join (map (indent_json inner) items) ("," +:+ line_break inner) +:+
      line_break indent +:+ "]"
  | JObject [] => "{}"
  | JObject fields =>
      "{" +:+ line_break inner +:+
      Join (map (fun kv => match kv with (k, v) => quoted k +:+ ": " +:+ indent_json inner v end) fields)
        ("," +:+ line_break inner) +:+
      line_break indent +:+ "}"
  end.

(** What [Encode] writes. *)
Definition encode_indented (j : json) : string := indent_json "" j +:+ chr newline.

(** Object fields; [omitempty] drops an empty string and a zero. *)
Definition field_uint (key : string) (v : Z) : string * json := (key, JText (FormatUint v)).
Definition field_int (key : string) (v : Z) : string * json := (key, JText (Itoa v)).
Definition field_string (key v : string) : string * json := (key, JText (json_string v)).
Definition optional_uint (key : string) (v : Z) : list (string * json) := if v =? 0 then [] else [field_uint key v].
Definition optional_string (key v : string) : list (string * json) :=
  if String.eqb v "" then [] else [field_string key v].

(** ** One document from a decoder

    The outcomes of the two [Decode] calls of the loaders: the document, and
    what follows it ([Ok] when there is another value).  The decoder itself
    is a parameter. *)
Definition EOF : string := "io.EOF".

Definition decode_one {A} (what : string) (first : result A) (second : result unit) : result A :=
  let failed := Wrapf ("decode " +:+ what +:+ ": %w") [] in
  a ← wrap_err failed first;
  match second with
  | Ok _ => Err (Errorf ("decode " +:+ what +:+ ": multiple JSON documents") [])
  | Err e => if match e with Sentinel n => String.eqb n EOF | _ => false end then Ok a else Err (failed e)
  end.
