(* ===== verification/GoTime.v ===== *)
(** * Go's [time.ParseDuration]

    The scanner of the library: an optional sign, then number-unit pairs.  A
    number is an integer part and a fraction; the fraction is scaled in
    [float64] arithmetic, modelled with the binary64 operations of
    [SpecFloat].  A duration is an [int64] number of nanoseconds. *)
From Stdlib Require Import SpecFloat.
From S2P Require Import Prelude GoStrings GoStrconv.

(** ** float64 *)
Definition f64_of_Z (n : Z) : spec_float := binary_normalize 53 1024 n 0 false.
Definition f64_mul : spec_float -> spec_float -> spec_float := SFmul 53 1024.
Definition f64_div : spec_float -> spec_float -> spec_float := SFdiv 53 1024.
Definition f64_add : spec_float -> spec_float -> spec_float := SFadd 53 1024.

(** [uint64(f)] of a float in range: truncation. *)
Definition f64_trunc (f : spec_float) : Z :=
  match f with
  | S754_finite s m e => let v := Z.shiftl (Z.pos m) e in if s then - v else v
  | _ => 0
  end.

(** ** The scanner *)
Definition max63 : Z := 9223372036854775808.   (* 1 << 63 *)

(** [leadingInt]: the value, the rest, and the number of digits; [None] when
    the value overflows. *)
Fixpoint leadingInt (s : string) (x : Z) (n : nat) : option (Z * string * nat) :=
  match s with
  | c ::: r =>
      if negb (is_digit c) then Some (x, s, n) else
      if x >? Z.quot max63 10 then None else
      let x1 := x * 10 + (byte_val c - 48) in
      if x1 >? max63 then None else leadingInt r x1 (S n)
  | EmptyString => Some (x, s, n)
  end.

(** [leadingFraction]: once the value overflows the digits are skipped. *)
Fixpoint leadingFraction (s : string) (x : Z) (scale : spec_float) (overflow : bool) (n : nat)
    : Z * spec_float * string * nat :=
  match s with
  | c ::: r =>
      if negb (is_digit c) then (x, scale, s, n) else
      if overflow then leadingFraction r x scale true (S n) else
      if x >? Z.quot (max63 - 1) 10 then leadingFraction r x scale true (S n) else
      let y := x * 10 + (byte_val c - 48) in
      if y >? max63 then leadingFraction r x scale true (S n) else
      leadingFraction r y (f64_mul scale (f64_of_Z 10)) false (S n)
  | EmptyString => (x, scale, s, n)
  end.

Definition unitMap : list (string * Z) := [
  ("ns", 1); ("us", 1000);
  (chr (byte_of 0xC2) +:+ chr (byte_of 0xB5) +:+ "s", 1000);   (* U+00B5 *)
  (chr (byte_of 0xCE) +:+ chr (byte_of 0xBC) +:+ "s", 1000);   (* U+03BC *)
  ("ms", 1000000); ("s", 1000000000); ("m", 60000000000); ("h", 3600000000000)].

Definition unit_of (u : string) : option Z :=
  match find_first (fun kv => String.eqb kv.1 u) unitMap with Some kv => Some kv.2 | None => None end.

(** The text up to the next digit or dot. *)
Fixpoint span_unit (s : string) : string * string :=
  match s with
  | c ::: r =>
      if is_digit c || char_eqb c "." then (EmptyString, s)
      else let '(u, rest) := span_unit r in (c ::: u, rest)
  | EmptyString => (EmptyString, EmptyString)
  end.

Definition invalid_duration (orig : string) : error := Errorf "time: invalid duration %q" [AS orig].

(** One number-unit pair added to [d]. *)
Definition parse_pair (orig s : string) (d : Z) : result (Z * string) :=
  match s with
  | EmptyString => Err (invalid_duration orig)
  | c ::: _ =>
      if negb (char_eqb c "." || is_digit c) then Err (invalid_duration orig) else
      match leadingInt s 0 0 with
      | None => Err (invalid_duration orig)
      | Some (v, s1, pre) =>
          let '(f, scale, s2, post) :=
            match s1 with
            | c1 ::: r1 => if char_eqb c1 "." then leadingFraction r1 0 (f64_of_Z 1) false 0 else (0, f64_of_Z 1, s1, O)
            | EmptyString => (0, f64_of_Z 1, s1, O)
            end in
          if (pre =? 0)%nat && (post =? 0)%nat then Err (invalid_duration orig) else
          let '(u, s3) := span_unit s2 in
          if String.eqb u "" then Err (Errorf "time: missing unit in duration %q" [AS orig]) else
          match unit_of u with
          | None => Err (Errorf "time: unknown unit %q in duration %q" [AS u; AS orig])
          | Some unit =>
              if v >? Z.quot max63 unit then Err (invalid_duration orig) else
              let v1 := v * unit in
              let v2 := if f >? 0
                        then v1 ⊕ f64_trunc (f64_mul (f64_of_Z f) (f64_div (f64_of_Z unit) scale)) else v1 in
              if (f >? 0) && (v2 >? max63) then Err (invalid_duration orig) else
              let d1 := d ⊕ v2 in
              if d1 >? max63 then Err (invalid_duration orig) else Ok (d1, s3)
          end
      end
  end.

(** The loop; every pair consumes at least one byte, so the length of the
    text is enough fuel ([pairs_fuel]). *)
Fixpoint parse_pairs (fuel : nat) (orig s : string) (d : Z) : result Z :=
  match fuel with
  | O => Ok d
  | S k =>
      if String.eqb s "" then Ok d else
      match parse_pair orig s d with
      | Err e => Err e
      | Ok (d1, rest) => parse_pairs k orig rest d1
      end
  end.

Definition ParseDuration (orig : string) : result Z :=
  let '(neg, s) :=
    match orig with
    | c ::: r => if char_eqb c "-" || char_eqb c "+" then (char_eqb c "-", r) else (false, orig)
    | EmptyString => (false, orig)
    end in
  if String.eqb s "0" then Ok 0 else
  if String.eqb s "" then Err (invalid_duration orig) else
  d ← parse_pairs (String.length s) orig s 0;
  if neg then Ok (- d) else
  if d >? max63 - 1 then Err (invalid_duration orig) else Ok d.

Example parse_hm : ParseDuration "1h15m30.918s" = Ok 4530918000000.
Proof. vm_compute. reflexivity. Qed.
Example parse_ms : ParseDuration "-1.5ms" = Ok (-1500000).
Proof. vm_compute. reflexivity. Qed.
Example parse_big : is_ok (ParseDuration "9223372036854775808ns") = false.
Proof. vm_compute. reflexivity. Qed.
Example parse_min : ParseDuration "-9223372036854775808ns" = Ok (-9223372036854775808).
Proof. vm_compute. reflexivity. Qed.
Example parse_frac : ParseDuration "0.100000000000000000000h" = Ok 360000000000.
Proof. vm_compute. reflexivity. Qed.
Example parse_junk : is_ok (ParseDuration "3") || is_ok (ParseDuration ".s") || is_ok (ParseDuration "1x") = false.
Proof. vm_compute. reflexivity. Qed.

(** ** Lemmas *)
Lemma leadingInt_digit d r m j : 0 <= d < 10 -> 0 <= m -> m * 10 + d <= max63 ->
  leadingInt (digit_char d ::: r) m j = leadingInt r (m * 10 + d) (S j).
Proof.
  intros Hd Hm Hle. cbn [leadingInt]. rewrite digit_char_is_digit, digit_char_val by done. cbn [negb].
  assert (Z.quot max63 10 = 922337203685477580) as -> by done. unfold max63 in *.
  replace (48 + d - 48) with d by lia.
  rewrite (proj2 (gtb_false m _)), (proj2 (gtb_false (m * 10 + d) _)) by lia. done.
Qed.

Lemma leadingInt_digits fuel n acc : 0 <= n <= max63 -> n < 10 ^ Z.of_nat fuel -> fuel <> O ->
  exists j, (0 < j)%nat /\ leadingInt (digits 10 fuel n acc) 0 0 = leadingInt acc n j.
Proof.
  revert n acc. induction fuel as [| fuel IH]; intros n acc Hn Hlt Hf; [done |]. cbn [digits].
  pose proof (Z.mod_pos_bound n 10 ltac:(lia)) as Hmod. pose proof (Z.div_mod n 10 ltac:(lia)) as Hdm.
  destruct (Z.ltb_spec n 10) as [Hlt10 | Hge].
  - rewrite Z.mod_small by lia. exists 1%nat. split; [lia |]. rewrite leadingInt_digit by (unfold max63; lia). done.
  - rewrite Nat2Z.inj_succ, Z.pow_succ_r in Hlt by lia.
    destruct (IH (n / 10) (digit_char (n mod 10) ::: acc)) as (j & Hj & E).
    + split; [apply Z.div_pos; lia | lia].
    + apply Z.div_lt_upper_bound; lia.
    + intros ->. cbn in *. lia.
    + exists (S j). split; [lia |]. rewrite E, leadingInt_digit by lia. by replace (n / 10 * 10 + n mod 10) with n by lia.
Qed.

Lemma digits_append base fuel n acc t : digits base fuel n acc +:+ t = digits base fuel n (acc +:+ t).
Proof.
  revert n acc. induction fuel as [| fuel IH]; intros n acc; cbn [digits]; [done |].
  destruct (n <? base); [done |]. by rewrite IH.
Qed.

(** A text that does not start with a digit. *)
Definition no_digit_first (t : string) : bool :=
  match t with c ::: _ => negb (is_digit c) | EmptyString => true end.

Lemma leadingInt_FormatUint n t : 0 <= n <= max63 -> no_digit_first t = true ->
  exists j, (0 < j)%nat /\ leadingInt (FormatUint n +:+ t) 0 0 = Some (n, t, j).
Proof.
  intros Hn Ht. unfold FormatUint. rewrite digits_append. change ("" +:+ t) with t.
  destruct (leadingInt_digits (fuel_for n) n t Hn) as (j & Hj & ->); [by apply fuel_for_enough; lia | done |].
  exists j. split; [done |]. destruct t as [| c t]; [done |]. cbn in *. by rewrite Ht.
Qed.

(** Whole numbers of a unit are read exactly. *)
Lemma ParseDuration_units n u k : (u, k) ∈ unitMap -> 0 < n -> n * k < max63 ->
  ParseDuration (FormatUint n +:+ u) = Ok (n * k).
Proof.
  intros Hu Hn Hlt.
  assert (0 < k /\ n <= Z.quot max63 k /\ unit_of u = Some k /\ span_unit u = (u, "") /\ u <> "" /\
    match u with c ::: _ => negb (is_digit c || char_eqb c ".") | _ => false end = true) as
    (Hk & Hq & Hunit & Hspan & Hne & Hfirst).
  { repeat (apply elem_of_cons in Hu as [[= -> ->] | Hu];
      [split; [done |]; split; [apply Z.quot_le_lower_bound; lia | done] |]). by apply elem_of_nil in Hu. }
  assert (n <= max63) as Hmax by nia.
  destruct (leadingInt_FormatUint n u ltac:(lia)) as (j & Hj & Hlead).
  { destruct u as [| c u]; [done |]. cbn in *. to_prop. apply Hfirst. }
  destruct (FormatUint_first n) as (c & r & E & Hc); [lia |].
  assert (char_eqb c "-" = false) as Em by (apply char_eqb_neq; intros ->; discriminate Hc).
  assert (char_eqb c "+" = false) as Ep by (apply char_eqb_neq; intros ->; discriminate Hc).
  assert (parse_pair (FormatUint n +:+ u) (FormatUint n +:+ u) 0 = Ok (n * k, "")) as Hpair.
  { unfold parse_pair. rewrite Hlead. rewrite E at 1. rewrite append_cons, Hc, orb_true_r. cbn [negb].
    destruct u as [| c1 u']; [done |]. cbn in Hfirst. apply negb_true_iff, orb_false_iff in Hfirst as [Hf1 Hf2]. rewrite Hf2.
    rewrite (proj2 (Nat.eqb_neq j 0)) by lia. cbn [andb]. rewrite Hspan.
    rewrite (proj2 (String.eqb_neq _ _)) by done. rewrite Hunit, (proj2 (gtb_false n _)) by done.
    change (0 >? 0) with false. cbn [andb].
    rewrite (proj2 (gtb_false (0 ⊕ n * k) max63)); rewrite Z.add_0_l, wrap64_small by (unfold max63 in *; word);
      [done | lia]. }
  unfold ParseDuration. rewrite E, append_cons in *. rewrite Em, Ep. cbn [orb].
  assert (String.eqb (c ::: (r +:+ u)) "0" = false) as ->.
  { apply String.eqb_neq. intros [= _ E0]. destruct r; [exact (Hne E0) | discriminate]. }
  cbn [String.eqb String.length parse_pairs]. rewrite Hpair.
  destruct (String.length (r +:+ u)); cbn [parse_pairs String.eqb mbind result_bind];
    rewrite (proj2 (gtb_false (n * k) _)) by lia; done.
Qed.

(** *** The scanner terminates *)
Lemma leadingInt_length s x n x' r n' : leadingInt s x n = Some (x', r, n') ->
  (String.length r + n' = String.length s + n)%nat.
Proof.
  revert x n. induction s as [| c s IH]; intros x n; cbn [leadingInt]; [by intros [= _ <- <-] |].
  destruct (negb (is_digit c)); [by intros [= _ <- <-] |]. destruct (_ >? _); [done |].
  destruct (_ >? _); [done |]. intros H%IH. cbn. lia.
Qed.

Lemma leadingFraction_length s x scale o n x' scale' r n' :
  leadingFraction s x scale o n = (x', scale', r, n') -> (String.length r + n' = String.length s + n)%nat.
Proof.
  revert x scale o n. induction s as [| c s IH]; intros x scale o n; cbn [leadingFraction];
    [by intros [= _ _ <- <-] |]. destruct (negb (is_digit c)); [by intros [= _ _ <- <-] |]. cbn.
  repeat match goal with |- context [if ?b then _ else _] => destruct b end; intros H%IH; lia.
Qed.

Lemma span_unit_length s : let '(u, r) := span_unit s in (String.length u + String.length r = String.length s)%nat.
Proof.
  induction s as [| c s IH]; cbn [span_unit]; [done |]. destruct (_ || _); [done |].
  destruct (span_unit s) as [u r]. cbn. lia.
Qed.

Lemma parse_pair_shorter orig s d d' rest : parse_pair orig s d = Ok (d', rest) ->
  (String.length rest < String.length s)%nat.
Proof.
  unfold parse_pair. destruct s as [| c s]; [done |]. destruct (negb _); [done |].
  destruct (leadingInt (c ::: s) 0 0) as [[[v s1] pre] |] eqn:E1; [| done]. apply leadingInt_length in E1.
  destruct (match s1 with
            | c1 ::: r1 => if char_eqb c1 "." then leadingFraction r1 0 (f64_of_Z 1) false 0 else (0, f64_of_Z 1, s1, O)
            | EmptyString => (0, f64_of_Z 1, s1, O)
            end) as [[[f scale] s2] post] eqn:E2.
  assert (String.length s2 <= String.length s1)%nat as H2.
  { destruct s1 as [| c1 r1]; [by injection E2 as <- <- <- <- |].
    destruct (char_eqb c1 "."); [| by injection E2 as <- <- <- <-].
    apply leadingFraction_length in E2. cbn. lia. }
  destruct (_ && _); [done |]. pose proof (span_unit_length s2) as H3. destruct (span_unit s2) as [u s3].
  destruct (String.eqb_spec u ""); [done |]. destruct (unit_of u); [| done]. cbv zeta.
  assert (0 < String.length u)%nat by (destruct u; [done | cbn; lia]).
  repeat match goal with |- context [if ?b then Err _ else _] => destruct b; [done |] end.
  intros [= _ <-]. cbn in *. lia.
Qed.

(** Any fuel of at least the length of the text gives the same result. *)
Lemma pairs_fuel fuel fuel' orig s d : (String.length s <= fuel)%nat -> (String.length s <= fuel')%nat ->
  parse_pairs fuel orig s d = parse_pairs fuel' orig s d.
Proof.
  revert fuel' s d. induction fuel as [| fuel IH]; intros fuel' s d Hf Hf'.
  { destruct s; [| cbn in Hf; lia]. by destruct fuel'. }
  destruct fuel' as [| fuel']; [destruct s; [done | cbn in Hf'; lia] |]. cbn [parse_pairs].
  destruct (String.eqb s ""); [done |]. destruct (parse_pair orig s d) as [[d1 rest] | e] eqn:E; [| done].
  apply parse_pair_shorter in E. apply IH; lia.
Qed.

(** *** What is read fits an [int64] *)
Lemma parse_pairs_range fuel orig s d n : 0 <= d <= max63 -> parse_pairs fuel orig s d = Ok n -> 0 <= n <= max63.
Proof.
  revert s d. induction fuel as [| fuel IH]; intros s d Hd; cbn [parse_pairs]; [by intros [= <-] |].
  destruct (String.eqb s ""); [by intros [= <-] |].
  destruct (parse_pair orig s d) as [[d1 rest] | e] eqn:E; [| done]. apply IH. clear IH.
  unfold parse_pair in E. repeat match type of E with
    | (if ?b then Err _ else _) = _ => destruct b eqn:?; [done |]
    | (match ?x with _ => _ end) = _ => destruct x eqn:?; try done
    | (let '_ := ?x in _) = _ => destruct x eqn:?
    | context [let '(_, _) := ?x in _] => destruct x eqn:?
    end; simplify_eq; to_prop; match goal with |- 0 <= wrap64 ?z <= _ => pose proof (wrap64_u64 z) end; word.
Qed.

Lemma ParseDuration_range s n : ParseDuration s = Ok n -> - max63 <= n < max63.
Proof.
  unfold ParseDuration. cbv zeta.
  destruct (match s with c ::: r => if char_eqb c "-" || char_eqb c "+" then (char_eqb c "-", r) else (false, s) | _ => (false, s) end)
    as [neg t].
  destruct (String.eqb t "0"); [by intros [= <-] |]. destruct (String.eqb t ""); [done |].
  intros (d & Hd%parse_pairs_range & H)%result_bind_ok; [| by split]. destruct neg; [simplify_eq; unfold max63 in *; lia |].
  destruct (d >? max63 - 1) eqn:E; simplify_eq. to_prop. unfold max63 in *. lia.
Qed.
