(* ===== verification/GoFlag.v ===== *)
(** * Go's [flag] package: a flag set of string, integer and repeated flags

    [Parse] follows [FlagSet.parseOne]: single and double dashes, inline and
    separate values, the ["--"] terminator, with [ContinueOnError].  Numbers
    are read with [strconv.ParseUint] and [ParseInt] in base 0 (prefixes and
    underscores).  The usage text printed on an error is not modelled. *)
From S2P Require Import Prelude GoStrings GoStrconv.

(** ** [strconv.ParseUint(s, 0, 64)] *)
Definition lower_byte (c : ascii) : Z := Z.lor (byte_val c) 32.

(** The digit of a byte, 36 or more when it is none. *)
Definition digit_value (c : ascii) : Z :=
  if is_digit c then byte_val c - 48 else
  let l := lower_byte c in if in_range 97 l 122 then l - 97 + 10 else 36.

(** The digit loop in a given base; underscores are skipped. *)
Fixpoint base_loop (base maxVal : Z) (s : string) (n : Z) (underscores : bool) : result (Z * bool) :=
  match s with
  | EmptyString => Ok (n, underscores)
  | c ::: r =>
      if char_eqb c "_" then base_loop base maxVal r n true else
      let d := digit_value c in
      if d >=? base then Err (Sentinel ErrSyntax) else
      if n >=? u64_max / base + 1 then Err (Sentinel ErrRange) else
      let n0 := n ⊗ base in
      let n1 := n0 ⊕ d in
      if (n1 <? n0) || (n1 >? maxVal) then Err (Sentinel ErrRange) else
      base_loop base maxVal r n1 underscores
  end.

Definition base_prefix (s : string) : Z * string :=
  match s with
  | c0 ::: r0 =>
      if negb (char_eqb c0 "0") then (10, s) else
      match r0 with
      | c1 ::: (c2 ::: _) as r1 =>
          let rest := drop_bytes 2 s in
          if lower_byte c1 =? 98 then (2, rest) else
          if lower_byte c1 =? 111 then (8, rest) else
          if lower_byte c1 =? 120 then (16, rest) else (8, r0)
      | _ => (8, r0)
      end
  | EmptyString => (10, s)
  end.

(** [underscoreOK]: underscores only between digits (a base prefix counts as
    a digit); [saw] is the class of the last byte. *)
Inductive seen := SeenBegin | SeenDigit | SeenUnderscore | SeenOther.

Fixpoint underscore_scan (hex : bool) (s : string) (saw : seen) : bool :=
  match s with
  | EmptyString => match saw with SeenUnderscore => false | _ => true end
  | c ::: r =>
      if is_digit c || (hex && in_range 97 (lower_byte c) 102) then underscore_scan hex r SeenDigit else
      if char_eqb c "_" then match saw with SeenDigit => underscore_scan hex r SeenUnderscore | _ => false end else
      match saw with SeenUnderscore => false | _ => underscore_scan hex r SeenOther end
  end.

Definition underscoreOK (s : string) : bool :=
  let s := match s with c ::: r => if char_eqb c "-" || char_eqb c "+" then r else s | _ => s end in
  match s with
  | c0 ::: c1 ::: r =>
      let l := lower_byte c1 in
      if char_eqb c0 "0" && ((l =? 98) || (l =? 111) || (l =? 120))
      then underscore_scan (l =? 120) r SeenDigit else underscore_scan false s SeenBegin
  | _ => underscore_scan false s SeenBegin
  end.

Definition ParseUint0 (s : string) (maxVal : Z) : result Z :=
  if String.eqb s "" then Err (Sentinel ErrSyntax) else
  let '(base, digits) := base_prefix s in
  '(n, underscores) ← base_loop base maxVal digits 0 false;
  if underscores && negb (underscoreOK s) then Err (Sentinel ErrSyntax) else Ok n.

Definition ParseInt0 (s : string) : result Z :=
  match s with
  | EmptyString => Err (Sentinel ErrSyntax)
  | c ::: r =>
      let neg := char_eqb c "-" in
      let digits := if char_eqb c "+" || neg then r else s in
      un ← ParseUint0 digits u64_max;
      if negb neg && (un >=? int64_cutoff) then Err (Sentinel ErrRange) else
      if neg && (un >? int64_cutoff) then Err (Sentinel ErrRange) else
      Ok (if neg then - un else un)
  end.

(** ** Flag sets *)
(** [KList]: a repeated flag, whose [Set] appends. *)
Inductive FlagKind := KString | KInt | KUint | KList.
Inductive FlagValue := FString (s : string) | FNum (n : Z) | FList (l : list string).

(** The defined flags, and those set so far (the last value wins, a list
    grows). *)
Definition FlagSet : Type := list (string * FlagKind).
Record Parsed := { actual : gmap string FlagValue; flag_args : list string }.

Definition ErrHelp : string := "flag.ErrHelp".

(** [Value.Set]. *)
Definition set_flag (k : FlagKind) (value : string) : result FlagValue :=
  match k with
  | KString => Ok (FString value)
  | KInt => n ← ParseInt0 value; Ok (FNum n)
  | KUint => n ← ParseUint0 value u64_max; Ok (FNum n)
  | KList => Ok (FList [value])
  end.

Definition merge_value (old : option FlagValue) (v : FlagValue) : FlagValue :=
  match v with
  | FList l => match old with Some (FList l0) => FList (l0 ++ l) | _ => v end
  | _ => v
  end.

Definition formal (fs : FlagSet) (name : string) : option FlagKind :=
  snd <$> find_first (fun d => String.eqb d.1 name) fs.

(** The flag name and the inline value of the text after the dashes; the
    name's first byte is not an equals sign. *)
Definition split_flag (text : string) : string * option string :=
  match Cut text "=" with Some (name, value) => (name, Some value) | None => (text, None) end.

(** What one argument is for the parser. *)
Inductive token := TArgument | TTerminator | TFlag (text : string).

Definition classify (s : string) : token :=
  match s with
  | c0 ::: c1 ::: r =>
      if negb (char_eqb c0 "-") then TArgument else
      if char_eqb c1 "-" then match r with EmptyString => TTerminator | _ => TFlag r end else TFlag (c1 ::: r)
  | _ => TArgument
  end.

Definition bad_syntax (text : string) : bool :=
  match text with c ::: _ => char_eqb c "-" || char_eqb c "=" | EmptyString => true end.

Fixpoint flag_loop (fs : FlagSet) (set : gmap string FlagValue) (args : list string) : result Parsed :=
  match args with
  | [] => Ok {| actual := set; flag_args := [] |}
  | s :: rest =>
      match classify s with
      | TArgument => Ok {| actual := set; flag_args := args |}
      | TTerminator => Ok {| actual := set; flag_args := rest |}
      | TFlag text =>
          if bad_syntax text then Err (Errorf "bad flag syntax: %s" [AS s]) else
          let '(name, inline) := split_flag text in
          match formal fs name with
          | None =>
              if String.eqb name "help" || String.eqb name "h" then Err (Sentinel ErrHelp)
              else Err (Errorf "flag provided but not defined: -%s" [AS name])
          | Some k =>
              let set_to value next :=
                match set_flag k value with
                | Ok v => flag_loop fs (<[name := merge_value (set !! name) v]> set) next
                | Err e => Err (Errorf "invalid value %q for flag -%s: %v" [AS value; AS name; AE e])
                end in
              match inline with
              | Some value => set_to value rest
              | None =>
                  match rest with
                  | value :: next =>
                      match set_flag k value with
                      | Ok v => flag_loop fs (<[name := merge_value (set !! name) v]> set) next
                      | Err e => Err (Errorf "invalid value %q for flag -%s: %v" [AS value; AS name; AE e])
                      end
                  | [] => Err (Errorf "flag needs an argument: -%s" [AS name])
                  end
              end
          end
      end
  end.

Definition Parse (fs : FlagSet) (args : list string) : result Parsed := flag_loop fs ∅ args.

(** The value of a flag after parsing, with its default. *)
Definition flag_string (p : Parsed) (name default : string) : string :=
  match actual p !! name with Some (FString s) => s | _ => default end.
Definition flag_num (p : Parsed) (name : string) (default : Z) : Z :=
  match actual p !! name with Some (FNum n) => n | _ => default end.
Definition flag_list (p : Parsed) (name : string) : list string :=
  match actual p !! name with Some (FList l) => l | _ => [] end.
(** Whether [Visit] reaches the flag. *)
Definition flag_provided (p : Parsed) (name : string) : bool :=
  match actual p !! name with Some _ => true | None => false end.

Example parse_flags :
  match Parse [("pid", KUint); ("gpu", KString)] ["--pid=0x1F"; "-gpu"; "GPU-1"; "--"; "-x"] with
  | Ok p => (flag_num p "pid" 0, flag_string p "gpu" "", flag_args p) = (31, "GPU-1", ["-x"])
  | Err _ => False
  end.
Proof. vm_compute. reflexivity. Qed.
Example parse_list : match Parse [("device", KList)] ["--device"; "a"; "-device=b"] with Ok p => flag_list p "device" | Err _ => [] end = ["a"; "b"].
Proof. vm_compute. reflexivity. Qed.
Example parse_under : (ParseUint0 "1_000" u64_max, is_ok (ParseUint0 "1__0" u64_max), ParseInt0 "-017") = (Ok 1000, false, Ok (-15)).
Proof. vm_compute. reflexivity. Qed.

(** ** Lemmas: decimal numbers *)
Lemma digit_value_digit c : is_digit c = true -> digit_value c = byte_val c - 48.
Proof. unfold digit_value. by intros ->. Qed.

(** On decimal digits the base-10 loop is the loop of [ParseUint]. *)
Lemma base_loop_decimal s0 maxVal s n m : sforall is_digit s = true ->
  parse_loop s0 maxVal s n = Ok m -> base_loop 10 maxVal s n false = Ok (m, false).
Proof.
  revert n. induction s as [| c s IH]; intros n; cbn [sforall parse_loop base_loop]; [by intros _ [= ->] |].
  intros [Hc Hs]%andb_true_iff. rewrite Hc, digit_value_digit by done. cbn [negb].
  assert (char_eqb c "_" = false) as -> by (apply char_eqb_neq; intros ->; by vm_compute in Hc).
  assert ((byte_val c - 48 >=? 10) = false) as ->.
  { unfold is_digit, in_range in Hc. to_prop. apply geb_false. lia. }
  change (u64_max / 10 + 1) with cutoff10. destruct (n >=? cutoff10); [done |]. cbv zeta.
  destruct (_ || _); [done |]. by apply IH.
Qed.

Lemma digits_first fuel n acc : 0 < n -> n < 10 ^ Z.of_nat fuel ->
  exists d r, 1 <= d < 10 /\ digits 10 fuel n acc = digit_char d ::: r.
Proof.
  revert n acc. induction fuel as [| fuel IH]; intros n acc Hn Hlt; [cbn in Hlt; lia |]. cbn [digits].
  destruct (Z.ltb_spec n 10) as [Hs | Hge].
  - exists n, acc. rewrite Z.mod_small by lia. split; [lia | done].
  - rewrite Nat2Z.inj_succ, Z.pow_succ_r in Hlt by lia.
    apply IH; [apply Z.div_str_pos; lia | apply Z.div_lt_upper_bound; lia].
Qed.

Lemma ParseUint0_FormatUint n : u64 n -> ParseUint0 (FormatUint n) u64_max = Ok n.
Proof.
  intros Hn. destruct (Z.eq_dec n 0) as [-> | Hne]; [done |].
  unfold ParseUint0. rewrite (proj2 (String.eqb_neq _ _)) by done.
  destruct (digits_first (fuel_for n) n "") as (d & r & Hd & E); [word | apply fuel_for_enough; word |].
  assert (base_prefix (FormatUint n) = (10, FormatUint n)) as ->.
  { unfold FormatUint. rewrite E. cbn [base_prefix].
    assert (char_eqb (digit_char d) "0" = false) as ->; [| done].
    apply char_eqb_neq. intros E0. apply (f_equal byte_val) in E0. rewrite digit_char_val in E0 by lia.
    change (byte_val "0") with 48 in E0. lia. }
  assert (base_loop 10 u64_max (FormatUint n) 0 false = Ok (n, false)) as ->; [| done].
  eapply (base_loop_decimal (FormatUint n)); [apply FormatUint_digits; word |].
  assert (ParseUint (FormatUint n) u64_max = Ok n) as Hp by (apply ParseUint_FormatUint; word).
  unfold ParseUint in Hp. by destruct (FormatUint n).
Qed.

(** ** Lemmas: arguments printed from values *)
(** A flag name that can be printed: no dash first, no equals sign. *)
Definition good_name (name : string) : bool := negb (bad_syntax name) && free_of "=" name.

Lemma Cut_absent s sep : free_of sep s = true -> Cut s sep = None.
Proof.
  induction s as [| c s IH]; [done |]. unfold free_of. cbn [sforall Cut]. intros [Hc Hs]%andb_true_iff.
  apply negb_true_iff in Hc. rewrite Hc. by rewrite IH.
Qed.

Lemma flag_loop_value fs set name k value v rest :
  good_name name = true -> formal fs name = Some k -> set_flag k value = Ok v ->
  flag_loop fs set (("--" +:+ name) :: value :: rest) = flag_loop fs (<[name := merge_value (set !! name) v]> set) rest.
Proof.
  unfold good_name. intros [Hb Hf]%andb_true_iff Hk Hv. apply negb_true_iff in Hb. cbn [flag_loop].
  assert (classify ("--" +:+ name) = TFlag name) as -> by by destruct name.
  rewrite Hb. unfold split_flag. by rewrite Cut_absent, Hk, Hv.
Qed.

(** Optional values: the arguments they print, and the flags they set. *)
Definition opt_args (name : string) (value : option string) : list string :=
  match value with Some v => ["--" +:+ name; v] | None => [] end.
Definition opt_set (name : string) (v : option FlagValue) (set : gmap string FlagValue) : gmap string FlagValue :=
  match v with Some v => <[name := v]> set | None => set end.

Lemma flag_loop_string fs set name value rest : good_name name = true -> formal fs name = Some KString ->
  flag_loop fs set (opt_args name value ++ rest) = flag_loop fs (opt_set name (FString <$> value) set) rest.
Proof. intros Hg Hk. destruct value as [s |]; [| done]. by apply (flag_loop_value _ _ _ KString _ (FString s)). Qed.

Lemma flag_loop_uint fs set name value rest : good_name name = true -> formal fs name = Some KUint ->
  (forall n, value = Some n -> u64 n) ->
  flag_loop fs set (opt_args name (FormatUint <$> value) ++ rest) = flag_loop fs (opt_set name (FNum <$> value) set) rest.
Proof.
  intros Hg Hk Hn. destruct value as [n |]; [| done]. apply (flag_loop_value _ _ _ KUint _ (FNum n)); [done | done |].
  cbn [set_flag]. by rewrite ParseUint0_FormatUint by by apply Hn.
Qed.

Lemma opt_set_eq name v set : opt_set name v set !! name = match v with Some v => Some v | None => set !! name end.
Proof. destruct v; [apply lookup_insert_eq | done]. Qed.
Lemma opt_set_ne name name' v set : name <> name' -> opt_set name v set !! name' = set !! name'.
Proof. intros. destruct v; [by apply lookup_insert_ne | done]. Qed.
