(* ===== verification/GoFloat.v ===== *)
(** * Go's float64: conversion, shortest decimal text and parsing

    A [float64] is a binary64 [spec_float].  [FormatFloat] is
    [strconv.FormatFloat(v, 'g', -1, 64)]: the fewest digits that read back
    as [v], the nearest such decimal.  [ParseFloat] follows [readFloat] and
    rounds the exact rational it denotes to the nearest float, ties to even. *)
From Stdlib Require Import SpecFloat.
From S2P Require Import Prelude GoStrings GoStrconv GoJson GoTime GoFlag.

(** ** Exact ratios *)
(** The float nearest to [num / den], both positive. *)
Definition f64_of_ratio (num den : Z) : spec_float :=
  let '(mz, ez, lz) := SFdiv_core_binary 53 1024 num 0 den 0 in binary_round_aux 53 1024 false mz ez lz.

(** [a * base ^ e] as a ratio. *)
Definition ratio (a base e : Z) : Z * Z := if e <? 0 then (a, base ^ (- e)) else (a * base ^ e, 1).

Definition f64_eqb (a b : spec_float) : bool :=
  match a, b with
  | S754_finite s m e, S754_finite s' m' e' => Bool.eqb s s' && (m =? m')%positive && (e =? e')
  | S754_zero s, S754_zero s' => Bool.eqb s s'
  | S754_infinity s, S754_infinity s' => Bool.eqb s s'
  | S754_nan, S754_nan => true
  | _, _ => false
  end.

(** ** Shortest digits *)
(** The [k] with [10^k <= num/den < 10^(k+1)], near the guess. *)
Definition decimal_exponent (num den : Z) : Z :=
  let guess := Z.quot ((Z.log2 num - Z.log2 den) * 30103) 100000 in
  let le k := let '(n, d) := ratio 1 10 k in n * den <=? num * d in
  if le (guess + 1) then guess + 1 else if le guess then guess else
  if le (guess - 1) then guess - 1 else guess - 2.

(** Digits [d] standing for [d * 10^s]. *)
Definition decimal_value (d s : Z) : spec_float := let '(n, m) := ratio d 10 s in f64_of_ratio n m.

(** With [p] digits: the nearest decimal that reads back as [v], if any. *)
Definition digits_at (v : spec_float) (num den k : Z) (p : nat) : option (Z * Z) :=
  let s := k - Z.of_nat p + 1 in
  let '(sn, sd) := ratio 1 10 s in
  let d := (num * sd) / (den * sn) in
  let r := (num * sd) mod (den * sn) in
  let lo_ok := (d >? 0) && f64_eqb (decimal_value d s) v in
  let hi_ok := f64_eqb (decimal_value (d + 1) s) v in
  let lo_nearer := (2 * r <? den * sn) || ((2 * r =? den * sn) && Z.even d) in
  if lo_ok && (lo_nearer || negb hi_ok) then Some (d, s) else
  if hi_ok then Some (d + 1, s) else if lo_ok then Some (d, s) else None.

Fixpoint shortest_from (v : spec_float) (num den k : Z) (p fuel : nat) : Z * Z :=
  match fuel with
  | O => (num, 0)
  | S f => match digits_at v num den k p with Some r => r | None => shortest_from v num den k (S p) f end
  end.

Fixpoint strip_zeros (fuel : nat) (d s : Z) : Z * Z :=
  match fuel with
  | O => (d, s)
  | S f => if (d mod 10 =? 0) then strip_zeros f (d / 10) (s + 1) else (d, s)
  end.

(** The digits and the decimal point position of a positive float;
    seventeen digits always suffice for a binary64. *)
Definition shortest (m : positive) (e : Z) : string * Z :=
  let '(num, den) := ratio (Z.pos m) 2 e in
  let k := decimal_exponent num den in
  let '(d, s) := shortest_from (S754_finite false m e) num den k 1 17 in
  let '(d, s) := strip_zeros 20 d s in
  let text := FormatUint d in (text, slen text + s).

(** ** The %e and %f layouts *)
Definition fmtE (text : string) (dp : Z) : string :=
  let exp := dp - 1 in
  let first := take_bytes 1 text in
  let rest := drop_bytes 1 text in
  first +:+ (if String.eqb rest "" then "" else "." +:+ rest) +:+ "e" +:+ (if exp <? 0 then "-" else "+") +:+
  pad_left 2 "0" (FormatUint (Z.abs exp)).

Definition fmtF (text : string) (dp : Z) : string :=
  let nd := slen text in
  let int_part :=
    if dp <=? 0 then "0" else take_bytes (Z.to_nat dp) text +:+ repeat_char (Z.to_nat (dp - nd)) "0" in
  let frac := repeat_char (Z.to_nat (Z.min (- dp) (nd - dp))) "0" +:+ drop_bytes (Z.to_nat dp) text in
  int_part +:+ (if nd - dp <=? 0 then "" else "." +:+ frac).

Definition FormatFloat (v : spec_float) : string :=
  match v with
  | S754_nan => "NaN"
  | S754_infinity s => if s then "-Inf" else "+Inf"
  | S754_zero s => if s then "-0" else "0"
  | S754_finite s m e =>
      let '(text, dp) := shortest m e in
      let exp := dp - 1 in
      (if s then "-" else "") +:+ (if (exp <? -4) || (exp >=? 6) then fmtE text dp else fmtF text dp)
  end.

(** [strconv.FormatFloat(v, 'f', -1, 64)]. *)
Definition FormatFloatF (v : spec_float) : string :=
  match v with
  | S754_finite s m e => let '(text, dp) := shortest m e in (if s then "-" else "") +:+ fmtF text dp
  | _ => FormatFloat v
  end.

(** ** [strconv.ParseFloat(s, 64)] *)
(** The digit loop of [readFloat] with an exact mantissa and the number of
    its fractional digits. *)
Record Mantissa := { mt_value : Z; mt_frac : Z; mt_dot : bool; mt_digits : bool; mt_underscores : bool }.
Definition no_mantissa : Mantissa :=
  {| mt_value := 0; mt_frac := 0; mt_dot := false; mt_digits := false; mt_underscores := false |}.

Fixpoint read_mantissa (base : Z) (s : string) (m : Mantissa) : Mantissa * string :=
  match s with
  | EmptyString => (m, s)
  | c ::: r =>
      if char_eqb c "_" then
        read_mantissa base r {| mt_value := mt_value m; mt_frac := mt_frac m; mt_dot := mt_dot m;
                                mt_digits := mt_digits m; mt_underscores := true |}
      else if char_eqb c "." then
        if mt_dot m then (m, s) else
        read_mantissa base r {| mt_value := mt_value m; mt_frac := 0; mt_dot := true;
                                mt_digits := mt_digits m; mt_underscores := mt_underscores m |}
      else if is_digit c || ((base =? 16) && in_range 97 (lower_byte c) 102) then
        read_mantissa base r {| mt_value := mt_value m * base + digit_value c;
                                mt_frac := if mt_dot m then mt_frac m + 1 else 0; mt_dot := mt_dot m;
                                mt_digits := true; mt_underscores := mt_underscores m |}
      else (m, s)
  end.

(** The digits of the exponent, which saturates. *)
Fixpoint read_exponent (s : string) (e : Z) (underscores : bool) : Z * bool * string :=
  match s with
  | EmptyString => (e, underscores, s)
  | c ::: r =>
      if char_eqb c "_" then read_exponent r e true else
      if is_digit c then read_exponent r (if e <? 10000 then e * 10 + (byte_val c - 48) else e) underscores
      else (e, underscores, s)
  end.

(** The sign and the text after it. *)
Definition split_sign (s : string) : bool * string :=
  match s with
  | c ::: r => if char_eqb c "+" then (false, r) else if char_eqb c "-" then (true, r) else (false, s)
  | EmptyString => (false, s)
  end.

(** Equality with a lower-case ASCII word up to case. *)
Fixpoint same_word (s word : string) : bool :=
  match s, word with
  | EmptyString, EmptyString => true
  | a ::: s', b ::: word' => (lower_byte a =? byte_val b) && same_word s' word'
  | _, _ => false
  end.

(** [special], when it is the whole text. *)
Definition special (s : string) : option spec_float :=
  let '(neg, r) := split_sign s in
  if same_word r "inf" || same_word r "infinity" then Some (S754_infinity neg) else
  if same_word s "nan" then Some S754_nan else None.

(** The mantissa and the exponent scaled: the exact value as a ratio. *)
Record Scanned := { sc_neg : bool; sc_num : Z; sc_den : Z }.

Definition readFloat (s : string) : option Scanned :=
  let '(neg, r) := split_sign s in
  let hex := match r with c0 ::: c1 ::: _ ::: _ => char_eqb c0 "0" && (lower_byte c1 =? 120) | _ => false end in
  let base := if hex then 16 else 10 in
  let '(m, r1) := read_mantissa base (if hex then drop_bytes 2 r else r) no_mantissa in
  if negb (mt_digits m) then None else
  '(e, underscores, rest) ←
    (if match r1 with c ::: _ => lower_byte c =? (if hex then 112 else 101) | EmptyString => false end then
       let '(eneg, r2) := split_sign (drop_bytes 1 r1) in
       if match r2 with c ::: _ => is_digit c | EmptyString => false end then
         let '(e, underscores, r3) := read_exponent r2 0 (mt_underscores m) in
         Some (if eneg then - e else e, underscores, r3)
       else None
     else if hex then None else Some (0, mt_underscores m, r1));
  if negb (String.eqb rest "") || (underscores && negb (underscoreOK s)) then None else
  let '(num, den) := ratio (mt_value m) (if hex then 2 else 10) e in
  Some {| sc_neg := neg; sc_num := num; sc_den := den * base ^ mt_frac m |}.

Definition signed_float (neg : bool) (v : spec_float) : spec_float :=
  match v with
  | S754_finite _ m e => S754_finite neg m e
  | S754_zero _ => S754_zero neg
  | S754_infinity _ => S754_infinity neg
  | S754_nan => S754_nan
  end.

Definition ParseFloat (s : string) : result spec_float :=
  match special s with
  | Some v => Ok v
  | None =>
      match readFloat s with
      | None => Err (num_error "ParseFloat" s ErrSyntax)
      | Some sc =>
          let v := if sc_num sc =? 0 then S754_zero (sc_neg sc)
                   else signed_float (sc_neg sc) (f64_of_ratio (sc_num sc) (sc_den sc)) in
          match v with S754_infinity _ => Err (num_error "ParseFloat" s ErrRange) | _ => Ok v end
      end
  end.

Definition f64_tenth : spec_float := f64_of_ratio 1 10.
Example format_tenth : FormatFloat f64_tenth = "0.1".
Proof. vm_compute. reflexivity. Qed.
Example format_third : FormatFloat (f64_of_ratio 1 3) = "0.3333333333333333".
Proof. vm_compute. reflexivity. Qed.
Example format_mega : FormatFloat (f64_of_Z 1000000) = "1e+06".
Proof. vm_compute. reflexivity. Qed.
Example format_tiny : FormatFloat (f64_of_ratio 5 100000) = "5e-05".
Proof. vm_compute. reflexivity. Qed.
Example format_mixed : FormatFloat (f64_of_ratio 12345678 100) = "123456.78".
Proof. vm_compute. reflexivity. Qed.
Example format_half : FormatFloat (f64_of_ratio 5 1000) = "0.005".
Proof. vm_compute. reflexivity. Qed.
Example format_watts : (FormatFloatF (f64_of_Z 100000), FormatFloatF (f64_of_ratio 7125 100)) = ("100000", "71.25").
Proof. vm_compute. reflexivity. Qed.
Example parse_tenth : ParseFloat "0.1" = Ok f64_tenth.
Proof. vm_compute. reflexivity. Qed.
Example parse_forms : map ParseFloat ["1e2"; "+1_0.5"; "0x1p-1"; "-0"; "1e-400"; "Infinity"; ".5e1"] =
  [Ok (f64_of_Z 100); Ok (f64_of_ratio 21 2); Ok (f64_of_ratio 1 2); Ok (S754_zero true);
   Ok (S754_zero false); Ok (S754_infinity false); Ok (f64_of_Z 5)].
Proof. vm_compute. reflexivity. Qed.
Example parse_bad : map (fun s => is_ok (ParseFloat s)) ["1e400"; "."; "1e"; "0x1"; "1.2.3"; "" ; "3x"] = repeat false 7.
Proof. vm_compute. reflexivity. Qed.
Example parse_exact : ParseFloat "9007199254740993" = Ok (f64_of_Z 9007199254740992).
Proof. vm_compute. reflexivity. Qed.
