(* ===== verification/GoRat.v ===== *)
(** * Go's [big.Rat.SetString]: exact rationals from text

    The scanner of [math/big]: base prefixes, digit separators, a radix
    point, decimal and binary exponents, and quotients of integers.  A
    rational is a ratio of integers with a positive denominator, not
    necessarily in lowest terms. *)
From S2P Require Import Prelude GoStrings GoStrconv GoFlag GoFloat.

(** ** [nat.scan(r, 0, fracOk)] *)
Inductive prev_byte := PrevDigit | PrevSeparator | PrevOther.

Record Scan := {
  s_value : Z;
  s_count : Z;                (* digits *)
  s_point : option Z;         (* digits before the radix point *)
  s_prev : prev_byte;
  s_bad : bool                (* a misplaced separator *)
}.

(** The digit loop; the rest of the text starts at the first byte that does
    not belong to the number. *)
Fixpoint scan_digits (base : Z) (fracOk : bool) (s : string) (st : Scan) : Scan * string :=
  match s with
  | EmptyString => (st, s)
  | c ::: r =>
      if char_eqb c "." && fracOk then
        scan_digits base false r {| s_value := s_value st; s_count := s_count st; s_point := Some (s_count st);
          s_prev := PrevOther; s_bad := s_bad st || match s_prev st with PrevSeparator => true | _ => false end |}
      else if char_eqb c "_" then
        scan_digits base fracOk r {| s_value := s_value st; s_count := s_count st; s_point := s_point st;
          s_prev := PrevSeparator; s_bad := s_bad st || match s_prev st with PrevDigit => false | _ => true end |}
      else
        let d := digit_value c in
        if d >=? base then (st, s) else
        scan_digits base fracOk r {| s_value := s_value st * base + d; s_count := s_count st + 1;
          s_point := s_point st; s_prev := PrevDigit; s_bad := s_bad st |}
  end.

(** The base, whether it is the bare octal prefix, the number of digits seen
    before the loop and the text the loop reads. *)
Definition scan_prefix (fracOk : bool) (s : string) : Z * bool * Z * string :=
  match s with
  | c0 ::: r0 =>
      if negb (char_eqb c0 "0") then (10, false, 0, s) else
      match r0 with
      | EmptyString => (10, false, 1, r0)
      | c1 ::: r1 =>
          let l := lower_byte c1 in
          if l =? 98 then (2, false, 0, r1) else
          if l =? 111 then (8, false, 0, r1) else
          if l =? 120 then (16, false, 0, r1) else
          if fracOk then (10, false, 1, r0) else (8, true, 0, r0)
      end
  | EmptyString => (10, false, 0, s)
  end.

(** The value, the base, minus the number of fractional digits, the rest. *)
Definition nat_scan (fracOk : bool) (s : string) : option (Z * Z * Z * string) :=
  let '(base, octal, count, s1) := scan_prefix fracOk s in
  let zero_read := match s with c ::: _ => char_eqb c "0" | _ => false end in
  let '(st, rest) := scan_digits base fracOk s1
    {| s_value := 0; s_count := count; s_point := None;
       s_prev := if zero_read then PrevDigit else PrevOther; s_bad := false |} in
  if s_count st =? 0 then (if octal then Some (0, 10, 0, rest) else None) else
  if s_bad st || match s_prev st with PrevSeparator => true | _ => false end then None else
  Some (s_value st, base, match s_point st with Some dp => dp - s_count st | None => 0 end, rest).

(** ** [scanExponent(r, true, true)] *)
Fixpoint exponent_digits (s digits : string) (prev : prev_byte) (bad : bool) : string * prev_byte * bool * string :=
  match s with
  | EmptyString => (digits, prev, bad, s)
  | c ::: r =>
      if is_digit c then exponent_digits r (digits +:+ chr c) PrevDigit bad else
      if char_eqb c "_" then
        exponent_digits r digits PrevSeparator (bad || match prev with PrevDigit => false | _ => true end)
      else (digits, prev, bad, s)
  end.

(** The exponent, its base and the rest. *)
Definition scanExponent (s : string) : option (Z * Z * string) :=
  match s with
  | EmptyString => Some (0, 10, s)
  | c ::: r =>
      let l := lower_byte c in
      if (l =? 101) || (l =? 112) then
        let '(neg, r1) := split_sign r in
        let '(digits, prev, bad, rest) := exponent_digits r1 "" PrevOther false in
        if String.eqb digits "" then None else
        match ParseInt ((if neg then "-" else "") +:+ digits) with
        | Err _ => None
        | Ok e => if bad || match prev with PrevSeparator => true | _ => false end then None
                  else Some (e, if l =? 101 then 10 else 2, rest)
        end
      else Some (0, 10, s)
  end.

(** ** [Rat.SetString] *)
Definition Rat_SetString (s : string) : option (Z * Z) :=
  if String.eqb s "" then None else
  match Cut s "/" with
  | Some (a, b) =>
      let '(neg, a1) := split_sign a in
      '(num, _, _, rest_a) ← nat_scan false a1;
      if negb (String.eqb rest_a "") then None else
      '(den, _, _, rest_b) ← nat_scan false b;
      if negb (String.eqb rest_b "") || (den =? 0) then None else Some (if neg then - num else num, den)
  | None =>
      let '(neg, s1) := split_sign s in
      '(mant, base, fcount, s2) ← nat_scan true s1;
      '(exp, ebase, rest) ← scanExponent s2;
      if negb (String.eqb rest "") then None else
      if mant =? 0 then Some (0, 1) else
      let exp5 := (if base =? 10 then fcount else 0) + (if ebase =? 10 then exp else 0) in
      let exp2 := (if base =? 10 then fcount else if base =? 2 then fcount else if base =? 8 then fcount * 3
                   else fcount * 4) + exp in
      if (Z.abs exp5 >? 1000000) || (exp2 <? -10000000) || (exp2 >? 10000000) then None else
      let '(n5, d5) := ratio mant 5 exp5 in
      let '(n2, d2) := ratio n5 2 exp2 in
      Some (if neg then - n2 else n2, d5 * d2)
  end.

(** [a/b] reduced, for comparison. *)
Example rat_ex1 : Rat_SetString "1.5" = Some (15, 10).
Proof. vm_compute. reflexivity. Qed.
Example rat_ex2 : Rat_SetString "0X1P-3" = Some (1, 8).
Proof. vm_compute. reflexivity. Qed.
Example rat_ex3 : Rat_SetString "-3/0b100" = Some (-3, 4).
Proof. vm_compute. reflexivity. Qed.
Example rat_ex4 : map Rat_SetString ["1__0"; "09"; "09/1"; "."; "1e"; "/2"; "1/0"; "1.5x"; "1_000E3"] =
  [None; Some (9, 1); None; None; None; None; None; None; Some (1000000, 1)].
Proof. vm_compute. reflexivity. Qed.

(** ** Lemmas *)
Lemma digit_value_nonneg c : 0 <= digit_value c.
Proof.
  unfold digit_value. pose proof (byte_val_bounds c) as Hb.
  assert (0 <= lower_byte c) by (apply Z.lor_nonneg; lia). unfold is_digit, in_range. guards; to_prop; lia.
Qed.

Lemma scan_digits_nonneg base fracOk s st st' rest : 0 <= base -> 0 <= s_value st ->
  scan_digits base fracOk s st = (st', rest) -> 0 <= s_value st'.
Proof.
  intros Hb. revert fracOk st. induction s as [| c s IH]; intros fracOk st Hv; cbn [scan_digits]; [by intros [= <- _] |].
  destruct (_ && _); [by apply IH |]. destruct (char_eqb c "_"); [by apply IH |].
  destruct (_ >=? _); [by intros [= <- _] |]. apply IH. cbn. pose proof (digit_value_nonneg c). nia.
Qed.

Lemma nat_scan_nonneg fracOk s v base fc rest : nat_scan fracOk s = Some (v, base, fc, rest) -> 0 <= v.
Proof.
  unfold nat_scan. destruct (scan_prefix fracOk s) as [[[b octal] count] s1] eqn:Ep.
  assert (0 <= b) as Hb.
  { unfold scan_prefix in Ep. repeat (match type of Ep with context [match ?x with _ => _ end] => destruct x end);
      by simplify_eq. }
  destruct (scan_digits _ _ _ _) as [st r] eqn:Es. apply scan_digits_nonneg in Es; [| done | done].
  destruct (s_count st =? 0); [destruct octal; by intros [= <- _ _ _] |].
  destruct (_ || _); [done |]. by intros [= <- _ _ _].
Qed.

Lemma ratio_den_pos a base e : 0 < base -> 0 < (ratio a base e).2.
Proof. intros. unfold ratio. destruct (Z.ltb_spec e 0); cbn; [apply Z.pow_pos_nonneg; lia | lia]. Qed.

(** The denominator is positive. *)
Lemma Rat_SetString_den s num den : Rat_SetString s = Some (num, den) -> 0 < den.
Proof.
  unfold Rat_SetString. destruct (String.eqb s ""); [done |]. destruct (Cut s "/") as [[a b] |].
  - destruct (split_sign a) as [neg a1].
    intros ([[[n ?] ?] ra] & Ha & H)%bind_Some. destruct (negb _); [done |].
    apply bind_Some in H as ([[[d ?] ?] rb] & Hd%nat_scan_nonneg & H).
    destruct (_ || _) eqn:E; [done |]. simplify_eq. to_prop. lia.
  - destruct (split_sign s) as [neg s1].
    intros ([[[m base] fc] s2] & Hm & H)%bind_Some. apply bind_Some in H as ([[e eb] rest] & He & H).
    destruct (negb _); [done |]. destruct (m =? 0); [by simplify_eq |]. cbv zeta in H.
    destruct (_ || _ || _); [done |].
    destruct (ratio m 5 _) as [n5 d5] eqn:E5. apply (f_equal snd) in E5. cbn in E5.
    destruct (ratio n5 2 _) as [n2 d2] eqn:E2. apply (f_equal snd) in E2. cbn in E2. simplify_eq.
    apply Z.mul_pos_pos; by apply ratio_den_pos.
Qed.
