(* ===== verification/GoQuote.v ===== *)
(** * Go's [strconv.Quote]

    Which runes beyond ASCII are printable is Unicode data: the parameter
    [is_print]. *)
From S2P Require Import Prelude GoStrings GoStrconv GoJson.

Section quote.
Context (is_print : Z -> bool).

(** The value of the valid rune of [n] bytes that a string starts with. *)
Definition rune_value (n : nat) (s : string) : Z :=
  let low k := match String.get k s with Some c => Z.land (byte_val c) 0x3F | None => 0 end in
  let b0 := match s with c ::: _ => byte_val c | EmptyString => 0 end in
  match n with
  | 2%nat => Z.lor (Z.shiftl (Z.land b0 0x1F) 6) (low 1%nat)
  | 3%nat => Z.lor (Z.shiftl (Z.land b0 0x0F) 12) (Z.lor (Z.shiftl (low 1%nat) 6) (low 2%nat))
  | 4%nat => Z.lor (Z.shiftl (Z.land b0 0x07) 18)
      (Z.lor (Z.shiftl (low 1%nat) 12) (Z.lor (Z.shiftl (low 2%nat) 6) (low 3%nat)))
  | _ => b0
  end.

Definition hex2 (b : Z) : string := chr (digit_char (b / 16)) +:+ chr (digit_char (b mod 16)).

Definition quote_ascii (c : ascii) : string :=
  let b := byte_val c in
  if (b =? 34) || (b =? 92) then esc (chr c) else
  if in_range 0x20 b 0x7E then chr c else
  if b =? 7 then esc "a" else
  if b =? 8 then esc "b" else
  if b =? 12 then esc "f" else
  if b =? 10 then esc "n" else
  if b =? 13 then esc "r" else
  if b =? 9 then esc "t" else
  if b =? 11 then esc "v" else esc ("x" +:+ hex2 b).

(** An unprintable rune beyond ASCII. *)
Definition quote_rune (r : Z) : string :=
  if r <? 0x10000 then esc ("u" +:+ pad_left 4 "0" (FormatHex r)) else esc ("U" +:+ pad_left 8 "0" (FormatHex r)).

(** [skip] counts the bytes of the current rune still to be copied or dropped. *)
Fixpoint quote_body (s : string) (skip : nat) (copy : bool) : string :=
  match s with
  | EmptyString => EmptyString
  | c ::: r =>
      match skip with
      | S k => if copy then c ::: quote_body r k copy else quote_body r k copy
      | O =>
          if byte_val c <? 0x80 then quote_ascii c +:+ quote_body r 0%nat true else
          match utf8_width s with
          | O => esc ("x" +:+ hex2 (byte_val c)) +:+ quote_body r 0%nat true
          | S k =>
              if is_print (rune_value (S k) s) then c ::: quote_body r k true
              else quote_rune (rune_value (S k) s) +:+ quote_body r k false
          end
      end
  end.

Definition Quote (s : string) : string := quoted (quote_body s 0%nat true).

(** ** Lemmas *)
(** A text of printable ASCII without quotes and backslashes is kept. *)
Definition plain (c : ascii) : bool := in_range 0x20 (byte_val c) 0x7E && negb (byte_val c =? 34) && negb (byte_val c =? 92).

Lemma quote_body_plain s : sforall plain s = true -> quote_body s 0 true = s.
Proof.
  induction s as [| c s IH]; [done |]. cbn [sforall quote_body]. unfold plain at 1. intros H. to_prop.
  destruct H as [[[Hr H34] H92] Hs]. unfold in_range in Hr. to_prop.
  rewrite (proj2 (Z.ltb_lt _ _)) by lia. unfold quote_ascii, in_range.
  rewrite !(proj2 (Z.eqb_neq _ _)), !(proj2 (Z.leb_le _ _)) by lia. cbn [orb andb]. by rewrite IH.
Qed.

Lemma Quote_plain s : sforall plain s = true -> Quote s = quoted s.
Proof. intros H. unfold Quote. by rewrite quote_body_plain. Qed.

(** Bytes that a quoted text never contains raw: control bytes. *)
Lemma hex2_free b : 0 <= b < 256 -> free_of newline (hex2 b) = true.
Proof.
  intros Hb. unfold hex2, free_of. rewrite sforall_append. cbn [sforall chr].
  assert (forall d, 0 <= d < 16 -> negb (char_eqb (digit_char d) newline) = true) as Hd.
  { intros d Hd. assert (d ∈ [0;1;2;3;4;5;6;7;8;9;10;11;12;13;14;15]) as Hin by (rewrite !elem_of_cons; lia).
    repeat (apply elem_of_cons in Hin as [-> | Hin]; [done |]). by apply elem_of_nil in Hin. }
  rewrite !Hd; [done | |]; [by apply Z.mod_pos_bound | split; [apply Z.div_pos; lia | apply Z.div_lt_upper_bound; lia]].
Qed.
End quote.

(** ** Texts without a newline *)
Definition one_line (s : string) : Prop := free_of newline s = true.
Create HintDb one_line.

Lemma one_line_app s t : one_line s -> one_line t -> one_line (s +:+ t).
Proof. unfold one_line. intros Hs Ht. by rewrite free_of_append, Hs, Ht. Qed.
Lemma one_line_chr c : char_eqb c newline = false -> one_line (chr c).
Proof. unfold one_line, free_of. cbn. by intros ->. Qed.
Lemma one_line_cons c s : char_eqb c newline = false -> one_line s -> one_line (c ::: s).
Proof. intros Hc Hs. apply (one_line_app (chr c)); [by apply one_line_chr | done]. Qed.
Lemma one_line_if (b : bool) s t : one_line s -> one_line t -> one_line (if b then s else t).
Proof. by destruct b. Qed.
#[export] Hint Resolve one_line_app one_line_cons one_line_if : one_line.
#[export] Hint Extern 0 (one_line _) => reflexivity : one_line.
Ltac one_line := repeat match goal with
  | |- one_line (_ +:+ _) => apply one_line_app
  | |- one_line (if _ then _ else _) => apply one_line_if
  end; auto with one_line.

Lemma digit_char_line d : 0 <= d < 16 -> char_eqb (digit_char d) newline = false.
Proof.
  intros Hd. assert (d = Z.of_nat (Z.to_nat d)) as -> by lia. set (k := Z.to_nat d). assert (k < 16)%nat as Hk by lia.
  clearbody k. do 16 (destruct k as [| k]; [reflexivity |]). lia.
Qed.

Lemma digits_line base fuel n acc : 0 < base <= 16 -> one_line acc -> one_line (digits base fuel n acc).
Proof.
  intros Hb. revert n acc. induction fuel as [| fuel IH]; intros n acc Ha; cbn [digits]; [done |].
  assert (one_line (digit_char (n mod base) ::: acc)) as Hd.
  { apply one_line_cons; [| done]. apply digit_char_line. pose proof (Z.mod_pos_bound n base). lia. }
  apply one_line_if; [done | by apply IH].
Qed.

Lemma FormatUint_line n : one_line (FormatUint n).
Proof. by apply digits_line. Qed.
Lemma FormatHex_line n : one_line (FormatHex n).
Proof. by apply digits_line. Qed.
#[export] Hint Resolve FormatUint_line FormatHex_line : one_line.
Lemma Itoa_line n : one_line (Itoa n).
Proof. unfold Itoa. auto with one_line. Qed.
#[export] Hint Resolve Itoa_line : one_line.

Lemma repeat_line n c : char_eqb c newline = false -> one_line (repeat_char n c).
Proof. intros Hc. induction n as [| n IH]; [done |]. by apply one_line_cons. Qed.
Lemma pad_left_line w c s : char_eqb c newline = false -> one_line s -> one_line (pad_left w c s).
Proof. intros Hc Hs. apply one_line_app; [by apply repeat_line | done]. Qed.
Lemma part_line n s : one_line s -> one_line (take_bytes n s) /\ one_line (drop_bytes n s).
Proof.
  unfold one_line, free_of. revert s. induction n as [| n IH]; intros s Hs; [done |]. destruct s as [| c s]; [done |].
  cbn [sforall take_bytes drop_bytes] in *. apply andb_true_iff in Hs as [Hc Hs]. rewrite Hc. by apply IH.
Qed.
Lemma take_line n s : one_line s -> one_line (take_bytes n s). Proof. intros Hs. by apply (part_line n). Qed.
Lemma drop_line n s : one_line s -> one_line (drop_bytes n s). Proof. intros Hs. by apply (part_line n). Qed.
#[export] Hint Resolve repeat_line pad_left_line take_line drop_line : one_line.

Lemma high_line c : 0x80 <= byte_val c -> char_eqb c newline = false.
Proof. intros Hc. apply char_eqb_neq. intros ->. by vm_compute in Hc. Qed.

Lemma quote_body_line is_print s skip copy : high_bytes skip s = true -> one_line (quote_body is_print s skip copy).
Proof.
  revert skip copy. induction s as [| c s IH]; intros skip copy Hs; [done |]. cbn [quote_body].
  destruct skip as [| k]; [clear Hs |].
  - destruct (Z.ltb_spec (byte_val c) 128) as [Hlt | Hge].
    + apply one_line_app; [| by apply IH]. unfold one_line. clear. revert c.
      apply (every_byte_spec (fun c => free_of newline (quote_ascii c))). vm_compute. reflexivity.
    + destruct (utf8_width (c ::: s)) as [| k] eqn:Ew.
      * apply one_line_app; [| by apply IH]. apply (one_line_app "\x"); [done |]. apply hex2_free. apply byte_val_bounds.
      * apply utf8_tail in Ew. destruct (is_print _).
        -- apply one_line_cons; [by apply high_line | by apply IH].
        -- apply one_line_app; [| by apply IH]. unfold quote_rune, esc. auto 8 with one_line.
  - cbn [high_bytes] in Hs. to_prop. destruct Hs as [Hc Hs]. destruct copy; [| by apply IH].
    apply one_line_cons; [by apply high_line; lia | by apply IH].
Qed.

Lemma Quote_line is_print s : one_line (Quote is_print s).
Proof. unfold Quote, quoted. repeat apply one_line_app; try done. by apply quote_body_line. Qed.
#[export] Hint Resolve Quote_line : one_line.

Example quote_ex : Quote (fun _ => true) ("a" +:+ chr dquote +:+ chr newline +:+ chr (byte_of 255)) =
  quoted ("a" +:+ esc (chr dquote) +:+ esc "n" +:+ esc "xff").
Proof. reflexivity. Qed.
