(* ===== verification/Catalog.v ===== *)
(** * Profile catalog: [profiles/catalog.go]

    The GPU profiles and named topologies compiled into the program.
    [LoadCatalog] is modelled over the decoded contents of the embedded
    files (JSON decoding itself is the library's), in the order the glob
    returns their names; [embedded_profiles] and [embedded_topologies] are
    the contents of the repository's JSON files. *)
From S2P Require Import Prelude GoStrings.

Module profiles.

(** ** Data *)
Record ComputeCapability := { cc_Major : Z; cc_Minor : Z }.

Record Profile := {
  p_ID : string;
  p_Name : string;
  p_Architecture : string;
  p_ComputeCapability : ComputeCapability;
  p_TotalMemoryMiB : Z;
  p_ReservedMemoryMiB : Z;
  p_TemperatureC : Z;
  p_PowerDrawMW : Z;
  p_Source : string;
  p_UpstreamConfig : string
}.

Record TopologyDevice := {
  td_Profile : string;
  td_VRAMMiB : Z;
  td_UsedMiB : Z;
  td_GPUUtil : Z;
  td_MemoryUtil : Z
}.

Record Topology := { t_ID : string; t_Devices : list TopologyDevice }.

Record Catalog := {
  profiles : gmap string Profile;
  topologies : gmap string Topology
}.

(** ** Validation *)
Definition validateProfile (p : Profile) : result unit :=
  if String.eqb (TrimSpace (p_ID p)) "" then Err (Errorf "profile id is required" []) else
  if String.eqb (TrimSpace (p_Name p)) "" then Err (Errorf "profile name is required" []) else
  if String.eqb (TrimSpace (p_Architecture p)) "" then Err (Errorf "architecture is required" []) else
  if cc_Major (p_ComputeCapability p) <=? 0
  then Err (Errorf "compute capability major must be positive" []) else
  if p_TotalMemoryMiB p =? 0 then Err (Errorf "total memory must be positive" []) else
  if p_ReservedMemoryMiB p >=? p_TotalMemoryMiB p
  then Err (Errorf "reserved memory must be smaller than total memory" []) else
  if (p_TemperatureC p <? 0) || (p_TemperatureC p >? 200)
  then Err (Errorf "temperature must be between 0 and 200 C" []) else
  if String.eqb (TrimSpace (p_Source p)) "" then Err (Errorf "source is required" []) else
  if String.eqb (p_Source p) "upstream" && String.eqb (p_UpstreamConfig p) ""
  then Err (Errorf "upstream profiles must declare upstream_config" []) else
  Ok tt.

Definition validateTopologyDevice (ps : gmap string Profile) (i : Z) (d : TopologyDevice) : result unit :=
  match ps !! td_Profile d with
  | None => Err (Errorf "device %d references unknown profile %q" [AZ i; AS (td_Profile d)])
  | Some p =>
      let total := if negb (td_VRAMMiB d =? 0) then td_VRAMMiB d else p_TotalMemoryMiB p in
      if total <=? p_ReservedMemoryMiB p
      then Err (Errorf "device %d total VRAM must exceed reserved VRAM" [AZ i]) else
      if td_UsedMiB d >? total ⊖ p_ReservedMemoryMiB p
      then Err (Errorf "device %d used+reserved VRAM exceeds total" [AZ i]) else
      if (td_GPUUtil d >? 100) || (td_MemoryUtil d >? 100)
      then Err (Errorf "device %d utilization must be <= 100" [AZ i]) else
      Ok tt
  end.

Definition validateTopology (c : Catalog) (t : Topology) : result unit :=
  if String.eqb (TrimSpace (t_ID t)) "" then Err (Errorf "topology id is required" []) else
  if Nat.eqb (length (t_Devices t)) 0
  then Err (Errorf "topology must contain at least one device" []) else
  for_each (validateTopologyDevice (profiles c)) 0 (t_Devices t).

(** ** Loading *)

(** A decoded embedded file: its name and what [decodeFile] returned. *)
Definition file (A : Type) : Type := string * result A.

Definition loadProfile (c : Catalog) (f : file Profile) : result Catalog :=
  let '(name, decoded) := f in
  p ← decoded;
  _ ← wrap_err (Wrapf "%s: %w" [AS name]) (validateProfile p);
  match profiles c !! p_ID p with
  | Some _ => Err (Errorf "duplicate profile %q" [AS (p_ID p)])
  | None => Ok {| profiles := <[p_ID p := p]> (profiles c); topologies := topologies c |}
  end.

Definition loadTopology (c : Catalog) (f : file Topology) : result Catalog :=
  let '(name, decoded) := f in
  t ← decoded;
  _ ← wrap_err (Wrapf "%s: %w" [AS name]) (validateTopology c t);
  match topologies c !! t_ID t with
  | Some _ => Err (Errorf "duplicate topology %q" [AS (t_ID t)])
  | None => Ok {| profiles := profiles c; topologies := <[t_ID t := t]> (topologies c) |}
  end.

Definition LoadCatalog (profileFiles : list (file Profile)) (topologyFiles : list (file Topology))
    : result Catalog :=
  c ← foldM loadProfile profileFiles {| profiles := ∅; topologies := ∅ |};
  foldM loadTopology topologyFiles c.

(** ** Lookup *)
Definition LookupProfile (c : Catalog) (id : string) : option Profile := profiles c !! id.
Definition LookupTopology (c : Catalog) (id : string) : option Topology := topologies c !! id.

(** ** The embedded files *)
Definition cc (major minor : Z) := {| cc_Major := major; cc_Minor := minor |}.

Definition embedded_profiles : list (file Profile) := [
  ("a100-40gb.json", Ok {| p_ID := "a100-40gb"; p_Name := "NVIDIA A100-SXM4-40GB";
     p_Architecture := "ampere"; p_ComputeCapability := cc 8 0; p_TotalMemoryMiB := 40960;
     p_ReservedMemoryMiB := 583; p_TemperatureC := 33; p_PowerDrawMW := 72000;
     p_Source := "upstream";
     p_UpstreamConfig := "pkg/gpu/mocknvml/configs/mock-nvml-config-a100.yaml" |});
  ("h100-80gb.json", Ok {| p_ID := "h100-80gb"; p_Name := "NVIDIA H100 80GB HBM3";
     p_Architecture := "hopper"; p_ComputeCapability := cc 9 0; p_TotalMemoryMiB := 81920;
     p_ReservedMemoryMiB := 1024; p_TemperatureC := 34; p_PowerDrawMW := 95000;
     p_Source := "upstream";
     p_UpstreamConfig := "pkg/gpu/mocknvml/configs/mock-nvml-config-h100.yaml" |});
  ("l40s-48gb.json", Ok {| p_ID := "l40s-48gb"; p_Name := "NVIDIA L40S";
     p_Architecture := "ada_lovelace"; p_ComputeCapability := cc 8 9; p_TotalMemoryMiB := 49152;
     p_ReservedMemoryMiB := 512; p_TemperatureC := 32; p_PowerDrawMW := 45000;
     p_Source := "upstream";
     p_UpstreamConfig := "pkg/gpu/mocknvml/configs/mock-nvml-config-l40s.yaml" |});
  ("rtx4060ti-16gb.json", Ok {| p_ID := "rtx4060ti-16gb"; p_Name := "NVIDIA GeForce RTX 4060 Ti";
     p_Architecture := "ada_lovelace"; p_ComputeCapability := cc 8 9; p_TotalMemoryMiB := 16384;
     p_ReservedMemoryMiB := 256; p_TemperatureC := 35; p_PowerDrawMW := 18000;
     p_Source := "fake-nvidia"; p_UpstreamConfig := "" |});
  ("rtx4090-24gb.json", Ok {| p_ID := "rtx4090-24gb"; p_Name := "NVIDIA GeForce RTX 4090";
     p_Architecture := "ada_lovelace"; p_ComputeCapability := cc 8 9; p_TotalMemoryMiB := 24576;
     p_ReservedMemoryMiB := 512; p_TemperatureC := 35; p_PowerDrawMW := 25000;
     p_Source := "fake-nvidia"; p_UpstreamConfig := "" |});
  ("t4-16gb.json", Ok {| p_ID := "t4-16gb"; p_Name := "NVIDIA T4";
     p_Architecture := "turing"; p_ComputeCapability := cc 7 5; p_TotalMemoryMiB := 16384;
     p_ReservedMemoryMiB := 300; p_TemperatureC := 30; p_PowerDrawMW := 12000;
     p_Source := "upstream";
     p_UpstreamConfig := "pkg/gpu/mocknvml/configs/mock-nvml-config-t4.yaml" |})
].

Definition plain_device (profile : string) (used gpu mem : Z) : TopologyDevice :=
  {| td_Profile := profile; td_VRAMMiB := 0; td_UsedMiB := used; td_GPUUtil := gpu; td_MemoryUtil := mem |}.

Definition embedded_topologies : list (file Topology) := [
  ("topologies/dual-rtx4060ti-16gb.json", Ok {| t_ID := "dual-rtx4060ti-16gb";
     t_Devices := [plain_device "rtx4060ti-16gb" 0 0 0; plain_device "rtx4060ti-16gb" 0 0 0] |});
  ("topologies/mixed-gpu.json", Ok {| t_ID := "mixed-gpu";
     t_Devices := [plain_device "rtx4060ti-16gb" 2048 15 10; plain_device "rtx4090-24gb" 4096 35 25;
                   plain_device "t4-16gb" 1024 5 4; plain_device "l40s-48gb" 8192 55 45] |})
].

(** The ids in lexical order. *)
Definition ProfileIDs (c : Catalog) : list string := sort_strings (map_to_list (profiles c)).*1.
Definition TopologyIDs (c : Catalog) : list string := sort_strings (map_to_list (topologies c)).*1.

(** ** The field types, as the machine enforces them *)
Definition profile_typed (p : Profile) : Prop :=
  u64 (p_TotalMemoryMiB p) /\ u64 (p_ReservedMemoryMiB p) /\ u32 (p_PowerDrawMW p).
Definition topology_device_typed (d : TopologyDevice) : Prop :=
  u64 (td_VRAMMiB d) /\ u64 (td_UsedMiB d) /\ u32 (td_GPUUtil d) /\ u32 (td_MemoryUtil d).

(** ** Well-formed catalogs *)
Record wf_catalog (c : Catalog) : Prop := {
  wf_profiles : forall id p, profiles c !! id = Some p -> p_ID p = id /\ validateProfile p = Ok tt;
  wf_topologies : forall id t, topologies c !! id = Some t ->
    t_ID t = id /\ validateTopology c t = Ok tt
}.

(** ** Lemmas *)
Lemma validateProfile_ok p : validateProfile p = Ok tt ->
  TrimSpace (p_ID p) <> "" /\ TrimSpace (p_Name p) <> "" /\ 0 < cc_Major (p_ComputeCapability p) /\
  p_ReservedMemoryMiB p < p_TotalMemoryMiB p /\ 0 <= p_TemperatureC p <= 200 /\
  (p_Source p = "upstream" -> p_UpstreamConfig p <> "").
Proof.
  unfold validateProfile. intros H. invert_ok H. to_prop.
  repeat split; try tauto; lia.
Qed.

Lemma validateTopologyDevice_ok ps i d : validateTopologyDevice ps i d = Ok tt ->
  exists p, ps !! td_Profile d = Some p /\
    p_ReservedMemoryMiB p < (if td_VRAMMiB d =? 0 then p_TotalMemoryMiB p else td_VRAMMiB d) /\
    td_UsedMiB d <= (if td_VRAMMiB d =? 0 then p_TotalMemoryMiB p else td_VRAMMiB d) ⊖ p_ReservedMemoryMiB p /\
    td_GPUUtil d <= 100 /\ td_MemoryUtil d <= 100.
Proof.
  unfold validateTopologyDevice. destruct (ps !! td_Profile d) as [p |]; [| discriminate].
  cbv zeta. intros H. invert_ok H. exists p. to_prop.
  destruct (td_VRAMMiB d =? 0); cbn [negb] in *; repeat split; tauto.
Qed.

Lemma loadProfile_wf c f c' :
  wf_catalog c -> topologies c = ∅ -> loadProfile c f = Ok c' -> wf_catalog c' /\ topologies c' = ∅.
Proof.
  destruct f as [name decoded]. unfold loadProfile. intros [Hp Ht] Hnone H. invert_ok H.
  injection H as <-.
  apply wrap_err_ok in Hstep0. split; [| done]. split; cbn.
  - intros id p [[<- <-] | [? ?]]%lookup_insert_Some; [| by apply Hp]. done.
  - rewrite Hnone. by intros id t ?.
Qed.

Lemma loadTopology_wf c f c' : wf_catalog c -> loadTopology c f = Ok c' -> wf_catalog c'.
Proof.
  destruct f as [name decoded]. unfold loadTopology. intros [Hp Ht] H. invert_ok H.
  injection H as <-.
  apply wrap_err_ok in Hstep0. split; cbn; [done |].
  intros id t [[<- <-] | [? ?]]%lookup_insert_Some; [| by apply Ht]. done.
Qed.

Lemma foldM_loadProfile_wf l c c' :
  wf_catalog c -> topologies c = ∅ -> foldM loadProfile l c = Ok c' ->
  wf_catalog c' /\ topologies c' = ∅.
Proof.
  intros Hwf Hnone. apply (foldM_inv _ (fun _ c => wf_catalog c /\ topologies c = ∅)); [done |].
  intros ? a s1 s2 [? ?]. by apply loadProfile_wf.
Qed.

Lemma empty_wf : wf_catalog {| profiles := ∅; topologies := ∅ |}.
Proof. split; by intros ? ? ?. Qed.

Lemma LoadCatalog_wf ps ts c : LoadCatalog ps ts = Ok c -> wf_catalog c.
Proof.
  unfold LoadCatalog. intros (c1 & H1 & H2)%result_bind_ok.
  apply foldM_loadProfile_wf in H1 as [Hwf _]; [| apply empty_wf | done].
  revert H2. apply (foldM_inv _ (fun _ c => wf_catalog c)); [done |].
  intros ? a s1 s2 ?. by apply loadTopology_wf.
Qed.

(** Loading keeps every profile that was already there. *)
Lemma loadProfile_mono c f c' id p :
  loadProfile c f = Ok c' -> profiles c !! id = Some p -> profiles c' !! id = Some p.
Proof.
  destruct f as [name decoded]. unfold loadProfile. intros H Hp. invert_ok H.
  injection H as <-. cbn.
  rewrite lookup_insert_ne; [done | congruence].
Qed.

Lemma foldM_loadProfile_mono l c c' id p :
  foldM loadProfile l c = Ok c' -> profiles c !! id = Some p -> profiles c' !! id = Some p.
Proof.
  revert c. induction l as [| f l IH]; intros c; cbn; [by intros [= <-] |].
  intros (c1 & H1 & H2)%result_bind_ok Hp. eapply IH; [done |]. by eapply loadProfile_mono.
Qed.

Lemma foldM_loadProfile_in l c c' name p :
  foldM loadProfile l c = Ok c' -> (name, Ok p) ∈ l -> profiles c' !! p_ID p = Some p.
Proof.
  revert c. induction l as [| f l IH]; intros c; cbn; [by intros _ ?%elem_of_nil |].
  intros (c1 & H1 & H2)%result_bind_ok [<- | Hin]%elem_of_cons; [| by eapply IH].
  eapply foldM_loadProfile_mono; [done |]. unfold loadProfile in H1. invert_ok H1.
  simplify_eq. cbn.
  apply lookup_insert_eq.
Qed.

Lemma foldM_loadTopology_profiles l c c' :
  foldM loadTopology l c = Ok c' -> profiles c' = profiles c.
Proof.
  revert c. induction l as [| [name decoded] l IH]; intros c; cbn; [by intros [= <-] |].
  intros (c1 & H1 & H2)%result_bind_ok. rewrite (IH _ H2).
  invert_ok H1. by injection H1 as <-.
Qed.

Lemma LoadCatalog_profiles_in ps ts c name p :
  LoadCatalog ps ts = Ok c -> (name, Ok p) ∈ ps -> LookupProfile c (p_ID p) = Some p.
Proof.
  unfold LoadCatalog. intros (c1 & H1 & H2)%result_bind_ok Hin. unfold LookupProfile.
  rewrite (foldM_loadTopology_profiles _ _ _ H2). by eapply foldM_loadProfile_in.
Qed.

(** The catalog of the repository. *)
Definition embedded_catalog : result Catalog := LoadCatalog embedded_profiles embedded_topologies.

(** ** Properties *)

(** A catalog that loads is well formed: every profile and topology in
    it is filed under its own id and passes validation, each topology
    against the final set of profiles; and no embedded profile is lost,
    each one is found under its id. *)
Theorem LoadCatalog_sound ps ts c :
  LoadCatalog ps ts = Ok c ->
  wf_catalog c /\
  forall name p, (name, Ok p) ∈ ps -> LookupProfile c (p_ID p) = Some p.
Proof.
  intros H. split; [by eapply LoadCatalog_wf |]. intros. by eapply LoadCatalog_profiles_in.
Qed.

Lemma LoadCatalog_sound_witness :
  exists c, LoadCatalog embedded_profiles embedded_topologies = Ok c /\ wf_catalog c.
Proof.
  eexists. split; [reflexivity |].
  exact (proj1 (LoadCatalog_sound embedded_profiles embedded_topologies _ eq_refl)).
Defined.

End profiles.
