(* ===== verification/Config.v ===== *)
(** * Configuration composition: [internal/config/config.go]

    [Compose] turns a specification (profiles, VRAM overrides, utilization,
    process records, failure injection) into the Mock NVML configuration.
    The byte arithmetic is the machine's: every product and difference is
    written with the wrap-around operations, and the theorems show that the
    guards keep them exact. *)
From Stdlib Require Import SpecFloat.
From S2P Require Import Prelude GoStrings GoStrconv GoJson Catalog.

Module config.

(** ** Data *)
Definition maxDevices : Z := 8.
Definition maxMiB : Z := u64_max / mib.

Record System := { s_DriverVersion : string; s_CUDAVersion : string }.

Record Process := {
  pr_PID : Z;
  pr_Type : string;
  pr_Name : string;
  pr_UsedMemoryMiB : Z;
  pr_SMUtil : Z;
  pr_MemoryUtil : Z;
  pr_EncoderUtil : Z;
  pr_DecoderUtil : Z
}.

Record Failure := {
  f_Mode : string;
  f_Probability : spec_float;   (* float64 *)
  f_AfterCalls : Z;
  f_XID : Z
}.

Record DeviceRequest := {
  r_Profile : string;
  r_VRAMMiB : Z;
  r_UsedMiB : Z;
  r_GPUUtil : Z;
  r_MemoryUtil : Z;
  r_TemperatureC : option Z;    (* *int *)
  r_PowerDrawMW : option Z;     (* *uint32 *)
  r_Processes : list Process;
  r_Failure : option Failure
}.

Record Spec := { sp_System : System; sp_Devices : list DeviceRequest }.

Record MockSystem := {
  ms_DriverVersion : string;
  ms_CUDAVersion : string;
  ms_CUDAVersionMajor : Z;
  ms_CUDAVersionMinor : Z
}.

Record Memory := { m_TotalBytes : Z; m_ReservedBytes : Z; m_UsedBytes : Z; m_FreeBytes : Z }.
Record Utilization := { u_GPU : Z; u_Memory : Z }.

Record Device := {
  d_Index : Z;
  d_UUID : string;
  d_Name : string;
  d_Architecture : string;
  d_ComputeCapability : profiles.ComputeCapability;
  d_Memory : Memory;
  d_PCI_BusID : string;
  d_Utilization : Utilization;
  d_TemperatureGPUC : Z;
  d_CurrentDrawMW : Z;
  d_Processes : list Process;
  d_Failure : option Failure;
  d_ProfileSource : string;
  d_UpstreamConfig : string
}.

Record MockConfig := { mc_Version : string; mc_System : MockSystem; mc_Devices : list Device }.

(** [LoadSpecJSON] over the outcomes of the decoder. *)
Definition LoadSpecJSON (first : result Spec) (second : result unit) : result Spec := decode_one "spec" first second.

(** ** Identity strings *)
Definition stableUUID (index : Z) : string :=
  "GPU-00000000-0000-0000-0000-" +:+ pad_left 12 "0" (FormatHex (index + 1)).

Definition stablePCIBusID (index : Z) : string :=
  let n := index + 1 in
  pad_left 4 "0" (FormatHex (Z.quot n 256)) +:+ ":" +:+
  pad_left 2 "0" (FormatHex (Z.rem n 256)) +:+ ":00.0".

(** ** Validation *)
Definition validateProcess (p : Process) : result unit :=
  if pr_PID p =? 0 then Err (Errorf "pid must be positive" []) else
  if negb (String.eqb (pr_Type p) "") && negb (String.eqb (pr_Type p) "C") &&
     negb (String.eqb (pr_Type p) "G")
  then Err (Errorf "process type must be C or G" []) else
  if (pr_SMUtil p >? 100) || (pr_MemoryUtil p >? 100) ||
     (pr_EncoderUtil p >? 100) || (pr_DecoderUtil p >? 100)
  then Err (Errorf "process utilization must be between 0 and 100" []) else
  Ok tt.

Definition f64_zero : spec_float := S754_zero false.
Definition f64_one : spec_float := S754_finite false 4503599627370496 (-52).

Definition validateFailure (f : Failure) : result unit :=
  _ ← (if String.eqb (f_Mode f) "lost" || String.eqb (f_Mode f) "fallen_off_bus" ||
          String.eqb (f_Mode f) "ecc_uncorrectable" then Ok tt else
       if String.eqb (f_Mode f) "healthy" || String.eqb (f_Mode f) ""
       then Err (Errorf "healthy/empty failure should be represented by no failure block" []) else
       Err (Errorf "unsupported failure mode %q" [AS (f_Mode f)]));
  if SFltb (f_Probability f) f64_zero || SFltb f64_one (f_Probability f)
  then Err (Errorf "failure probability must be between 0 and 1" []) else
  if f_AfterCalls f <? 0 then Err (Errorf "failure after_calls cannot be negative" []) else
  Ok tt.

Definition normalizeSystem (s : System) : result MockSystem :=
  let driver := if String.eqb (s_DriverVersion s) "" then "580.173.02" else s_DriverVersion s in
  let cuda := if String.eqb (s_CUDAVersion s) "" then "13.0" else s_CUDAVersion s in
  match Split cuda "." with
  | p0 :: p1 :: _ =>
      match Atoi p0 with
      | Err _ => Err (Errorf "invalid cuda version %q" [AS cuda])
      | Ok major =>
          if major <? 0 then Err (Errorf "invalid cuda version %q" [AS cuda]) else
          match Atoi p1 with
          | Err _ => Err (Errorf "invalid cuda version %q" [AS cuda])
          | Ok minor =>
              if minor <? 0 then Err (Errorf "invalid cuda version %q" [AS cuda]) else
              Ok {| ms_DriverVersion := driver; ms_CUDAVersion := cuda;
                    ms_CUDAVersionMajor := major; ms_CUDAVersionMinor := minor |}
          end
      end
  | _ => Err (Errorf "cuda version %q must be major.minor" [AS cuda])
  end.

(** ** One device *)

(** The loop over [req.Processes]: [processUsedMiB] is the running total. *)
Fixpoint checkProcesses (usedMiB i processUsedMiB : Z) (procs : list Process) : result unit :=
  match procs with
  | [] => Ok tt
  | proc :: rest =>
      _ ← wrap_err (Wrapf "process %d: %w" [AZ i]) (validateProcess proc);
      if (processUsedMiB >? usedMiB) || (pr_UsedMemoryMiB proc >? usedMiB ⊖ processUsedMiB)
      then Err (Errorf "process memory exceeds device used VRAM of %d MiB" [AZ usedMiB]) else
      checkProcesses usedMiB (i + 1) (processUsedMiB ⊕ pr_UsedMemoryMiB proc) rest
  end.

Definition composeDevice (index : Z) (p : profiles.Profile) (req : DeviceRequest) : result Device :=
  let reservedMiB := profiles.p_ReservedMemoryMiB p in
  let totalMiB := if negb (r_VRAMMiB req =? 0) then r_VRAMMiB req else profiles.p_TotalMemoryMiB p in
  if (totalMiB >? maxMiB) || (reservedMiB >? maxMiB) || (r_UsedMiB req >? maxMiB)
  then Err (Errorf "VRAM value is too large to convert from MiB to bytes" []) else
  if totalMiB <=? reservedMiB
  then Err (Errorf "total VRAM %d MiB must exceed reserved VRAM %d MiB" [AZ totalMiB; AZ reservedMiB]) else
  if r_UsedMiB req >? totalMiB ⊖ reservedMiB
  then Err (Errorf "used (%d MiB) + reserved (%d MiB) exceeds total (%d MiB)"
              [AZ (r_UsedMiB req); AZ reservedMiB; AZ totalMiB]) else
  if (r_GPUUtil req >? 100) || (r_MemoryUtil req >? 100)
  then Err (Errorf "utilization must be between 0 and 100" []) else
  _ ← checkProcesses (r_UsedMiB req) 0 0 (r_Processes req);
  _ ← match r_Failure req with Some f => validateFailure f | None => Ok tt end;
  let temp := match r_TemperatureC req with Some t => t | None => profiles.p_TemperatureC p end in
  if (temp <? 0) || (temp >? 200)
  then Err (Errorf "temperature must be between 0 and 200 C" []) else
  let power := match r_PowerDrawMW req with Some w => w | None => profiles.p_PowerDrawMW p end in
  let total := totalMiB ⊗ mib in
  let reserved := reservedMiB ⊗ mib in
  let used := r_UsedMiB req ⊗ mib in
  Ok {| d_Index := index; d_UUID := stableUUID index; d_Name := profiles.p_Name p;
        d_Architecture := profiles.p_Architecture p;
        d_ComputeCapability := profiles.p_ComputeCapability p;
        d_Memory := {| m_TotalBytes := total; m_ReservedBytes := reserved; m_UsedBytes := used;
                       m_FreeBytes := total ⊖ reserved ⊖ used |};
        d_PCI_BusID := stablePCIBusID index;
        d_Utilization := {| u_GPU := r_GPUUtil req; u_Memory := r_MemoryUtil req |};
        d_TemperatureGPUC := temp; d_CurrentDrawMW := power;
        d_Processes := r_Processes req; d_Failure := r_Failure req;
        d_ProfileSource := profiles.p_Source p; d_UpstreamConfig := profiles.p_UpstreamConfig p |}.

(** ** Whole configurations *)
Definition composeRequest (catalog : profiles.Catalog) (i : Z) (req : DeviceRequest) : result Device :=
  match profiles.LookupProfile catalog (r_Profile req) with
  | None => Err (Errorf "device %d: unknown profile %q" [AZ i; AS (r_Profile req)])
  | Some p => wrap_err (Wrapf "device %d: %w" [AZ i]) (composeDevice i p req)
  end.

(** [catalog] is a Go pointer: [None] is nil. *)
Definition Compose (catalog : option profiles.Catalog) (spec : Spec) : result MockConfig :=
  match catalog with
  | None => Err (Errorf "profile catalog is required" [])
  | Some c =>
      let n := Z.of_nat (length (sp_Devices spec)) in
      if n =? 0 then Err (Errorf "at least one device is required" []) else
      if n >? maxDevices
      then Err (Errorf "device count %d exceeds Mock NVML limit %d" [AZ n; AZ maxDevices]) else
      system ← normalizeSystem (sp_System spec);
      devices ← map_each (composeRequest c) 0 (sp_Devices spec);
      Ok {| mc_Version := "1.0"; mc_System := system; mc_Devices := devices |}
  end.

Definition topologyRequest (d : profiles.TopologyDevice) : DeviceRequest :=
  {| r_Profile := profiles.td_Profile d; r_VRAMMiB := profiles.td_VRAMMiB d;
     r_UsedMiB := profiles.td_UsedMiB d; r_GPUUtil := profiles.td_GPUUtil d;
     r_MemoryUtil := profiles.td_MemoryUtil d; r_TemperatureC := None; r_PowerDrawMW := None;
     r_Processes := []; r_Failure := None |}.

Definition ComposeTopology (catalog : option profiles.Catalog) (system : System) (topologyID : string)
    : result MockConfig :=
  match catalog with
  | None => Err (Errorf "profile catalog is required" [])
  | Some c =>
      match profiles.LookupTopology c topologyID with
      | None => Err (Errorf "unknown topology %q" [AS topologyID])
      | Some t =>
          Compose catalog {| sp_System := system;
                             sp_Devices := map topologyRequest (profiles.t_Devices t) |}
      end
  end.

Definition Repeated (profile : string) (count : Z) (vramMiB : Z) : result (list DeviceRequest) :=
  if count <=? 0 then Err (Errorf "count must be positive" []) else
  Ok (replicate (Z.to_nat count)
    {| r_Profile := profile; r_VRAMMiB := vramMiB; r_UsedMiB := 0; r_GPUUtil := 0; r_MemoryUtil := 0;
       r_TemperatureC := None; r_PowerDrawMW := None; r_Processes := []; r_Failure := None |}).

(** ** The contract, in exact arithmetic *)

(** The range of the machine types. *)
Definition process_typed (p : Process) : Prop :=
  u32 (pr_PID p) /\ u64 (pr_UsedMemoryMiB p) /\ u32 (pr_SMUtil p) /\ u32 (pr_MemoryUtil p) /\
  u32 (pr_EncoderUtil p) /\ u32 (pr_DecoderUtil p).
(** The probability is a binary64 in its canonical form. *)
Definition failure_typed (f : Failure) : Prop := SpecFloat.valid_binary 53 1024 (f_Probability f) = true.
Definition request_typed (r : DeviceRequest) : Prop :=
  u64 (r_VRAMMiB r) /\ u64 (r_UsedMiB r) /\ u32 (r_GPUUtil r) /\ u32 (r_MemoryUtil r) /\
  Forall process_typed (r_Processes r) /\ match r_Failure r with Some f => failure_typed f | None => True end.

Definition process_ok (p : Process) : Prop :=
  pr_PID p <> 0 /\ pr_Type p ∈ [""; "C"; "G"] /\
  pr_SMUtil p <= 100 /\ pr_MemoryUtil p <= 100 /\ pr_EncoderUtil p <= 100 /\ pr_DecoderUtil p <= 100.

(** The real number the float stands for is between 0 and 1.  A NaN is
    neither below 0 nor above 1, so the guard lets it pass; JSON, from which
    specifications are read, has no NaN and no infinity. *)
Definition probability_ok (x : spec_float) : Prop :=
  match x with
  | S754_zero _ | S754_nan => True
  | S754_infinity _ => False
  | S754_finite true _ _ => False
  | S754_finite false m e => if e <? 0 then Z.pos m <= 2 ^ (- e) else Z.pos m * 2 ^ e <= 1
  end.

Record failure_ok (f : Failure) : Prop := {
  fail_mode : f_Mode f ∈ ["lost"; "fallen_off_bus"; "ecc_uncorrectable"];
  fail_probability : probability_ok (f_Probability f);
  fail_calls : 0 <= f_AfterCalls f
}.

(** A CUDA version: a numeral of a major and one of a minor, both
    non-negative 64-bit numbers, with a dot between them.  What follows a
    second dot is not looked at. *)
Definition version_ok (v : string) : Prop :=
  exists a b rest major minor,
    v = a +:+ ("."%char ::: b +:+ rest) /\ (rest = "" \/ exists t, rest = "."%char ::: t) /\
    numeral a major /\ 0 <= major < 2 ^ 63 /\ numeral b minor /\ 0 <= minor < 2 ^ 63.

(** The version of a system that leaves it out. *)
Definition effective_version (s : System) : string :=
  if String.eqb (s_CUDAVersion s) "" then "13.0" else s_CUDAVersion s.

(** VRAM of a device that uses profile [p]. *)
Definition effective_total (p : profiles.Profile) (req : DeviceRequest) : Z :=
  if r_VRAMMiB req =? 0 then profiles.p_TotalMemoryMiB p else r_VRAMMiB req.

Record request_ok (p : profiles.Profile) (req : DeviceRequest) : Prop := {
  ok_fits : effective_total p req <= maxMiB;
  ok_reserved : profiles.p_ReservedMemoryMiB p < effective_total p req;
  ok_used : r_UsedMiB req + profiles.p_ReservedMemoryMiB p <= effective_total p req;
  ok_util : r_GPUUtil req <= 100 /\ r_MemoryUtil req <= 100;
  ok_processes : Forall process_ok (r_Processes req);
  ok_process_memory : sumZ pr_UsedMemoryMiB (r_Processes req) <= r_UsedMiB req;
  ok_failure : forall f, r_Failure req = Some f -> failure_ok f;
  ok_temperature : 0 <= default (profiles.p_TemperatureC p) (r_TemperatureC req) <= 200
}.

(** What every composed device satisfies. *)
Record device_ok (i : Z) (d : Device) : Prop := {
  dev_index : d_Index d = i;
  dev_uuid : d_UUID d = stableUUID i;
  dev_pci : d_PCI_BusID d = stablePCIBusID i;
  dev_memory : m_TotalBytes (d_Memory d) =
    m_ReservedBytes (d_Memory d) + m_UsedBytes (d_Memory d) + m_FreeBytes (d_Memory d);
  dev_memory_range : u64 (m_TotalBytes (d_Memory d)) /\ u64 (m_ReservedBytes (d_Memory d)) /\
    u64 (m_UsedBytes (d_Memory d)) /\ u64 (m_FreeBytes (d_Memory d));
  dev_util : u_GPU (d_Utilization d) <= 100 /\ u_Memory (d_Utilization d) <= 100;
  dev_temp : 0 <= d_TemperatureGPUC d <= 200;
  dev_processes : Forall process_ok (d_Processes d);
  dev_process_memory : sumZ (fun p => pr_UsedMemoryMiB p * mib) (d_Processes d) <= m_UsedBytes (d_Memory d)
}.

(** ** Lemmas *)
Lemma validateProcess_ok p : validateProcess p = Ok tt <-> process_ok p.
Proof.
  unfold validateProcess, process_ok. rewrite !elem_of_cons, elem_of_nil.
  split.
  - intros H. invert_ok H. to_prop. repeat split; try tauto; lia.
  - intros (? & Ht & ?).
    destruct (Z.eqb_spec (pr_PID p) 0); [done |].
    destruct (negb _ && _ && _) eqn:E1; [to_prop; tauto |].
    destruct (_ || _) eqn:E2; [to_prop; lia | done].
Qed.

Lemma checkProcesses_ok used i acc procs :
  u64 used -> 0 <= acc <= used -> Forall process_typed procs ->
  checkProcesses used i acc procs = Ok tt <->
  Forall process_ok procs /\ acc + sumZ pr_UsedMemoryMiB procs <= used.
Proof.
  intros Hu. revert i acc. induction procs as [| proc rest IH]; intros i acc Hacc Ht.
  - cbn. split; [| done]. intros _. split; [by constructor | lia].
  - apply Forall_cons in Ht as [Hp Ht]. cbn [checkProcesses sumZ].
    rewrite result_bind_ok. rewrite Forall_cons.
    assert (0 <= sumZ pr_UsedMemoryMiB rest) as Hs.
    { apply sumZ_nonneg. eapply Forall_impl; [exact Ht |]. intros q Hq. unfold process_typed in Hq. word. }
    unfold process_typed in Hp. destruct Hp as (_ & Hmem & _).
    unwrap64.
    split.
    + intros ([] & Hv & H). apply wrap_err_ok, validateProcess_ok in Hv.
      invert_ok H. to_prop. unwrap64. apply IH in H; [| word | done]. intuition lia.
    + intros ((Hv & Hrest) & Hle). exists tt. split; [by apply wrap_err_ok, validateProcess_ok |].
      destruct (_ || _) eqn:E; [to_prop; lia |].
      unwrap64. apply IH; [word | done |]. split; [done | lia].
Qed.

Lemma maxMiB_value : maxMiB = 17592186044415.
Proof. reflexivity. Qed.

Ltac config_word := rewrite ?maxMiB_value in *; unfold profiles.profile_typed, request_typed in *; word.

(** A canonical mantissa above the least exponent has 53 bits; no mantissa
    has more. *)
Lemma canonical_digits m e : SpecFloat.canonical_mantissa 53 1024 m e = true ->
  (-1074 < e -> 2 ^ 52 <= Z.pos m) /\ Z.pos m < 2 ^ 53.
Proof.
  unfold SpecFloat.canonical_mantissa, SpecFloat.fexp, SpecFloat.emin. intros H%Z.eqb_eq.
  assert (SpecFloat.digits2_pos m = Pos.size m) as E by (clear H; induction m as [p IH | p IH |]; cbn; by rewrite ?IH).
  rewrite E in H. pose proof (Pos.size_gt m) as Hg. pose proof (Pos.size_le m) as Hl.
  assert (Z.pos (Pos.size m) <= 53) as Hs by lia. split.
  - intros He. assert (Z.pos (Pos.size m) = 53) as E' by lia.
    assert (Pos.size m = 53%positive) as E2 by lia. rewrite E2 in Hl. lia.
  - eapply (Z.lt_le_trans _ (Z.pos (2 ^ Pos.size m))); [lia |].
    rewrite Pos2Z.inj_pow. apply Z.pow_le_mono_r; lia.
Qed.

Lemma negb_total (b : bool) (x y : Z) : (if negb b then x else y) = (if b then y else x).
Proof. by destruct b. Qed.

(** Comparing floats is comparing the numbers they stand for. *)
Lemma probability_guard x : SpecFloat.valid_binary 53 1024 x = true ->
  SFltb x f64_zero || SFltb f64_one x = false <-> probability_ok x.
Proof.
  destruct x as [s | s | | s m e]; [by destruct s | by destruct s | done |].
  destruct s; [by split | ]. unfold SpecFloat.valid_binary, SpecFloat.bounded. intros [Hc _]%andb_true_iff.
  pose proof (canonical_digits _ _ Hc) as [Hlow Hhigh].
  unfold SFltb, f64_zero, f64_one, probability_ok. cbn [SFcompare orb].
  destruct (Z.compare_spec (-52) e) as [<- | Hlt | Hgt].
  - change (Pcompare 4503599627370496 m Eq) with (4503599627370496 ?= m)%positive.
    change (-52 <? 0) with true. cbv beta iota. change (2 ^ (- -52)) with 4503599627370496. clear.
    change (4503599627370496 ?= m)%positive with (4503599627370496 ?= Z.pos m).
    generalize (Z.pos m) as z. intros z.
    destruct (Z.compare_spec 4503599627370496 z); (split; intros H'; [| first [reflexivity | lia]]);
      first [discriminate H' | lia].
  - split; [discriminate |]. specialize (Hlow ltac:(lia)). destruct (Z.ltb_spec e 0).
    + assert (2 ^ (- e) <= 2 ^ 51) by (apply Z.pow_le_mono_r; lia). lia.
    + assert (0 < 2 ^ e) by (apply Z.pow_pos_nonneg; lia). nia.
  - split; [intros _ | reflexivity]. rewrite (proj2 (Z.ltb_lt e 0)) by lia.
    assert (2 ^ 53 <= 2 ^ (- e)) by (apply Z.pow_le_mono_r; lia). lia.
Qed.

Lemma validateFailure_ok f : failure_typed f -> validateFailure f = Ok tt <-> failure_ok f.
Proof.
  intros Hp%probability_guard. unfold validateFailure.
  destruct (_ || _ || _) eqn:Em; cbn [mbind result_bind].
  - assert (f_Mode f ∈ ["lost"; "fallen_off_bus"; "ecc_uncorrectable"]) as Hm.
    { rewrite !elem_of_cons. to_prop. tauto. }
    split.
    + intros H. invert_ok H. to_prop. constructor; [done | by apply Hp | lia].
    + intros [_ ->%Hp Hc]. by rewrite (proj2 (Z.ltb_ge _ 0)) by lia.
  - split; [intros H; destruct (String.eqb _ "healthy" || _); discriminate H |]. intros [Hm _ _]. exfalso.
    repeat (apply elem_of_cons in Hm as [E | Hm]; [rewrite E in Em; done |]). by apply elem_of_nil in Hm.
Qed.

(** [Split] and the grammar of versions. *)
Lemma Split_first s sep p0 rest : Split s sep = p0 :: rest ->
  rest = [] /\ s = p0 \/ exists t, s = p0 +:+ (sep ::: t) /\ rest = Split t sep.
Proof.
  revert p0. induction s as [| c s IH]; intros p0; cbn [Split]; [intros [= <- <-]; by left |].
  destruct (char_eqb c sep) eqn:E.
  - intros [= <- <-]. apply char_eqb_eq in E as ->. right. by exists s.
  - destruct (Split s sep) as [| x xs] eqn:Es; [by apply Split_nonempty in Es |].
    intros [= <- <-]. destruct (IH x eq_refl) as [[-> ->] | (t & -> & ->)]; [by left | right].
    by exists t.
Qed.

Lemma numeral_free s n : numeral s n -> free_of "." s = true.
Proof.
  intros (sign & ds & -> & _ & Hd & Hs). rewrite free_of_append. apply andb_true_iff. split.
  - destruct Hs as [[Hs _] | [-> _]]; [| done].
    by apply elem_of_cons in Hs as [-> | ->%list_elem_of_singleton].
  - eapply sforall_impl; [| exact Hd]. intros c Hc. apply negb_true_iff, char_eqb_neq. by intros ->.
Qed.

Lemma normalizeSystem_ok s : (exists sys, normalizeSystem s = Ok sys) <-> version_ok (effective_version s).
Proof.
  unfold normalizeSystem. cbv zeta. fold (effective_version s). generalize (effective_version s) as v. intros v.
  split.
  - destruct (Split v ".") as [| a l] eqn:Ea; [by intros (? & ?) |].
    destruct l as [| b l]; [by intros (? & ?) |]. intros (sys & H).
    destruct (Atoi a) as [major |] eqn:EM; [| done]. destruct (Z.ltb_spec major 0); [done |].
    destruct (Atoi b) as [minor |] eqn:Em; [| done]. destruct (Z.ltb_spec minor 0); [done |].
    apply Atoi_numeral in EM as [HM [_ HM']], Em as [Hm [_ Hm']].
    destruct (Split_first _ _ _ _ Ea) as [[? _] | (t & -> & Et)]; [done |]. symmetry in Et.
    unfold int64_cutoff in *.
    destruct (Split_first _ _ _ _ Et) as [[_ ->] | (t' & -> & _)].
    + exists a, b, "", major, minor. rewrite append_nil_r. by repeat (split; [by auto |]).
    + exists a, b, ("."%char ::: t'), major, minor. split; [done |]. split; [right; by eexists |]. by repeat (split; [by auto |]).
  - intros (a & b & rest & major & minor & -> & Hrest & HM & HM' & Hm & Hm').
    assert (exists l, Split (b +:+ rest) "." = b :: l) as [l Hl].
    { destruct Hrest as [-> | (t & ->)].
      - exists []. rewrite append_nil_r. by eapply Split_free, numeral_free.
      - exists (Split t "."). by apply Split_app, (numeral_free _ minor). }
    rewrite Split_app by by eapply numeral_free. rewrite Hl.
    assert (Atoi a = Ok major) as -> by (apply Atoi_numeral; unfold int64, int64_cutoff; lia || (split; [done | lia])).
    assert (Atoi b = Ok minor) as -> by (apply Atoi_numeral; unfold int64, int64_cutoff; lia || (split; [done | lia])).
    rewrite !(proj2 (Z.ltb_ge _ 0)) by lia. by eexists.
Qed.

(** The guards of [composeDevice] are exactly the contract. *)
Lemma composeDevice_accepts i p req :
  profiles.profile_typed p -> request_typed req ->
  (exists d, composeDevice i p req = Ok d) <-> request_ok p req.
Proof.
  intros Hp Hr. pose proof Hr as (Hv & Hu & _ & _ & Hprocs & Hfailed).
  unfold composeDevice. cbv zeta. rewrite negb_total. fold (effective_total p req).
  assert (u64 (effective_total p req)) as Ht.
  { unfold effective_total. destruct (_ =? _); [apply Hp | done]. }
  pose proof Hp as (_ & Hreserved & _).
  split.
  - intros (d & H). invert_ok H. to_prop. unwrap64.
    apply checkProcesses_ok in Hstep; [| done | word | done].
    constructor; try (intuition lia).
    intros f Hf. rewrite Hf in Hstep0, Hfailed. by apply validateFailure_ok.
  - intros [Hfit Hres Huse Hutil Hok Hmem Hfail Htemp].
    assert (profiles.p_ReservedMemoryMiB p <= maxMiB /\ r_UsedMiB req <= maxMiB) as [? ?] by word.
    destruct (_ || _) eqn:E1; [to_prop; lia |]. clear E1.
    destruct (_ <=? _) eqn:E2; [to_prop; lia |]. clear E2.
    unwrap64. destruct (_ >? _) eqn:E3; [to_prop; lia |]. clear E3.
    destruct (_ || _) eqn:E4; [to_prop; lia |]. clear E4.
    assert (checkProcesses (r_UsedMiB req) 0 0 (r_Processes req) = Ok tt) as ->.
    { apply checkProcesses_ok; [done | word | done |]. split; [done | lia]. }
    cbn [mbind result_bind].
    assert (match r_Failure req with Some f => validateFailure f | None => Ok tt end = Ok tt) as ->.
    { destruct (r_Failure req) as [f |]; [by apply validateFailure_ok, Hfail | done]. }
    cbn [mbind result_bind].
    destruct (_ || _) eqn:E5; [| eauto].
    destruct (r_TemperatureC req); cbn in Htemp; to_prop; lia.
Qed.

(** What is accepted satisfies the device invariant: no product or
    difference of the composition wraps around. *)
Lemma composeDevice_device_ok i p req d :
  profiles.profile_typed p -> request_typed req ->
  composeDevice i p req = Ok d -> device_ok i d.
Proof.
  intros Hp Hr H.
  assert (request_ok p req) as [Hfit Hres Huse Hutil Hok Hmem Hfail Htemp].
  { apply (composeDevice_accepts i); eauto. }
  pose proof Hr as (_ & Hu & _). pose proof Hp as (_ & Hrv & _).
  unfold composeDevice in H. cbv zeta in H. rewrite negb_total in H.
  fold (effective_total p req) in H. invert_ok H. injection H as <-.
  rewrite maxMiB_value in *.
  to_prop. constructor; cbn; unwrap64; try done; try word; try (repeat split; word).
  assert (forall l, sumZ (fun p => pr_UsedMemoryMiB p * mib) l = sumZ pr_UsedMemoryMiB l * mib) as ->.
  { induction l; cbn; lia. }
  word.
Qed.

Lemma composeRequest_ok c i req d :
  composeRequest c i req = Ok d ->
  exists p, profiles.LookupProfile c (r_Profile req) = Some p /\ composeDevice i p req = Ok d.
Proof.
  unfold composeRequest. destruct (profiles.LookupProfile _ _) as [p |]; [| discriminate].
  intros H%wrap_err_ok. eauto.
Qed.

Definition catalog_typed (c : profiles.Catalog) : Prop :=
  forall id p, profiles.LookupProfile c id = Some p -> profiles.profile_typed p.

Lemma Compose_inv oc spec cfg : Compose oc spec = Ok cfg ->
  exists c sys, oc = Some c /\ normalizeSystem (sp_System spec) = Ok sys /\
    0 < Z.of_nat (length (sp_Devices spec)) <= maxDevices /\
    map_each (composeRequest c) 0 (sp_Devices spec) = Ok (mc_Devices cfg) /\
    mc_System cfg = sys /\ mc_Version cfg = "1.0".
Proof.
  unfold Compose. destruct oc as [c |]; [| discriminate]. cbv zeta. intros H. invert_ok H.
  injection H as <-. to_prop. exists c, x. repeat split; try done; lia.
Qed.

Lemma Compose_intro c spec sys :
  0 < Z.of_nat (length (sp_Devices spec)) <= maxDevices ->
  normalizeSystem (sp_System spec) = Ok sys ->
  (forall k req, sp_Devices spec !! k = Some req ->
     exists d, composeRequest c (Z.of_nat k) req = Ok d) ->
  exists cfg, Compose (Some c) spec = Ok cfg.
Proof.
  intros Hn Hsys Hall. unfold Compose. cbv zeta.
  destruct (_ =? 0) eqn:E1; [to_prop; lia |].
  destruct (_ >? maxDevices) eqn:E2; [to_prop; lia |].
  rewrite Hsys. cbn [mbind result_bind].
  destruct (map_each_total (composeRequest c) 0 (sp_Devices spec)) as (ds & ->); [| by eauto].
  intros k req Hk. by apply Hall.
Qed.

Lemma Compose_device_ok c spec cfg :
  catalog_typed c -> Forall request_typed (sp_Devices spec) ->
  Compose (Some c) spec = Ok cfg ->
  length (mc_Devices cfg) = length (sp_Devices spec) /\
  forall k d, mc_Devices cfg !! k = Some d -> device_ok (Z.of_nat k) d.
Proof.
  intros Hc Hr H. apply Compose_inv in H as (c' & sys & [= <-] & _ & _ & Hmap & _ & _).
  apply map_each_ok in Hmap as [Hlen Hall]. split; [done |]. intros k d Hk.
  destruct (lookup_lt_is_Some_2 (sp_Devices spec) k) as (req & Hreq).
  { rewrite <- Hlen. by eapply lookup_lt_Some. }
  destruct (Hall k req Hreq) as (d' & Hd' & Hf). simplify_eq.
  apply composeRequest_ok in Hf as (p & Hp & Hd). rewrite Z.add_0_l in Hd.
  eapply composeDevice_device_ok; [by eapply Hc | | exact Hd].
  eapply Forall_lookup_1; eauto.
Qed.

(** The identity strings of the at most eight devices are distinct. *)
Lemma identities_distinct :
  NoDup (map stableUUID [0;1;2;3;4;5;6;7]) /\ NoDup (map stablePCIBusID [0;1;2;3;4;5;6;7]).
Proof. split; apply (bool_decide_unpack _); vm_compute; exact I. Qed.

Lemma small_index_lookup k : (k < 8)%nat -> [0;1;2;3;4;5;6;7] !! k = Some (Z.of_nat k).
Proof. intros. do 8 (destruct k as [| k]; [done |]). lia. Qed.

Lemma identity_inj (f : Z -> string) k1 k2 :
  NoDup (map f [0;1;2;3;4;5;6;7]) -> (k1 < 8)%nat -> (k2 < 8)%nat ->
  f (Z.of_nat k1) = f (Z.of_nat k2) -> k1 = k2.
Proof.
  intros Hnd H1 H2 E.
  apply (NoDup_lookup _ _ _ (f (Z.of_nat k1)) Hnd);
    rewrite list_lookup_fmap, small_index_lookup by done; cbn; congruence.
Qed.

(** ** Topologies of a catalog *)

(** A topology that the catalog accepts and that fits the two limits
    [LoadCatalog] does not check: the device limit of Mock NVML and the
    range of the MiB-to-byte conversion. *)
Lemma topology_request_ok c i d :
  profiles.wf_catalog c -> catalog_typed c -> profiles.topology_device_typed d ->
  profiles.validateTopologyDevice (profiles.profiles c) i d = Ok tt ->
  (forall p, profiles.profiles c !! profiles.td_Profile d = Some p ->
     effective_total p (topologyRequest d) <= maxMiB) ->
  exists dev, composeRequest c i (topologyRequest d) = Ok dev.
Proof.
  intros Hwf Hc (Hv & Hu & Hg & Hm) Hval Hfit.
  apply profiles.validateTopologyDevice_ok in Hval as (p & Hp & Hres & Hused & Hgu & Hmu).
  specialize (Hfit p Hp). pose proof (Hc _ _ Hp) as Htyped.
  destruct Hwf as [Hprof _]. destruct (Hprof _ _ Hp) as [_ (_ & _ & _ & _ & Htemp & _)%profiles.validateProfile_ok].
  unfold composeRequest. cbn. unfold profiles.LookupProfile. rewrite Hp.
  assert (request_ok p (topologyRequest d)) as Hok.
  { pose proof Htyped as (Ht & Hrv & _). unfold effective_total in *. cbn in *.
    rewrite maxMiB_value in Hfit.
    destruct (profiles.td_VRAMMiB d =? 0) eqn:Ev; unwrap64;
      constructor; cbn; unfold effective_total; cbn; rewrite ?Ev, ?maxMiB_value; try done; try lia;
      try (by constructor); try word.
  }
  apply (composeDevice_accepts i) in Hok as (dev & ->); [by eexists | done |].
  repeat split; cbn; try done; try word.
Qed.

(** ** Properties *)

(** C32. [Compose] accepts a specification exactly when the contract holds:
    between one and eight devices; a CUDA version that is a numeral, a dot and
    a numeral, both non-negative 64-bit numbers in exact arithmetic (the
    default when it is left out; text after a second dot is not looked at,
    though the error message asks for major.minor); and for every device a
    known profile whose request meets [request_ok], stated in exact
    arithmetic: sizes that convert to bytes, reserved plus used within the
    total, utilizations and temperature in range, valid processes whose memory
    fits in the used memory, and a failure block with one of the three modes, a
    real probability from 0 to 1 and a count that is not negative.  The
    numbers are of their machine types and the probability is a binary64. *)
Theorem Compose_accepts_iff c spec :
  catalog_typed c -> Forall request_typed (sp_Devices spec) ->
  (exists cfg, Compose (Some c) spec = Ok cfg) <->
  0 < Z.of_nat (length (sp_Devices spec)) <= 8 /\
  version_ok (effective_version (sp_System spec)) /\
  Forall (fun req => exists p, profiles.LookupProfile c (r_Profile req) = Some p /\ request_ok p req)
    (sp_Devices spec).
Proof.
  intros Hc Hr. rewrite Forall_lookup in Hr. rewrite <- normalizeSystem_ok. split.
  - intros (cfg & H). apply Compose_inv in H as (c' & sys & [= <-] & Hsys & Hn & Hmap & _).
    split; [done |]. split; [by eexists |]. apply Forall_lookup. intros k req Hk.
    apply map_each_ok in Hmap as [_ Hall]. destruct (Hall k req Hk) as (d & _ & Hd).
    apply composeRequest_ok in Hd as (p & Hp & Hd). exists p. split; [done |].
    apply (composeDevice_accepts (0 + Z.of_nat k)); [by eapply Hc | by eapply Hr | by eexists].
  - intros (Hn & (sys & Hsys) & Hall). apply (Compose_intro c spec sys); [done | done |].
    intros k req Hk. rewrite Forall_lookup in Hall. destruct (Hall k req Hk) as (p & Hp & Hok).
    unfold composeRequest. rewrite Hp.
    apply (composeDevice_accepts (Z.of_nat k)) in Hok as (d & ->);
      [by eexists | by eapply Hc | by eapply Hr].
Qed.

(** C38. What [Compose] returns: one device per request, in order; each with
    its index, with total = reserved + used + free in exact arithmetic and
    every quantity a 64-bit value, percentages and temperature in range,
    valid processes whose memory is within the used memory; and no two
    devices share a UUID or a PCI bus id. *)
Theorem Compose_sound c spec cfg :
  catalog_typed c -> Forall request_typed (sp_Devices spec) ->
  Compose (Some c) spec = Ok cfg ->
  length (mc_Devices cfg) = length (sp_Devices spec) /\
  (forall k d, mc_Devices cfg !! k = Some d -> device_ok (Z.of_nat k) d) /\
  (forall k1 k2 d1 d2, mc_Devices cfg !! k1 = Some d1 -> mc_Devices cfg !! k2 = Some d2 ->
     d_UUID d1 = d_UUID d2 \/ d_PCI_BusID d1 = d_PCI_BusID d2 -> k1 = k2).
Proof.
  intros Hc Hr H. pose proof (Compose_inv _ _ _ H) as (_ & _ & _ & _ & [_ Hn] & _).
  apply Compose_device_ok in H as [Hlen Hdev]; [| done | done].
  split; [done |]. split; [done |].
  intros k1 k2 d1 d2 H1 H2 E. pose proof (lookup_lt_Some _ _ _ H1).
  pose proof (lookup_lt_Some _ _ _ H2). unfold maxDevices in Hn.
  destruct (Hdev _ _ H1) as [_ Hu1 Hp1 _ _ _ _ _ _], (Hdev _ _ H2) as [_ Hu2 Hp2 _ _ _ _ _ _].
  destruct identities_distinct as [Hdu Hdp]. destruct E as [E | E].
  - apply (identity_inj stableUUID); [done | lia | lia | congruence].
  - apply (identity_inj stablePCIBusID); [done | lia | lia | congruence].
Qed.

(** A topology of a well-formed catalog always composes, provided it has
    at most eight devices and its sizes convert to bytes (the two limits the
    catalog loader does not check): [validateTopology] rules out every other
    error of [ComposeTopology]. *)
Theorem ComposeTopology_total c system id t :
  profiles.wf_catalog c -> catalog_typed c ->
  profiles.LookupTopology c id = Some t ->
  Forall profiles.topology_device_typed (profiles.t_Devices t) ->
  Z.of_nat (length (profiles.t_Devices t)) <= 8 ->
  (forall d p, d ∈ profiles.t_Devices t -> profiles.LookupProfile c (profiles.td_Profile d) = Some p ->
     effective_total p (topologyRequest d) <= maxMiB) ->
  (exists sys, normalizeSystem system = Ok sys) ->
  exists cfg, ComposeTopology (Some c) system id = Ok cfg.
Proof.
  intros Hwf Hc Ht Htyped Hn Hfit (sys & Hsys).
  pose proof (profiles.wf_topologies c Hwf _ _ Ht) as [_ Hval].
  unfold profiles.validateTopology in Hval. invert_ok Hval. to_prop.
  unfold ComposeTopology. rewrite Ht. eapply Compose_intro; cbn.
  - rewrite length_map. unfold maxDevices. lia.
  - exact Hsys.
  - intros k req Hk. change (map topologyRequest) with (fmap (M := list) topologyRequest) in Hk.
    rewrite list_lookup_fmap in Hk.
    destruct (profiles.t_Devices t !! k) as [d |] eqn:Hd; [| discriminate].
    cbn in Hk. injection Hk as <-. rewrite for_each_ok in Hval.
    specialize (Hval k d Hd). rewrite Z.add_0_l in Hval.
    eapply topology_request_ok; [done | done | | exact Hval |].
    + by eapply Forall_lookup_1.
    + intros p Hp. apply (Hfit d p); [| done]. by eapply list_elem_of_lookup_2.
Qed.

(** ** Concrete inputs *)
Definition demo_catalog : profiles.Catalog :=
  match profiles.embedded_catalog with
  | Ok c => c
  | Err _ => {| profiles.profiles := ∅; profiles.topologies := ∅ |}
  end.

Definition demo_system : System := {| s_DriverVersion := ""; s_CUDAVersion := "" |}.

(** The README's per-device example: an RTX 4090 with one process. *)
Definition demo_process : Process :=
  {| pr_PID := 1234; pr_Type := "C"; pr_Name := "llama-server"; pr_UsedMemoryMiB := 2048;
     pr_SMUtil := 60; pr_MemoryUtil := 12; pr_EncoderUtil := 0; pr_DecoderUtil := 0 |}.
Definition demo_request : DeviceRequest :=
  {| r_Profile := "rtx4090-24gb"; r_VRAMMiB := 24576; r_UsedMiB := 4096; r_GPUUtil := 72;
     r_MemoryUtil := 31; r_TemperatureC := None; r_PowerDrawMW := None;
     r_Processes := [demo_process];
     r_Failure := Some {| f_Mode := "lost"; f_Probability := f64_zero; f_AfterCalls := 7; f_XID := 79 |} |}.
Definition demo_spec : Spec := {| sp_System := demo_system; sp_Devices := [demo_request] |}.

#[export] Instance profile_typed_dec p : Decision (profiles.profile_typed p).
Proof. unfold profiles.profile_typed. apply _. Defined.
#[export] Instance process_typed_dec p : Decision (process_typed p).
Proof. unfold process_typed. apply _. Defined.
#[export] Instance request_typed_dec r : Decision (request_typed r).
Proof. unfold request_typed, failure_typed. destruct (r_Failure r); apply _. Defined.
#[export] Instance topology_device_typed_dec d : Decision (profiles.topology_device_typed d).
Proof. unfold profiles.topology_device_typed. apply _. Defined.

Lemma demo_catalog_typed : catalog_typed demo_catalog.
Proof.
  assert (map_Forall (fun _ => profiles.profile_typed) (profiles.profiles demo_catalog)) as H.
  { apply (bool_decide_unpack _). vm_compute. exact I. }
  intros id p Hp. by apply (H id p).
Qed.

Lemma demo_spec_typed : Forall request_typed (sp_Devices demo_spec).
Proof. apply (bool_decide_unpack _). vm_compute. exact I. Qed.

Lemma Compose_accepts_iff_witness :
  Forall request_typed (sp_Devices demo_spec) /\ version_ok "13.0" /\
  Forall (fun req => exists p, profiles.LookupProfile demo_catalog (r_Profile req) = Some p /\ request_ok p req)
    (sp_Devices demo_spec).
Proof.
  split; [exact demo_spec_typed |].
  apply (proj1 (Compose_accepts_iff demo_catalog demo_spec demo_catalog_typed demo_spec_typed)).
  vm_compute. by eexists.
Defined.

Lemma Compose_sound_witness :
  exists cfg, Compose (Some demo_catalog) demo_spec = Ok cfg /\ length (mc_Devices cfg) = 1%nat /\
    exists d, mc_Devices cfg !! 0%nat = Some d /\ device_ok 0 d.
Proof.
  eexists. split; [vm_compute; reflexivity |].
  edestruct (Compose_sound demo_catalog demo_spec) as (Hlen & Hdev & _);
    [exact demo_catalog_typed | exact demo_spec_typed | vm_compute; reflexivity |].
  split; [exact Hlen |]. eexists. split; [reflexivity |].
  apply (Hdev 0%nat). reflexivity.
Defined.

Definition mixed_gpu : profiles.Topology :=
  match profiles.LookupTopology demo_catalog "mixed-gpu" with
  | Some t => t
  | None => {| profiles.t_ID := ""; profiles.t_Devices := [] |}
  end.

Lemma demo_catalog_wf : profiles.wf_catalog demo_catalog.
Proof.
  apply (profiles.LoadCatalog_wf profiles.embedded_profiles profiles.embedded_topologies).
  vm_compute. reflexivity.
Qed.

Lemma mixed_gpu_fits d p :
  d ∈ profiles.t_Devices mixed_gpu ->
  profiles.LookupProfile demo_catalog (profiles.td_Profile d) = Some p ->
  effective_total p (topologyRequest d) <= maxMiB.
Proof.
  assert (forallb (fun d => match profiles.LookupProfile demo_catalog (profiles.td_Profile d) with
                            | Some p => effective_total p (topologyRequest d) <=? maxMiB
                            | None => true end) (profiles.t_Devices mixed_gpu) = true) as H
    by (vm_compute; reflexivity).
  rewrite forallb_forall in H. intros Hd Hp. specialize (H d).
  rewrite Hp in H. apply Z.leb_le, H. by apply list_elem_of_In.
Qed.

Lemma ComposeTopology_total_witness :
  exists cfg, ComposeTopology (Some demo_catalog) demo_system "mixed-gpu" = Ok cfg.
Proof.
  apply (ComposeTopology_total demo_catalog demo_system "mixed-gpu" mixed_gpu).
  - exact demo_catalog_wf.
  - exact demo_catalog_typed.
  - vm_compute. reflexivity.
  - apply (bool_decide_unpack _). vm_compute. exact I.
  - vm_compute. discriminate.
  - exact mixed_gpu_fits.
  - eexists. vm_compute. reflexivity.
Defined.

End config.
