(* ===== verification/Control.v ===== *)
(** * Control client: [internal/control/control.go], [process_memory.go],
    [env_runner.go], and the client half of [manager.go]

    The client turns each operation into one command line of the upstream
    [nvml-mock-ctl].  The external commands are the parameter [OS]: what a
    command prints, whether it fails and how it changes the world [W] is not
    decided here. *)
From Stdlib Require Import SpecFloat.
From S2P Require Import Prelude GoStrings GoStrconv GoJson GoTime GoFloat.

(** ** The operating system the packages run on

    [os_environ] is the environment block, [os_read_file] the content of a
    file, [os_exec env name args] is
    [exec.CommandContext(...).CombinedOutput()];
    the file-lock primitives are those of [withMutationLock]. *)
Class OS (W : Type) := {
  os_environ : list string;
  os_read_file : string -> W -> result string;
  os_exec : list string -> string -> list string -> W -> (string * option error) * W;
  os_mkdir_all : string -> W -> option error * W;
  os_open_lock : string -> W -> option error * W;
  os_flock_ex : string -> W -> option error * W;
  os_flock_un : string -> W -> W;
  os_close_lock : string -> W -> W
}.

Module control.

(** ** Environment overlay *)

(** The Go map [Values] is an association list with distinct keys, in the
    order the iteration visits them. *)
Definition env_lookup (key : string) (values : list (string * string)) : option string :=
  match find_first (fun kv => String.eqb kv.1 key) values with
  | Some (_, v) => Some v
  | None => None
  end.

Definition env_entry (key value : string) : string := key +:+ "=" +:+ value.
Definition member (key : string) (seen : list string) : bool := existsb (String.eqb key) seen.

(** The first loop: [seen] are the overlaid keys already written. *)
Fixpoint overlay_base (base : list string) (values : list (string * string)) (seen : list string)
    : list string * list string :=
  match base with
  | [] => ([], seen)
  | entry :: rest =>
      match Cut entry "=" with
      | None => overlay_base rest values seen
      | Some (key, _) =>
          if String.eqb key "" then overlay_base rest values seen else
          match env_lookup key values with
          | Some value =>
              if member key seen then overlay_base rest values seen else
              let '(out, seen') := overlay_base rest values (key :: seen) in
              (env_entry key value :: out, seen')
          | None =>
              let '(out, seen') := overlay_base rest values seen in (entry :: out, seen')
          end
      end
  end.

Definition overlayEnvironment (base : list string) (values : list (string * string)) : list string :=
  let '(out, seen) := overlay_base base values [] in
  out ++ map (fun kv => env_entry kv.1 kv.2)
             (List.filter (fun kv => negb (member kv.1 seen)) values).

(** ** Runners *)
Inductive Runner (W : Type) :=
  | ExecRunner
  | EnvExecRunner (values : list (string * string))
  | CustomRunner (run : string -> list string -> W -> (string * option error) * W).
Arguments ExecRunner {W}.
Arguments EnvExecRunner {W} values.
Arguments CustomRunner {W} run.

Definition Run {W} `{OS W} (r : Runner W) (name : string) (args : list string) : W -> (string * option error) * W :=
  match r with
  | ExecRunner => os_exec os_environ name args
  | EnvExecRunner values => os_exec (overlayEnvironment os_environ values) name args
  | CustomRunner run => run name args
  end.

(** ** Data *)
Record Client (W : Type) := {
  cl_Binary : string;
  cl_OverrideFile : string;
  cl_ConfigFile : string;
  cl_Runner : option (Runner W)   (* nil interface: None *)
}.
Arguments cl_Binary {W}. Arguments cl_OverrideFile {W}.
Arguments cl_ConfigFile {W}. Arguments cl_Runner {W}.

Record Process := {
  PID : Z;
  Type_ : string;
  Name : string;
  UsedMemoryMiB : Z;
  SMUtil : Z;
  MemoryUtil : Z;
  EncoderUtil : Z;
  DecoderUtil : Z
}.

#[export] Instance Process_eq_dec : EqDecision Process.
Proof. solve_decision. Defined.

Definition New {W} (binary configFile overrideFile : string) : Client W :=
  {| cl_Binary := binary; cl_OverrideFile := overrideFile; cl_ConfigFile := configFile;
     cl_Runner := Some ExecRunner |}.

(** ** Validation and the JSON payload *)
Definition validateProcess (p : Process) : result unit :=
  if PID p =? 0 then Err (Errorf "pid must be positive" []) else
  if negb (String.eqb (Type_ p) "") && negb (String.eqb (Type_ p) "C") && negb (String.eqb (Type_ p) "G")
  then Err (Errorf "type must be C or G" []) else
  if (SMUtil p >? 100) || (MemoryUtil p >? 100) || (EncoderUtil p >? 100) || (DecoderUtil p >? 100)
  then Err (Errorf "process utilization must be <= 100" []) else
  Ok tt.

Definition json_process (p : Process) : string :=
  json_object ([json_field "pid" (FormatUint (PID p))] ++ omit_string "type" (Type_ p) ++
    omit_string "name" (Name p) ++ omit_uint "used_memory_mib" (UsedMemoryMiB p) ++
    omit_uint "sm_util" (SMUtil p) ++ omit_uint "mem_util" (MemoryUtil p) ++
    omit_uint "enc_util" (EncoderUtil p) ++ omit_uint "dec_util" (DecoderUtil p)).

(** [json.Marshal(processes)], with the nil slice replaced by an empty one. *)
Definition json_processes (l : list Process) : string := json_array (map json_process l).

Definition processMiB : Z := mib.

(** The accumulation loop of [validatedProcessPayload]. *)
Fixpoint payload_bytes (i processBytes : Z) (processes : list Process) : result Z :=
  match processes with
  | [] => Ok processBytes
  | p :: rest =>
      _ ← wrap_err (Wrapf "process %d: %w" [AZ i]) (validateProcess p);
      if UsedMemoryMiB p >? u64_max / processMiB
      then Err (Errorf "process %d: used memory is too large" [AZ i]) else
      let bytes := UsedMemoryMiB p ⊗ processMiB in
      if bytes >? u64_max ⊖ processBytes
      then Err (Errorf "aggregate process memory is too large" []) else
      payload_bytes (i + 1) (processBytes ⊕ bytes) rest
  end.

Definition validatedProcessPayload (processes : list Process) : result (string * Z) :=
  processBytes ← payload_bytes 0 0 processes;
  Ok (json_processes processes, processBytes).

(** ** Running one command *)
Section client.
Context {W : Type} `{OS W}.
Implicit Type c : option (Client W).   (* a Go pointer: None is nil *)

(** The command line handed to the runner. *)
Definition full_args (c : Client W) (args : list string) : list string :=
  (if negb (String.eqb (cl_OverrideFile c) "") then ["--file"; cl_OverrideFile c] else []) ++
  (if negb (String.eqb (cl_ConfigFile c) "") then ["--config"; cl_ConfigFile c] else []) ++
  args.

Definition effective_binary (c : Client W) : string :=
  if String.eqb (cl_Binary c) "" then "nvml-mock-ctl" else cl_Binary c.
Definition effective_runner (c : Client W) : Runner W :=
  match cl_Runner c with Some r => r | None => ExecRunner end.

Definition runOutput c (args : list string) : W -> (string * option error) * W := fun w =>
  match c with
  | None => (("", Some (Errorf "nil control client" [])), w)
  | Some c =>
      let '((out, err), w') := Run (effective_runner c) (effective_binary c) (full_args c args) w in
      match err with
      | Some e => ((out, Some (Wrapf "%s failed: %w: %s" [AS (effective_binary c); AS out] e)), w')
      | None => ((out, None), w')
      end
  end.

Definition run c (args : list string) : M W unit := fun w =>
  let '((_, err), w') := runOutput c args w in
  match err with Some e => (Err e, w') | None => (Ok tt, w') end.

(** ** Operations *)
Definition SetMemory c (target : string) (usedBytes freeBytes : Z) : M W unit :=
  run c ["set"; "--gpu"; target;
         "memory.used_bytes=" +:+ FormatUint usedBytes;
         "memory.free_bytes=" +:+ FormatUint freeBytes].

Definition ErrUtilization : error := Errorf "utilization must be between 0 and 100" [].

Definition SetUtilization c (target : string) (gpu memory : Z) : M W unit :=
  if (gpu >? 100) || (memory >? 100) then throw ErrUtilization else
  if gpu =? memory then run c ["util"; "--gpu"; target; FormatUint gpu] else
  run c ["set"; "--gpu"; target;
         "utilization.gpu=" +:+ FormatUint gpu;
         "utilization.memory=" +:+ FormatUint memory;
         "dynamic_metrics.utilization=null"].

Definition SetGPUUtilization c (target : string) (value : Z) : M W unit :=
  if value >? 100 then throw ErrUtilization else
  run c ["set"; "--gpu"; target; "utilization.gpu=" +:+ FormatUint value;
         "dynamic_metrics.utilization=null"].

Definition SetMemoryUtilization c (target : string) (value : Z) : M W unit :=
  if value >? 100 then throw ErrUtilization else
  run c ["set"; "--gpu"; target; "utilization.memory=" +:+ FormatUint value;
         "dynamic_metrics.utilization=null"].

Definition SetProcesses c (target : string) (processes : list Process) : M W unit :=
  _ ← lift (for_each (fun i p => wrap_err (Wrapf "process %d: %w" [AZ i]) (validateProcess p)) 0 processes);
  run c ["set"; "--gpu"; target; "processes=" +:+ json_processes processes].

Definition SetTemperature c (target : string) (celsius : Z) : M W unit :=
  if (celsius <? 0) || (celsius >? 200)
  then throw (Errorf "temperature must be between 0 and 200 C" []) else
  run c ["temp"; "--gpu"; target; Itoa celsius].

(** A NaN passes both comparisons. *)
Definition SetPower c (target : string) (watts : spec_float) : M W unit :=
  if SFltb watts (S754_zero false) || SFltb (f64_of_Z 100000) watts
  then throw (Errorf "power must be between 0 and 100000 watts" []) else
  run c ["power"; "--gpu"; target; FormatFloatF watts].

Definition failure_modes : list string := ["healthy"; "lost"; "fallen_off_bus"; "ecc_uncorrectable"].

Definition SetFailure c (target mode : string) (afterCalls xid : Z) : M W unit :=
  if negb (member mode failure_modes)
  then throw (Errorf "unsupported failure mode %q" [AS mode]) else
  if afterCalls <? 0 then throw (Errorf "after-calls cannot be negative" []) else
  run c (["fail"; "--gpu"; target; "--mode"; mode] ++
         (if afterCalls >? 0 then ["--after-calls"; Itoa afterCalls] else []) ++
         (if xid >? 0 then ["--xid"; FormatUint xid] else [])).

(** Reset and Status name the whole node when the target is empty or [all]. *)
Definition whole_node (target : string) : bool := String.eqb target "" || String.eqb target "all".

Definition Reset_ c (target : string) : M W unit :=
  if whole_node target then run c ["reset"] else run c ["reset"; "--gpu"; target].

Definition Status_ c (target : string) : W -> (string * option error) * W :=
  runOutput c (["status"] ++ (if negb (whole_node target) then ["--gpu"; target] else [])).

(** ** Process list and device memory in one command *)

(** The accounting of [SetProcessesReconciled]: the new used and free bytes. *)
Definition reconcile (totalBytes reservedBytes nonProcessUsedBytes processBytes : Z) : result (Z * Z) :=
  if reservedBytes >? totalBytes then Err (Errorf "reserved memory exceeds total memory" []) else
  let available := totalBytes ⊖ reservedBytes in
  if nonProcessUsedBytes >? available
  then Err (Errorf "non-process used memory exceeds available memory" []) else
  if processBytes >? available ⊖ nonProcessUsedBytes
  then Err (Errorf "process memory plus non-process memory exceeds available memory" []) else
  let usedBytes := nonProcessUsedBytes ⊕ processBytes in
  Ok (usedBytes, available ⊖ usedBytes).

Definition reconciled_args (target payload : string) (usedBytes freeBytes : Z) : list string :=
  ["set"; "--gpu"; target; "processes=" +:+ payload;
   "memory.used_bytes=" +:+ FormatUint usedBytes;
   "memory.free_bytes=" +:+ FormatUint freeBytes].

Definition SetProcessesReconciled c (target : string) (processes : list Process)
    (totalBytes reservedBytes nonProcessUsedBytes : Z) : M W unit :=
  '(payload, processBytes) ← lift (validatedProcessPayload processes);
  '(usedBytes, freeBytes) ← lift (reconcile totalBytes reservedBytes nonProcessUsedBytes processBytes);
  run c (reconciled_args target payload usedBytes freeBytes).
End client.


(** ** Field types *)
Definition process_typed (p : Process) : Prop :=
  u32 (PID p) /\ u64 (UsedMemoryMiB p) /\ u32 (SMUtil p) /\ u32 (MemoryUtil p) /\
  u32 (EncoderUtil p) /\ u32 (DecoderUtil p).
#[export] Instance process_typed_dec p : Decision (process_typed p).
Proof. unfold process_typed. apply _. Defined.

(** The bytes a process list owns, as an integer that cannot overflow. *)
Definition owned_bytes (l : list Process) : Z := sumZ (fun p => UsedMemoryMiB p * mib) l.

Lemma owned_bytes_nonneg l : Forall process_typed l -> 0 <= owned_bytes l.
Proof.
  intros Ht. apply sumZ_nonneg. eapply Forall_impl; [exact Ht |].
  intros p (_ & Hu & _). word.
Qed.

(** ** Lemmas: the payload *)
Lemma payload_bytes_ok i acc l b :
  Forall process_typed l -> u64 acc ->
  payload_bytes i acc l = Ok b <->
  Forall (fun p => validateProcess p = Ok tt) l /\ acc + owned_bytes l <= u64_max /\
  b = acc + owned_bytes l.
Proof.
  intros Ht. revert i acc. unfold owned_bytes.
  induction Ht as [| p l Hp Ht IH]; intros i acc Hacc; cbn [payload_bytes sumZ].
  { split; [intros [= <-] | intros (_ & _ & ->)]; [| f_equal; lia].
    split; [constructor | word]. }
  pose proof (owned_bytes_nonneg _ Ht) as Hnn. unfold owned_bytes in Hnn.
  destruct Hp as (_ & Hu & _). rewrite result_bind_ok. unfold processMiB.
  rewrite Forall_cons. split.
  - intros ([] & Hv & H). apply wrap_err_ok in Hv.
    destruct (_ >? _) eqn:E1; [discriminate |]. cbv zeta in H.
    destruct (_ >? _ ⊖ _) eqn:E2 in H; [discriminate |]. to_prop.
    assert (UsedMemoryMiB p <= 17592186044415) by exact E1.
    rewrite (wrap64_small (_ * _)) in H, E2 by word. rewrite wrap64_small in E2 by word.
    rewrite wrap64_small in H by word.
    apply IH in H as (Hall & Hle & ->); [| word]. split; [tauto | word].
  - intros ((Hv & Hall) & Hle & ->). exists tt. split; [by rewrite Hv |].
    assert (UsedMemoryMiB p <= 17592186044415) by word.
    rewrite (proj2 (gtb_false _ _)) by assumption. cbv zeta.
    rewrite (wrap64_small (_ * _)) by word. rewrite wrap64_small by word.
    rewrite (proj2 (gtb_false _ _)) by word. rewrite wrap64_small by word.
    apply IH; [word |]. split; [done | word].
Qed.

Lemma validatedProcessPayload_ok l r :
  Forall process_typed l ->
  validatedProcessPayload l = Ok r <->
  Forall (fun p => validateProcess p = Ok tt) l /\ owned_bytes l <= u64_max /\
  r = (json_processes l, owned_bytes l).
Proof.
  intros Ht. unfold validatedProcessPayload. rewrite result_bind_ok. split.
  - intros (b & Hb & [= <-]). apply payload_bytes_ok in Hb as (? & ? & ->); [done.. | word].
  - intros (Hall & Hle & ->). exists (owned_bytes l). split; [| done].
    apply payload_bytes_ok; [done | word | done].
Qed.

(** ** Lemmas: the accounting *)
Lemma reconcile_ok total reserved nonproc owned r :
  u64 total -> u64 reserved -> u64 nonproc -> u64 owned ->
  reconcile total reserved nonproc owned = Ok r <->
  reserved + nonproc + owned <= total /\ r = (nonproc + owned, total - reserved - (nonproc + owned)).
Proof.
  intros ? ? ? ?. unfold reconcile. split.
  - intros Hr. destruct (_ >? _) eqn:E1 in Hr; [discriminate |]. to_prop.
    rewrite (wrap64_small (total - reserved)) in Hr by word. cbv zeta in Hr.
    destruct (_ >? _) eqn:E2 in Hr; [discriminate |]. to_prop.
    destruct (_ >? _) eqn:E3 in Hr; [discriminate |]. to_prop.
    unwrap64. injection Hr as <-. split; [word | done].
  - intros [Hle ->]. rewrite (proj2 (gtb_false _ _)) by word. cbv zeta.
    rewrite (wrap64_small (total - reserved)) by word.
    rewrite !(proj2 (gtb_false _ _)) by (unwrap64; word). unwrap64. done.
Qed.

(** ** Lemmas: the environment overlay *)
(** The values an environment block gives to [key]. *)
Definition entry_value (key entry : string) : list string :=
  match Cut entry "=" with
  | Some (k, v) => if String.eqb k key then [v] else []
  | None => []
  end.
Definition env_values (key : string) (env : list string) : list string :=
  flat_map (entry_value key) env.

Lemma env_values_cons key e env : env_values key (e :: env) = entry_value key e ++ env_values key env.
Proof. done. Qed.

Lemma Cut_entry key value : free_of "=" key = true -> Cut (env_entry key value) "=" = Some (key, value).
Proof.
  unfold env_entry. induction key as [| c key IH]; [done |]. cbn. intros [Hc Hk]%andb_true_iff.
  apply negb_true_iff in Hc. rewrite append_cons. cbn [Cut]. by rewrite Hc, IH.
Qed.

Lemma Cut_free s sep a b : Cut s sep = Some (a, b) -> free_of sep a = true.
Proof.
  revert a b. induction s as [| c s IH]; intros a b; cbn; [discriminate |].
  destruct (char_eqb c sep) eqn:E; [by intros [= <- <-] |].
  destruct (Cut s sep) as [[a' b'] |]; [| discriminate].
  intros [= <- <-]. cbn. rewrite E. by apply (IH a' b').
Qed.

Lemma entry_value_self key v : free_of "=" key = true -> entry_value key (env_entry key v) = [v].
Proof. intros H. unfold entry_value. by rewrite Cut_entry, String.eqb_refl. Qed.

Lemma entry_value_other k key v : free_of "=" k = true -> k <> key -> entry_value key (env_entry k v) = [].
Proof.
  intros H Hne. unfold entry_value. rewrite Cut_entry by done.
  by apply String.eqb_neq in Hne as ->.
Qed.

Lemma env_values_map key (values : list (string * string)) :
  Forall (fun kv => free_of "=" kv.1 = true) values -> NoDup values.*1 ->
  env_values key (map (fun kv => env_entry kv.1 kv.2) values) =
  match env_lookup key values with Some v => [v] | None => [] end.
Proof.
  unfold env_lookup. induction 1 as [| [k v] values Hk Hall IH]; [done |].
  intros [Hnin Hnd]%NoDup_cons. cbn [map env_values flat_map find_first fst snd].
  destruct (String.eqb k key) eqn:E.
  - apply String.eqb_eq in E as ->. rewrite entry_value_self by done.
    unfold env_values in IH. rewrite IH by done.
    destruct (find_first _ values) as [[k' v'] |] eqn:F; [| done].
    apply find_first_some in F as [Hin Hk']. cbn in Hk'. apply String.eqb_eq in Hk' as ->.
    exfalso. apply Hnin. apply list_elem_of_fmap. by exists (key, v').
  - apply String.eqb_neq in E. rewrite entry_value_other by done.
    cbn. by apply IH.
Qed.

Lemma member_cons key k seen : member key (k :: seen) = String.eqb key k || member key seen.
Proof. done. Qed.

(** What the first loop has written for a key, and which keys it marks. *)
Lemma overlay_base_spec base values key :
  key <> "" -> forall seen out seen',
  overlay_base base values seen = (out, seen') ->
  match env_lookup key values with
  | Some v => env_values key out = (if member key seen' && negb (member key seen) then [v] else []) /\
              (member key seen = true -> member key seen' = true)
  | None => env_values key out = env_values key base
  end.
Proof.
  intros Hne. induction base as [| entry base IH]; intros seen out seen'; cbn [overlay_base].
  { intros [= <- <-]. destruct (env_lookup key values); [| done].
    split; [by destruct (member key seen) | done]. }
  destruct (Cut entry "=") as [[k x] |] eqn:C.
  2: { rewrite env_values_cons. unfold entry_value. rewrite C. apply IH. }
  assert (entry_value key entry = if String.eqb k key then [x] else []) as Hev
    by (unfold entry_value; by rewrite C).
  rewrite (env_values_cons _ _ base), Hev. clear Hev.
  destruct (String.eqb k "") eqn:Ek.
  { apply String.eqb_eq in Ek as ->. intros H. specialize (IH _ _ _ H).
    destruct (String.eqb "" key) eqn:E; [by apply String.eqb_eq in E |]. exact IH. }
  pose proof (Cut_free _ _ _ _ C) as Hfree.
  destruct (env_lookup k values) as [v |] eqn:L.
  - destruct (member k seen) eqn:Mk.
    + intros H. specialize (IH _ _ _ H). destruct (String.eqb k key) eqn:E; [| exact IH].
      apply String.eqb_eq in E as ->. rewrite L in *. exact IH.
    + destruct (overlay_base base values (k :: seen)) as [o s] eqn:H. intros [= <- <-].
      specialize (IH _ _ _ H). rewrite member_cons in IH. rewrite env_values_cons.
      destruct (String.eqb k key) eqn:E.
      * apply String.eqb_eq in E as ->. rewrite L in *. rewrite String.eqb_refl in IH.
        destruct IH as [-> Hs]. rewrite Hs by done. rewrite Mk.
        by rewrite entry_value_self.
      * assert (k <> key) by by apply String.eqb_neq.
        rewrite entry_value_other by done. rewrite String.eqb_sym, E in IH. exact IH.
  - destruct (overlay_base base values seen) as [o s] eqn:H. intros [= <- <-].
    specialize (IH _ _ _ H). rewrite env_values_cons. unfold entry_value. rewrite C.
    destruct (String.eqb k key) eqn:E; [| exact IH].
    apply String.eqb_eq in E as ->. rewrite L in *. by rewrite IH.
Qed.

Lemma env_values_app key a b : env_values key (a ++ b) = env_values key a ++ env_values key b.
Proof. apply flat_map_app. Qed.

Lemma env_lookup_filter key (p : string -> bool) (values : list (string * string)) :
  env_lookup key (List.filter (fun kv => p kv.1) values) =
  if p key then env_lookup key values else None.
Proof.
  unfold env_lookup. induction values as [| [k v] values IH]; cbn; [by destruct (p key) |].
  destruct (p k) eqn:Pk; cbn.
  - destruct (String.eqb k key) eqn:E; [| exact IH]. apply String.eqb_eq in E as ->. by rewrite Pk.
  - rewrite IH. destruct (String.eqb k key) eqn:E; [| done]. apply String.eqb_eq in E as ->. by rewrite Pk.
Qed.

Lemma filter_fst_NoDup (p : string -> bool) (values : list (string * string)) :
  NoDup values.*1 -> NoDup (List.filter (fun kv => p kv.1) values).*1.
Proof.
  induction values as [| [k v] values IH]; cbn; [done |]. intros [Hnin Hnd]%NoDup_cons.
  destruct (p k); cbn; [| by apply IH]. apply NoDup_cons. split; [| by apply IH].
  intros ([k' v'] & Hk & Hin)%list_elem_of_fmap. cbn in Hk. subst k'. apply Hnin.
  apply list_elem_of_fmap. exists (k, v'). split; [done |].
  apply list_elem_of_In, List.filter_In in Hin as [Hin _]. by apply list_elem_of_In.
Qed.

Section reconciled.
Context {W : Type} `{OS W}.

(** The command of a reconciled update, its amounts written without
    wrap-around. *)
Definition exact_reconciled_args (target : string) (processes : list Process)
    (totalBytes reservedBytes nonProcessUsedBytes : Z) : list string :=
  let used := nonProcessUsedBytes + owned_bytes processes in
  reconciled_args target (json_processes processes) used (totalBytes - reservedBytes - used).

Definition reconcilable (processes : list Process)
    (totalBytes reservedBytes nonProcessUsedBytes : Z) : Prop :=
  Forall (fun p => validateProcess p = Ok tt) processes /\
  reservedBytes + nonProcessUsedBytes + owned_bytes processes <= totalBytes.

Lemma SetProcessesReconciled_run c target processes total reserved nonproc w :
  Forall process_typed processes -> u64 total -> u64 reserved -> u64 nonproc ->
  reconcilable processes total reserved nonproc ->
  SetProcessesReconciled c target processes total reserved nonproc w =
  run c (exact_reconciled_args target processes total reserved nonproc) w.
Proof.
  intros Ht ? ? ? [Hall Hle]. pose proof (owned_bytes_nonneg _ Ht). unfold SetProcessesReconciled.
  erewrite lift_bind_ok.
  2: { apply validatedProcessPayload_ok; [done |]. split; [done |]. split; [word | done]. }
  cbv beta iota. erewrite lift_bind_ok by (apply reconcile_ok; [word .. |]; split; [word | done]).
  reflexivity.
Qed.

Lemma SetProcessesReconciled_rejects c target processes total reserved nonproc w :
  Forall process_typed processes -> u64 total -> u64 reserved -> u64 nonproc ->
  ~ reconcilable processes total reserved nonproc ->
  exists e, SetProcessesReconciled c target processes total reserved nonproc w = (Err e, w).
Proof.
  intros Ht ? ? ? Hnot. pose proof (owned_bytes_nonneg _ Ht). unfold SetProcessesReconciled.
  destruct (validatedProcessPayload processes) as [[payload b] | e] eqn:P; [| by exists e].
  apply validatedProcessPayload_ok in P as (Hall & Hle & [= -> ->]); [| done].
  erewrite lift_bind_ok by done. cbv beta iota.
  destruct (reconcile _ _ _ _) as [r | e] eqn:R; [| by exists e].
  apply reconcile_ok in R as [? _]; [| word ..]. exfalso. apply Hnot. split; [done | word].
Qed.
End reconciled.

(** ** Properties *)

(** C39. A reconciled process update is all or nothing and its accounting
    is exact: it issues its single command if and only if every process is
    valid and reserved, non-process and process memory together fit the
    device; the command then carries used bytes equal to the non-process
    bytes plus the memory of the listed processes, and free bytes equal to
    the rest of the unreserved memory, with no uint64 wrap-around anywhere.
    Otherwise it returns an error and runs no command at all. *)
Theorem SetProcessesReconciled_exact {W} `{OS W} (c : option (Client W)) target processes
    total reserved nonproc w :
  Forall process_typed processes -> u64 total -> u64 reserved -> u64 nonproc ->
  (reconcilable processes total reserved nonproc ->
     SetProcessesReconciled c target processes total reserved nonproc w =
     run c (exact_reconciled_args target processes total reserved nonproc) w) /\
  (~ reconcilable processes total reserved nonproc ->
     exists e, SetProcessesReconciled c target processes total reserved nonproc w = (Err e, w)).
Proof.
  intros. split; intros.
  - by apply SetProcessesReconciled_run.
  - by apply SetProcessesReconciled_rejects.
Qed.

(** The environment overlay: whatever the inherited environment and the
    overlay, a variable of the overlay is defined exactly once, with the
    overlay's value, even when the inherited block repeats it; and every
    other variable keeps exactly its inherited definitions, in order. *)
Theorem overlayEnvironment_values base values key :
  Forall (fun kv => free_of "=" kv.1 = true) values -> NoDup values.*1 -> key <> "" ->
  env_values key (overlayEnvironment base values) =
  match env_lookup key values with
  | Some v => [v]
  | None => env_values key base
  end.
Proof.
  intros Hfree Hnd Hne. unfold overlayEnvironment.
  destruct (overlay_base base values []) as [out seen] eqn:B.
  pose proof (overlay_base_spec base values key Hne _ _ _ B) as Hs.
  rewrite env_values_app, env_values_map.
  - rewrite (env_lookup_filter key (fun k => negb (member k seen))).
    destruct (env_lookup key values) as [v |]; cbn in Hs.
    + destruct Hs as [-> _]. destruct (member key seen); done.
    + rewrite Hs. by destruct (negb _); rewrite app_nil_r.
  - rewrite Forall_forall in *. intros kv Hin. apply Hfree.
    apply list_elem_of_In, List.filter_In in Hin as [Hin _]. by apply list_elem_of_In.
  - by apply (filter_fst_NoDup (fun k => negb (member k seen))).
Qed.

(** ** Witnesses *)
#[local] Instance no_os : OS (list (list string)) := {
  os_environ := ["PATH=/bin"; "HOME=/root"];
  os_read_file _ _ := Err (Errorf "not found" []);
  os_exec _ name args w := (("", None), w ++ [name :: args]);
  os_mkdir_all _ w := (None, w);
  os_open_lock _ w := (None, w);
  os_flock_ex _ w := (None, w);
  os_flock_un _ w := w;
  os_close_lock _ w := w
}.

Definition demo_process (pid used : Z) : Process :=
  {| PID := pid; Type_ := "C"; Name := "worker"; UsedMemoryMiB := used;
     SMUtil := 0; MemoryUtil := 0; EncoderUtil := 0; DecoderUtil := 0 |}.

Lemma SetProcessesReconciled_exact_witness :
  SetProcessesReconciled (Some (New "ctl" "" "")) "0" [demo_process 7 1024; demo_process 8 512]
    17179869184 335544320 1048576 [] =
  (Ok tt, ["ctl" :: exact_reconciled_args "0" [demo_process 7 1024; demo_process 8 512]
                      17179869184 335544320 1048576]) /\
  exists e, SetProcessesReconciled (Some (New "ctl" "" "")) "0" [demo_process 7 17000]
    17179869184 335544320 1048576 [] = (Err e, []).
Proof.
  split.
  - refine (eq_trans (proj1 (SetProcessesReconciled_exact (Some (New "ctl" "" "")) "0"
      [demo_process 7 1024; demo_process 8 512] 17179869184 335544320 1048576 [] _ _ _ _) _) _).
    + repeat constructor; vm_compute; discriminate.
    + by vm_compute.
    + by vm_compute.
    + by vm_compute.
    + split; [repeat constructor | by vm_compute].
    + reflexivity.
  - apply (proj2 (SetProcessesReconciled_exact (Some (New "ctl" "" "")) "0"
      [demo_process 7 17000] 17179869184 335544320 1048576 [] ltac:(repeat constructor; vm_compute; discriminate)
      ltac:(by vm_compute) ltac:(by vm_compute) ltac:(by vm_compute))).
    intros [_ Hle]. vm_compute in Hle. by apply Hle.
Defined.

Lemma overlayEnvironment_values_witness :
  env_values "HOME" (overlayEnvironment ["HOME=/a"; "X=1"; "HOME=/b"] [("HOME", "/c"); ("Y", "2")]) = ["/c"].
Proof.
  refine (overlayEnvironment_values ["HOME=/a"; "X=1"; "HOME=/b"] [("HOME", "/c"); ("Y", "2")] "HOME" _ _ _).
  - by repeat constructor.
  - apply (bool_decide_unpack _). by vm_compute.
  - done.
Defined.

End control.
