(* ===== verification/ProcessJson.v ===== *)
(** * The process payload and a reader for it

    [json_processes] of [control.go] as a wire format: the reader below
    accepts what the client sends, and gives back the process list.  The
    in-memory node of [Node.v] uses it in place of the upstream tool. *)
From S2P Require Import Prelude GoStrings GoStrconv GoJson GoTime Control.
Import control.

Module payload.

(** ** A reader for arrays of flat objects *)
Inductive value := VNum (n : Z) | VText (s : string).

(** The value of a hexadecimal digit. *)
Definition hex_digit (c : ascii) : option Z :=
  let v := byte_val c in
  if in_range 48 v 57 then Some (v - 48) else
  if in_range 97 v 102 then Some (v - 87) else
  if in_range 65 v 70 then Some (v - 55) else None.

(** UTF-8 of a code point below 0x10000 that is no surrogate. *)
Definition encode_rune (r : Z) : option string :=
  if r <? 0x80 then Some (chr (byte_of r)) else
  if r <? 0x800 then Some (byte_of (0xC0 + r / 64) ::: chr (byte_of (0x80 + r mod 64))) else
  if in_range 0xD800 r 0xDFFF then None else
  Some (byte_of (0xE0 + r / 4096) ::: byte_of (0x80 + r / 64 mod 64) ::: chr (byte_of (0x80 + r mod 64))).

Definition unicode_escape (a b c d : ascii) : option string :=
  a ← hex_digit a; b ← hex_digit b; c ← hex_digit c; d ← hex_digit d;
  encode_rune (((a * 16 + b) * 16 + c) * 16 + d).

(** The escapes of one letter. *)
Definition letter_escape (c : ascii) : option string :=
  if char_eqb c dquote || char_eqb c backslash || char_eqb c "/" then Some (chr c) else
  if char_eqb c "b" then Some (chr (byte_of 8)) else if char_eqb c "f" then Some (chr (byte_of 12)) else
  if char_eqb c "n" then Some (chr (byte_of 10)) else if char_eqb c "r" then Some (chr (byte_of 13)) else
  if char_eqb c "t" then Some (chr (byte_of 9)) else None.

Definition prepend (x : string) (o : option (string * string)) : option (string * string) :=
  '(t, rest) ← o; Some (x +:+ t, rest).

(** Up to the closing quote. *)
Fixpoint read_text (s : string) : option (string * string) :=
  match s with
  | EmptyString => None
  | c ::: r =>
      if char_eqb c dquote then Some (EmptyString, r) else
      if char_eqb c backslash then
        match r with
        | EmptyString => None
        | e ::: r1 =>
            if char_eqb e "u" then
              match r1 with
              | h1 ::: h2 ::: h3 ::: h4 ::: r2 => x ← unicode_escape h1 h2 h3 h4; prepend x (read_text r2)
              | _ => None
              end
            else x ← letter_escape e; prepend x (read_text r1)
        end
      else prepend (chr c) (read_text r)
  end.

Fixpoint read_digits (s : string) (acc : Z) : Z * string :=
  match s with
  | c ::: r => if is_digit c then read_digits r (acc * 10 + (byte_val c - 48)) else (acc, s)
  | EmptyString => (acc, s)
  end.

Definition read_value (s : string) : option (value * string) :=
  match s with
  | c ::: r =>
      if char_eqb c dquote then '(t, rest) ← read_text r; Some (VText t, rest)
      else if is_digit c then let '(n, rest) := read_digits s 0 in Some (VNum n, rest) else None
  | EmptyString => None
  end.

Definition expect (c : ascii) (s : string) : option string :=
  match s with d ::: r => if char_eqb c d then Some r else None | EmptyString => None end.

Definition read_field (s : string) : option (string * value * string) :=
  s ← expect dquote s;
  '(key, s) ← read_text s;
  s ← expect ":" s;
  '(v, s) ← read_value s;
  Some (key, v, s).

(** Fields up to the closing brace. *)
Fixpoint read_fields (fuel : nat) (s : string) : option (list (string * value) * string) :=
  match fuel with
  | O => None
  | S k =>
      '(key, v, s) ← read_field s;
      match s with
      | c ::: r =>
          if char_eqb c "," then '(fs, rest) ← read_fields k r; Some ((key, v) :: fs, rest) else
          if char_eqb c "}" then Some ([(key, v)], r) else None
      | EmptyString => None
      end
  end.

Definition field (key : string) (fs : list (string * value)) : option value :=
  match find_first (fun kv => String.eqb kv.1 key) fs with Some kv => Some kv.2 | None => None end.
Definition num_field (key : string) (fs : list (string * value)) : Z :=
  match field key fs with Some (VNum n) => n | _ => 0 end.
Definition text_field (key : string) (fs : list (string * value)) : string :=
  match field key fs with Some (VText s) => s | _ => "" end.

Definition process_of (fs : list (string * value)) : Process := {|
  PID := num_field "pid" fs; Type_ := text_field "type" fs; Name := text_field "name" fs;
  UsedMemoryMiB := num_field "used_memory_mib" fs; SMUtil := num_field "sm_util" fs;
  MemoryUtil := num_field "mem_util" fs; EncoderUtil := num_field "enc_util" fs;
  DecoderUtil := num_field "dec_util" fs |}.

Fixpoint read_objects (fuel : nat) (s : string) : option (list Process) :=
  match fuel with
  | O => None
  | S k =>
      s ← expect "{" s;
      '(fs, s) ← read_fields (String.length s) s;
      match s with
      | c ::: r =>
          if char_eqb c "," then ps ← read_objects k r; Some (process_of fs :: ps) else
          if String.eqb s "]" then Some [process_of fs] else None
      | EmptyString => None
      end
  end.

Definition read_processes (s : string) : option (list Process) :=
  if String.eqb s "[]" then Some [] else
  s ← expect "[" s; read_objects (String.length s) s.


(** ** Lemmas *)
Definition value_text (v : value) : string := match v with VNum n => FormatUint n | VText s => json_string s end.
Definition value_read (v : value) : value := match v with VNum n => VNum n | VText s => VText (to_valid s) end.
Definition field_text (kv : string * value) : string := json_field kv.1 (value_text kv.2).
Definition field_read (kv : string * value) : string * value := (kv.1, value_read kv.2).
Definition value_ok (v : value) : Prop := match v with VNum n => 0 <= n | VText _ => True end.

(** A key that needs no escape. *)
Definition key_byte (c : ascii) : bool := negb (char_eqb c dquote) && negb (char_eqb c backslash).
Definition field_ok (kv : string * value) : Prop := sforall key_byte kv.1 = true /\ value_ok kv.2.

Lemma prepend_cons c x o : prepend (chr c) (prepend x o) = prepend (c ::: x) o.
Proof. destruct o as [[t rest] |]; done. Qed.
Lemma prepend_app x y o : prepend x (prepend y o) = prepend (x +:+ y) o.
Proof. destruct o as [[t rest] |]; [| done]. cbn. by rewrite append_assoc. Qed.
Lemma prepend_nil o : prepend "" o = o.
Proof. by destruct o as [[t rest] |]. Qed.

Lemma read_text_plain s r : sforall key_byte s = true -> read_text (s +:+ r) = prepend s (read_text r).
Proof.
  induction s as [| c s IH]; [by rewrite prepend_nil |]. cbn [sforall]. unfold key_byte at 1.
  intros [[Hq Hb]%andb_true_iff Hs]%andb_true_iff. apply negb_true_iff in Hq, Hb.
  rewrite append_cons. cbn [read_text]. rewrite Hq, Hb, IH by done. apply prepend_cons.
Qed.

Lemma high_key_byte c : (0x80 <=? byte_val c) = true -> key_byte c = true.
Proof. intros Hc. revert Hc. apply implb_true_iff. revert c. apply (every_byte_spec (fun c => implb (0x80 <=? byte_val c) (key_byte c))). vm_compute. reflexivity. Qed.

Lemma read_text_app s r : sforall key_byte s = true -> read_text (s +:+ chr dquote +:+ r) = Some (s, r).
Proof. intros Hs. rewrite read_text_plain by done. change (Some (s +:+ "", r) = Some (s, r)). by rewrite append_nil_r. Qed.

(** Each ASCII byte is read back from its escape. *)
Lemma read_ascii c r : byte_val c < 0x80 -> read_text (json_ascii c +:+ r) = prepend (chr c) (read_text r).
Proof. intros Hc. destruct c as [[] [] [] [] [] [] [] []]; try (by vm_compute in Hc); clear Hc; reflexivity. Qed.

Lemma length_append s t : String.length (s +:+ t) = (String.length s + String.length t)%nat.
Proof. induction s as [| c s IH]; [done |]. rewrite append_cons. cbn. by rewrite IH. Qed.

(** The separators of lines are read back from their escapes. *)
Lemma line_sep_read s e r : line_sep s = Some e -> utf8_width s = 3%nat /\
  read_text (e +:+ r) = prepend (take_bytes 3 s) (read_text r).
Proof.
  destruct s as [| c1 [| c2 [| c3 s]]]; [done .. |]. unfold line_sep.
  destruct (Z.eqb_spec (byte_val c1) 0xE2) as [E1 | _]; [| done]. destruct (Z.eqb_spec (byte_val c2) 0x80) as [E2 | _]; [| done].
  assert (c1 = byte_of 0xE2) as -> by (by rewrite <- E1, byte_of_val). assert (c2 = byte_of 0x80) as -> by (by rewrite <- E2, byte_of_val).
  cbn [andb]. destruct (Z.eqb_spec (byte_val c3) 0xA8) as [E3 | _]; [| destruct (Z.eqb_spec (byte_val c3) 0xA9) as [E3 | _]; [| done]].
  - assert (c3 = byte_of 0xA8) as -> by (by rewrite <- E3, byte_of_val). intros [= <-]. split; reflexivity.
  - assert (c3 = byte_of 0xA9) as -> by (by rewrite <- E3, byte_of_val). intros [= <-]. split; reflexivity.
Qed.

Lemma json_body_copied t r : json_body (t +:+ r) (String.length t) true = t +:+ json_body r 0 true.
Proof. induction t as [| c t IH]; [done |]. rewrite !append_cons. cbn [json_body String.length]. by rewrite IH. Qed.

Lemma json_body_dropped t r : json_body (t +:+ r) (String.length t) false = json_body r 0 true.
Proof.
  induction t as [| c t IH]; [by destruct r |]. rewrite append_cons. cbn [json_body String.length]. by rewrite IH.
Qed.

(** What is read back from the text of a string, whatever its bytes are. *)
Lemma read_json_body s r : read_text (json_body s 0 true +:+ chr dquote +:+ r) = Some (to_valid s, r).
Proof.
  remember (String.length s) as n eqn:En. revert s En. induction (lt_wf n) as [n _ IH]. intros [| c s] ->; [done |].
  assert (String.length s < String.length (c ::: s))%nat as Hs0 by (cbn; lia).
  unfold to_valid. cbn [json_body to_valid_from]. destruct (Z.ltb_spec (byte_val c) 0x80) as [Hlt | Hge].
  - assert (utf8_width (c ::: s) = 1%nat) as -> by (cbn [utf8_width]; by rewrite (proj2 (Z.ltb_lt _ _) Hlt)).
    rewrite append_assoc, read_ascii, (IH _ Hs0 s eq_refl) by done. done.
  - destruct (utf8_width (c ::: s)) as [| k] eqn:Ew.
    + rewrite append_assoc. change (read_text (esc "ufffd" +:+ ?x)) with (prepend replacement (read_text x)).
      by rewrite (IH _ Hs0 s eq_refl).
    + destruct (utf8_split _ _ _ Ew) as (t & s' & -> & <- & Ht). rewrite to_valid_from_app.
      assert (String.length s' < String.length (c ::: t +:+ s'))%nat as Hs by (cbn; rewrite length_append; lia).
      assert (sforall key_byte (c ::: t) = true) as Hk.
      { cbn [sforall]. rewrite high_key_byte by (by apply Z.leb_le). eapply sforall_impl; [apply high_key_byte | exact Ht]. }
      destruct (line_sep (c ::: t +:+ s')) as [e |] eqn:El.
      * rewrite json_body_dropped, append_assoc. destruct (line_sep_read _ _ (json_body s' 0 true +:+ chr dquote +:+ r) El) as [E3 ->].
        rewrite Ew in E3. injection E3 as E3. destruct t as [| c2 [| c3 []]]; try done. by rewrite (IH _ Hs s' eq_refl).
      * rewrite json_body_copied, append_cons, append_assoc, <- append_cons, read_text_plain, (IH _ Hs s' eq_refl) by done. done.
Qed.

Lemma read_digits_digits fuel n acc : 0 <= n < 10 ^ Z.of_nat fuel -> fuel <> O ->
  read_digits (digits 10 fuel n acc) 0 = read_digits acc n.
Proof.
  revert n acc. induction fuel as [| fuel IH]; intros n acc Hn Hf; [done |]. cbn [digits].
  pose proof (Z.mod_pos_bound n 10 ltac:(lia)) as Hmod. pose proof (Z.div_mod n 10 ltac:(lia)) as Hdm.
  assert (forall d m, 0 <= d < 10 -> read_digits (digit_char d ::: acc) m = read_digits acc (m * 10 + d)) as Hstep.
  { intros d m Hd. cbn [read_digits]. rewrite digit_char_is_digit, digit_char_val by done. f_equal. lia. }
  destruct (Z.ltb_spec n 10) as [Hlt | Hge].
  - rewrite Z.mod_small by lia. rewrite Hstep by lia. done.
  - rewrite Nat2Z.inj_succ, Z.pow_succ_r in Hn by lia. rewrite IH.
    + rewrite Hstep by lia. f_equal. lia.
    + split; [apply Z.div_pos; lia | apply Z.div_lt_upper_bound; lia].
    + intros ->. cbn in Hn. lia.
Qed.

Lemma read_digits_FormatUint n r : 0 <= n -> no_digit_first r = true -> read_digits (FormatUint n +:+ r) 0 = (n, r).
Proof.
  intros Hn Hr. unfold FormatUint. rewrite digits_append, read_digits_digits; [| | done].
  - change ("" +:+ r) with r. destruct r as [| c r]; [done |]. cbn [no_digit_first read_digits] in *.
    apply negb_true_iff in Hr. by rewrite Hr.
  - split; [done | by apply fuel_for_enough].
Qed.

Lemma read_value_text v r : value_ok v -> no_digit_first r = true -> read_value (value_text v +:+ r) = Some (value_read v, r).
Proof.
  destruct v as [n | s]; cbn [value_ok value_text]; intros Hv Hr.
  - pose proof (read_digits_FormatUint n r Hv Hr) as E. pose proof (FormatUint_digits n Hv) as Hd.
    pose proof (FormatUint_nonempty n) as Hne. destruct (FormatUint n) as [| c t] eqn:En; [done |].
    cbn [sforall] in Hd. apply andb_true_iff in Hd as [Hc _]. rewrite append_cons in *. unfold read_value.
    rewrite (proj2 (char_eqb_neq c dquote)) by (intros ->; done). by rewrite Hc, E.
  - unfold json_string, quoted. rewrite !append_assoc.
    change (chr dquote +:+ (?x +:+ chr dquote +:+ r)) with (dquote ::: (x +:+ chr dquote +:+ r)).
    cbn [read_value]. by rewrite char_eqb_refl, read_json_body.
Qed.

Lemma read_field_text kv r : field_ok kv -> no_digit_first r = true -> read_field (field_text kv +:+ r) = Some (field_read kv, r).
Proof.
  destruct kv as [k v]. intros [Hk Hv] Hr. unfold field_text, json_field, quoted. cbn [fst snd] in *.
  rewrite !append_assoc. unfold read_field. change (expect dquote (chr dquote +:+ ?t)) with (Some t).
  cbn [mbind option_bind]. rewrite read_text_app by done. cbn [mbind option_bind].
  change (expect ":" (":" +:+ ?t)) with (Some t). cbn [mbind option_bind]. by rewrite read_value_text.
Qed.

Lemma Join_cons2 x y l sep : Join (x :: y :: l) sep = x +:+ sep +:+ Join (y :: l) sep.
Proof. done. Qed.

Lemma read_fields_Join fuel fs r : fs <> [] -> Forall field_ok fs -> (length fs <= fuel)%nat ->
  read_fields fuel (Join (map field_text fs) "," +:+ "}" +:+ r) = Some (map field_read fs, r).
Proof.
  intros Hne Hfs. revert fuel. induction Hfs as [| [k v] fs Hf Hfs IH]; intros fuel Hlen; [done |].
  destruct fuel as [| fuel]; [cbn in Hlen; lia |]. cbn [read_fields]. destruct fs as [| f2 fs].
  - change (Join (map field_text [(k, v)]) ",") with (field_text (k, v)). by rewrite read_field_text.
  - cbn [map]. rewrite Join_cons2, !append_assoc, read_field_text by done. cbn [mbind option_bind].
    change ("," +:+ ?t) with (","%char ::: t). cbn iota beta. change (char_eqb "," ",") with true. cbn iota.
    cbn [map] in IH. rewrite IH; [done | done | cbn in Hlen |- *; lia].
Qed.

Lemma Join_length l : (length l <= S (String.length (Join l ",")))%nat.
Proof.
  induction l as [| x l IH]; [cbn; lia |]. destruct l as [| y l]; [cbn; lia |].
  rewrite Join_cons2, !length_append. change (String.length ",") with 1%nat. cbn [length] in *. lia.
Qed.

(** ** The payload reads back *)
(** The process as JSON carries it: its texts made valid. *)
Definition valid_process (p : Process) : Process := {|
  PID := PID p; Type_ := to_valid (Type_ p); Name := to_valid (Name p); UsedMemoryMiB := UsedMemoryMiB p; SMUtil := SMUtil p;
  MemoryUtil := MemoryUtil p; EncoderUtil := EncoderUtil p; DecoderUtil := DecoderUtil p |}.

(** A process that is sent unchanged. *)
Definition sendable (p : Process) : Prop :=
  process_typed p /\ valid_utf8 (Type_ p) = true /\ valid_utf8 (Name p) = true.
#[export] Instance sendable_dec p : Decision (sendable p).
Proof. unfold sendable. apply _. Defined.

Lemma valid_process_id p : sendable p -> valid_process p = p.
Proof. intros (_ & Ht & Hn). unfold valid_process. rewrite !to_valid_id by done. by destruct p. Qed.

Definition opt_text (key v : string) : list (string * value) := if String.eqb v "" then [] else [(key, VText v)].
Definition opt_num (key : string) (n : Z) : list (string * value) := if n =? 0 then [] else [(key, VNum n)].
Definition process_fields (p : Process) : list (string * value) :=
  [("pid", VNum (PID p))] ++ opt_text "type" (Type_ p) ++ opt_text "name" (Name p) ++
  opt_num "used_memory_mib" (UsedMemoryMiB p) ++ opt_num "sm_util" (SMUtil p) ++ opt_num "mem_util" (MemoryUtil p) ++
  opt_num "enc_util" (EncoderUtil p) ++ opt_num "dec_util" (DecoderUtil p).

Lemma opt_text_fields key v : map field_text (opt_text key v) = omit_string key v.
Proof. unfold opt_text, omit_string. by destruct (String.eqb v ""). Qed.
Lemma opt_num_fields key n : map field_text (opt_num key n) = omit_uint key n.
Proof. unfold opt_num, omit_uint. by destruct (n =? 0). Qed.

Lemma json_process_fields p : json_process p = "{" +:+ Join (map field_text (process_fields p)) "," +:+ "}".
Proof. unfold json_process, json_object, process_fields. by rewrite !map_app, !opt_num_fields, !opt_text_fields. Qed.

Lemma process_fields_ok p : process_typed p -> Forall field_ok (process_fields p).
Proof.
  intros (Hp & Hu & Hs & Hm & He & Hd). unfold process_fields, opt_text, opt_num, field_ok.
  repeat match goal with
  | |- context [if ?b then _ else _] => destruct b
  end; cbn [app]; repeat constructor; cbn; first [done | apply Hp | apply Hu | apply Hs | apply Hm | apply He | apply Hd].
Qed.

Lemma process_fields_length p : (0 < length (process_fields p))%nat.
Proof. cbn. lia. Qed.

Lemma process_of_fields p : process_of (map field_read (process_fields p)) = valid_process p.
Proof.
  unfold process_fields, opt_text, opt_num, valid_process.
  destruct p as [pid ty name used sm mem enc dec]. cbn [PID Type_ Name UsedMemoryMiB SMUtil MemoryUtil EncoderUtil DecoderUtil].
  destruct (String.eqb_spec ty "") as [-> |], (String.eqb_spec name "") as [-> |], (Z.eqb_spec used 0) as [-> |],
    (Z.eqb_spec sm 0) as [-> |], (Z.eqb_spec mem 0) as [-> |], (Z.eqb_spec enc 0) as [-> |],
    (Z.eqb_spec dec 0) as [-> |]; reflexivity.
Qed.

Lemma read_objects_Join fuel ps : ps <> [] -> Forall process_typed ps -> (length ps <= fuel)%nat ->
  read_objects fuel (Join (map json_process ps) "," +:+ "]") = Some (map valid_process ps).
Proof.
  intros Hne Hps. revert fuel. induction Hps as [| p ps Hp Hps IH]; intros fuel Hlen; [done |].
  destruct fuel as [| fuel]; [cbn in Hlen; lia |]. cbn [read_objects].
  assert (forall r, expect "{" (json_process p +:+ r) = Some (Join (map field_text (process_fields p)) "," +:+ "}" +:+ r)) as Hopen.
  { intros r. by rewrite json_process_fields, !append_assoc. }
  assert (forall r, read_fields (String.length (Join (map field_text (process_fields p)) "," +:+ "}" +:+ r))
    (Join (map field_text (process_fields p)) "," +:+ "}" +:+ r) = Some (map field_read (process_fields p), r)) as Hread.
  { intros r. apply read_fields_Join; [done | by apply process_fields_ok |].
    rewrite !length_append. pose proof (Join_length (map field_text (process_fields p))) as Hj.
    rewrite length_map in Hj. cbn [String.length]. change (String.length "}") with 1%nat. lia. }
  destruct ps as [| p2 ps].
  - change (Join (map json_process [p]) ",") with (json_process p). rewrite Hopen. cbn [mbind option_bind].
    rewrite Hread. cbn [mbind option_bind]. change (char_eqb "]" ",") with false. cbn iota. by rewrite process_of_fields.
  - cbn [map]. rewrite Join_cons2, !append_assoc, Hopen. cbn [mbind option_bind]. rewrite Hread. cbn [mbind option_bind].
    change ("," +:+ ?t) with (","%char ::: t). cbn iota beta. change (char_eqb "," ",") with true. cbn iota.
    cbn [map] in IH. rewrite IH; [by rewrite process_of_fields | done | cbn in Hlen |- *; lia].
Qed.

Lemma read_json_processes ps : Forall process_typed ps -> read_processes (json_processes ps) = Some (map valid_process ps).
Proof.
  intros Hps. unfold json_processes, json_array, read_processes. destruct ps as [| p ps]; [done |].
  set (body := Join (map json_process (p :: ps)) "," +:+ "]").
  assert (String.eqb ("[" +:+ body) "[]" = false) as ->.
  { apply String.eqb_neq. intros E. injection E as E. unfold body in E.
    destruct ps as [| p2 ps]; cbn [map] in E; [change (Join [json_process p] ",") with (json_process p) in E |
      rewrite Join_cons2, append_assoc in E]; rewrite json_process_fields, append_assoc in E; discriminate. }
  change (expect "[" ("[" +:+ body)) with (Some body). cbn [mbind option_bind].
  apply read_objects_Join; [done | done |]. unfold body. rewrite length_append.
  pose proof (Join_length (map json_process (p :: ps))) as Hj. rewrite length_map in Hj.
  change (String.length "]") with 1%nat. lia.
Qed.

Lemma sendable_unchanged ps : Forall sendable ps -> map valid_process ps = ps.
Proof. induction 1 as [| p ps Hp _ IH]; [done |]. cbn. by rewrite valid_process_id, IH. Qed.

(** C35. The process payload of a command line determines the process list, up
    to bytes that are not UTF-8.  Whatever the bytes of the names and types are, and whatever fields are
    omitted because they are zero or empty, a reader of JSON gets every
    process back, in order, with all its fields; only bytes that are no part
    of a UTF-8 rune become U+FFFD, so texts in UTF-8 come back unchanged and
    two lists of such processes have the same payload only if they are equal.
    (The numbers are in the range of their Go types.) *)
Theorem json_processes_roundtrip ps : Forall process_typed ps ->
  read_processes (json_processes ps) = Some (map valid_process ps) /\
  (Forall sendable ps -> map valid_process ps = ps) /\
  forall qs, Forall process_typed qs -> json_processes qs = json_processes ps -> map valid_process qs = map valid_process ps.
Proof.
  intros Hps. split; [by apply read_json_processes |]. split; [apply sendable_unchanged |]. intros qs Hqs E.
  apply read_json_processes in Hps, Hqs. congruence.
Qed.

(** A name with a quote, a backslash, a newline, an accented letter and a
    line separator, and one with a byte that is not UTF-8. *)
Definition demo_name : string :=
  "a" +:+ chr dquote +:+ chr backslash +:+ chr newline +:+ "<" +:+ chr (byte_of 195) +:+ chr (byte_of 169) +:+
  chr (byte_of 226) +:+ chr (byte_of 128) +:+ chr (byte_of 168) +:+ chr (byte_of 1).
Definition demo_payload : list Process := [
  {| PID := 7; Type_ := "C"; Name := demo_name; UsedMemoryMiB := 2048; SMUtil := 40; MemoryUtil := 0;
     EncoderUtil := 0; DecoderUtil := 3 |};
  {| PID := 9; Type_ := ""; Name := chr (byte_of 255); UsedMemoryMiB := 0; SMUtil := 0; MemoryUtil := 0; EncoderUtil := 0;
     DecoderUtil := 0 |}].

Lemma json_processes_roundtrip_witness :
  option_map (map Name) (read_processes (json_processes demo_payload)) = Some [demo_name; replacement].
Proof.
  rewrite (proj1 (json_processes_roundtrip demo_payload ltac:(repeat constructor; by vm_compute))). reflexivity.
Defined.

End payload.
