(* ===== verification/Pmon.v ===== *)
(** * One-shot [nvidia-smi pmon] output: [internal/pmon/pmon.go]

    The recogniser of the command-line forms the wrapper answers itself, the
    order of the samples and the text of the table. *)
From stdpp Require Import sorting.
From S2P Require Import Prelude GoStrings GoStrconv.

Module pmon.

Record Sample := {
  GPUIndex : Z;
  s_PID : Z;
  s_Type : string;
  s_SMUtil : Z;
  s_MemoryUtil : Z;
  s_EncoderUtil : Z;
  s_DecoderUtil : Z;
  s_Name : string
}.

(** ** Recognising the command line *)
(** The loop reads the arguments after [pmon] two at a time. *)
Fixpoint match_pairs (rest : list string) (countSeen selectorSeen : bool) : bool :=
  match rest with
  | [] => countSeen
  | [_] => false
  | flag :: value :: rest' =>
      if String.eqb flag "-c" then
        if countSeen || negb (String.eqb value "1") then false
        else match_pairs rest' true selectorSeen
      else if String.eqb flag "-s" then
        if selectorSeen || negb (String.eqb value "u") then false
        else match_pairs rest' countSeen true
      else false
  end.

Definition Matches (args : list string) : bool :=
  match args with
  | first :: rest =>
      if (Z.of_nat (length args) <? 3) || negb (String.eqb first "pmon") then false
      else match_pairs rest false false
  | [] => false
  end.

(** ** The order of the samples *)
Definition sample_less (a b : Sample) : bool :=
  if negb (GPUIndex a =? GPUIndex b) then GPUIndex a <? GPUIndex b else s_PID a <? s_PID b.

(** [sort.Slice] with the comparison above, as the insertion sort the
    library runs on short slices; the order of equal keys is not specified
    for longer ones, and [sort_samples_unique] shows the result does not
    depend on it when the keys are distinct. *)
Fixpoint insert_sample (x : Sample) (l : list Sample) : list Sample :=
  match l with
  | [] => [x]
  | y :: r => if sample_less x y then x :: y :: r else y :: insert_sample x r
  end.
Definition sort_samples (l : list Sample) : list Sample :=
  fold_left (fun acc x => insert_sample x acc) l [].

(** ** The table *)
Definition header1 : string := "# gpu         pid  type    sm   mem   enc   dec   command".
Definition header2 : string := "# Idx           #   C/G     %     %     %     %   name".

Definition pad_num (w : nat) (n : Z) : string := pad_left w " " (Itoa n).

Definition sample_type (s : Sample) : string :=
  if String.eqb (s_Type s) "" then "C" else s_Type s.
Definition sample_name (s : Sample) : string :=
  if String.eqb (s_Name s) "" then "-" else s_Name s.

(** ["%5d %11d %5s %5d %5d %5d %5d   %s"] *)
Definition render_row (s : Sample) : string :=
  pad_num 5 (GPUIndex s) +:+ " " +:+ pad_num 11 (s_PID s) +:+ " " +:+
  pad_string 5 (sample_type s) +:+ " " +:+ pad_num 5 (s_SMUtil s) +:+ " " +:+
  pad_num 5 (s_MemoryUtil s) +:+ " " +:+ pad_num 5 (s_EncoderUtil s) +:+ " " +:+
  pad_num 5 (s_DecoderUtil s) +:+ "   " +:+ sample_name s.

(** The rows go to an [io.Writer]; the first failed write ends the loop. *)
Section render.
Context {W : Type} (write : string -> M W unit).

Definition write_line (line : string) : M W unit := write (line +:+ chr newline).

Fixpoint write_rows (l : list Sample) : M W unit :=
  match l with
  | [] => mret tt
  | s :: r => _ ← write_line (render_row s); write_rows r
  end.

Definition Render (samples : list Sample) : M W unit :=
  let ordered := sort_samples samples in
  _ ← write_line header1;
  _ ← write_line header2;
  write_rows ordered.
End render.

(** A [bytes.Buffer]: writing never fails. *)
Definition buffer_write (text : string) : M string unit := fun buf => (Ok tt, buf +:+ text).

Definition table_lines (samples : list Sample) : list string :=
  header1 :: header2 :: map render_row (sort_samples samples).
Definition table (samples : list Sample) : string := unlines (table_lines samples).

(** ** Lemmas: sorting *)
Definition sample_le (a b : Sample) : Prop := sample_less b a = false.
Definition sample_key (s : Sample) : Z * Z := (GPUIndex s, s_PID s).

Lemma sample_less_spec a b : sample_less a b = true <->
  GPUIndex a < GPUIndex b \/ (GPUIndex a = GPUIndex b /\ s_PID a < s_PID b).
Proof.
  unfold sample_less. destruct (Z.eqb_spec (GPUIndex a) (GPUIndex b)) as [-> | Hne]; cbn [negb];
    rewrite Z.ltb_lt; lia.
Qed.

Lemma sample_le_spec a b : sample_le a b <->
  GPUIndex a < GPUIndex b \/ (GPUIndex a = GPUIndex b /\ s_PID a <= s_PID b).
Proof.
  unfold sample_le. rewrite <- not_true_iff_false, sample_less_spec. lia.
Qed.

Lemma insert_sample_perm x l : insert_sample x l ≡ₚ x :: l.
Proof.
  induction l as [| y l IH]; cbn; [done |]. destruct (sample_less x y); [done |].
  rewrite IH. apply Permutation_swap.
Qed.

Lemma insert_sample_sorted x l :
  StronglySorted sample_le l -> StronglySorted sample_le (insert_sample x l).
Proof.
  induction 1 as [| y l Hl IH Hy]; cbn; [by repeat constructor |].
  destruct (sample_less x y) eqn:E.
  - constructor; [by constructor |]. constructor.
    + apply sample_le_spec. apply sample_less_spec in E. lia.
    + eapply Forall_impl; [exact Hy |]. intros z Hz. apply sample_less_spec in E.
      apply sample_le_spec in Hz. apply sample_le_spec. lia.
  - constructor; [done |]. rewrite insert_sample_perm. by constructor.
Qed.

Lemma sort_samples_spec l : sort_samples l ≡ₚ l /\ StronglySorted sample_le (sort_samples l).
Proof.
  unfold sort_samples.
  assert (forall acc, StronglySorted sample_le acc ->
    fold_left (fun acc x => insert_sample x acc) l acc ≡ₚ l ++ acc /\
    StronglySorted sample_le (fold_left (fun acc x => insert_sample x acc) l acc)) as H.
  { induction l as [| x l IH]; intros acc Hacc; cbn; [done |].
    destruct (IH (insert_sample x acc)) as [Hp Hs]; [by apply insert_sample_sorted |].
    split; [| done]. rewrite Hp, insert_sample_perm. symmetry. apply Permutation_middle. }
  destruct (H [] ltac:(constructor)) as [Hp Hs]. by rewrite app_nil_r in Hp.
Qed.

Lemma sort_samples_unique l k :
  NoDup (map sample_key l) -> k ≡ₚ l -> StronglySorted sample_le k -> k = sort_samples l.
Proof.
  intros Hnd Hp Hs. destruct (sort_samples_spec l) as [Hp' Hs'].
  apply (StronglySorted_unique_strong sample_le); [| done | done | by rewrite Hp, Hp'].
  intros a b Ha Hb Hab Hba. rewrite Hp in Ha. rewrite Hp' in Hb.
  apply sample_le_spec in Hab. apply sample_le_spec in Hba.
  apply list_elem_of_lookup in Ha as [i Hi]. apply list_elem_of_lookup in Hb as [j Hj].
  assert (i = j) as ->; [| congruence].
  apply (NoDup_lookup (map sample_key l) i j (sample_key a)); [done | |].
  - by rewrite list_lookup_fmap, Hi.
  - rewrite list_lookup_fmap, Hj. cbn. unfold sample_key. do 2 f_equal; lia.
Qed.

(** ** Lemmas: the text *)
Lemma write_rows_buffer l buf :
  write_rows buffer_write l buf = (Ok tt, buf +:+ unlines (map render_row l)).
Proof.
  revert buf. induction l as [| s l IH]; intros buf; cbn [write_rows].
  - by rewrite append_nil_r.
  - erewrite M_bind_ok by reflexivity. rewrite IH. cbn [map unlines].
    by rewrite !append_assoc.
Qed.

Lemma Render_buffer samples buf :
  Render buffer_write samples buf = (Ok tt, buf +:+ table samples).
Proof.
  unfold Render. cbv zeta. erewrite M_bind_ok by reflexivity. erewrite M_bind_ok by reflexivity.
  rewrite write_rows_buffer. unfold table, table_lines. cbn [unlines]. by rewrite !append_assoc.
Qed.

Lemma match_pairs_seen rest : match_pairs rest true true = true <-> rest = [].
Proof.
  destruct rest as [| a [| b rest]]; cbn; [done | split; discriminate |].
  destruct (String.eqb a "-c"), (String.eqb a "-s"); split; discriminate.
Qed.

Lemma match_pairs_count rest : match_pairs rest true false = true <->
  rest = [] \/ rest = ["-s"; "u"].
Proof.
  destruct rest as [| a [| b rest]]; cbn; [by split; [left |] | split; [done | naive_solver] |].
  destruct (String.eqb a "-c") eqn:Ec.
  { apply String.eqb_eq in Ec as ->. split; [done | naive_solver]. }
  destruct (String.eqb a "-s") eqn:Es; [| apply String.eqb_neq in Es; split; [done | naive_solver]].
  apply String.eqb_eq in Es as ->.
  destruct (String.eqb b "u") eqn:Eu; cbn; [| apply String.eqb_neq in Eu; split; [done | naive_solver]].
  apply String.eqb_eq in Eu as ->. rewrite match_pairs_seen. naive_solver.
Qed.

Lemma match_pairs_selector rest : match_pairs rest false true = true <-> rest = ["-c"; "1"].
Proof.
  destruct rest as [| a [| b rest]]; cbn; [done | done |].
  destruct (String.eqb a "-c") eqn:Ec.
  2: { apply String.eqb_neq in Ec. destruct (String.eqb a "-s"); split; naive_solver. }
  apply String.eqb_eq in Ec as ->.
  destruct (String.eqb b "1") eqn:E1; cbn; [| apply String.eqb_neq in E1; split; [done | naive_solver]].
  apply String.eqb_eq in E1 as ->. rewrite match_pairs_seen. naive_solver.
Qed.

(** ** Properties *)

(** The wrapper answers exactly three command lines itself: a single
    sample ([-c 1]), alone or with the utilisation selector ([-s u]) before
    or after it.  Every other argument list, repeated flags included, is
    left to the real binary. *)
Theorem Matches_iff args :
  Matches args = true <->
  args ∈ [["pmon"; "-c"; "1"]; ["pmon"; "-c"; "1"; "-s"; "u"]; ["pmon"; "-s"; "u"; "-c"; "1"]].
Proof.
  destruct args as [| a [| b [| c rest]]];
    [cbn; set_solver | split; [done | set_solver] | split; [done | set_solver] |].
  unfold Matches. replace (_ <? 3) with false.
  2: { symmetry. apply Z.ltb_ge. cbn [length]. lia. }
  cbn [orb]. rewrite !elem_of_cons, elem_of_nil.
  destruct (String.eqb a "pmon") eqn:Ea; cbn [negb].
  2: { apply String.eqb_neq in Ea. split; [done | naive_solver]. }
  apply String.eqb_eq in Ea as ->. cbn [match_pairs].
  destruct (String.eqb b "-c") eqn:Ec; [apply String.eqb_eq in Ec as -> |].
  - destruct (String.eqb c "1") eqn:E1; cbn; [apply String.eqb_eq in E1 as -> |].
    + rewrite match_pairs_count. naive_solver.
    + apply String.eqb_neq in E1. split; [done | naive_solver].
  - apply String.eqb_neq in Ec.
    destruct (String.eqb b "-s") eqn:Es; [apply String.eqb_eq in Es as -> |].
    + destruct (String.eqb c "u") eqn:Eu; cbn; [apply String.eqb_eq in Eu as -> |].
      * rewrite match_pairs_selector. naive_solver.
      * apply String.eqb_neq in Eu. split; [done | naive_solver].
    + apply String.eqb_neq in Es. split; [done | naive_solver].
Qed.

(** What [Render] writes to a buffer is the two header lines followed by
    one row per sample, the samples in increasing (GPU, pid) order; for
    samples with distinct (GPU, pid) the text is determined by the set of
    samples, whatever order they are given in. *)
Theorem Render_deterministic samples other buf :
  NoDup (map sample_key samples) -> other ≡ₚ samples ->
  Render buffer_write other buf = (Ok tt, buf +:+ unlines (table_lines samples)) /\
  sort_samples samples ≡ₚ samples /\ StronglySorted sample_le (sort_samples samples).
Proof.
  intros Hnd Hp. split; [| apply sort_samples_spec].
  rewrite Render_buffer. unfold table, table_lines.
  destruct (sort_samples_spec other) as [Hp' Hs'].
  rewrite (sort_samples_unique samples (sort_samples other)); [done | done | | done].
  by rewrite Hp'.
Qed.

(** ** Witnesses *)
Definition demo_sample (gpu pid : Z) : Sample :=
  {| GPUIndex := gpu; s_PID := pid; s_Type := ""; s_SMUtil := 40; s_MemoryUtil := 20;
     s_EncoderUtil := 0; s_DecoderUtil := 0; s_Name := "llama" |}.

Lemma Render_deterministic_witness :
  (Render buffer_write [demo_sample 1 7; demo_sample 0 9] "").2 =
  unlines [header1; header2;
           "    0           9     C    40    20     0     0   llama";
           "    1           7     C    40    20     0     0   llama"].
Proof.
  refine (eq_trans (f_equal snd (proj1 (Render_deterministic [demo_sample 0 9; demo_sample 1 7]
    [demo_sample 1 7; demo_sample 0 9] "" _ _))) _).
  - apply (bool_decide_unpack _). by vm_compute.
  - apply Permutation_swap.
  - by vm_compute.
Defined.

End pmon.
