(* ===== verification/Observe.v ===== *)
(** * Effective state: [internal/control/observe.go]

    The observer runs three [nvidia-smi] queries and parses their text.  The
    commands are those of the [OS] interface; the format they print is
    written out here ([gpu_csv], [apps_csv], and the [pmon] table), and the
    laws of [NvidiaSmi] say that the commands print it for the state of the
    node. *)
From S2P Require Import Prelude GoStrings GoStrconv Control Pmon.
Import control.

Module observe.

(** ** Data *)
Record DeviceState := {
  Index : Z;
  UUID : string;
  ds_Name : string;
  TotalBytes : Z;
  UsedBytes : Z;
  FreeBytes : Z;
  GPUUtilization : Z;
  MemoryUtilization : Z;
  Processes : list Process
}.

#[export] Instance DeviceState_eq_dec : EqDecision DeviceState.
Proof. solve_decision. Defined.

Definition set_Processes (f : list Process -> list Process) (d : DeviceState) : DeviceState :=
  {| Index := Index d; UUID := UUID d; ds_Name := ds_Name d; TotalBytes := TotalBytes d;
     UsedBytes := UsedBytes d; FreeBytes := FreeBytes d; GPUUtilization := GPUUtilization d;
     MemoryUtilization := MemoryUtilization d; Processes := f (Processes d) |}.

Record Observer (W : Type) := {
  ob_Binary : string;
  ob_Runner : option (Runner W)
}.
Arguments ob_Binary {W}. Arguments ob_Runner {W}.

Definition NewObserver {W} (binary : string) : Observer W :=
  {| ob_Binary := binary; ob_Runner := Some ExecRunner |}.

(** ** Parsing *)
Definition nonEmptyLines (raw : string) : list string :=
  List.filter (fun line => negb (String.eqb line "")) (map TrimSpace (Split raw newline)).

Definition splitCSV (line : string) : list string := map TrimSpace (Split line ",").

Definition parseMiB (raw : string) : result Z :=
  match ParseUint (TrimSpace raw) u64_max with
  | Err _ => Err (Errorf "invalid MiB value %q" [AS raw])
  | Ok v => if v >? u64_max / mib then Err (Errorf "MiB value overflows bytes" []) else Ok (v ⊗ mib)
  end.

Definition parsePercent (raw : string) : result Z :=
  match ParseUint (TrimSpace raw) u32_max with
  | Err _ => Err (Errorf "invalid percentage %q" [AS raw])
  | Ok v => if v >? 100 then Err (Errorf "invalid percentage %q" [AS raw]) else Ok v
  end.

Definition parseGPULine (lineNo : Z) (line : string) : result DeviceState :=
  match splitCSV line with
  | [f0; f1; f2; f3; f4; f5; f6; f7] =>
      let bad_index := Errorf "parse nvidia-smi GPU line %d: invalid index %q" [AZ (lineNo + 1); AS f0] in
      match Atoi f0 with
      | Err _ => Err bad_index
      | Ok index =>
          if index <? 0 then Err bad_index else
          total ← wrap_err (Wrapf "parse nvidia-smi GPU line %d total memory: %w" [AZ (lineNo + 1)]) (parseMiB f3);
          used ← wrap_err (Wrapf "parse nvidia-smi GPU line %d used memory: %w" [AZ (lineNo + 1)]) (parseMiB f4);
          free ← wrap_err (Wrapf "parse nvidia-smi GPU line %d free memory: %w" [AZ (lineNo + 1)]) (parseMiB f5);
          gpu ← wrap_err (Wrapf "parse nvidia-smi GPU line %d GPU utilization: %w" [AZ (lineNo + 1)]) (parsePercent f6);
          memory ← wrap_err (Wrapf "parse nvidia-smi GPU line %d memory utilization: %w" [AZ (lineNo + 1)]) (parsePercent f7);
          Ok {| Index := index; UUID := f1; ds_Name := f2; TotalBytes := total; UsedBytes := used;
                FreeBytes := free; GPUUtilization := gpu; MemoryUtilization := memory; Processes := [] |}
      end
  | parts => Err (Errorf "parse nvidia-smi GPU line %d: expected 8 fields, got %d"
                    [AZ (lineNo + 1); AZ (Z.of_nat (length parts))])
  end.

Definition parseGPUQuery (out : string) : result (list DeviceState) :=
  map_each parseGPULine 0 (nonEmptyLines out).

(** The map from UUID to slice index; a later device replaces an earlier one
    with the same UUID. *)
Fixpoint index_by_uuid (i : nat) (devices : list DeviceState) (m : gmap string nat) : gmap string nat :=
  match devices with
  | [] => m
  | d :: rest => index_by_uuid (S i) rest (<[UUID d := i]> m)
  end.

Definition attachLine (byUUID : gmap string nat) (lineNo : Z) (line : string) (devices : list DeviceState)
    : result (list DeviceState) :=
  match splitCSV line with
  | [f0; f1; f2; f3] =>
      let bad_pid := Errorf "parse nvidia-smi process line %d: invalid pid %q" [AZ (lineNo + 1); AS f0] in
      match ParseUint f0 u32_max with
      | Err _ => Err bad_pid
      | Ok pid =>
          if pid =? 0 then Err bad_pid else
          match ParseUint f2 u64_max with
          | Err _ => Err (Errorf "parse nvidia-smi process line %d: invalid used memory %q" [AZ (lineNo + 1); AS f2])
          | Ok used =>
              match byUUID !! f1 with
              | None => Err (Errorf "parse nvidia-smi process line %d: unknown GPU UUID %q" [AZ (lineNo + 1); AS f1])
              | Some deviceIndex =>
                  let p := {| PID := pid; Type_ := "C"; Name := f3; UsedMemoryMiB := used;
                              SMUtil := 0; MemoryUtil := 0; EncoderUtil := 0; DecoderUtil := 0 |} in
                  Ok (alter (set_Processes (fun ps => ps ++ [p])) deviceIndex devices)
              end
          end
      end
  | parts => Err (Errorf "parse nvidia-smi process line %d: expected 4 fields, got %d"
                    [AZ (lineNo + 1); AZ (Z.of_nat (length parts))])
  end.

Fixpoint attach_lines (byUUID : gmap string nat) (lineNo : Z) (lines : list string)
    (devices : list DeviceState) : result (list DeviceState) :=
  match lines with
  | [] => Ok devices
  | line :: rest =>
      devices' ← attachLine byUUID lineNo line devices;
      attach_lines byUUID (lineNo + 1) rest devices'
  end.

Definition attachProcesses (devices : list DeviceState) (out : string) : result (list DeviceState) :=
  attach_lines (index_by_uuid 0 devices ∅) 0 (nonEmptyLines out) devices.

(** One utilisation field of a [pmon] row: [None] makes the row invalid. *)
Definition pmon_util (field : string) : option Z :=
  match ParseUint field u32_max with
  | Err _ => None
  | Ok v => if v >? 100 then None else Some v
  end.

Definition set_utils (type : string) (sm mem enc dec : Z) (p : Process) : Process :=
  {| PID := PID p; Type_ := type; Name := Name p; UsedMemoryMiB := UsedMemoryMiB p;
     SMUtil := sm; MemoryUtil := mem; EncoderUtil := enc; DecoderUtil := dec |}.

Definition attachPmonLine (devices : list DeviceState) (line : string) : list DeviceState :=
  if HasPrefix (TrimSpace line) "#" then devices else
  match Fields line with
  | f0 :: f1 :: f2 :: f3 :: f4 :: f5 :: f6 :: _ :: _ =>
      match Atoi f0, ParseUint f1 u32_max with
      | Ok gpuIndex, Ok pid =>
          match pmon_util f3, pmon_util f4, pmon_util f5, pmon_util f6 with
          | Some sm, Some mem, Some enc, Some dec =>
              map (fun d =>
                if negb (Index d =? gpuIndex) then d else
                set_Processes (map (fun p =>
                  if negb (PID p =? pid) then p else set_utils f2 sm mem enc dec p)) d) devices
          | _, _, _, _ => devices
          end
      | _, _ => devices
      end
  | _ => devices
  end.

Definition attachPmon (devices : list DeviceState) (out : string) : list DeviceState :=
  fold_left attachPmonLine (nonEmptyLines out) devices.

(** ** The queries *)
Definition gpu_query_args : list string :=
  ["--query-gpu=index,uuid,name,memory.total,memory.used,memory.free,utilization.gpu,utilization.memory";
   "--format=csv,noheader,nounits"].
Definition apps_query_args : list string :=
  ["--query-compute-apps=pid,gpu_uuid,used_memory,process_name"; "--format=csv,noheader,nounits"].
Definition pmon_args : list string := ["pmon"; "-c"; "1"; "-s"; "u"].

Section observer.
Context {W : Type} `{OS W}.
Implicit Type o : option (Observer W).   (* a Go pointer: None is nil *)

Definition observer_binary (o : Observer W) : string :=
  if String.eqb (ob_Binary o) "" then "nvidia-smi" else ob_Binary o.
Definition observer_runner (o : Observer W) : Runner W :=
  match ob_Runner o with Some r => r | None => ExecRunner end.

Definition Snapshot o : M W (list DeviceState) := fun w =>
  match o with
  | None => (Err (Errorf "nil observer" []), w)
  | Some o =>
      let binary := observer_binary o in
      let '((out, err), w1) := Run (observer_runner o) binary gpu_query_args w in
      match err with
      | Some e => (Err (Wrapf "%s GPU query failed: %w: %s" [AS binary; AS out] e), w1)
      | None =>
          match parseGPUQuery out with
          | Err e => (Err e, w1)
          | Ok devices =>
              let '((processOut, processErr), w2) := Run (observer_runner o) binary apps_query_args w1 in
              match processErr with
              | Some e => (Err (Wrapf "%s process query failed: %w: %s" [AS binary; AS processOut] e), w2)
              | None =>
                  match attachProcesses devices processOut with
                  | Err e => (Err e, w2)
                  | Ok devices =>
                      let '((pmonOut, pmonErr), w3) := Run (observer_runner o) binary pmon_args w2 in
                      (Ok (match pmonErr with None => attachPmon devices pmonOut | Some _ => devices end), w3)
                  end
              end
          end
      end
  end.

Definition selects (target : string) (d : DeviceState) : bool :=
  String.eqb (Itoa (Index d)) target || String.eqb (UUID d) target.

Definition Device o (target : string) : M W DeviceState :=
  devices ← Snapshot o;
  match find_first (selects target) devices with
  | Some device => mret device
  | None => throw (Errorf "GPU %q not found" [AS target])
  end.
End observer.

(** ** What the queries print *)
Definition csv_row (cells : list string) : string := Join cells ", ".

Definition gpu_cells (d : DeviceState) : list string :=
  [FormatUint (Index d); UUID d; ds_Name d; FormatUint (TotalBytes d / mib);
   FormatUint (UsedBytes d / mib); FormatUint (FreeBytes d / mib);
   FormatUint (GPUUtilization d); FormatUint (MemoryUtilization d)].
Definition gpu_csv (devices : list DeviceState) : string :=
  unlines (map (fun d => csv_row (gpu_cells d)) devices).

Definition app_cells (uuid : string) (p : Process) : list string :=
  [FormatUint (PID p); uuid; FormatUint (UsedMemoryMiB p); Name p].
Definition apps_lines (devices : list DeviceState) : list string :=
  flat_map (fun d => map (fun p => csv_row (app_cells (UUID d) p)) (Processes d)) devices.
Definition apps_csv (devices : list DeviceState) : string := unlines (apps_lines devices).

Definition sample_of (d : DeviceState) (p : Process) : pmon.Sample :=
  {| pmon.GPUIndex := Index d; pmon.s_PID := PID p; pmon.s_Type := Type_ p;
     pmon.s_SMUtil := SMUtil p; pmon.s_MemoryUtil := MemoryUtil p;
     pmon.s_EncoderUtil := EncoderUtil p; pmon.s_DecoderUtil := DecoderUtil p;
     pmon.s_Name := Name p |}.
Definition samples_of (devices : list DeviceState) : list pmon.Sample :=
  flat_map (fun d => map (sample_of d) (Processes d)) devices.

(** ** Well-formed nodes *)
(** Text that survives the CSV and the column formats. *)
Definition plain_text (s : string) : bool := edged s && free_of "," s && free_of newline s.

Definition mib_aligned (z : Z) : Prop := u64 z /\ z mod mib = 0.
#[export] Instance mib_aligned_dec z : Decision (mib_aligned z).
Proof. unfold mib_aligned. apply _. Defined.
Definition percent (z : Z) : Prop := 0 <= z <= 100.
#[export] Instance percent_dec z : Decision (percent z).
Proof. unfold percent. apply _. Defined.

Definition process_ok (p : Process) : Prop :=
  (u32 (PID p) /\ PID p <> 0) /\ (Type_ p = "C" \/ Type_ p = "G") /\ plain_text (Name p) = true /\
  u64 (UsedMemoryMiB p) /\ percent (SMUtil p) /\ percent (MemoryUtil p) /\
  percent (EncoderUtil p) /\ percent (DecoderUtil p).
#[export] Instance process_ok_dec p : Decision (process_ok p).
Proof. unfold process_ok. apply _. Defined.

Definition device_ok (d : DeviceState) : Prop :=
  0 <= Index d < int64_cutoff /\ plain_text (UUID d) = true /\ plain_text (ds_Name d) = true /\
  mib_aligned (TotalBytes d) /\ mib_aligned (UsedBytes d) /\ mib_aligned (FreeBytes d) /\
  percent (GPUUtilization d) /\ percent (MemoryUtilization d) /\
  Forall process_ok (Processes d) /\ NoDup (map PID (Processes d)).
#[export] Instance device_ok_dec d : Decision (device_ok d).
Proof. unfold device_ok. apply _. Defined.

Definition node_ok (devices : list DeviceState) : Prop :=
  Forall device_ok devices /\ NoDup (map Index devices) /\ NoDup (map UUID devices).
#[export] Instance node_ok_dec ds : Decision (node_ok ds).
Proof. unfold node_ok. apply _. Defined.

(** ** Lemmas: lines and cells *)
Lemma nonEmptyLines_trimmed l :
  Forall (fun s => free_of newline s = true /\ edged (TrimSpace s) = true) l ->
  nonEmptyLines (unlines l) = map TrimSpace l.
Proof.
  intros Hl. unfold nonEmptyLines. rewrite Split_unlines.
  2: { eapply Forall_impl; [exact Hl | by intros ? []]. }
  rewrite map_app, List.filter_app. cbn. rewrite app_nil_r.
  induction Hl as [| s l [_ Hs] _ IH]; [done |]. cbn.
  apply edged_nonempty, String.eqb_neq in Hs. rewrite Hs. cbn. by rewrite IH.
Qed.

Lemma nonEmptyLines_unlines l :
  Forall (fun s => free_of newline s = true /\ edged s = true) l -> nonEmptyLines (unlines l) = l.
Proof.
  intros Hl. rewrite nonEmptyLines_trimmed.
  - induction Hl as [| s l [_ Hs] _ IH]; [done |]. cbn. by rewrite edged_TrimSpace, IH.
  - eapply Forall_impl; [exact Hl |]. intros s [? ?]. by rewrite edged_TrimSpace.
Qed.

Lemma plain_text_spec s : plain_text s = true ->
  edged s = true /\ free_of "," s = true /\ free_of newline s = true.
Proof. unfold plain_text. intros. to_prop. tauto. Qed.

Lemma plain_edged s : plain_text s = true -> edged s = true.
Proof. intros H. apply (plain_text_spec s H). Qed.
Lemma plain_comma s : plain_text s = true -> free_of "," s = true.
Proof. intros H. apply (plain_text_spec s H). Qed.

Lemma FormatUint_plain n : 0 <= n -> plain_text (FormatUint n) = true.
Proof.
  intros Hn. unfold plain_text. rewrite !FormatUint_free by done.
  by rewrite graph_edged by auto.
Qed.
#[local] Hint Resolve FormatUint_plain : core.

Lemma splitCSV_row cells :
  cells <> [] -> Forall (fun s => plain_text s = true) cells -> splitCSV (csv_row cells) = cells.
Proof.
  intros Hne Hc. destruct cells as [| f fs]; [done |]. unfold splitCSV, csv_row.
  rewrite Split_Join_comma.
  2: { eapply Forall_impl; [exact Hc |]. intros s. apply plain_comma. }
  apply Forall_cons in Hc as [Hf Hfs]. cbn [map]. f_equal.
  { by apply edged_TrimSpace, plain_edged. }
  clear Hne. induction Hfs as [| g fs Hg _ IH]; [done |]. cbn [map]. rewrite IH, TrimSpace_space. f_equal.
  by apply edged_TrimSpace, plain_edged.
Qed.

Lemma csv_row_line cells :
  cells <> [] -> Forall (fun s => plain_text s = true) cells ->
  free_of newline (csv_row cells) = true /\ edged (csv_row cells) = true.
Proof.
  intros Hne Hc. destruct cells as [| f fs]; [done |]. unfold csv_row. clear Hne. revert f Hc.
  induction fs as [| g fs IH]; intros f [Hf Hfs]%Forall_cons;
    apply plain_text_spec in Hf as (He & _ & Hn); [done |].
  destruct (IH g Hfs) as [IHn IHe]. change (Join (f :: g :: fs) ", ") with (f +:+ ", " +:+ Join (g :: fs) ", ").
  split; [| by apply edged_append]. by rewrite !free_of_append, Hn, IHn.
Qed.

Lemma parseMiB_print b : mib_aligned b -> parseMiB (FormatUint (b / mib)) = Ok b.
Proof.
  intros [Hu Hm]. unfold parseMiB.
  assert (0 <= b / mib <= u64_max / mib) by (split; [apply Z.div_pos; word | apply Z.div_le_mono; word]).
  assert (u64_max / mib = 17592186044415) as Emax by reflexivity.
  rewrite TrimSpace_graph by (apply FormatUint_graph; lia).
  rewrite ParseUint_FormatUint by word.
  rewrite (proj2 (gtb_false _ _)) by lia. f_equal.
  pose proof (Z.div_mod b mib ltac:(done)). rewrite wrap64_small by word. lia.
Qed.

Lemma parsePercent_print v : percent v -> parsePercent (FormatUint v) = Ok v.
Proof.
  unfold percent. intros Hv. unfold parsePercent. rewrite TrimSpace_graph by (apply FormatUint_graph; lia).
  rewrite ParseUint_FormatUint by word. by rewrite (proj2 (gtb_false _ _)) by lia.
Qed.

Lemma mib_aligned_div_nonneg b : mib_aligned b -> 0 <= b / mib.
Proof. intros [Hu _]. apply Z.div_pos; word. Qed.

Lemma gpu_cells_plain d : device_ok d -> Forall (fun s => plain_text s = true) (gpu_cells d).
Proof.
  intros (Hi & Hu & Hn & Ht & Hus & Hf & Hg & Hm & _). unfold percent in *.
  pose proof (mib_aligned_div_nonneg _ Ht). pose proof (mib_aligned_div_nonneg _ Hus).
  pose proof (mib_aligned_div_nonneg _ Hf).
  repeat (apply Forall_cons; split; [first [done | apply FormatUint_plain; lia] |]). constructor.
Qed.

Lemma parseGPULine_print i d :
  device_ok d -> parseGPULine i (csv_row (gpu_cells d)) = Ok (set_Processes (fun _ => []) d).
Proof.
  intros Hd. unfold parseGPULine. rewrite splitCSV_row by (done || by apply gpu_cells_plain).
  destruct Hd as (Hi & _ & _ & Ht & Hus & Hf & Hg & Hm & _). cbn [gpu_cells].
  rewrite Atoi_nonneg by done. rewrite (proj2 (Z.ltb_ge _ _)) by lia.
  rewrite !parseMiB_print, !parsePercent_print by done. done.
Qed.

Lemma parseGPUQuery_print devices :
  Forall device_ok devices ->
  parseGPUQuery (gpu_csv devices) = Ok (map (set_Processes (fun _ => [])) devices).
Proof.
  intros Hd. unfold parseGPUQuery, gpu_csv. rewrite nonEmptyLines_unlines.
  - generalize 0. induction Hd as [| d l Hd _ IH]; intros i; [done |]. cbn [map map_each].
    rewrite parseGPULine_print by done. cbn. by rewrite IH.
  - apply Forall_map. eapply Forall_impl; [exact Hd |]. intros d ?.
    apply csv_row_line; [done | by apply gpu_cells_plain].
Qed.

(** ** Lemmas: attaching the processes *)
(** A process as the process query alone shows it. *)
Definition query_view (p : Process) : Process :=
  {| PID := PID p; Type_ := "C"; Name := Name p; UsedMemoryMiB := UsedMemoryMiB p;
     SMUtil := 0; MemoryUtil := 0; EncoderUtil := 0; DecoderUtil := 0 |}.

Lemma app_cells_plain uuid p :
  plain_text uuid = true -> process_ok p -> Forall (fun s => plain_text s = true) (app_cells uuid p).
Proof.
  intros Hu ((Hp & _) & _ & Hn & Hm & _).
  repeat (apply Forall_cons; split; [first [done | apply FormatUint_plain; word] |]). constructor.
Qed.

Lemma set_Processes_UUID f d : UUID (set_Processes f d) = UUID d.
Proof. done. Qed.

Lemma index_by_uuid_lookup i devices m uuid :
  (forall k d, devices !! k = Some d -> UUID d = uuid ->
     NoDup (map UUID devices) -> index_by_uuid i devices m !! uuid = Some (i + k)%nat) /\
  (Forall (fun d => UUID d <> uuid) devices -> index_by_uuid i devices m !! uuid = m !! uuid).
Proof.
  revert i m. induction devices as [| d l IH]; intros i m; cbn [index_by_uuid].
  { split; [by intros k d ? | done]. }
  split.
  - intros [| k] d' Hk Hd'; cbn in Hk; intros [Hnin Hnd]%NoDup_cons.
    + injection Hk as ->. rewrite (proj2 (IH (S i) _)).
      * rewrite Hd', lookup_insert_eq. f_equal. lia.
      * apply Forall_forall. intros e He Heq. apply Hnin. rewrite Hd', <- Heq.
        apply list_elem_of_fmap. by exists e.
    + rewrite (proj1 (IH (S i) _) k d') by done. f_equal. lia.
  - intros [Hd Hl]%Forall_cons. rewrite (proj2 (IH _ _)) by done. by rewrite lookup_insert_ne.
Qed.

Lemma attachLine_print by_uuid lineNo uuid p i devices :
  plain_text uuid = true -> process_ok p -> by_uuid !! uuid = Some i ->
  attachLine by_uuid lineNo (csv_row (app_cells uuid p)) devices =
  Ok (alter (set_Processes (fun ps => ps ++ [query_view p])) i devices).
Proof.
  intros Hu Hp Hi. unfold attachLine. rewrite splitCSV_row by (done || by apply app_cells_plain).
  destruct Hp as ((Hpid & Hne) & _ & _ & Hm & _). cbn [app_cells].
  rewrite ParseUint_FormatUint by word. rewrite (proj2 (Z.eqb_neq _ _)) by done.
  rewrite ParseUint_FormatUint by word. by rewrite Hi.
Qed.

Lemma attach_lines_app by_uuid k l1 l2 devices :
  attach_lines by_uuid k (l1 ++ l2) devices =
  (devices' ← attach_lines by_uuid k l1 devices;
   attach_lines by_uuid (k + Z.of_nat (length l1)) l2 devices').
Proof.
  revert k devices. induction l1 as [| line l1 IH]; intros k devices; cbn [attach_lines app length].
  - cbn. by rewrite Z.add_0_r.
  - destruct (attachLine by_uuid k line devices) as [ds | e]; cbn; [| done].
    rewrite IH. by replace (k + 1 + Z.of_nat (length l1)) with (k + Z.of_nat (S (length l1))) by lia.
Qed.

Lemma attach_lines_device by_uuid k uuid ps i pre d post :
  plain_text uuid = true -> Forall process_ok ps -> by_uuid !! uuid = Some i -> length pre = i ->
  attach_lines by_uuid k (map (fun p => csv_row (app_cells uuid p)) ps) (pre ++ d :: post) =
  Ok (pre ++ set_Processes (fun qs => qs ++ map query_view ps) d :: post).
Proof.
  intros Hu Hps Hi Hlen. revert k d. induction Hps as [| p ps Hp _ IH]; intros k d; cbn [map attach_lines].
  - destruct d. unfold set_Processes. cbn. by rewrite app_nil_r.
  - rewrite (attachLine_print _ _ _ _ i) by done. cbn.
    rewrite alter_app_r_alt by lia. rewrite Hlen, Nat.sub_diag. cbn [alter list_alter].
    rewrite IH. do 3 f_equal. unfold set_Processes. cbn. by rewrite <- app_assoc.
Qed.

Lemma attachProcesses_print devices :
  node_ok devices ->
  attachProcesses (map (set_Processes (fun _ => [])) devices) (apps_csv devices) =
  Ok (map (set_Processes (map query_view)) devices).
Proof.
  intros (Hd & _ & Huuid). unfold attachProcesses, apps_csv. rewrite nonEmptyLines_unlines.
  2: { apply Forall_flat_map. eapply Forall_impl; [exact Hd |].
       intros d (_ & Hu & _ & _ & _ & _ & _ & _ & Hps & _). apply Forall_map.
       eapply Forall_impl; [exact Hps |]. intros p Hp.
       apply csv_row_line; [done | by apply app_cells_plain]. }
  set (by_uuid := index_by_uuid 0 _ ∅).
  assert (forall i d, devices !! i = Some d -> by_uuid !! UUID d = Some i) as Hidx.
  { intros i d Hi. subst by_uuid.
    rewrite (proj1 (index_by_uuid_lookup 0 _ _ (UUID d)) i (set_Processes (fun _ => []) d)); [done | | done |].
    - by rewrite list_lookup_fmap, Hi.
    - by rewrite map_map. }
  clearbody by_uuid. clear Huuid.
  assert (forall k pre rest, Forall device_ok rest ->
    (forall i d, rest !! i = Some d -> by_uuid !! UUID d = Some (length pre + i)%nat) ->
    attach_lines by_uuid k (apps_lines rest) (pre ++ map (set_Processes (fun _ => [])) rest) =
    Ok (pre ++ map (set_Processes (map query_view)) rest)) as Hgen.
  { intros k pre rest Hok. revert k pre. induction Hok as [| d rest Hdok _ IH]; intros k pre Hl; [done |].
    destruct Hdok as (_ & Hu & _ & _ & _ & _ & _ & _ & Hps & _).
    unfold apps_lines. cbn [flat_map map]. fold (apps_lines rest). rewrite attach_lines_app.
    rewrite (attach_lines_device _ _ _ _ (length pre)); [| done | done | | done].
    2: { rewrite (Hl 0%nat d eq_refl). f_equal. lia. }
    cbn. rewrite (cons_middle _ pre), app_assoc. rewrite IH.
    - by rewrite <- app_assoc.
    - intros i d' Hi. rewrite (Hl (S i) d' Hi), length_app. f_equal. cbn. lia. }
  apply (Hgen 0 []); [done |]. intros i d Hi. by apply Hidx.
Qed.

(** ** Lemmas: the [pmon] rows *)
Definition sample_ok (s : pmon.Sample) : Prop :=
  0 <= pmon.GPUIndex s < int64_cutoff /\ u32 (pmon.s_PID s) /\
  (pmon.s_Type s = "C" \/ pmon.s_Type s = "G") /\ plain_text (pmon.s_Name s) = true /\
  percent (pmon.s_SMUtil s) /\ percent (pmon.s_MemoryUtil s) /\
  percent (pmon.s_EncoderUtil s) /\ percent (pmon.s_DecoderUtil s).

Lemma Fields_num w n r : 0 <= n -> Fields (pmon.pad_num w n +:+ " " +:+ r) = FormatUint n :: Fields r.
Proof.
  intros Hn. unfold pmon.pad_num, pad_left. rewrite repeat_spaces, Itoa_nonneg, append_assoc by done.
  rewrite Fields_spaces. by apply Fields_word; auto.
Qed.

Lemma Fields_type r s : sample_ok s ->
  Fields (pad_string 5 (pmon.sample_type s) +:+ " " +:+ r) = pmon.s_Type s :: Fields r.
Proof.
  intros (_ & _ & Ht & _). unfold pad_string. rewrite repeat_spaces, append_assoc, Fields_spaces.
  unfold pmon.sample_type. destruct Ht as [-> | ->]; by apply Fields_word.
Qed.

Lemma sample_name_ok s : sample_ok s -> pmon.sample_name s = pmon.s_Name s.
Proof.
  intros (_ & _ & _ & Hn & _). unfold pmon.sample_name.
  apply plain_edged, edged_nonempty, String.eqb_neq in Hn. by rewrite Hn.
Qed.

Lemma render_row_fields s : sample_ok s -> Fields (pmon.render_row s) =
  FormatUint (pmon.GPUIndex s) :: FormatUint (pmon.s_PID s) :: pmon.s_Type s ::
  FormatUint (pmon.s_SMUtil s) :: FormatUint (pmon.s_MemoryUtil s) ::
  FormatUint (pmon.s_EncoderUtil s) :: FormatUint (pmon.s_DecoderUtil s) :: Fields (pmon.s_Name s).
Proof.
  intros Hs. unfold pmon.render_row. pose proof Hs as (Hi & Hp & _ & _ & H1 & H2 & H3 & H4).
  unfold percent in *. rewrite !Fields_num by word. rewrite Fields_type by done.
  rewrite !Fields_num by lia. rewrite (sample_name_ok _ Hs).
  change ("   " +:+ pmon.s_Name s) with (" " +:+ (spaces 2 +:+ pmon.s_Name s)).
  rewrite Fields_num by lia. by rewrite Fields_spaces.
Qed.

(** A row without its leading padding. *)
Lemma render_row_trim s : sample_ok s ->
  exists n row, pmon.render_row s = spaces n +:+ row /\ edged row = true /\
    free_of newline row = true /\ HasPrefix row "#" = false.
Proof.
  intros Hs. unfold pmon.render_row. rewrite (sample_name_ok _ Hs).
  destruct Hs as (Hi & Hp & Ht & Hn & H1 & H2 & H3 & H4). unfold percent in *.
  apply plain_text_spec in Hn as (He & _ & Hn).
  unfold pmon.pad_num at 1. unfold pad_left at 1. rewrite repeat_spaces, Itoa_nonneg by lia.
  rewrite append_assoc. eexists _, _. split; [reflexivity |].
  set (rest := " " +:+ _). assert (exists mid, rest = mid +:+ pmon.s_Name s /\ free_of newline mid = true)
    as (mid & -> & Hmid).
  { assert (forall w n, 0 <= n -> free_of newline (pmon.pad_num w n) = true) as Hnum.
    { intros w n ?. unfold pmon.pad_num, pad_left. rewrite Itoa_nonneg, free_of_append, FormatUint_free by done.
      rewrite andb_true_r. by induction (w - _)%nat. }
    assert (free_of newline (pad_string 5 (pmon.sample_type s)) = true) as Hty.
    { unfold pmon.sample_type. by destruct Ht as [-> | ->]. }
    eexists. split.
    - subst rest. rewrite <- !append_assoc. reflexivity.
    - rewrite !free_of_append, !Hnum, Hty by word. done. }
  destruct (FormatUint_first (pmon.GPUIndex s)) as (c & r & E & Hc); [lia |].
  split; [| split].
  - apply edged_append; [| done]. apply graph_edged; auto with lia.
  - rewrite !free_of_append, Hmid, Hn, FormatUint_free by (done || lia). done.
  - rewrite E, append_cons. unfold HasPrefix. cbn [String.prefix].
    destruct (ascii_dec "#" c) as [<- |]; [discriminate Hc | done].
Qed.

Lemma pmon_util_print v : percent v -> pmon_util (FormatUint v) = Some v.
Proof.
  unfold percent, pmon_util. intros Hv. rewrite ParseUint_FormatUint by word.
  by rewrite (proj2 (gtb_false _ _)) by lia.
Qed.

(** What one sample does to one process. *)
Definition apply_sample (index : Z) (p : Process) (s : pmon.Sample) : Process :=
  if (index =? pmon.GPUIndex s) && (PID p =? pmon.s_PID s)
  then set_utils (pmon.s_Type s) (pmon.s_SMUtil s) (pmon.s_MemoryUtil s)
         (pmon.s_EncoderUtil s) (pmon.s_DecoderUtil s) p
  else p.

Lemma attachPmonLine_row devices s :
  sample_ok s ->
  attachPmonLine devices (TrimSpace (pmon.render_row s)) =
  map (fun d => set_Processes (map (fun p => apply_sample (Index d) p s)) d) devices.
Proof.
  intros Hs. destruct (render_row_trim s Hs) as (n & row & E & He & _ & Hh).
  pose proof (render_row_fields s Hs) as Hf. rewrite E, Fields_spaces in Hf.
  rewrite E, TrimSpace_spaces, edged_TrimSpace by done. unfold attachPmonLine.
  rewrite edged_TrimSpace, Hh, Hf by done.
  destruct Hs as (Hi & Hp & _ & Hn & H1 & H2 & H3 & H4).
  destruct (Fields (pmon.s_Name s)) as [| f fs] eqn:En.
  { by apply plain_edged, Fields_edged in Hn. }
  rewrite Atoi_nonneg by done. rewrite ParseUint_FormatUint by word.
  rewrite !pmon_util_print by done.
  apply map_ext. intros d. unfold apply_sample. destruct (Index d =? pmon.GPUIndex s); cbn [negb andb].
  - unfold set_Processes. f_equal. apply map_ext. intros p. by destruct (PID p =? pmon.s_PID s).
  - unfold set_Processes. rewrite map_id. by destruct d.
Qed.

Lemma attachPmon_rows devices samples :
  Forall sample_ok samples ->
  fold_left attachPmonLine (map TrimSpace (map pmon.render_row samples)) devices =
  map (fun d => set_Processes (map (fun p => fold_left (apply_sample (Index d)) samples p)) d) devices.
Proof.
  intros Hs. revert devices. induction Hs as [| s samples Hs _ IH]; intros devices; cbn [map fold_left].
  - rewrite <- (map_id devices) at 1. apply map_ext. intros []. unfold set_Processes. cbn. by rewrite map_id.
  - rewrite attachPmonLine_row, IH, map_map by done. apply map_ext. intros d.
    unfold set_Processes. cbn. by rewrite map_map.
Qed.

Lemma attachPmon_table devices samples :
  Forall sample_ok samples ->
  attachPmon devices (pmon.table samples) =
  map (fun d => set_Processes (map (fun p =>
    fold_left (apply_sample (Index d)) (pmon.sort_samples samples) p)) d) devices.
Proof.
  intros Hs. assert (Forall sample_ok (pmon.sort_samples samples)) as Hs'.
  { by rewrite (proj1 (pmon.sort_samples_spec samples)). }
  unfold attachPmon, pmon.table. rewrite nonEmptyLines_trimmed.
  - unfold pmon.table_lines. cbn [map fold_left].
    assert (forall ds, attachPmonLine ds (TrimSpace pmon.header1) = ds) as -> by done.
    assert (forall ds, attachPmonLine ds (TrimSpace pmon.header2) = ds) as -> by done.
    by apply attachPmon_rows.
  - unfold pmon.table_lines. constructor; [done |]. constructor; [done |]. apply Forall_map.
    eapply Forall_impl; [exact Hs' |]. intros s Hs1.
    destruct (render_row_trim s Hs1) as (n & row & -> & He & Hn & _).
    rewrite TrimSpace_spaces, edged_TrimSpace, free_of_append, Hn by done.
    split; [| done]. rewrite andb_true_r. by induction n.
Qed.

Lemma sample_of_ok d p : device_ok d -> process_ok p -> sample_ok (sample_of d p).
Proof.
  intros (Hi & _) ((Hp & _) & Ht & Hn & _ & H1 & H2 & H3 & H4). repeat split; cbn; try done; try apply Hi;
    try apply Hp; try apply H1; try apply H2; try apply H3; apply H4.
Qed.

Lemma samples_of_ok devices : Forall device_ok devices -> Forall sample_ok (samples_of devices).
Proof.
  intros Hd. apply Forall_flat_map. eapply Forall_impl; [exact Hd |]. intros d Hdok. apply Forall_map.
  pose proof Hdok as (_ & _ & _ & _ & _ & _ & _ & _ & Hps & _).
  eapply Forall_impl; [exact Hps |]. intros p. by apply sample_of_ok.
Qed.

Lemma elem_of_samples_of s devices :
  s ∈ samples_of devices <-> exists d p, d ∈ devices /\ p ∈ Processes d /\ s = sample_of d p.
Proof.
  unfold samples_of. rewrite list_elem_of_In, in_flat_map. split.
  - intros (d & Hd & Hs). apply in_map_iff in Hs as (p & <- & Hp). exists d, p.
    by rewrite !list_elem_of_In.
  - intros (d & p & Hd & Hp & ->). exists d. rewrite in_map_iff. rewrite !list_elem_of_In in *.
    split; [done |]. by exists p.
Qed.

(** The samples that match a process all come from it. *)
Lemma matching_sample devices d p s :
  node_ok devices -> d ∈ devices -> p ∈ Processes d -> s ∈ samples_of devices ->
  Index d = pmon.GPUIndex s -> PID p = pmon.s_PID s -> s = sample_of d p.
Proof.
  intros (Hok & Hidx & _) Hd Hp (d' & p' & Hd' & Hp' & ->)%elem_of_samples_of Ei Ep. cbn in Ei, Ep.
  assert (d = d') as <- by by apply (NoDup_map_inj Index devices).
  rewrite Forall_forall in Hok. destruct (Hok d Hd) as (_ & _ & _ & _ & _ & _ & _ & _ & _ & Hpids).
  by assert (p = p') as <- by by apply (NoDup_map_inj PID (Processes d)).
Qed.

Lemma apply_samples_exact d p samples q :
  (forall s, s ∈ samples -> Index d = pmon.GPUIndex s -> PID p = pmon.s_PID s -> s = sample_of d p) ->
  query_view q = query_view p -> q = p \/ sample_of d p ∈ samples ->
  fold_left (apply_sample (Index d)) samples q = p.
Proof.
  revert q. induction samples as [| s samples IH]; intros q Hall Hq Hor; cbn [fold_left].
  { destruct Hor as [| ?%elem_of_nil]; done. }
  assert (PID q = PID p) as Epid by (by injection Hq).
  destruct (decide (Index d = pmon.GPUIndex s /\ PID p = pmon.s_PID s)) as [[Ei Ep] | Hno].
  - assert (s = sample_of d p) as -> by (apply Hall; [left | done ..]).
    assert (apply_sample (Index d) q (sample_of d p) = p) as ->.
    { unfold apply_sample. rewrite Epid. cbn. rewrite !Z.eqb_refl. cbn. unfold set_utils.
      destruct p, q. injection Hq as ? ? ?. cbn in *. congruence. }
    apply IH; [| done | by left]. intros s' Hs'. apply Hall. by right.
  - assert (apply_sample (Index d) q s = q) as ->.
    { unfold apply_sample. rewrite Epid. destruct (_ && _) eqn:E; [| done]. to_prop. tauto. }
    apply IH; [intros s' Hs'; apply Hall; by right | done |].
    destruct Hor as [| [E |]%elem_of_cons]; [by left | | by right].
    subst s. exfalso. by apply Hno.
Qed.

Lemma attachPmon_print devices :
  node_ok devices ->
  attachPmon (map (set_Processes (map query_view)) devices) (pmon.table (samples_of devices)) = devices.
Proof.
  intros Hnode. pose proof Hnode as (Hd & _ & _).
  rewrite attachPmon_table by by apply samples_of_ok. rewrite map_map.
  destruct (pmon.sort_samples_spec (samples_of devices)) as [Hperm _].
  transitivity (map (fun d => d) devices); [| apply map_id]. apply map_ext_in. intros d Hin%list_elem_of_In.
  enough (map (fun p => fold_left (apply_sample (Index d)) (pmon.sort_samples (samples_of devices)) p)
              (map query_view (Processes d)) = Processes d) as E.
  { unfold set_Processes at 1. cbn. destruct d. cbn in *. by rewrite E. }
  rewrite map_map. transitivity (map (fun p => p) (Processes d)); [| apply map_id]. apply map_ext_in. intros p Hp%list_elem_of_In.
  apply apply_samples_exact.
  - intros s Hs. rewrite Hperm in Hs. by apply matching_sample with devices.
  - done.
  - right. rewrite Hperm. apply elem_of_samples_of. by exists d, p.
Qed.

(** ** The law of the queries

    [nvidia-smi] reports the state [gpus w] of the node in the formats above,
    each process with its type, and changes nothing.  With the [pmon] wrapper
    of this repository that is so while every process is a compute process;
    one of type G it reports as C (see [NvmlSpec.v]). *)
Class NvidiaSmi (W : Type) `{OS W} := {
  smi_binary : string;
  gpus : W -> list DeviceState;
  gpus_ok : forall w, node_ok (gpus w);
  smi_gpu_query : forall env w,
    os_exec env smi_binary gpu_query_args w = ((gpu_csv (gpus w), None), w);
  smi_apps_query : forall env w,
    os_exec env smi_binary apps_query_args w = ((apps_csv (gpus w), None), w);
  smi_pmon : forall env w,
    os_exec env smi_binary pmon_args w = ((pmon.table (samples_of (gpus w)), None), w)
}.

(** An observer that runs that binary. *)
Definition reads_node {W} `{NvidiaSmi W} (o : option (Observer W)) : Prop :=
  exists ob, o = Some ob /\ observer_binary ob = smi_binary /\
    (observer_runner ob = ExecRunner \/ exists values, observer_runner ob = EnvExecRunner values).

Section faithful.
Context {W : Type} `{NvidiaSmi W}.

Lemma Snapshot_gpus o w : reads_node o -> Snapshot o w = (Ok (gpus w), w).
Proof.
  intros (ob & -> & Hb & Hr). unfold Snapshot. rewrite Hb. cbv zeta.
  assert (exists env, forall args w, Run (observer_runner ob) smi_binary args w = os_exec env smi_binary args w)
    as (env & Hrun).
  { destruct Hr as [-> | [values ->]]; by eexists. }
  pose proof (gpus_ok w) as Hok. rewrite Hrun, smi_gpu_query.
  rewrite parseGPUQuery_print by apply Hok. rewrite Hrun, smi_apps_query.
  rewrite attachProcesses_print by done. rewrite Hrun, smi_pmon.
  by rewrite attachPmon_print.
Qed.

Lemma Device_gpus o target w : reads_node o ->
  Device o target w =
  (match find_first (selects target) (gpus w) with
   | Some d => Ok d
   | None => Err (Errorf "GPU %q not found" [AS target])
   end, w).
Proof.
  intros Ho. unfold Device. erewrite M_bind_ok by by apply Snapshot_gpus.
  by destruct (find_first _ _).
Qed.
End faithful.

(** What the observer guarantees of any device it reports. *)
Definition device_bounded (d : DeviceState) : Prop :=
  0 <= Index d < int64_cutoff /\ mib_aligned (TotalBytes d) /\ mib_aligned (UsedBytes d) /\
  mib_aligned (FreeBytes d) /\ percent (GPUUtilization d) /\ percent (MemoryUtilization d).

Lemma parseGPUQuery_bounded out devices :
  parseGPUQuery out = Ok devices -> Forall device_bounded devices.
Proof.
  assert (forall raw b, parseMiB raw = Ok b -> mib_aligned b) as Hmib.
  { intros raw b. unfold parseMiB. destruct (ParseUint _ _) as [v |] eqn:E; [| discriminate].
    apply ParseUint_range in E; [| word]. destruct (_ >? _) eqn:Ev; [discriminate |]. intros [= <-].
    to_prop. assert (v <= 17592186044415) by exact Ev. rewrite wrap64_small by word.
    split; [word |]. by apply Z_mod_mult. }
  assert (forall raw v, parsePercent raw = Ok v -> percent v) as Hpct.
  { intros raw v. unfold parsePercent. destruct (ParseUint _ _) as [n |] eqn:E; [| discriminate].
    apply ParseUint_range in E; [| word]. destruct (_ >? _) eqn:Ev; [discriminate |]. intros [= <-].
    to_prop. unfold percent. lia. }
  unfold parseGPUQuery. intros [Hlen Hall]%map_each_ok. apply Forall_lookup. intros i d Hd.
  destruct (lookup_lt_is_Some_2 (nonEmptyLines out) i) as [line Hl].
  { rewrite <- Hlen. by eapply lookup_lt_Some. }
  destruct (Hall i line Hl) as (d' & Hd' & Hp). assert (d' = d) as -> by congruence.
  unfold parseGPULine in Hp.
  destruct (splitCSV line) as [| f0 [| f1 [| f2 [| f3 [| f4 [| f5 [| f6 [| f7 [|]]]]]]]]]; try discriminate.
  cbv zeta in Hp. destruct (Atoi f0) as [index |] eqn:Ei; [| discriminate].
  apply ParseInt_range in Ei. unfold int64 in Ei. invert_ok Hp. to_prop. injection Hp as <-. unfold device_bounded. cbn.
  repeat match goal with H : wrap_err _ _ = Ok _ |- _ => apply wrap_err_ok in H end.
  split; [lia |]. do 4 (split; [by eauto |]). by eauto.
Qed.

Lemma set_Processes_bounded f d : device_bounded d -> device_bounded (set_Processes f d).
Proof. done. Qed.

Lemma attachProcesses_bounded devices out devices' :
  Forall device_bounded devices -> attachProcesses devices out = Ok devices' -> Forall device_bounded devices'.
Proof.
  unfold attachProcesses. generalize (index_by_uuid 0 devices ∅), 0. intros by_uuid k. revert k devices.
  induction (nonEmptyLines out) as [| line lines IH]; intros k devices Hd; cbn [attach_lines]; [by intros [= <-] |].
  intros (ds & Hline & Hrest)%result_bind_ok. apply IH in Hrest; [done |]. clear IH Hrest.
  unfold attachLine in Hline. destruct (splitCSV line) as [| f0 [| f1 [| f2 [| f3 [|]]]]]; try discriminate.
  cbv zeta in Hline. destruct (ParseUint f0 _) as [pid |]; [| discriminate].
  destruct (pid =? 0); [discriminate |]. destruct (ParseUint f2 _); [| discriminate].
  destruct (by_uuid !! f1) as [i |]; [| discriminate]. injection Hline as <-.
  rewrite Forall_lookup in *. intros j d Hj. destruct (decide (i = j)) as [<- | Hne].
  - rewrite list_lookup_alter_eq in Hj. apply fmap_Some in Hj as (d' & Hd' & ->).
    by apply set_Processes_bounded, (Hd i).
  - rewrite list_lookup_alter_ne in Hj by done. by apply (Hd j).
Qed.

Lemma attachPmon_bounded out devices : Forall device_bounded devices -> Forall device_bounded (attachPmon devices out).
Proof.
  unfold attachPmon. revert devices. induction (nonEmptyLines out) as [| line lines IH]; intros devices Hd; cbn; [done |].
  apply IH. clear IH. unfold attachPmonLine. destruct (HasPrefix _ _); [done |].
  destruct (Fields line) as [| f0 [| f1 [| f2 [| f3 [| f4 [| f5 [| f6 [| f7 fs]]]]]]]]; try done.
  destruct (Atoi f0), (ParseUint f1 u32_max); try done.
  destruct (pmon_util f3), (pmon_util f4), (pmon_util f5), (pmon_util f6); try done.
  apply Forall_map. eapply Forall_impl; [exact Hd |]. intros d Hb. cbn. by destruct (negb _).
Qed.

Lemma Snapshot_bounded {W} `{OS W} o w devices w' :
  Snapshot o w = (Ok devices, w') -> Forall device_bounded devices.
Proof.
  unfold Snapshot. destruct o as [o |]; [| discriminate]. cbv zeta.
  destruct (Run _ _ gpu_query_args w) as [[out [e |]] w1]; [discriminate |].
  destruct (parseGPUQuery out) as [ds |] eqn:E1; [| discriminate].
  destruct (Run _ _ apps_query_args w1) as [[out2 [e |]] w2]; [discriminate |].
  destruct (attachProcesses ds out2) as [ds2 |] eqn:E2; [| discriminate].
  destruct (Run _ _ pmon_args w2) as [[out3 err3] w3]. intros [= <- _].
  apply parseGPUQuery_bounded in E1. eapply attachProcesses_bounded in E2; [| done].
  destruct err3; [done | by apply attachPmon_bounded].
Qed.

Lemma Device_bounded {W} `{OS W} o target w d w' : Device o target w = (Ok d, w') -> device_bounded d.
Proof.
  unfold Device. intros (devices & w1 & Hs & Hd)%M_bind_inv. apply Snapshot_bounded in Hs.
  destruct (find_first (selects target) devices) as [d' |] eqn:E; [| discriminate].
  injection Hd as <- _. apply find_first_some in E as [Hin _]. rewrite Forall_forall in Hs. by apply Hs.
Qed.

(** ** Properties *)

(** C31. The observer inverts the output of [nvidia-smi]: for every
    well-formed node (distinct indices and UUIDs, MiB-granular memory,
    distinct pids per device), parsing the GPU query, attaching the process
    query and then the [pmon] table gives back exactly the devices that were
    printed, with every process's type and four utilisation values on the
    right device. *)
Theorem observe_roundtrip devices :
  node_ok devices ->
  exists bare, parseGPUQuery (gpu_csv devices) = Ok bare /\
    (attached ← attachProcesses bare (apps_csv devices);
     Ok (attachPmon attached (pmon.table (samples_of devices)))) = Ok devices.
Proof.
  intros Hok. eexists. split; [apply parseGPUQuery_print, Hok |].
  rewrite attachProcesses_print by done. unfold mbind, result_bind. by rewrite attachPmon_print.
Qed.

(** Whatever the three commands print, every device the observer reports
    has memory values that are whole MiB and fit uint64, a non-negative
    index and utilisations of at most 100. *)
Theorem Snapshot_bounds {W} `{OS W} (o : option (Observer W)) w devices w' :
  Snapshot o w = (Ok devices, w') ->
  Forall (fun d => 0 <= Index d < int64_cutoff /\ mib_aligned (TotalBytes d) /\ mib_aligned (UsedBytes d) /\
            mib_aligned (FreeBytes d) /\ percent (GPUUtilization d) /\ percent (MemoryUtilization d)) devices.
Proof. apply Snapshot_bounded. Qed.

(** Against a node that behaves as [nvidia-smi] documents, [Snapshot]
    returns the state of the node and changes nothing, and [Device] returns
    the first device whose decimal index or UUID is the target, or the
    not-found error. *)
Theorem observer_faithful {W} `{NvidiaSmi W} (o : option (Observer W)) target w :
  reads_node o ->
  Snapshot o w = (Ok (gpus w), w) /\
  Device o target w =
    (match find_first (selects target) (gpus w) with
     | Some d => Ok d
     | None => Err (Errorf "GPU %q not found" [AS target])
     end, w).
Proof. intros Ho. split; [by apply Snapshot_gpus | by apply Device_gpus]. Qed.

(** ** Witnesses: a node held in memory that answers the queries *)
Record Node := { node_gpus : list DeviceState; node_valid : bool_decide (node_ok node_gpus) = true }.

Definition args_eqb (a b : list string) : bool := bool_decide (a = b).

(** The text the simulated [nvidia-smi] prints for a device list. *)
Definition smi_output (args : list string) (devices : list DeviceState) : string * option error :=
  if args_eqb args gpu_query_args then (gpu_csv devices, None) else
  if args_eqb args apps_query_args then (apps_csv devices, None) else
  if args_eqb args pmon_args then (pmon.table (samples_of devices), None) else
  ("", Some (Errorf "unsupported query" [])).

#[local] Instance read_only_os : OS Node := {
  os_environ := [];
  os_read_file _ _ := Err (Errorf "not found" []);
  os_exec _ name args n := (smi_output args (node_gpus n), n);
  os_mkdir_all _ n := (None, n);
  os_open_lock _ n := (None, n);
  os_flock_ex _ n := (None, n);
  os_flock_un _ n := n;
  os_close_lock _ n := n
}.

#[local] Instance read_only_smi : NvidiaSmi Node.
Proof.
  refine {| smi_binary := "nvidia-smi"; gpus := node_gpus |}; try done.
  intros n. apply (bool_decide_eq_true (node_ok (node_gpus n))), node_valid.
Defined.

Definition demo_worker (pid used : Z) : Process :=
  {| PID := pid; Type_ := "C"; Name := "llama server"; UsedMemoryMiB := used;
     SMUtil := 40; MemoryUtil := 20; EncoderUtil := 0; DecoderUtil := 3 |}.
Definition demo_gpu (index : Z) (uuid : string) (used free : Z) (ps : list Process) : DeviceState :=
  {| Index := index; UUID := uuid; ds_Name := "NVIDIA Tesla T4"; TotalBytes := 16384 * mib;
     UsedBytes := used * mib; FreeBytes := free * mib; GPUUtilization := 50; MemoryUtilization := 25;
     Processes := ps |}.
Definition demo_gpus : list DeviceState :=
  [demo_gpu 0 "GPU-aa" 3072 13000 [demo_worker 7 2048; demo_worker 9 512];
   demo_gpu 1 "GPU-bb" 0 16000 []].
Definition demo_node : Node := {| node_gpus := demo_gpus; node_valid := eq_refl |}.
Definition demo_observer {W} : option (Observer W) := Some (NewObserver "").

Lemma observe_roundtrip_witness :
  exists bare, parseGPUQuery (gpu_csv demo_gpus) = Ok bare /\
    (attached ← attachProcesses bare (apps_csv demo_gpus);
     Ok (attachPmon attached (pmon.table (samples_of demo_gpus)))) = Ok demo_gpus.
Proof. apply (observe_roundtrip demo_gpus). apply (bool_decide_unpack _). by vm_compute. Defined.

Lemma Snapshot_bounds_witness :
  Forall (fun d => mib_aligned (UsedBytes d)) demo_gpus.
Proof.
  eapply Forall_impl.
  - refine (Snapshot_bounds (W := Node) demo_observer demo_node demo_gpus demo_node _). vm_compute. reflexivity.
  - cbn. tauto.
Defined.

Lemma observer_faithful_witness :
  Device (W := Node) demo_observer "GPU-bb" demo_node = (Ok (demo_gpu 1 "GPU-bb" 0 16000 []), demo_node).
Proof.
  refine (eq_trans (proj2 (observer_faithful (W := Node) demo_observer "GPU-bb" demo_node _)) _).
  - eexists. split; [reflexivity |]. split; [reflexivity |]. by left.
  - by vm_compute.
Defined.

End observe.
