(* ===== verification/Manager.v ===== *)
(** * Control manager: [internal/control/manager.go]

    Reads of the effective state composed with the mutations of the client,
    under the file lock that serialises separate control processes. *)
From S2P Require Import Prelude GoStrings GoStrconv GoPath Control Observe.
Import control observe.

Module manager.

Definition defaultOverrideFile : string := "/var/lib/nvml-mock/driver/config/overrides.yaml".
Definition ErrInsufficientMemory : string := "control.ErrInsufficientMemory".

Record Manager (W : Type) := {
  mg_Client : option (Client W);
  mg_Observer : option (Observer W);
  mg_MutationLockPath : string
}.
Arguments mg_Client {W}. Arguments mg_Observer {W}. Arguments mg_MutationLockPath {W}.

(** The lock is used when the client executes real commands. *)
Definition NewManager {W} (client : option (Client W)) (observer : option (Observer W)) : Manager W :=
  let unlocked := {| mg_Client := client; mg_Observer := observer; mg_MutationLockPath := "" |} in
  match client with
  | None => unlocked
  | Some c =>
      match cl_Runner c with
      | Some ExecRunner =>
          let path := if String.eqb (cl_OverrideFile c) "" then defaultOverrideFile else cl_OverrideFile c in
          {| mg_Client := client; mg_Observer := observer;
             mg_MutationLockPath := path +:+ ".fake-nvidia-memory.lock" |}
      | _ => unlocked
      end
  end.

(** ** Arithmetic on byte counts *)
Definition addBytes (a b : Z) : result Z :=
  if b >? u64_max ⊖ a then Err (Errorf "memory value overflows uint64" []) else Ok (a ⊕ b).

Fixpoint processBytes_from (total : Z) (processes : list Process) : result Z :=
  match processes with
  | [] => Ok total
  | p :: rest =>
      if UsedMemoryMiB p >? u64_max / mib then Err (Errorf "process memory overflows bytes" []) else
      total' ← addBytes total (UsedMemoryMiB p ⊗ mib);
      processBytes_from total' rest
  end.
Definition processBytes (processes : list Process) : result Z := processBytes_from 0 processes.

(** ** Process lists by pid *)
Definition add_by_pid (out : gmap Z Process) (p : Process) : result (gmap Z Process) :=
  match out !! PID p with
  | Some _ => Err (Errorf "duplicate process pid %d" [AZ (PID p)])
  | None => Ok (<[PID p := p]> out)
  end.
Definition processesByPID (processes : list Process) : result (gmap Z Process) :=
  foldM add_by_pid processes ∅.

(** The index of the first process with a pid; [None] is Go's -1. *)
Fixpoint processIndex (processes : list Process) (pid : Z) : option nat :=
  match processes with
  | [] => None
  | p :: rest => if PID p =? pid then Some 0%nat else S <$> processIndex rest pid
  end.

Definition err_gone (pid : Z) : error := Errorf "process %d changed concurrently: no longer exists" [AZ pid].
Definition err_changed (pid : Z) : error := Errorf "process %d changed concurrently" [AZ pid].
Definition err_exists (pid : Z) : error := Errorf "process %d changed concurrently: already exists" [AZ pid].

(** The entry at the index of [pid], provided it still is [previous]. *)
Definition unchanged_index (result_ : list Process) (previous : Process) (pid : Z) : result nat :=
  match processIndex result_ pid with
  | None => Err (err_gone pid)
  | Some index =>
      if bool_decide (result_ !! index = Some previous) then Ok index else Err (err_changed pid)
  end.

(** The body of the first loop: removals. *)
Definition rebase_remove (desiredByPID : gmap Z Process) (result_ : list Process) (previous : Process)
    : result (list Process) :=
  match desiredByPID !! PID previous with
  | Some _ => Ok result_
  | None =>
      index ← unchanged_index result_ previous (PID previous);
      Ok (delete index result_)
  end.

(** The body of the second loop: changes. *)
Definition rebase_change (beforeByPID : gmap Z Process) (result_ : list Process) (wanted : Process)
    : result (list Process) :=
  match beforeByPID !! PID wanted with
  | None => Ok result_
  | Some previous =>
      if bool_decide (wanted = previous) then Ok result_ else
      index ← unchanged_index result_ previous (PID wanted);
      Ok (<[index := wanted]> result_)
  end.

(** The body of the third loop: additions. *)
Definition rebase_add (beforeByPID : gmap Z Process) (result_ : list Process) (wanted : Process)
    : result (list Process) :=
  match beforeByPID !! PID wanted with
  | Some _ => Ok result_
  | None =>
      match processIndex result_ (PID wanted) with
      | Some _ => Err (err_exists (PID wanted))
      | None => Ok (result_ ++ [wanted])
      end
  end.

Definition rebaseProcesses (before desired current : list Process) : result (list Process) :=
  beforeByPID ← wrap_err (Wrapf "previous process list: %w" []) (processesByPID before);
  desiredByPID ← wrap_err (Wrapf "desired process list: %w" []) (processesByPID desired);
  _ ← wrap_err (Wrapf "current process list: %w" []) (processesByPID current);
  r1 ← foldM (rebase_remove desiredByPID) before current;
  r2 ← foldM (rebase_change beforeByPID) desired r1;
  foldM (rebase_add beforeByPID) desired r2.

(** ** What each memory operation writes, from the state it read

    The used and free bytes handed to [SetMemory]. *)
Definition set_used_plan (usedBytes : Z) (device : DeviceState) : result (Z * Z) :=
  pool ← addBytes (UsedBytes device) (FreeBytes device);
  if usedBytes >? pool
  then Err (Errorf "requested used memory %d exceeds allocatable pool %d" [AZ usedBytes; AZ pool]) else
  owned ← processBytes (Processes device);
  if usedBytes <? owned
  then Err (Errorf "requested used memory %d is below process-owned memory %d" [AZ usedBytes; AZ owned]) else
  Ok (usedBytes, pool ⊖ usedBytes).

Definition reserve_plan (delta : Z) (device : DeviceState) : result (Z * Z) :=
  if delta >? FreeBytes device
  then Err (Wrapf "%w: cannot reserve %d bytes: only %d bytes free" [AZ delta; AZ (FreeBytes device)]
              (Sentinel ErrInsufficientMemory)) else
  used ← addBytes (UsedBytes device) delta;
  Ok (used, FreeBytes device ⊖ delta).

Definition release_plan (delta : Z) (device : DeviceState) : result (Z * Z) :=
  owned ← processBytes (Processes device);
  if owned >? UsedBytes device
  then Err (Errorf "process-owned memory exceeds effective used memory" []) else
  let releasable := UsedBytes device ⊖ owned in
  if delta >? releasable
  then Err (Errorf "cannot release %d bytes: only %d non-process bytes are releasable" [AZ delta; AZ releasable]) else
  free ← addBytes (FreeBytes device) delta;
  Ok (UsedBytes device ⊖ delta, free).

(** The reserved and non-process bytes of [reconcileProcessesFromState]. *)
Definition reconcile_plan (device : DeviceState) : result (Z * Z) :=
  currentProcessBytes ← processBytes (Processes device);
  if currentProcessBytes >? UsedBytes device
  then Err (Errorf "process-owned memory exceeds effective used memory" []) else
  let nonProcessUsed := UsedBytes device ⊖ currentProcessBytes in
  visible ← addBytes (UsedBytes device) (FreeBytes device);
  Ok (if visible <=? TotalBytes device then TotalBytes device ⊖ visible else 0, nonProcessUsed).

(** ** Operations *)
Section ops.
Context {W : Type} `{OS W}.
Implicit Type m : option (Manager W).   (* a Go pointer: None is nil *)

Definition manager_client m : option (Client W) := m ≫= mg_Client.
Definition manager_observer m : option (Observer W) := m ≫= mg_Observer.

(** The deferred unlock and close run after [fn], in that order. *)
Definition withMutationLock m (fn : M W unit) : M W unit := fun w =>
  match m with
  | None => (Err (Errorf "control manager is required" []), w)
  | Some mg =>
      let path := mg_MutationLockPath mg in
      if String.eqb path "" then fn w else
      let '(err, w1) := os_mkdir_all (filepath.Dir path) w in
      match err with
      | Some e => (Err (Wrapf "create mutation lock directory: %w" [] e), w1)
      | None =>
          let '(err, w2) := os_open_lock path w1 in
          match err with
          | Some e => (Err (Wrapf "open mutation lock: %w" [] e), w2)
          | None =>
              let '(err, w3) := os_flock_ex path w2 in
              match err with
              | Some e => (Err (Wrapf "lock mutation state: %w" [] e), os_close_lock path w3)
              | None =>
                  let '(r, w4) := fn w3 in
                  (r, os_close_lock path (os_flock_un path w4))
              end
          end
      end
  end.

Definition device m (target : string) : M W DeviceState :=
  match manager_client m, manager_observer m with
  | Some _, Some _ => Device (manager_observer m) target
  | _, _ => throw (Errorf "control client and observer are required" [])
  end.

(** Read the device, compute, write the two counters. *)
Definition update_memory m (target : string) (plan : DeviceState -> result (Z * Z)) : M W unit :=
  d ← device m target;
  '(used, free) ← lift (plan d);
  SetMemory (manager_client m) target used free.

Definition SetUsedMemory m (target : string) (usedBytes : Z) : M W unit :=
  withMutationLock m (update_memory m target (set_used_plan usedBytes)).
Definition ReserveMemory m (target : string) (delta : Z) : M W unit :=
  withMutationLock m (update_memory m target (reserve_plan delta)).
Definition ReleaseMemory m (target : string) (delta : Z) : M W unit :=
  withMutationLock m (update_memory m target (release_plan delta)).

Definition reconcileProcessesFromState m (target : string) (d : DeviceState) (processes : list Process)
    : M W unit :=
  '(reservedBytes, nonProcessUsed) ← lift (reconcile_plan d);
  SetProcessesReconciled (manager_client m) target processes (TotalBytes d) reservedBytes nonProcessUsed.

Definition ReplaceProcesses m (target : string) (processes : list Process) : M W unit :=
  withMutationLock m (
    d ← device m target;
    reconcileProcessesFromState m target d processes).

Definition ReplaceProcessesFromState m (target : string) (before : DeviceState) (desired : list Process)
    : M W unit :=
  match manager_client m, m with
  | Some _, Some mg =>
      if String.eqb (mg_MutationLockPath mg) ""
      then reconcileProcessesFromState m target before desired
      else withMutationLock m (
        current ← device m target;
        rebased ← lift (rebaseProcesses (Processes before) desired (Processes current));
        reconcileProcessesFromState m target current rebased)
  | _, _ => throw (Errorf "control client is required" [])
  end.

Definition manager_Snapshot m : M W (list DeviceState) :=
  match manager_observer m with
  | Some _ => Snapshot (manager_observer m)
  | None => throw (Errorf "observer is required" [])
  end.
End ops.

(** ** Lemmas: process lists as maps from pid *)
Definition look (l : list Process) (pid : Z) : option Process :=
  find_first (fun p => PID p =? pid) l.
Definition distinct (l : list Process) : Prop := NoDup (map PID l).
#[export] Instance distinct_dec l : Decision (distinct l).
Proof. unfold distinct. apply _. Defined.

Lemma look_PID l pid p : look l pid = Some p -> PID p = pid.
Proof. intros [_ Hp]%find_first_some. by to_prop. Qed.

Lemma look_elem l pid p : look l pid = Some p -> p ∈ l.
Proof. by intros [? _]%find_first_some. Qed.

Lemma look_none l pid : look l pid = None <-> pid ∉ map PID l.
Proof.
  unfold look. rewrite find_first_none. split.
  - intros H Hin. apply list_elem_of_fmap in Hin as (p & -> & Hp). specialize (H p Hp). by to_prop.
  - intros H p Hp. apply Z.eqb_neq. intros <-. apply H. apply list_elem_of_fmap. by exists p.
Qed.

Lemma elem_look l p : distinct l -> p ∈ l -> look l (PID p) = Some p.
Proof.
  intros Hd Hp. destruct (look l (PID p)) as [q |] eqn:E.
  - f_equal. apply (NoDup_map_inj PID l); [done | by eapply look_elem | done | by eapply look_PID].
  - exfalso. apply look_none in E. apply E. apply list_elem_of_fmap. by exists p.
Qed.

Lemma look_app l k pid : look (l ++ k) pid = match look l pid with Some p => Some p | None => look k pid end.
Proof.
  unfold look. induction l as [| p l IH]; cbn; [done |]. by destruct (PID p =? pid).
Qed.

Lemma processIndex_look l pid :
  match processIndex l pid with
  | Some i => exists p, l !! i = Some p /\ look l pid = Some p /\ PID p = pid
  | None => look l pid = None
  end.
Proof.
  unfold look. induction l as [| p l IH]; cbn; [done |].
  destruct (Z.eqb_spec (PID p) pid) as [E | _]; [by exists p |].
  by destruct (processIndex l pid).
Qed.

(** Removing and replacing the entry of a pid. *)
Lemma distinct_delete l i : distinct l -> distinct (delete i l).
Proof.
  unfold distinct. change (map PID) with (fmap (M := list) PID). rewrite list_fmap_delete.
  intros Hd. eapply sublist_NoDup; [exact Hd |]. apply sublist_delete.
Qed.

Lemma look_delete l i p k :
  distinct l -> l !! i = Some p -> look (delete i l) k = if k =? PID p then None else look l k.
Proof.
  intros Hd Hi. pose proof (take_drop_middle l i p Hi) as Hl. rewrite delete_take_drop.
  rewrite <- Hl in Hd |- * at 3. unfold distinct in Hd. rewrite map_app in Hd. cbn in Hd.
  apply NoDup_app in Hd as (_ & Hx & [Hy _]%NoDup_cons).
  rewrite !look_app. destruct (Z.eqb_spec k (PID p)) as [-> | Hne].
  - assert (look (take i l) (PID p) = None) as ->.
    { apply look_none. intros Hin. apply (Hx _ Hin). left. }
    by apply look_none.
  - unfold look at 4. cbn. rewrite (proj2 (Z.eqb_neq (PID p) k)) by congruence. done.
Qed.

Lemma distinct_insert l i p q : distinct l -> l !! i = Some p -> PID q = PID p -> distinct (<[i := q]> l).
Proof.
  unfold distinct. intros Hd Hi E. change (map PID) with (fmap (M := list) PID) in *.
  rewrite list_fmap_insert, list_insert_id; [done |]. by rewrite list_lookup_fmap, Hi, E.
Qed.

Lemma look_insert l i p q k :
  distinct l -> l !! i = Some p -> PID q = PID p ->
  look (<[i := q]> l) k = if k =? PID p then Some q else look l k.
Proof.
  intros Hd Hi E. pose proof (lookup_lt_Some _ _ _ Hi) as Hlt.
  destruct (Z.eqb_spec k (PID p)) as [-> | Hne].
  - rewrite <- E. apply elem_look; [by eapply distinct_insert |].
    apply list_elem_of_lookup. exists i. by apply list_lookup_insert_eq.
  - pose proof (take_drop_middle l i p Hi) as Hl. rewrite insert_take_drop by done.
    rewrite <- Hl at 3. rewrite !look_app. destruct (look (take i l) k); [done |].
    unfold look. cbn. rewrite E. by rewrite (proj2 (Z.eqb_neq (PID p) k)) by congruence.
Qed.

Lemma distinct_snoc l q : distinct l -> look l (PID q) = None -> distinct (l ++ [q]).
Proof.
  unfold distinct. intros Hd Hn%look_none. rewrite map_app. apply NoDup_app. split; [done |].
  split; [| apply NoDup_singleton]. cbn. set_solver.
Qed.

Lemma look_snoc l q k :
  look l (PID q) = None -> look (l ++ [q]) k = if k =? PID q then Some q else look l k.
Proof.
  intros Hn. rewrite look_app. destruct (Z.eqb_spec k (PID q)) as [-> | Hne].
  - rewrite Hn. unfold look. cbn. by rewrite Z.eqb_refl.
  - unfold look at 2. cbn. rewrite (proj2 (Z.eqb_neq (PID q) k)) by congruence. by destruct (look l k).
Qed.

(** [processesByPID] is the map of a list without duplicates. *)
Lemma processesByPID_from l (m : gmap Z Process) :
  (forall pid, is_Some (m !! pid) -> pid ∉ map PID l) -> distinct l ->
  exists m', foldM add_by_pid l m = Ok m' /\
    forall pid, m' !! pid = match look l pid with Some p => Some p | None => m !! pid end.
Proof.
  revert m. induction l as [| p l IH]; intros m Hm; [by eexists |].
  intros [Hnin Hd]%NoDup_cons. destruct (m !! PID p) as [q |] eqn:E.
  { exfalso. apply (Hm (PID p)); [by eexists | left]. }
  destruct (IH (<[PID p := p]> m)) as (m' & Hf & Hl).
  - intros pid [q [[<- <-] | [Hne Hq]]%lookup_insert_Some]; [done |]. intros Hin.
    apply (Hm pid); [by eexists | by right].
  - done.
  - exists m'. split.
    { cbn [foldM]. assert (add_by_pid m p = Ok (<[PID p := p]> m)) as -> by (unfold add_by_pid; by rewrite E).
      exact Hf. }
    intros pid. rewrite Hl. unfold look. cbn.
    destruct (Z.eqb_spec (PID p) pid) as [<- | Hne].
    + fold (look l (PID p)). by rewrite (proj2 (look_none _ _) Hnin), lookup_insert_eq.
    + by rewrite lookup_insert_ne.
Qed.

Lemma processesByPID_ok l : distinct l ->
  exists m, processesByPID l = Ok m /\ forall pid, m !! pid = look l pid.
Proof.
  intros Hd. destruct (processesByPID_from l ∅) as (m & Hm & Hl); [| done |].
  { intros pid [? ?]. done. }
  exists m. split; [done |]. intros pid. rewrite Hl, lookup_empty. by destruct (look l pid).
Qed.

Lemma processesByPID_dup l : ~ distinct l -> exists e, processesByPID l = Err e.
Proof.
  intros Hnd. unfold processesByPID. destruct (foldM _ l ∅) as [m |] eqn:E; [| by eexists].
  exfalso. apply Hnd.
  apply (foldM_inv _ (fun l (m : gmap Z Process) => distinct l /\ forall pid, is_Some (m !! pid) <-> pid ∈ map PID l)) in E.
  - by destruct E.
  - split; [constructor |]. intros pid. split; [by intros [? ?] | by intros ?%elem_of_nil].
  - intros dn p m1 m2 [Hd Hm]. unfold add_by_pid. destruct (m1 !! PID p) as [q |] eqn:Ep; [discriminate |].
    intros [= <-]. split.
    + apply distinct_snoc; [done |]. apply look_none. intros Hin. apply Hm in Hin as [? ?]. congruence.
    + intros pid. rewrite map_app, elem_of_app. cbn. rewrite list_elem_of_singleton.
      destruct (decide (pid = PID p)) as [-> | Hne].
      * rewrite lookup_insert_eq. split; [by right | by eexists].
      * rewrite lookup_insert_ne by done. rewrite Hm. naive_solver.
Qed.

(** ** Lemmas: loops that edit one pid at a time *)
Record edit_loop (f : list Process -> Process -> result (list Process))
    (allowed : Process -> option Process -> Prop)
    (effect : Process -> option Process -> option Process) : Prop := {
  edit_ok : forall s a, distinct s -> allowed a (look s (PID a)) ->
    exists s', f s a = Ok s' /\ distinct s' /\
      forall k, look s' k = if k =? PID a then effect a (look s k) else look s k;
  edit_err : forall s a, distinct s -> ~ allowed a (look s (PID a)) -> exists e, f s a = Err e
}.

Section edit_loop.
Context {f allowed effect} (Hf : edit_loop f allowed effect).
Context (allowed_dec : forall a x, Decision (allowed a x)).

Lemma edit_loop_run l s : distinct l -> distinct s ->
  (forall a, a ∈ l -> allowed a (look s (PID a))) ->
  exists s', foldM f l s = Ok s' /\ distinct s' /\
    forall k, look s' k = match look l k with Some a => effect a (look s k) | None => look s k end.
Proof.
  revert s. induction l as [| a l IH]; intros s; [by eexists |].
  intros [Hnin Hl]%NoDup_cons Hs Hall.
  destruct (edit_ok _ _ _ Hf s a Hs) as (s1 & Hf1 & Hs1 & Hl1); [apply Hall; left |].
  assert (forall b, b ∈ l -> PID b <> PID a) as Hne.
  { intros b Hb E. apply Hnin. rewrite <- E. apply list_elem_of_fmap. by exists b. }
  destruct (IH s1 Hl Hs1) as (s2 & Hf2 & Hs2 & Hl2).
  { intros b Hb. rewrite Hl1, (proj2 (Z.eqb_neq _ _)) by by apply Hne. apply Hall. by right. }
  exists s2. split; [cbn [foldM]; by rewrite Hf1 |]. split; [done |]. intros k.
  rewrite Hl2, Hl1. unfold look at 3. cbn. rewrite (Z.eqb_sym (PID a)).
  destruct (Z.eqb_spec k (PID a)) as [-> | Hk]; [| done].
  by rewrite (proj2 (look_none l (PID a)) Hnin).
Qed.

Lemma edit_loop_allowed l s s' : distinct l -> distinct s -> foldM f l s = Ok s' ->
  forall a, a ∈ l -> allowed a (look s (PID a)).
Proof.
  revert s. induction l as [| a l IH]; intros s; [by intros _ _ _ a ?%elem_of_nil |].
  intros [Hnin Hl]%NoDup_cons Hs (s1 & Hf1 & Hf2)%result_bind_ok.
  destruct (allowed_dec a (look s (PID a))) as [Ha | Hno].
  2: { destruct (edit_err _ _ _ Hf s a Hs Hno) as [e He]. congruence. }
  destruct (edit_ok _ _ _ Hf s a Hs Ha) as (s1' & Hf1' & Hs1 & Hl1).
  assert (s1' = s1) as -> by congruence.
  intros b [-> | Hb]%elem_of_cons; [done |].
  pose proof (IH s1 Hl Hs1 Hf2 b Hb) as Hal. rewrite Hl1 in Hal.
  rewrite (proj2 (Z.eqb_neq _ _)) in Hal; [done |]. intros E. apply Hnin. rewrite <- E.
  apply list_elem_of_fmap. by exists b.
Qed.
End edit_loop.

Lemma unchanged_index_spec s previous pid :
  match unchanged_index s previous pid with
  | Ok i => s !! i = Some previous /\ look s pid = Some previous /\ PID previous = pid
  | Err _ => look s pid <> Some previous
  end.
Proof.
  unfold unchanged_index. pose proof (processIndex_look s pid) as H.
  destruct (processIndex s pid) as [i |]; [| congruence].
  destruct H as (p & Hi & Hl & Hp). case_bool_decide as E; [| congruence].
  assert (p = previous) by congruence. by subst.
Qed.

(** The three loops: what each of them requires and does, with [desired] and
    [before] given by their maps. *)
Definition remove_allowed (desired : gmap Z Process) (a : Process) (x : option Process) : Prop :=
  is_Some (desired !! PID a) \/ x = Some a.
Definition remove_effect (desired : gmap Z Process) (a : Process) (x : option Process) : option Process :=
  match desired !! PID a with Some _ => x | None => None end.

Lemma remove_loop desired :
  edit_loop (rebase_remove desired) (remove_allowed desired) (remove_effect desired).
Proof.
  split; intros s a Hs; unfold rebase_remove, remove_allowed, remove_effect;
    pose proof (unchanged_index_spec s a (PID a)) as Hi; destruct (desired !! PID a) as [d |].
  - intros _. exists s. split; [done |]. split; [done |]. intros k. by destruct (k =? PID a).
  - intros [[? [=]] | Ha]. destruct (unchanged_index s a (PID a)) as [i |]; [| done].
    destruct Hi as (Hi & _ & _). eexists. split; [done |]. split; [by apply distinct_delete |].
    intros k. by apply look_delete.
  - intros H. exfalso. apply H. left. by eexists.
  - intros H. destruct (unchanged_index s a (PID a)) as [i | e]; [| by exists e].
    exfalso. apply H. right. by destruct Hi as (_ & ? & _).
Qed.

Definition change_allowed (before : gmap Z Process) (a : Process) (x : option Process) : Prop :=
  before !! PID a = None \/ before !! PID a = Some a \/ (is_Some x /\ x = before !! PID a).
Definition change_effect (before : gmap Z Process) (a : Process) (x : option Process) : option Process :=
  match before !! PID a with
  | Some p => if decide (a = p) then x else Some a
  | None => x
  end.

Lemma change_loop before :
  edit_loop (rebase_change before) (change_allowed before) (change_effect before).
Proof.
  split; intros s a Hs; unfold rebase_change, change_allowed, change_effect;
    destruct (before !! PID a) as [p |] eqn:Eb.
  - case_bool_decide as E.
    { intros _. exists s. split; [done |]. split; [done |]. intros k.
      rewrite decide_True by done. by destruct (k =? PID a). }
    intros Ha. assert (look s (PID a) = Some p) as Hp by naive_solver.
    pose proof (unchanged_index_spec s p (PID a)) as Hi.
    destruct (unchanged_index s p (PID a)) as [i |]; [| done]. destruct Hi as (Hi & _ & Hpid).
    eexists. split; [done |]. split; [by eapply distinct_insert |].
    intros k. rewrite (look_insert s i p) by done. rewrite Hpid. by rewrite decide_False.
  - intros _. exists s. split; [done |]. split; [done |]. intros k. by destruct (k =? PID a).
  - intros H. case_bool_decide as E; [exfalso; apply H; right; left; congruence |].
    pose proof (unchanged_index_spec s p (PID a)) as Hi.
    destruct (unchanged_index s p (PID a)) as [i | e]; [| by exists e].
    destruct Hi as (_ & Hl & _). exfalso. apply H. right. right. split; [by eexists | done].
  - intros H. exfalso. apply H. by left.
Qed.

Definition add_allowed (before : gmap Z Process) (a : Process) (x : option Process) : Prop :=
  is_Some (before !! PID a) \/ x = None.
Definition add_effect (before : gmap Z Process) (a : Process) (x : option Process) : option Process :=
  match before !! PID a with Some _ => x | None => Some a end.

Lemma add_loop before : edit_loop (rebase_add before) (add_allowed before) (add_effect before).
Proof.
  split; intros s a Hs; unfold rebase_add, add_allowed, add_effect;
    pose proof (processIndex_look s (PID a)) as Hi; destruct (before !! PID a) as [p |].
  - intros _. exists s. split; [done |]. split; [done |]. intros k. by destruct (k =? PID a).
  - intros [[? [=]] | Ha]. destruct (processIndex s (PID a)) as [i |]; [naive_solver |].
    eexists. split; [done |]. split; [by apply distinct_snoc |]. intros k. by apply look_snoc.
  - intros H. exfalso. apply H. left. by eexists.
  - intros H. destruct (processIndex s (PID a)) as [i |]; [by eexists |].
    exfalso. apply H. by right.
Qed.

#[local] Instance remove_allowed_dec m a x : Decision (remove_allowed m a x).
Proof. unfold remove_allowed. apply _. Defined.
#[local] Instance change_allowed_dec m a x : Decision (change_allowed m a x).
Proof. unfold change_allowed. apply _. Defined.
#[local] Instance add_allowed_dec m a x : Decision (add_allowed m a x).
Proof. unfold add_allowed. apply _. Defined.

(** ** The specification: a three-way merge, pid by pid *)
Definition merge3 (before desired current : option Process) : option Process :=
  match before, desired with
  | Some _, None => None
  | Some p, Some q => if decide (q = p) then current else Some q
  | None, Some q => Some q
  | None, None => current
  end.

(** The caller's change to a pid applies only to the entry it has seen. *)
Definition mergeable (before desired current : option Process) : Prop :=
  match before, desired with
  | Some p, None => current = Some p
  | Some p, Some q => q = p \/ current = Some p
  | None, Some _ => current = None
  | None, None => True
  end.

Lemma rebase_merge_run before desired current :
  distinct before -> distinct desired -> distinct current ->
  (forall pid, mergeable (look before pid) (look desired pid) (look current pid)) ->
  exists result_, rebaseProcesses before desired current = Ok result_ /\ distinct result_ /\
    forall pid, look result_ pid = merge3 (look before pid) (look desired pid) (look current pid).
Proof.
  intros Hb Hd Hc Hm. unfold rebaseProcesses.
  destruct (processesByPID_ok before Hb) as (mb & -> & Lb).
  destruct (processesByPID_ok desired Hd) as (md & -> & Ld).
  destruct (processesByPID_ok current Hc) as (mc & -> & _). cbn [wrap_err mbind result_bind].
  destruct (edit_loop_run (remove_loop md) before current) as (r1 & -> & Hr1 & L1); [done | done | |].
  { intros a Ha. specialize (Hm (PID a)). unfold remove_allowed. rewrite Ld.
    rewrite (elem_look before a) in Hm by done. destruct (look desired (PID a)); [left; by eexists | by right]. }
  cbn [mbind result_bind].
  destruct (edit_loop_run (change_loop mb) desired r1) as (r2 & -> & Hr2 & L2); [done | done | |].
  { intros a Ha. specialize (Hm (PID a)). unfold change_allowed. rewrite Lb, L1.
    rewrite (elem_look desired a) in Hm by done. unfold remove_effect.
    destruct (look before (PID a)) as [p |] eqn:Ep; [| by left]. right.
    rewrite (look_PID _ _ _ Ep), Ld, (elem_look desired a) by done. cbn in Hm.
    destruct Hm as [-> | ->]; [by left | right]. by split; [eexists |]. }
  cbn [mbind result_bind].
  destruct (edit_loop_run (add_loop mb) desired r2) as (r3 & -> & Hr3 & L3); [done | done | |].
  { intros a Ha. specialize (Hm (PID a)). unfold add_allowed. rewrite Lb, L2, L1.
    rewrite (elem_look desired a) in * by done. unfold change_effect. rewrite Lb.
    destruct (look before (PID a)); [left; by eexists | by right]. }
  exists r3. split; [done |]. split; [done |]. intros pid. rewrite L3, L2, L1.
  unfold merge3, add_effect, change_effect, remove_effect.
  destruct (look before pid) as [p |] eqn:Ep, (look desired pid) as [q |] eqn:Eq; try done;
    repeat match goal with H : look _ _ = Some _ |- _ => pose proof (look_PID _ _ _ H); revert H end; intros;
    rewrite ?Lb, ?Ld; repeat match goal with H : PID _ = _ |- _ => rewrite H end;
    rewrite ?Ep, ?Eq; done.
Qed.

Lemma rebase_merge_inv before desired current result_ :
  rebaseProcesses before desired current = Ok result_ ->
  (distinct before /\ distinct desired /\ distinct current) /\
  forall pid, mergeable (look before pid) (look desired pid) (look current pid).
Proof.
  unfold rebaseProcesses. intros Hr.
  apply result_bind_ok in Hr as (mb & Hb%wrap_err_ok & Hr).
  apply result_bind_ok in Hr as (md & Hd%wrap_err_ok & Hr).
  apply result_bind_ok in Hr as (mc & Hc%wrap_err_ok & Hr).
  assert (forall l m, processesByPID l = Ok m -> distinct l /\ forall pid, m !! pid = look l pid) as Hby.
  { intros l m Hm. destruct (decide (distinct l)) as [Hl | Hl].
    - destruct (processesByPID_ok l Hl) as (m' & Hm' & ?). assert (m' = m) as -> by congruence. done.
    - destruct (processesByPID_dup l Hl) as [e ?]. congruence. }
  apply Hby in Hb as [Db Lb]. apply Hby in Hd as [Dd Ld]. apply Hby in Hc as [Dc _].
  apply result_bind_ok in Hr as (r1 & H1 & Hr). apply result_bind_ok in Hr as (r2 & H2 & H3).
  pose proof (edit_loop_allowed (remove_loop md) _ _ _ _ Db Dc H1) as A1.
  destruct (edit_loop_run (remove_loop md) before current Db Dc A1) as (r1' & E1 & Dr1 & L1).
  assert (r1' = r1) as -> by congruence.
  pose proof (edit_loop_allowed (change_loop mb) _ _ _ _ Dd Dr1 H2) as A2.
  destruct (edit_loop_run (change_loop mb) desired r1 Dd Dr1 A2) as (r2' & E2 & Dr2 & L2).
  assert (r2' = r2) as -> by congruence.
  pose proof (edit_loop_allowed (add_loop mb) _ _ _ _ Dd Dr2 H3) as A3.
  split; [done |]. intros pid. unfold mergeable.
  destruct (look before pid) as [p |] eqn:Ep, (look desired pid) as [q |] eqn:Eq; [| | | done].
  - pose proof (look_PID _ _ _ Ep) as Pp. pose proof (look_PID _ _ _ Eq) as Pq.
    specialize (A2 q (look_elem _ _ _ Eq)). rewrite Pq, L1, Ep in A2. unfold change_allowed, remove_effect in A2.
    rewrite Pp, Pq, Lb, Ld, Ep, Eq in A2. destruct A2 as [? | [? | [_ ?]]]; [done | left; congruence | by right].
  - specialize (A1 p (look_elem _ _ _ Ep)). rewrite (look_PID _ _ _ Ep) in A1. unfold remove_allowed in A1.
    rewrite (look_PID _ _ _ Ep), Ld, Eq in A1. destruct A1 as [[? ?] | ?]; done.
  - pose proof (look_PID _ _ _ Eq) as Pq.
    specialize (A3 q (look_elem _ _ _ Eq)). rewrite Pq, L2, L1, Ep, Eq in A3.
    unfold add_allowed, change_effect in A3. rewrite Pq, Lb, Ep in A3. destruct A3 as [[? ?] | ?]; done.
Qed.

(** ** Properties: rebasing *)

(** C15. Rebasing a process list is a three-way merge.  It succeeds exactly
    when the three lists have distinct pids and every pid the caller removed
    or changed is still the entry the caller saw, and every pid the caller
    added is absent; the result then has distinct pids, holds the caller's
    change for the pids it changed and the concurrent state for every other
    pid. *)
Theorem rebaseProcesses_merge before desired current :
  ((exists result_, rebaseProcesses before desired current = Ok result_) <->
   distinct before /\ distinct desired /\ distinct current /\
   forall pid, mergeable (look before pid) (look desired pid) (look current pid)) /\
  (forall result_, rebaseProcesses before desired current = Ok result_ ->
     distinct result_ /\
     forall pid, look result_ pid = merge3 (look before pid) (look desired pid) (look current pid)).
Proof.
  split; [split |].
  - intros [r Hr]. apply rebase_merge_inv in Hr. tauto.
  - intros (? & ? & ? & ?). destruct (rebase_merge_run before desired current) as (r & ? & _); [done .. |].
    by exists r.
  - intros r Hr. destruct (rebase_merge_inv _ _ _ _ Hr) as ((? & ? & ?) & ?).
    destruct (rebase_merge_run before desired current) as (r' & ? & ? & ?); [done .. |].
    by assert (r' = r) as <- by congruence.
Qed.

Lemma rebaseProcesses_merge_witness :
  exists result_, rebaseProcesses [demo_process 7 10; demo_process 9 1] [demo_process 7 20; demo_process 5 3]
      [demo_process 7 10; demo_process 8 30; demo_process 9 1] = Ok result_ /\
    look result_ 7 = Some (demo_process 7 20) /\ look result_ 8 = Some (demo_process 8 30) /\
    look result_ 9 = None /\ look result_ 5 = Some (demo_process 5 3).
Proof.
  eexists. split; [vm_compute; reflexivity |].
  destruct (proj2 (rebaseProcesses_merge [demo_process 7 10; demo_process 9 1]
    [demo_process 7 20; demo_process 5 3] [demo_process 7 10; demo_process 8 30; demo_process 9 1]) _ eq_refl)
    as [_ Hl].
  rewrite !Hl. by vm_compute.
Defined.

(** ** Lemmas: the byte arithmetic and the plans *)
Lemma addBytes_ok a b r : u64 a -> u64 b -> addBytes a b = Ok r <-> a + b <= u64_max /\ r = a + b.
Proof.
  intros Ha Hb. unfold addBytes. rewrite wrap64_small by word. destruct (_ >? _) eqn:E; to_prop.
  - split; [done | word].
  - rewrite wrap64_small by word. split; [intros [= <-]; split; [word | done] | by intros [_ ->]].
Qed.

Lemma processBytes_from_ok acc l b :
  Forall (fun p => u64 (UsedMemoryMiB p)) l -> u64 acc ->
  processBytes_from acc l = Ok b <-> acc + owned_bytes l <= u64_max /\ b = acc + owned_bytes l.
Proof.
  intros Ht. revert acc. unfold owned_bytes.
  induction Ht as [| p l Hu Ht IH]; intros acc Hacc; cbn [processBytes_from sumZ].
  { split; [intros [= <-]; split; [word | lia] | intros [_ ->]; f_equal; lia]. }
  assert (0 <= sumZ (fun p => UsedMemoryMiB p * mib) l) as Hnn.
  { apply sumZ_nonneg. eapply Forall_impl; [exact Ht |]. cbn. intros. word. }
  assert (u64_max / mib = 17592186044415) as -> by reflexivity.
  destruct (_ >? _) eqn:E; to_prop.
  { split; [done |]. intros [? _]. word. }
  rewrite wrap64_small by word. rewrite result_bind_ok. split.
  - intros (t & Ht1 & H). apply addBytes_ok in Ht1 as [Hle ->]; [| word ..].
    apply IH in H as [? ->]; [| word]. split; [word | lia].
  - intros [Hle ->]. exists (acc + UsedMemoryMiB p * mib). split; [apply addBytes_ok; [word .. |]; split; [word | done] |].
    apply IH; [word |]. split; [word | lia].
Qed.

(** A device whose fields have their Go types. *)
Definition device_typed (d : DeviceState) : Prop :=
  u64 (TotalBytes d) /\ u64 (UsedBytes d) /\ u64 (FreeBytes d) /\
  Forall (fun p => u64 (UsedMemoryMiB p)) (Processes d).

#[export] Instance device_typed_dec d : Decision (device_typed d).
Proof. unfold device_typed. apply _. Defined.

Definition owned (d : DeviceState) : Z := owned_bytes (Processes d).

Lemma device_ok_typed d : device_ok d -> device_typed d.
Proof.
  intros (_ & _ & _ & Ht & Hu & Hf & _ & _ & Hps & _). split; [apply Ht |]. split; [apply Hu |].
  split; [apply Hf |]. eapply Forall_impl; [exact Hps |]. by intros p (_ & _ & _ & ? & _).
Qed.

Lemma owned_nonneg d : device_typed d -> 0 <= owned d.
Proof.
  intros (_ & _ & _ & Hps). apply sumZ_nonneg. eapply Forall_impl; [exact Hps |]. cbn. intros. word.
Qed.

Lemma processBytes_ok d b : device_typed d ->
  processBytes (Processes d) = Ok b <-> owned d <= u64_max /\ b = owned d.
Proof.
  intros (_ & _ & _ & Hps). unfold processBytes. rewrite processBytes_from_ok by (done || word). done.
Qed.

Lemma reserve_plan_ok delta d r : device_typed d -> u64 delta ->
  reserve_plan delta d = Ok r <->
  delta <= FreeBytes d /\ UsedBytes d + delta <= u64_max /\ r = (UsedBytes d + delta, FreeBytes d - delta).
Proof.
  intros (_ & Hu & Hf & _) Hdelta. unfold reserve_plan. destruct (_ >? _) eqn:E; to_prop.
  - split; [done | lia].
  - rewrite result_bind_ok. rewrite wrap64_small by word. split.
    + intros (x & [? ->]%addBytes_ok & [= <-]); done.
    + intros (_ & ? & ->). eexists. split; [by apply addBytes_ok | done].
Qed.

Lemma release_plan_ok delta d r : device_typed d -> u64 delta ->
  release_plan delta d = Ok r <->
  owned d + delta <= UsedBytes d /\ FreeBytes d + delta <= u64_max /\
  r = (UsedBytes d - delta, FreeBytes d + delta).
Proof.
  intros Ht Hdelta. pose proof (owned_nonneg d Ht). pose proof Ht as (_ & Hu & Hf & _).
  unfold release_plan. rewrite result_bind_ok. split.
  - intros (o & [Ho ->]%processBytes_ok & Hr); [| done].
    destruct (_ >? _) eqn:E1 in Hr; [discriminate |]. to_prop.
    rewrite (wrap64_small (UsedBytes d - owned d)) in Hr by word. cbv zeta in Hr.
    destruct (_ >? _) eqn:E2 in Hr; [discriminate |]. to_prop.
    apply result_bind_ok in Hr as (x & [? ->]%addBytes_ok & [= <-]); [| done ..].
    rewrite wrap64_small by word. split; [lia | done].
  - intros (? & ? & ->). exists (owned d). split; [apply processBytes_ok; [done | split; [word | done]] |].
    rewrite (proj2 (gtb_false _ _)) by word. rewrite (wrap64_small (UsedBytes d - owned d)) by word. cbv zeta.
    rewrite (proj2 (gtb_false _ _)) by lia. apply result_bind_ok. eexists.
    split; [by apply addBytes_ok |]. by rewrite wrap64_small by word.
Qed.

Lemma set_used_plan_ok used d r : device_typed d -> u64 used ->
  set_used_plan used d = Ok r <->
  UsedBytes d + FreeBytes d <= u64_max /\ owned d <= used <= UsedBytes d + FreeBytes d /\
  r = (used, UsedBytes d + FreeBytes d - used).
Proof.
  intros Ht Hused. pose proof (owned_nonneg d Ht). pose proof Ht as (_ & Hu & Hf & _).
  unfold set_used_plan. rewrite result_bind_ok. split.
  - intros (pool & [Hp ->]%addBytes_ok & Hr); [| done ..].
    destruct (_ >? _) eqn:E1 in Hr; [discriminate |]. to_prop.
    apply result_bind_ok in Hr as (o & [Ho ->]%processBytes_ok & Hr); [| done].
    destruct (_ <? _) eqn:E2 in Hr; [discriminate |]. to_prop. injection Hr as <-.
    rewrite wrap64_small by word. split; [done | split; [lia | done]].
  - intros (? & ? & ->). eexists. split; [by apply addBytes_ok |].
    rewrite (proj2 (gtb_false _ _)) by lia. apply result_bind_ok. exists (owned d).
    split; [apply processBytes_ok; [done | split; [word | done]] |].
    rewrite (proj2 (Z.ltb_ge _ _)) by lia. by rewrite wrap64_small by word.
Qed.

Lemma reconcile_plan_ok d r : device_typed d ->
  reconcile_plan d = Ok r <->
  owned d <= UsedBytes d /\ UsedBytes d + FreeBytes d <= u64_max /\
  r = (Z.max 0 (TotalBytes d - (UsedBytes d + FreeBytes d)), UsedBytes d - owned d).
Proof.
  intros Ht. pose proof (owned_nonneg d Ht). pose proof Ht as (Htot & Hu & Hf & _).
  unfold reconcile_plan. rewrite result_bind_ok.
  assert (UsedBytes d + FreeBytes d <= u64_max ->
    (if UsedBytes d + FreeBytes d <=? TotalBytes d then TotalBytes d ⊖ (UsedBytes d + FreeBytes d) else 0) =
    Z.max 0 (TotalBytes d - (UsedBytes d + FreeBytes d))) as Hres.
  { intros. destruct (Z.leb_spec (UsedBytes d + FreeBytes d) (TotalBytes d)); [| lia].
    rewrite wrap64_small by word. lia. }
  split.
  - intros (o & [Ho ->]%processBytes_ok & Hr); [| done].
    destruct (_ >? _) eqn:E1 in Hr; [discriminate |]. to_prop.
    apply result_bind_ok in Hr as (v & [Hv ->]%addBytes_ok & Hr); [| done ..].
    injection Hr as <-. rewrite Hres by done. rewrite wrap64_small by word. done.
  - intros (? & ? & ->). exists (owned d).
    split; [apply processBytes_ok; [done | split; [word | done]] |].
    rewrite (proj2 (gtb_false _ _)) by lia. cbv zeta. apply result_bind_ok. eexists.
    split; [by apply addBytes_ok |]. rewrite Hres by done. by rewrite wrap64_small by word.
Qed.

End manager.
