(* ===== verification/Node.v ===== *)
(** * Memory operations against a node: the manager, the mock control
    command and [nvidia-smi] together

    [NvmlMock] states what the manager relies on of [nvml-mock-ctl]: a [set]
    of the two memory counters of a GPU named by its decimal index changes
    those counters, as [nvidia-smi] then reports them, and nothing else.  The
    theorems lift the computed plans of [Manager.v] to the state of the
    node. *)
From S2P Require Import Prelude GoStrings GoStrconv GoPath Control ProcessJson Observe Manager.
Import control observe manager.

Module node.

(** ** The law of the control command *)
Definition set_memory (used free : Z) (d : DeviceState) : DeviceState :=
  {| Index := Index d; UUID := UUID d; ds_Name := ds_Name d; TotalBytes := TotalBytes d;
     UsedBytes := used; FreeBytes := free; GPUUtilization := GPUUtilization d;
     MemoryUtilization := MemoryUtilization d; Processes := Processes d |}.

Definition set_reconciled (ps : list Process) (used free : Z) (d : DeviceState) : DeviceState :=
  {| Index := Index d; UUID := UUID d; ds_Name := ds_Name d; TotalBytes := TotalBytes d;
     UsedBytes := used; FreeBytes := free; GPUUtilization := GPUUtilization d;
     MemoryUtilization := MemoryUtilization d; Processes := ps |}.

Definition update_gpu (index : Z) (f : DeviceState -> DeviceState) (l : list DeviceState) : list DeviceState :=
  map (fun d => if Index d =? index then f d else d) l.

Definition set_memory_args (target : string) (used free : Z) : list string :=
  ["set"; "--gpu"; target; "memory.used_bytes=" +:+ FormatUint used;
   "memory.free_bytes=" +:+ FormatUint free].

(** Used and free memory fit the device (the rest is reserved), and a UUID is
    never the decimal text of an index. *)
Definition pool_ok (d : DeviceState) : Prop :=
  UsedBytes d + FreeBytes d <= TotalBytes d /\ is_ok (Atoi (UUID d)) = false.
#[export] Instance pool_ok_dec d : Decision (pool_ok d).
Proof. unfold pool_ok. apply _. Defined.

Class NvmlMock (W : Type) `{NvidiaSmi W} := {
  ctl_binary : string;
  gpus_pool : forall w, Forall pool_ok (gpus w);
  ctl_set_memory : forall env (c : Client W) d used free w,
    d ∈ gpus w -> mib_aligned used -> mib_aligned free -> used + free <= TotalBytes d ->
    exists out w', os_exec env ctl_binary (full_args c (set_memory_args (Itoa (Index d)) used free)) w =
        ((out, None), w') /\ gpus w' = update_gpu (Index d) (set_memory used free) (gpus w);
  mkdir_gpus : forall path w, gpus (os_mkdir_all path w).2 = gpus w;
  open_gpus : forall path w, gpus (os_open_lock path w).2 = gpus w;
  flock_gpus : forall path w, gpus (os_flock_ex path w).2 = gpus w;
  unlock_gpus : forall path w, gpus (os_flock_un path w) = gpus w;
  close_gpus : forall path w, gpus (os_close_lock path w) = gpus w
}.

Section memory.
Context {W : Type} `{NvmlMock W}.

(** A manager wired to the node's two commands. *)
Definition real_runner (r : Runner W) : Prop :=
  r = ExecRunner \/ exists values, r = EnvExecRunner values.

Record wired (mg : Manager W) : Prop := {
  wired_client : exists c, mg_Client mg = Some c /\ effective_binary c = ctl_binary /\
    real_runner (effective_runner c);
  wired_observer : reads_node (mg_Observer mg)
}.

(** The lock file can be created and locked in [w]. *)
Definition lockable (mg : Manager W) (w : W) : Prop :=
  let path := mg_MutationLockPath mg in
  path = "" \/
  exists w1 w2 w3, os_mkdir_all (filepath.Dir path) w = (None, w1) /\
    os_open_lock path w1 = (None, w2) /\ os_flock_ex path w2 = (None, w3).

(** [target] names the GPU [d] of the node by its index. *)
Definition names_gpu (target : string) (d : DeviceState) (w : W) : Prop :=
  target = Itoa (Index d) /\ d ∈ gpus w.

(** ** Lemmas *)
Lemma gpus_device_ok d w : d ∈ gpus w -> device_ok d.
Proof. intros Hd. destruct (gpus_ok w) as [Hok _]. rewrite Forall_forall in Hok. by apply Hok. Qed.

Lemma gpus_pool_ok d w : d ∈ gpus w -> pool_ok d.
Proof. intros Hd. pose proof (gpus_pool w) as Hok. rewrite Forall_forall in Hok. by apply Hok. Qed.

Lemma selects_index d e w : d ∈ gpus w -> e ∈ gpus w ->
  selects (Itoa (Index d)) e = (Index e =? Index d).
Proof.
  intros Hd He. unfold selects.
  destruct (gpus_device_ok d w Hd) as (Hid & _). destruct (gpus_device_ok e w He) as (Hie & _).
  destruct (gpus_pool_ok e w He) as [_ Hu].
  assert (int64 (Index d) /\ int64 (Index e)) as [? ?] by (unfold int64, int64_cutoff in *; lia).
  assert (String.eqb (UUID e) (Itoa (Index d)) = false) as ->.
  { apply String.eqb_neq. intros E. by rewrite E, Atoi_Itoa in Hu. }
  rewrite orb_false_r. destruct (Z.eqb_spec (Index e) (Index d)) as [-> | Hne]; [apply String.eqb_refl |].
  apply String.eqb_neq. intros E. apply Hne. by apply Itoa_inj.
Qed.

Lemma find_first_index d w : d ∈ gpus w -> find_first (selects (Itoa (Index d))) (gpus w) = Some d.
Proof.
  intros Hd. destruct (find_first _ _) as [e |] eqn:E.
  - apply find_first_some in E as [He Hs]. rewrite (selects_index d e w) in Hs by done. to_prop.
    f_equal. destruct (gpus_ok w) as (_ & Hidx & _). by apply (NoDup_map_inj Index (gpus w)).
  - rewrite find_first_none in E. specialize (E d Hd). rewrite (selects_index d d w) in E by done.
    by rewrite Z.eqb_refl in E.
Qed.

Lemma names_gpu_ok target d w : names_gpu target d w ->
  d ∈ gpus w /\ device_ok d /\ pool_ok d /\ find_first (selects target) (gpus w) = Some d.
Proof.
  intros [-> Hin]. split; [done |]. split; [by eapply gpus_device_ok |].
  split; [by eapply gpus_pool_ok | by apply find_first_index].
Qed.

Lemma SetMemory_gpus mg target d used free w :
  wired mg -> names_gpu target d w -> mib_aligned used -> mib_aligned free ->
  used + free <= TotalBytes d ->
  exists w', SetMemory (mg_Client mg) target used free w = (Ok tt, w') /\
    gpus w' = update_gpu (Index d) (set_memory used free) (gpus w).
Proof.
  intros [(c & Hc & Hb & Hr) _] Hn Hu Hf Hle. destruct (names_gpu_ok _ _ _ Hn) as [Hin _].
  destruct Hn as [-> _]. unfold SetMemory, run, runOutput. rewrite Hc, Hb.
  assert (exists env, Run (effective_runner c) ctl_binary = os_exec env ctl_binary) as (env & ->).
  { destruct Hr as [-> | [values ->]]; by eexists. }
  destruct (ctl_set_memory env c d used free w) as (out & w' & Hx & Hg); [done .. |].
  exists w'. unfold set_memory_args in Hx. by rewrite Hx.
Qed.

Lemma update_memory_gpus mg target plan d w :
  wired mg -> names_gpu target d w ->
  (forall used free, plan d = Ok (used, free) ->
     mib_aligned used /\ mib_aligned free /\ used + free <= TotalBytes d) ->
  match plan d with
  | Ok (used, free) =>
      exists w', update_memory (Some mg) target plan w = (Ok tt, w') /\
        gpus w' = update_gpu (Index d) (set_memory used free) (gpus w)
  | Err e => update_memory (Some mg) target plan w = (Err e, w)
  end.
Proof.
  intros Hw Hn Hplan. pose proof Hw as [(c & Hc & _) Ho]. unfold update_memory.
  assert (device (Some mg) target w = (Ok d, w)) as Hdev.
  { unfold device, manager_client, manager_observer. cbn. rewrite Hc.
    destruct (mg_Observer mg) as [o |] eqn:Eo; [| by destruct Ho as (? & ? & _)].
    rewrite Device_gpus by done. by destruct (names_gpu_ok _ _ _ Hn) as (_ & _ & _ & ->). }
  rewrite (M_bind_ok _ _ _ _ _ Hdev). destruct (plan d) as [[used free] | e] eqn:Ep; [| done].
  destruct (Hplan used free eq_refl) as (Hu & Hf & Hle).
  by destruct (SetMemory_gpus mg target d used free w Hw Hn Hu Hf Hle) as (w' & ? & ?); exists w'.
Qed.

(** The lock around an operation does not change what it does to the GPUs. *)
Lemma withMutationLock_gpus mg fn w :
  lockable mg w ->
  exists w1, gpus w1 = gpus w /\
    (withMutationLock (Some mg) fn w).1 = (fn w1).1 /\
    gpus (withMutationLock (Some mg) fn w).2 = gpus (fn w1).2.
Proof.
  unfold lockable, withMutationLock. cbv zeta.
  intros [-> | (w1 & w2 & w3 & Hm & Ho & Hl)]; [by exists w |].
  destruct (String.eqb (mg_MutationLockPath mg) ""); [by exists w |].
  rewrite Hm, Ho, Hl. exists w3. destruct (fn w3) as [r w4]. cbn.
  pose proof (mkdir_gpus (filepath.Dir (mg_MutationLockPath mg)) w) as G1. rewrite Hm in G1.
  pose proof (open_gpus (mg_MutationLockPath mg) w1) as G2. rewrite Ho in G2.
  pose proof (flock_gpus (mg_MutationLockPath mg) w2) as G3. rewrite Hl in G3. cbn in *.
  split; [congruence |]. split; [done |]. by rewrite close_gpus, unlock_gpus.
Qed.

(** A locked memory operation, from the plan alone. *)
Lemma locked_update mg target plan d w :
  wired mg -> lockable mg w -> names_gpu target d w ->
  (forall used free, plan d = Ok (used, free) ->
     mib_aligned used /\ mib_aligned free /\ used + free <= TotalBytes d) ->
  let r := withMutationLock (Some mg) (update_memory (Some mg) target plan) w in
  match plan d with
  | Ok (used, free) => r.1 = Ok tt /\ gpus r.2 = update_gpu (Index d) (set_memory used free) (gpus w)
  | Err e => r.1 = Err e /\ gpus r.2 = gpus w
  end.
Proof.
  intros Hw Hl [Ht Hsel] Hplan r. subst r.
  destruct (withMutationLock_gpus mg (update_memory (Some mg) target plan) w Hl) as (w1 & G & E1 & E2).
  rewrite E1, E2, <- G. assert (names_gpu target d w1) as Hn1 by (split; [done | by rewrite G]).
  pose proof (update_memory_gpus mg target plan d w1 Hw Hn1 Hplan) as Hup.
  destruct (plan d) as [[used free] | e].
  - by destruct Hup as (w' & -> & Hg).
  - by rewrite Hup.
Qed.

Lemma aligned_add a b : mib_aligned a -> mib_aligned b -> a + b <= u64_max -> mib_aligned (a + b).
Proof.
  intros [Ha Ma] [Hb Mb] Hle. split; [word |]. rewrite Z.add_mod, Ma, Mb by done. done.
Qed.
Lemma aligned_sub a b : mib_aligned a -> mib_aligned b -> b <= a -> mib_aligned (a - b).
Proof.
  intros [Ha Ma] [Hb Mb] Hle. split; [word |]. rewrite Zminus_mod, Ma, Mb. done.
Qed.

Lemma reserve_aligned d delta used free : device_ok d -> pool_ok d -> mib_aligned delta ->
  reserve_plan delta d = Ok (used, free) ->
  mib_aligned used /\ mib_aligned free /\ used + free <= TotalBytes d.
Proof.
  intros Hd [Hpool _] Hdelta Hp. apply reserve_plan_ok in Hp as (? & ? & [= -> ->]);
    [| by apply device_ok_typed | apply Hdelta].
  destruct Hd as (_ & _ & _ & _ & Hu & Hf & _). split; [by apply aligned_add |]. split; [by apply aligned_sub | lia].
Qed.

Lemma release_aligned d delta used free : device_ok d -> pool_ok d -> mib_aligned delta ->
  release_plan delta d = Ok (used, free) ->
  mib_aligned used /\ mib_aligned free /\ used + free <= TotalBytes d.
Proof.
  intros Hd [Hpool _] Hdelta Hp. pose proof (owned_nonneg d (device_ok_typed d Hd)).
  apply release_plan_ok in Hp as (? & ? & [= -> ->]); [| by apply device_ok_typed | apply Hdelta].
  destruct Hd as (_ & _ & _ & _ & Hu & Hf & _). split; [apply aligned_sub; [done .. | lia] |].
  split; [by apply aligned_add | lia].
Qed.

Lemma set_used_aligned d used0 used free : device_ok d -> pool_ok d -> mib_aligned used0 ->
  set_used_plan used0 d = Ok (used, free) ->
  mib_aligned used /\ mib_aligned free /\ used + free <= TotalBytes d.
Proof.
  intros Hd [Hpool _] Hused Hp. apply set_used_plan_ok in Hp as (? & ? & [= -> ->]);
    [| by apply device_ok_typed | apply Hused].
  destruct Hd as (_ & _ & _ & _ & Hu & Hf & _). split; [done |].
  split; [apply aligned_sub; [by apply aligned_add | done | lia] | lia].
Qed.

(** The three operations, success and failure. *)
Lemma reserve_run mg target d delta w :
  wired mg -> lockable mg w -> names_gpu target d w -> mib_aligned delta ->
  let r := ReserveMemory (Some mg) target delta w in
  if delta <=? FreeBytes d
  then r.1 = Ok tt /\
       gpus r.2 = update_gpu (Index d) (set_memory (UsedBytes d + delta) (FreeBytes d - delta)) (gpus w)
  else (exists e, r.1 = Err e /\ errors_Is e ErrInsufficientMemory = true) /\ gpus r.2 = gpus w.
Proof.
  intros Hw Hl Hn Hdelta. destruct (names_gpu_ok _ _ _ Hn) as (_ & Hd & Hpool & _).
  pose proof (locked_update mg target (reserve_plan delta) d w Hw Hl Hn
    (fun u f => reserve_aligned d delta u f Hd Hpool Hdelta)) as Hrun. cbv zeta in *.
  pose proof Hdelta as [Hdu _]. pose proof (device_ok_typed d Hd) as Ht. destruct (Z.leb_spec delta (FreeBytes d)).
  - assert (reserve_plan delta d = Ok (UsedBytes d + delta, FreeBytes d - delta)) as Hp.
    { apply reserve_plan_ok; [done | done |]. destruct Ht as (? & _), Hpool. split; [done |]. split; [word | done]. }
    by rewrite Hp in Hrun.
  - unfold reserve_plan in Hrun. rewrite (proj2 (Z.gtb_lt _ _)) in Hrun by done.
    destruct Hrun as [E G]. split; [| exact G]. eexists. split; [exact E | done].
Qed.

Lemma release_run mg target d delta w :
  wired mg -> lockable mg w -> names_gpu target d w -> mib_aligned delta ->
  let r := ReleaseMemory (Some mg) target delta w in
  if owned d + delta <=? UsedBytes d
  then r.1 = Ok tt /\
       gpus r.2 = update_gpu (Index d) (set_memory (UsedBytes d - delta) (FreeBytes d + delta)) (gpus w)
  else (exists e, r.1 = Err e) /\ gpus r.2 = gpus w.
Proof.
  intros Hw Hl Hn Hdelta. destruct (names_gpu_ok _ _ _ Hn) as (_ & Hd & Hpool & _).
  pose proof (locked_update mg target (release_plan delta) d w Hw Hl Hn
    (fun u f => release_aligned d delta u f Hd Hpool Hdelta)) as Hrun. cbv zeta in *.
  pose proof Hdelta as [Hdu _]. pose proof (device_ok_typed d Hd) as Ht. pose proof (owned_nonneg d Ht).
  destruct (Z.leb_spec (owned d + delta) (UsedBytes d)).
  - assert (release_plan delta d = Ok (UsedBytes d - delta, FreeBytes d + delta)) as Hp.
    { apply release_plan_ok; [done | done |]. destruct Ht as (? & _), Hpool. split; [done |]. split; [word | done]. }
    by rewrite Hp in Hrun.
  - destruct (release_plan delta d) as [[u f] | e] eqn:Hp.
    + apply release_plan_ok in Hp as (? & _); [lia | done ..].
    + destruct Hrun as [E G]. split; [by exists e | exact G].
Qed.

Lemma set_used_run mg target d usedBytes w :
  wired mg -> lockable mg w -> names_gpu target d w -> mib_aligned usedBytes ->
  let r := SetUsedMemory (Some mg) target usedBytes w in
  if decide (owned d <= usedBytes <= UsedBytes d + FreeBytes d)
  then r.1 = Ok tt /\
       gpus r.2 = update_gpu (Index d) (set_memory usedBytes (UsedBytes d + FreeBytes d - usedBytes)) (gpus w)
  else (exists e, r.1 = Err e) /\ gpus r.2 = gpus w.
Proof.
  intros Hw Hl Hn Hused r. subst r. destruct (names_gpu_ok _ _ _ Hn) as (_ & Hd & Hpool & _).
  pose proof (device_ok_typed d Hd) as Ht.
  pose proof (locked_update mg target (set_used_plan usedBytes) d w Hw Hl Hn
    (fun u f => set_used_aligned d usedBytes u f Hd Hpool Hused)) as Hrun. cbv zeta in Hrun.
  pose proof Hused as [Huu _]. destruct Hpool as [Hpool _]. destruct (decide _) as [Hcase | Hcase].
  - assert (set_used_plan usedBytes d = Ok (usedBytes, UsedBytes d + FreeBytes d - usedBytes)) as Hp.
    { apply set_used_plan_ok; [done .. |]. destruct Ht as (? & _). split; [word | done]. }
    by rewrite Hp in Hrun.
  - destruct (set_used_plan usedBytes d) as [[u f] | e] eqn:Hp.
    + apply set_used_plan_ok in Hp as (_ & ? & _); [done | done ..].
    + destruct Hrun as [E G]. split; [by exists e | exact G].
Qed.

(** A locked replacement rebases onto the processes of the GPU as it is. *)
Lemma replace_locked mg target before desired d w :
  wired mg -> lockable mg w -> names_gpu target d w -> mg_MutationLockPath mg <> "" ->
  let r := ReplaceProcessesFromState (Some mg) target before desired w in
  match rebaseProcesses (Processes before) desired (Processes d) with
  | Err e => r.1 = Err e /\ gpus r.2 = gpus w
  | Ok rebased => exists w1, gpus w1 = gpus w /\
      r.1 = (reconcileProcessesFromState (Some mg) target d rebased w1).1 /\
      gpus r.2 = gpus (reconcileProcessesFromState (Some mg) target d rebased w1).2
  end.
Proof.
  intros Hwired Hlock Hgpu Hpath r. pose proof Hwired as [(c & Hc & _) Ho].
  assert (forall w1, gpus w1 = gpus w -> device (Some mg) target w1 = (Ok d, w1)) as Hdev.
  { intros w1 G. unfold device, manager_client, manager_observer. cbn. rewrite Hc.
    destruct (mg_Observer mg) as [o |] eqn:Eo; [| by destruct Ho as (? & ? & _)].
    rewrite Device_gpus, G by done. by destruct (names_gpu_ok _ _ _ Hgpu) as (_ & _ & _ & ->). }
  set (body := current ← device (Some mg) target;
               rebased ← lift (rebaseProcesses (Processes before) desired (Processes current));
               reconcileProcessesFromState (Some mg) target current rebased).
  assert (r = withMutationLock (Some mg) body w) as Er.
  { subst r body. unfold ReplaceProcessesFromState, manager_client. cbn [mbind option_bind].
    rewrite Hc. apply String.eqb_neq in Hpath. by rewrite Hpath. }
  clearbody r. subst r.
  destruct (withMutationLock_gpus mg body w Hlock) as (w1 & G & E1 & E2).
  set (r := withMutationLock (Some mg) body w) in *. clearbody r.
  subst body. rewrite (M_bind_ok _ _ _ _ _ (Hdev w1 G)) in E1, E2.
  destruct (rebaseProcesses _ _ _) as [rebased | e] eqn:Er; [| by rewrite E1, E2].
  exists w1. rewrite E1, E2. by erewrite lift_bind_ok by reflexivity.
Qed.

Lemma update_gpu_same index f l : (forall d, d ∈ l -> Index d = index -> f d = d) -> update_gpu index f l = l.
Proof.
  intros Hf. unfold update_gpu. transitivity (map (fun d => d) l); [| apply map_id].
  apply map_ext_in. intros d Hd%list_elem_of_In. destruct (Z.eqb_spec (Index d) index) as [E |]; [by apply Hf | done].
Qed.

Lemma update_gpu_twice index f g l :
  (forall d, Index (f d) = Index d) -> update_gpu index g (update_gpu index f l) = update_gpu index (fun d => g (f d)) l.
Proof.
  intros Hf. unfold update_gpu. rewrite map_map. apply map_ext. intros d.
  destruct (Index d =? index) eqn:E; [by rewrite Hf, E | by rewrite E].
Qed.

Lemma elem_of_update_gpu index f l e : e ∈ update_gpu index f l <->
  exists d, d ∈ l /\ e = (if Index d =? index then f d else d).
Proof.
  unfold update_gpu. rewrite list_elem_of_In, in_map_iff. setoid_rewrite list_elem_of_In. naive_solver.
Qed.

End memory.

(** ** Properties *)
Section properties.
Context {W : Type} `{NvmlMock W}.
Context (mg : Manager W) (target : string) (d : DeviceState) (w : W).
Context (Hwired : wired mg) (Hlock : lockable mg w) (Hgpu : names_gpu target d w).

(** Reserving [delta] bytes of a node GPU succeeds exactly when they
    are free: the GPU's used memory then grows by [delta], its free memory
    shrinks by [delta], and every other GPU, every process and every other
    field keeps its value.  Otherwise the caller gets an error that
    [errors.Is] recognises as insufficient memory and no GPU changes. *)
Theorem ReserveMemory_effect delta :
  mib_aligned delta ->
  let r := ReserveMemory (Some mg) target delta w in
  (delta <= FreeBytes d ->
     r.1 = Ok tt /\
     gpus r.2 = update_gpu (Index d) (set_memory (UsedBytes d + delta) (FreeBytes d - delta)) (gpus w)) /\
  (FreeBytes d < delta ->
     (exists e, r.1 = Err e /\ errors_Is e ErrInsufficientMemory = true) /\ gpus r.2 = gpus w).
Proof.
  intros Hdelta r. pose proof (reserve_run mg target d delta w Hwired Hlock Hgpu Hdelta) as Hrun.
  cbv zeta in Hrun. destruct (Z.leb_spec delta (FreeBytes d)); split; intros; first [lia | exact Hrun].
Qed.

(** Releasing [delta] bytes succeeds exactly when the GPU's used memory
    holds [delta] bytes beyond what its processes own: the bytes move back
    to free memory and nothing else changes.  Memory owned by processes is
    never released; a refused release changes nothing. *)
Theorem ReleaseMemory_effect delta :
  mib_aligned delta ->
  let r := ReleaseMemory (Some mg) target delta w in
  (owned d + delta <= UsedBytes d ->
     r.1 = Ok tt /\
     gpus r.2 = update_gpu (Index d) (set_memory (UsedBytes d - delta) (FreeBytes d + delta)) (gpus w)) /\
  (UsedBytes d < owned d + delta -> (exists e, r.1 = Err e) /\ gpus r.2 = gpus w).
Proof.
  intros Hdelta r. pose proof (release_run mg target d delta w Hwired Hlock Hgpu Hdelta) as Hrun.
  cbv zeta in Hrun. destruct (Z.leb_spec (owned d + delta) (UsedBytes d)); split; intros; first [lia | exact Hrun].
Qed.

(** Setting the used memory of a GPU succeeds exactly when the value
    lies between the memory its processes own and the whole used+free pool;
    the pool keeps its size (free becomes the rest), so the reserved memory
    of the profile is not erased, and nothing else changes. *)
Theorem SetUsedMemory_effect usedBytes :
  mib_aligned usedBytes ->
  let r := SetUsedMemory (Some mg) target usedBytes w in
  (owned d <= usedBytes <= UsedBytes d + FreeBytes d ->
     r.1 = Ok tt /\
     gpus r.2 = update_gpu (Index d)
       (set_memory usedBytes (UsedBytes d + FreeBytes d - usedBytes)) (gpus w)) /\
  (~ (owned d <= usedBytes <= UsedBytes d + FreeBytes d) ->
     (exists e, r.1 = Err e) /\ gpus r.2 = gpus w).
Proof.
  intros Hused r. pose proof (set_used_run mg target d usedBytes w Hwired Hlock Hgpu Hused) as Hrun. cbv zeta in Hrun.
  destruct (decide _); split; intros; first [done | exact Hrun].
Qed.

(** Replacing processes from an older snapshot works on the state the
    lock protects, not on the snapshot: with [d] the GPU as it is now, the
    list that is written is the rebase of the caller's changes onto the
    processes of [d]; the single command sets used memory to the non-process
    bytes of [d] plus the memory of the new list and leaves used+free as it
    was.  A conflicting change writes nothing. *)
Theorem ReplaceProcessesFromState_command before desired :
  mg_MutationLockPath mg <> "" -> owned d <= UsedBytes d ->
  let r := ReplaceProcessesFromState (Some mg) target before desired w in
  match rebaseProcesses (Processes before) desired (Processes d) with
  | Err e => r.1 = Err e /\ gpus r.2 = gpus w
  | Ok rebased =>
      let used := UsedBytes d - owned d + owned_bytes rebased in
      Forall process_typed rebased ->
      Forall (fun p => validateProcess p = Ok tt) rebased -> used <= UsedBytes d + FreeBytes d ->
      exists w1, gpus w1 = gpus w /\
        let written := run (mg_Client mg)
          (reconciled_args target (json_processes rebased) used (UsedBytes d + FreeBytes d - used)) w1 in
        r.1 = written.1 /\ gpus r.2 = gpus written.2
  end.
Proof.
  intros Hpath Hown r. destruct (names_gpu_ok _ _ _ Hgpu) as (Hin & Hd & [Hvis _] & _).
  pose proof (device_ok_typed d Hd) as Ht. pose proof (owned_nonneg d Ht).
  pose proof (replace_locked mg target before desired d w Hwired Hlock Hgpu Hpath) as Hrun. cbv zeta in Hrun. fold r in Hrun.
  destruct (rebaseProcesses _ _ _) as [rebased | e] eqn:Er; [| done].
  intros used Htyped Hvalid Hfit. destruct Hrun as (w1 & G & E1 & E2). exists w1. split; [done |]. rewrite E1, E2.
  unfold reconcileProcessesFromState. erewrite lift_bind_ok.
  2: { apply reconcile_plan_ok; [done |]. destruct Ht as ([_ ?] & _). split; [done |]. split; [lia | done]. }
  pose proof Ht as (? & ? & ? & _). unfold manager_client. cbn [mbind option_bind].
  rewrite SetProcessesReconciled_run; [| done | word | word | word |].
  - unfold exact_reconciled_args. cbv zeta. subst used.
    by replace (TotalBytes d - Z.max 0 (TotalBytes d - (UsedBytes d + FreeBytes d)) -
       (UsedBytes d - owned d + owned_bytes rebased))
      with (UsedBytes d + FreeBytes d - (UsedBytes d - owned d + owned_bytes rebased)) by lia.
  - split; [done |]. subst used. lia.
Qed.
End properties.

(** Reserving and then releasing the same amount gives back the node's
    state: the two operations are inverse on every GPU, whichever device
    the lock was taken for. *)
Theorem reserve_release_roundtrip {W} `{NvmlMock W} (mg : Manager W) target d w delta :
  wired mg -> lockable mg w -> names_gpu target d w ->
  lockable mg (ReserveMemory (Some mg) target delta w).2 ->
  mib_aligned delta -> owned d <= UsedBytes d -> delta <= FreeBytes d ->
  let w1 := (ReserveMemory (Some mg) target delta w).2 in
  let r := ReleaseMemory (Some mg) target delta w1 in
  r.1 = Ok tt /\ gpus r.2 = gpus w.
Proof.
  intros Hw Hl1 Hn Hl2 Hdelta Hown Hfree w1 r. destruct (names_gpu_ok _ _ _ Hn) as (Hin & _).
  pose proof (reserve_run mg target d delta w Hw Hl1 Hn Hdelta) as Hrun. cbv zeta in Hrun.
  rewrite (proj2 (Z.leb_le _ _)) in Hrun by done. destruct Hrun as [_ G]. fold w1 in G.
  set (d1 := set_memory (UsedBytes d + delta) (FreeBytes d - delta) d).
  assert (names_gpu target d1 w1) as Hn1.
  { destruct Hn as [-> _]. split; [done |]. rewrite G. apply elem_of_update_gpu. exists d. by rewrite Z.eqb_refl. }
  pose proof (release_run mg target d1 delta w1 Hw Hl2 Hn1 Hdelta) as Hrun. cbv zeta in Hrun.
  change (owned d1) with (owned d) in Hrun. change (UsedBytes d1) with (UsedBytes d + delta) in Hrun.
  rewrite (proj2 (Z.leb_le _ _)) in Hrun by lia. destruct Hrun as [Er Gr].
  split; [exact Er |]. etransitivity; [exact Gr |].
  rewrite G, update_gpu_twice by done. apply update_gpu_same. intros e He Ei.
  destruct (gpus_ok w) as (_ & Hidx & _).
  assert (e = d) as -> by by apply (NoDup_map_inj Index (gpus w)).
  destruct d. unfold set_memory. cbn. f_equal; lia.
Qed.

(** ** Witnesses: an in-memory node that also runs the control command *)
Fixpoint strip_flags (args : list string) : list string :=
  match args with
  | flag :: value :: rest =>
      if String.eqb flag "--file" || String.eqb flag "--config" then strip_flags rest else args
  | _ => args
  end.

Definition machine_ok (l : list DeviceState) : Prop := node_ok l /\ Forall pool_ok l.
#[export] Instance machine_ok_dec l : Decision (machine_ok l).
Proof. unfold machine_ok. apply _. Defined.

Record Machine := { machine_gpus : list DeviceState; machine_valid : bool_decide (machine_ok machine_gpus) = true }.

Lemma machine_gpus_ok (n : Machine) : machine_ok (machine_gpus n).
Proof. apply (bool_decide_eq_true (machine_ok (machine_gpus n))), machine_valid. Qed.

(** A machine from a device list, when it is well formed. *)
Definition make_machine (l : list DeviceState) : option Machine :=
  match bool_decide (machine_ok l) as b return bool_decide (machine_ok l) = b -> option Machine with
  | true => fun E => Some {| machine_gpus := l; machine_valid := E |}
  | false => fun _ => None
  end eq_refl.

Definition ctl_exec (args : list string) (n : Machine) : (string * option error) * Machine :=
  let refused := (("", Some (Errorf "unsupported command" [])), n) in
  match strip_flags args with
  | ["set"; "--gpu"; target; p; u; f] =>
      match payload.read_processes (TrimPrefix p "processes="), ParseUint (TrimPrefix u "memory.used_bytes=") u64_max,
            ParseUint (TrimPrefix f "memory.free_bytes=") u64_max with
      | Some ps, Ok used, Ok free =>
          match make_machine (map (fun d =>
            if String.eqb (Itoa (Index d)) target then set_reconciled ps used free d else d) (machine_gpus n)) with
          | Some n' => (("", None), n')
          | None => refused
          end
      | _, _, _ => refused
      end
  | ["set"; "--gpu"; target; u; f] =>
      match ParseUint (TrimPrefix u "memory.used_bytes=") u64_max,
            ParseUint (TrimPrefix f "memory.free_bytes=") u64_max with
      | Ok used, Ok free =>
          match make_machine (map (fun d =>
            if String.eqb (Itoa (Index d)) target then set_memory used free d else d) (machine_gpus n)) with
          | Some n' => (("", None), n')
          | None => refused
          end
      | _, _ => refused
      end
  | _ => refused
  end.

Lemma make_machine_ok l : machine_ok l -> exists n, make_machine l = Some n /\ machine_gpus n = l.
Proof.
  intros Hl. unfold make_machine. generalize (@eq_refl bool (bool_decide (machine_ok l))).
  assert (bool_decide (machine_ok l) = true) as Eb by by apply bool_decide_eq_true.
  revert Eb. generalize (bool_decide (machine_ok l)) at 1 3 4. intros b -> E. by eexists.
Qed.

Lemma strip_flags_full {W} (c : Client W) args :
  strip_flags ("set" :: args) = "set" :: args -> strip_flags (full_args c ("set" :: args)) = "set" :: args.
Proof.
  intros E. unfold full_args.
  destruct (negb (String.eqb (cl_OverrideFile c) "")), (negb (String.eqb (cl_ConfigFile c) "")); exact E.
Qed.

Lemma update_gpu_machine_ok index used free l :
  machine_ok l -> mib_aligned used -> mib_aligned free ->
  (forall d, d ∈ l -> Index d = index -> used + free <= TotalBytes d) ->
  machine_ok (update_gpu index (set_memory used free) l).
Proof.
  intros ((Hok & Hi & Hu) & Hpool) Hus Hf Hle. unfold update_gpu. split; [split; [| split] |].
  - apply Forall_map. eapply Forall_impl; [exact Hok |]. intros e He. cbn.
    destruct (Index e =? index); [| done]. unfold device_ok in *. cbn. tauto.
  - rewrite map_map. erewrite map_ext; [exact Hi |]. intros e. by destruct (Index e =? index).
  - rewrite map_map. erewrite map_ext; [exact Hu |]. intros e. by destruct (Index e =? index).
  - apply Forall_map. rewrite Forall_forall in *. intros e He. specialize (Hpool e He). cbn.
    destruct (Z.eqb_spec (Index e) index); [| done]. destruct Hpool as [_ Huuid].
    split; [cbn; by apply Hle | exact Huuid].
Qed.

#[export] Instance machine_os : OS Machine := {
  os_environ := [];
  os_read_file _ _ := Err (Errorf "not found" []);
  os_exec _ name args n :=
    if String.eqb name "nvidia-smi" then (smi_output args (machine_gpus n), n) else ctl_exec args n;
  os_mkdir_all _ n := (None, n);
  os_open_lock _ n := (None, n);
  os_flock_ex _ n := (None, n);
  os_flock_un _ n := n;
  os_close_lock _ n := n
}.

#[export] Instance machine_smi : NvidiaSmi Machine.
Proof.
  refine {| smi_binary := "nvidia-smi"; gpus := machine_gpus |}; try done.
  intros n. apply (machine_gpus_ok n).
Defined.

Lemma ctl_exec_set_memory (c : Client Machine) d used free n :
  d ∈ machine_gpus n -> mib_aligned used -> mib_aligned free -> used + free <= TotalBytes d ->
  exists n', ctl_exec (full_args c (set_memory_args (Itoa (Index d)) used free)) n = (("", None), n') /\
    machine_gpus n' = update_gpu (Index d) (set_memory used free) (machine_gpus n).
Proof.
  intros Hd Hu Hf Hle. unfold ctl_exec, set_memory_args. cbv zeta. rewrite strip_flags_full by done.
  rewrite !TrimPrefix_app, !ParseUint_FormatUint by (destruct Hu, Hf; word).
  pose proof (machine_gpus_ok n) as Hn. pose proof Hn as ((Hok & Hidx & _) & _). rewrite Forall_forall in Hok.
  assert (map (fun e => if String.eqb (Itoa (Index e)) (Itoa (Index d)) then set_memory used free e else e)
    (machine_gpus n) = update_gpu (Index d) (set_memory used free) (machine_gpus n)) as ->.
  { apply map_ext_in. intros e He%list_elem_of_In.
    pose proof (Hok e He) as (Hie & _). pose proof (Hok d Hd) as (Hid & _).
    destruct (Z.eqb_spec (Index e) (Index d)) as [-> | Hne]; [by rewrite String.eqb_refl |].
    destruct (String.eqb_spec (Itoa (Index e)) (Itoa (Index d))) as [E |]; [| done].
    apply Itoa_inj in E; [done | split; unfold int64_cutoff in *; lia ..]. }
  destruct (make_machine_ok (update_gpu (Index d) (set_memory used free) (machine_gpus n))) as (n' & -> & Hg).
  { apply update_gpu_machine_ok; [done .. |]. intros e He E.
    by assert (e = d) as -> by by apply (NoDup_map_inj Index (machine_gpus n)). }
  exists n'. by split.
Qed.

#[export] Instance machine_mock : NvmlMock Machine.
Proof.
  refine {| ctl_binary := "nvml-mock-ctl" |}; try done.
  - intros n. apply (machine_gpus_ok n).
  - intros env c d used free n Hd Hu Hf Hle. exists "". by apply ctl_exec_set_memory.
Defined.

Definition demo_machine : Machine := {| machine_gpus := demo_gpus; machine_valid := eq_refl |}.
Definition demo_manager : Manager Machine := NewManager (Some (New "" "" "")) demo_observer.

Lemma demo_wired : wired demo_manager.
Proof.
  split.
  - eexists. split; [reflexivity |]. split; [reflexivity | by left].
  - eexists. split; [reflexivity |]. split; [reflexivity | by left].
Qed.
Lemma demo_lockable n : lockable demo_manager n.
Proof. right. by exists n, n, n. Qed.
Lemma demo_names : names_gpu "0" (demo_gpu 0 "GPU-aa" 3072 13000 [demo_worker 7 2048; demo_worker 9 512]) demo_machine.
Proof. split; [reflexivity | left]. Qed.
Lemma aligned_mib k : bool_decide (mib_aligned k) = true -> mib_aligned k.
Proof. apply bool_decide_eq_true. Qed.

Lemma ReserveMemory_effect_witness :
  (ReserveMemory (Some demo_manager) "0" (1024 * mib) demo_machine).1 = Ok tt /\
  exists e, (ReserveMemory (Some demo_manager) "0" (13001 * mib) demo_machine).1 = Err e /\
    errors_Is e ErrInsufficientMemory = true.
Proof.
  split.
  - refine (proj1 (proj1 (ReserveMemory_effect demo_manager "0" _ demo_machine demo_wired (demo_lockable _)
      demo_names (1024 * mib) _) _)); [by apply aligned_mib | by vm_compute].
  - refine (proj1 (proj2 (ReserveMemory_effect demo_manager "0" _ demo_machine demo_wired (demo_lockable _)
      demo_names (13001 * mib) _) _)); [by apply aligned_mib | by vm_compute].
Defined.

Lemma ReleaseMemory_effect_witness :
  (ReleaseMemory (Some demo_manager) "0" (512 * mib) demo_machine).1 = Ok tt /\
  exists e, (ReleaseMemory (Some demo_manager) "0" (513 * mib) demo_machine).1 = Err e.
Proof.
  split.
  - refine (proj1 (proj1 (ReleaseMemory_effect demo_manager "0" _ demo_machine demo_wired (demo_lockable _)
      demo_names (512 * mib) _) _)); [by apply aligned_mib | by vm_compute].
  - refine (proj1 (proj2 (ReleaseMemory_effect demo_manager "0" _ demo_machine demo_wired (demo_lockable _)
      demo_names (513 * mib) _) _)); [by apply aligned_mib | by vm_compute].
Defined.

Lemma SetUsedMemory_effect_witness :
  (SetUsedMemory (Some demo_manager) "0" (4096 * mib) demo_machine).1 = Ok tt /\
  exists e, (SetUsedMemory (Some demo_manager) "0" (100 * mib) demo_machine).1 = Err e.
Proof.
  split.
  - refine (proj1 (proj1 (SetUsedMemory_effect demo_manager "0" _ demo_machine demo_wired (demo_lockable _)
      demo_names (4096 * mib) _) _)); [by apply aligned_mib |].
    split; by vm_compute.
  - refine (proj1 (proj2 (SetUsedMemory_effect demo_manager "0" _ demo_machine demo_wired (demo_lockable _)
      demo_names (100 * mib) _) _)); [by apply aligned_mib |].
    intros [Hlo _]. vm_compute in Hlo. by apply Hlo.
Defined.

Lemma ReplaceProcessesFromState_command_witness :
  exists w1, machine_gpus w1 = demo_gpus /\
    (ReplaceProcessesFromState (Some demo_manager) "0" (demo_gpu 0 "" 0 0 [demo_worker 9 512])
       [demo_worker 9 1024] demo_machine).1 =
    (run (mg_Client demo_manager) (reconciled_args "0" (json_processes [demo_worker 7 2048; demo_worker 9 1024])
       (3584 * mib) (12488 * mib)) w1).1.
Proof.
  pose proof (ReplaceProcessesFromState_command demo_manager "0" _ demo_machine demo_wired (demo_lockable _)
    demo_names (demo_gpu 0 "" 0 0 [demo_worker 9 512]) [demo_worker 9 1024]
    ltac:(by vm_compute) ltac:(by vm_compute)) as Hr.
  destruct (Hr ltac:(repeat constructor; by vm_compute) ltac:(repeat constructor) ltac:(by vm_compute))
    as (w1 & G & E & _).
  exists w1. split; [exact G | exact E].
Defined.

Lemma reserve_release_roundtrip_witness :
  machine_gpus (ReleaseMemory (Some demo_manager) "0" (1024 * mib)
    (ReserveMemory (Some demo_manager) "0" (1024 * mib) demo_machine).2).2 = demo_gpus.
Proof.
  refine (proj2 (reserve_release_roundtrip demo_manager "0" _ demo_machine (1024 * mib) demo_wired (demo_lockable _)
    demo_names (demo_lockable _) _ _ _)); [by apply aligned_mib | by vm_compute ..].
Defined.

End node.
