(* ===== verification/ProcessNode.v ===== *)
(** * Process lists against a node

    [NvmlMockProcesses] states what the manager relies on when it writes a
    process list with the memory counters in one command.  The theorems give
    the effect on the node of replacing processes from a snapshot, and of the
    two edits of one pid that the fake llama server makes: putting its record
    and removing it. *)
From S2P Require Import Prelude GoStrings GoStrconv GoPath Control ProcessJson Observe Manager Node.
Import control observe manager node payload.

Module process_node.

(** ** The law *)
(** A process whose record survives the node's formats: its payload, and the
    tables the observer reads. *)
Definition sent (p : Process) : Prop := process_ok p /\ valid_utf8 (Name p) = true.
#[export] Instance sent_dec p : Decision (sent p).
Proof. unfold sent. apply _. Defined.

Class NvmlMockProcesses (W : Type) `{NvmlMock W} := {
  ctl_set_processes : forall env (c : Client W) d ps used free w,
    d ∈ gpus w -> Forall sent ps -> distinct ps -> mib_aligned used -> mib_aligned free -> used + free <= TotalBytes d ->
    exists out w', os_exec env ctl_binary
        (full_args c (reconciled_args (Itoa (Index d)) (json_processes ps) used free)) w = ((out, None), w') /\
      gpus w' = update_gpu (Index d) (set_reconciled ps used free) (gpus w)
}.

(** ** One pid in a process list *)
(** [withoutPID] of the callers, and the list with a record in place of the
    one with its pid, or appended. *)
Definition without (pid : Z) (l : list Process) : list Process := List.filter (fun p => negb (PID p =? pid)) l.
Definition put (p : Process) (l : list Process) : list Process :=
  match processIndex l (PID p) with Some i => <[i := p]> l | None => l ++ [p] end.

Lemma foldM_skip {A S} (f : S -> A -> result S) l s : (forall a, a ∈ l -> f s a = Ok s) -> foldM f l s = Ok s.
Proof.
  induction l as [| a l IH]; intros Hf; [done |]. cbn [foldM]. rewrite Hf by left. cbn [mbind result_bind].
  apply IH. intros b Hb. apply Hf. by right.
Qed.

Lemma foldM_app {A S} (f : S -> A -> result S) l k s : foldM f (l ++ k) s = (s' ← foldM f l s; foldM f k s').
Proof.
  revert s. induction l as [| a l IH]; intros s; [done |]. cbn. destruct (f s a); [by cbn | done].
Qed.

Lemma elem_of_without p pid l : p ∈ without pid l <-> p ∈ l /\ PID p <> pid.
Proof. unfold without. rewrite !list_elem_of_In, List.filter_In, negb_true_iff, Z.eqb_neq. done. Qed.

Lemma without_absent pid l : look l pid = None -> without pid l = l.
Proof.
  intros Hl. rewrite look_none in Hl. unfold without. induction l as [| p l IH]; [done |]. cbn in *.
  apply not_elem_of_cons in Hl as [Hne Hl]. rewrite (proj2 (Z.eqb_neq (PID p) pid)) by congruence. cbn. by rewrite IH.
Qed.

Lemma distinct_without pid l : distinct l -> distinct (without pid l).
Proof.
  unfold distinct. intros Hd. induction l as [| p l IH]; [done |]. cbn in *. apply NoDup_cons in Hd as [Hnin Hd].
  destruct (PID p =? pid); cbn; [by apply IH |]. apply NoDup_cons. split; [| by apply IH].
  intros (q & E & Hq)%list_elem_of_fmap. apply Hnin. rewrite E. apply list_elem_of_fmap. exists q.
  split; [done |]. by apply elem_of_without in Hq as [? _].
Qed.

Lemma look_without pid l k : look (without pid l) k = if k =? pid then None else look l k.
Proof.
  unfold look, without. induction l as [| p l IH]; cbn; [by destruct (k =? pid) |].
  destruct (Z.eqb_spec (PID p) pid) as [E | E]; cbn.
  - rewrite IH. destruct (Z.eqb_spec k pid) as [Ek | Hne]; [done |].
    by rewrite (proj2 (Z.eqb_neq (PID p) k)) by congruence.
  - rewrite IH. destruct (Z.eqb_spec (PID p) k) as [E2 |]; [| done]. by rewrite (proj2 (Z.eqb_neq k pid)) by congruence.
Qed.

Lemma delete_without l i p : distinct l -> l !! i = Some p -> delete i l = without (PID p) l.
Proof.
  revert i. induction l as [| q l IH]; intros i; [done |]. unfold distinct. cbn. intros [Hnin Hd]%NoDup_cons Hi.
  destruct i as [| i]; cbn in *.
  - simplify_eq. rewrite Z.eqb_refl. cbn. symmetry. apply without_absent. by apply look_none.
  - rewrite (proj2 (Z.eqb_neq (PID q) (PID p))).
    + cbn. f_equal. by apply IH.
    + intros E. apply Hnin. rewrite E. apply list_elem_of_fmap. exists p. split; [done |]. by apply list_elem_of_lookup_2 with i.
Qed.

(** *** The two edits as rebases *)
(** The caller saw [before]; [current] is the list under the lock.  Whatever
    happened to other pids in between is kept. *)
Lemma rebase_put before current p : distinct before -> distinct current ->
  look before (PID p) = look current (PID p) ->
  rebaseProcesses before (without (PID p) before ++ [p]) current = Ok (put p current).
Proof.
  intros Hb Hc Hl.
  assert (distinct (without (PID p) before ++ [p])) as Hd.
  { apply distinct_snoc; [by apply distinct_without |]. by rewrite look_without, Z.eqb_refl. }
  assert (forall k, look (without (PID p) before ++ [p]) k = if k =? PID p then Some p else look before k) as Hlook.
  { intros k. rewrite look_app, look_without. unfold look at 2. cbn. rewrite (Z.eqb_sym k).
    destruct (PID p =? k); [done | by destruct (look before k)]. }
  unfold rebaseProcesses.
  destruct (processesByPID_ok before Hb) as (mb & -> & Lb). destruct (processesByPID_ok _ Hd) as (md & -> & Ld).
  destruct (processesByPID_ok current Hc) as (mc & -> & _). cbn [wrap_err mbind result_bind].
  rewrite (foldM_skip (rebase_remove md)).
  2: { intros a Ha. unfold rebase_remove. rewrite Ld, Hlook. destruct (PID a =? PID p); [done |].
       by rewrite (elem_look before a). }
  cbn [mbind result_bind]. rewrite foldM_app, (foldM_skip (rebase_change mb)).
  2: { intros a [Ha _]%elem_of_without. unfold rebase_change. rewrite Lb, (elem_look before a) by done.
       by rewrite bool_decide_eq_true_2. }
  cbn [mbind result_bind foldM]. unfold rebase_change at 1. rewrite Lb, Hl.
  pose proof (processIndex_look current (PID p)) as Hi. unfold put.
  assert (forall s, foldM (rebase_add mb) (without (PID p) before) s = Ok s) as Hskip.
  { intros s. apply foldM_skip. intros a [Ha _]%elem_of_without. unfold rebase_add. by rewrite Lb, (elem_look before a). }
  destruct (processIndex current (PID p)) as [i |] eqn:Ei.
  - destruct Hi as (q & Hq & -> & Eq). case_bool_decide as Hpq; cbn [mbind result_bind].
    + rewrite foldM_app, Hskip. cbn [mbind result_bind foldM]. unfold rebase_add. rewrite Lb, Hl.
      pose proof (elem_look current q Hc) as Hlq. rewrite Eq in Hlq. rewrite Hlq by by apply list_elem_of_lookup_2 with i.
      cbn [mbind result_bind]. subst q. by rewrite list_insert_id.
    + unfold unchanged_index. rewrite Ei, bool_decide_eq_true_2 by done. cbn [mbind result_bind]. rewrite foldM_app, Hskip.
      cbn [mbind result_bind foldM]. unfold rebase_add. rewrite Lb, Hl.
      pose proof (elem_look current q Hc) as Hlq. rewrite Eq in Hlq. rewrite Hlq by by apply list_elem_of_lookup_2 with i.
      done.
  - rewrite Hi. cbn [mbind result_bind]. rewrite foldM_app, Hskip. cbn [mbind result_bind foldM].
    unfold rebase_add. by rewrite Lb, Hl, Hi, Ei.
Qed.

(** The removal loop when only [p] goes. *)
Lemma removal_loop (desired : gmap Z Process) pid p before current :
  look current pid = Some p -> (forall a, a ∈ before -> a = p \/ is_Some (desired !! PID a)) ->
  desired !! PID p = None -> distinct current ->
  look before pid = Some p -> distinct before ->
  foldM (rebase_remove desired) before current = Ok (without pid current).
Proof.
  intros Hp Hall Hgone Hc Hpb Hb. pose proof (look_PID _ _ _ Hp) as Epid.
  apply look_elem, list_elem_of_split in Hpb as (l1 & l2 & ->).
  assert (forall l s, (forall a, a ∈ l -> a ∈ l1 ++ p :: l2 /\ a <> p) -> foldM (rebase_remove desired) l s = Ok s) as Hskip.
  { intros l s Hsub. apply foldM_skip. intros a [Ha Hne]%Hsub. unfold rebase_remove.
    destruct (Hall a Ha) as [? | [q ->]]; done. }
  assert (forall a, a ∈ l1 \/ a ∈ l2 -> a <> p) as Hother.
  { intros a Ha ->. unfold distinct in Hb. rewrite map_app in Hb. cbn in Hb.
    apply NoDup_app in Hb as (_ & Hx & [Hy _]%NoDup_cons). destruct Ha as [Ha | Ha].
    - apply (Hx (PID p)); [by apply list_elem_of_fmap_2 | left].
    - apply Hy. by apply list_elem_of_fmap_2. }
  rewrite foldM_app, (Hskip l1). 2: { intros a Ha. split; [set_solver | auto]. }
  assert (rebase_remove desired current p = Ok (without pid current)) as Hdrop.
  { unfold rebase_remove. rewrite Hgone. unfold unchanged_index. pose proof (processIndex_look current (PID p)) as Hi.
    rewrite Epid in *. destruct (processIndex current pid) as [i |]; [| congruence].
    destruct Hi as (q & Hq & Hlq & _). assert (q = p) as -> by congruence.
    rewrite bool_decide_eq_true_2 by done. cbn [mbind result_bind]. by rewrite (delete_without _ _ p), Epid. }
  cbn [mbind result_bind foldM]. rewrite Hdrop. cbn [mbind result_bind].
  apply Hskip. intros a Ha. split; [set_solver | auto].
Qed.

Lemma rebase_without before current pid : distinct before -> distinct current ->
  look before pid = look current pid ->
  rebaseProcesses before (without pid before) current = Ok (without pid current).
Proof.
  intros Hb Hc Hl. unfold rebaseProcesses.
  destruct (processesByPID_ok before Hb) as (mb & -> & Lb).
  destruct (processesByPID_ok _ (distinct_without pid before Hb)) as (md & -> & Ld).
  destruct (processesByPID_ok current Hc) as (mc & -> & _). cbn [wrap_err mbind result_bind].
  assert (foldM (rebase_remove md) before current = Ok (without pid current)) as ->.
  { destruct (look current pid) as [p |] eqn:Ep.
    - pose proof (look_PID _ _ _ Ep) as Epid. apply (removal_loop md pid p); [done | | | done | congruence | done].
      + intros a Ha. rewrite Ld, look_without. destruct (Z.eqb_spec (PID a) pid) as [E |].
        * left. pose proof (elem_look before a Hb Ha) as Hx. rewrite E, Hl in Hx. congruence.
        * right. rewrite (elem_look before a) by done. by eexists.
      + by rewrite Ld, look_without, Epid, Z.eqb_refl.
    - rewrite without_absent by done. apply foldM_skip. intros a Ha. unfold rebase_remove. rewrite Ld, look_without.
      rewrite (elem_look before a) by done. destruct (Z.eqb_spec (PID a) pid) as [E |]; [| done].
      pose proof (elem_look before a Hb Ha) as Hx. rewrite E, Hl in Hx. done. }
  cbn [mbind result_bind]. rewrite foldM_skip; [cbn [mbind result_bind]; rewrite foldM_skip; [done |] |].
  - intros a [Ha _]%elem_of_without. unfold rebase_add. by rewrite Lb, (elem_look before a).
  - intros a [Ha _]%elem_of_without. unfold rebase_change. rewrite Lb, (elem_look before a) by done.
    by rewrite bool_decide_eq_true_2.
Qed.

(** ** The edits on the node *)
(** A device with another process list: its non-process memory and its pool
    keep their size. *)
Definition with_processes (ps : list Process) (d : DeviceState) : DeviceState :=
  set_reconciled ps (UsedBytes d - owned d + owned_bytes ps) (FreeBytes d + owned d - owned_bytes ps) d.

(** Processes never own more than what is in use. *)
Definition consistent (d : DeviceState) : Prop := owned d <= UsedBytes d.

Lemma owned_aligned ps : owned_bytes ps mod mib = 0.
Proof.
  unfold owned_bytes. induction ps as [| p ps IH]; [done |]. cbn [sumZ].
  rewrite Z.add_mod, IH, Z.mod_mul by done. done.
Qed.

(** Updating the GPU [d] is updating whatever carries its index. *)
Lemma update_gpu_unique {W} `{NvidiaSmi W} (w : W) d f g : d ∈ gpus w -> f d = g d ->
  update_gpu (Index d) f (gpus w) = update_gpu (Index d) g (gpus w).
Proof.
  intros Hd E. unfold update_gpu. apply map_ext_in. intros e He%list_elem_of_In.
  destruct (Z.eqb_spec (Index e) (Index d)) as [Ei |]; [| done]. destruct (gpus_ok w) as (_ & Hidx & _).
  by assert (e = d) as -> by by apply (NoDup_map_inj Index (gpus w)).
Qed.

Lemma sent_valid p : sent p -> process_typed p /\ validateProcess p = Ok tt.
Proof.
  intros [((Hp & Hne) & Ht & Hn & Hu & H1 & H2 & H3 & H4) _]. unfold percent in *. split.
  - unfold process_typed. split_and!; try apply Hp; try apply Hu; word.
  - unfold validateProcess. rewrite (proj2 (Z.eqb_neq (PID p) 0)) by done.
    assert ((negb (String.eqb (Type_ p) "") && negb (String.eqb (Type_ p) "C") && negb (String.eqb (Type_ p) "G")) = false) as ->
      by (destruct Ht as [-> | ->]; done).
    rewrite !(proj2 (gtb_false _ 100)) by lia. done.
Qed.

Section edits.
Context {W : Type} `{NvmlMockProcesses W}.
Context (mg : Manager W) (target : string) (d : DeviceState) (w : W).
Context (Hwired : wired mg) (Hlock : lockable mg w) (Hgpu : names_gpu target d w).
Context (Hpath : mg_MutationLockPath mg <> "") (Hcons : consistent d).

Lemma replace_run before desired ps :
  rebaseProcesses (Processes before) desired (Processes d) = Ok ps -> Forall sent ps -> distinct ps ->
  let r := ReplaceProcessesFromState (Some mg) target before desired w in
  if owned_bytes ps <=? owned d + FreeBytes d
  then r.1 = Ok tt /\ gpus r.2 = update_gpu (Index d) (with_processes ps) (gpus w)
  else (exists e, r.1 = Err e) /\ gpus r.2 = gpus w.
Proof.
  intros Hrebase Hsent Hdist r. destruct (names_gpu_ok _ _ _ Hgpu) as (Hin & Hd & [Hvis _] & _).
  pose proof (device_ok_typed d Hd) as Ht. pose proof (owned_nonneg d Ht). unfold consistent in Hcons.
  pose proof (replace_locked mg target before desired d w Hwired Hlock Hgpu Hpath) as Hrun. cbv zeta in Hrun. fold r in Hrun.
  rewrite Hrebase in Hrun. destruct Hrun as (w1 & G & E1 & E2). rewrite E1, E2, <- G. clear E1 E2. clearbody r. clear r.
  assert (Forall process_typed ps) as Htyped by (eapply Forall_impl; [exact Hsent | by intros p [? _]%sent_valid]).
  assert (Forall (fun p => validateProcess p = Ok tt) ps) as Hvalid
    by (eapply Forall_impl; [exact Hsent | by intros p [_ ?]%sent_valid]).
  pose proof (owned_bytes_nonneg _ Htyped). pose proof Ht as (? & ? & ? & _).
  pose proof Hd as (_ & _ & _ & _ & [_ Mu] & [_ Mf] & _).
  pose proof (owned_aligned ps) as Mps. pose proof (owned_aligned (Processes d)) as Md. fold (owned d) in Md.
  unfold reconcileProcessesFromState. erewrite lift_bind_ok.
  2: { apply reconcile_plan_ok; [done |]. split; [done |]. split; [word | done]. }
  pose proof Hwired as [(c & Hc & Hb & Hr) _]. unfold manager_client. cbn [mbind option_bind]. rewrite Hc.
  destruct (Z.leb_spec (owned_bytes ps) (owned d + FreeBytes d)) as [Hfit | Hno].
  - rewrite SetProcessesReconciled_run; [| done | word | word | word |].
    2: { split; [done |]. lia. }
    unfold exact_reconciled_args, run, runOutput. cbv zeta. rewrite Hb.
    assert (exists env, Run (effective_runner c) ctl_binary = os_exec env ctl_binary) as (env & ->).
    { destruct Hr as [-> | [values ->]]; by eexists. }
    replace (TotalBytes d - Z.max 0 (TotalBytes d - (UsedBytes d + FreeBytes d)) - (UsedBytes d - owned d + owned_bytes ps))
      with (FreeBytes d + owned d - owned_bytes ps) by lia.
    assert (forall a b c, a mod mib = 0 -> b mod mib = 0 -> c mod mib = 0 -> (a - b + c) mod mib = 0) as Hmod.
    { intros x y z Mx My Mz. rewrite Z.add_mod, Zminus_mod, Mx, My, Mz by done. done. }
    pose proof Hgpu as [-> _].
    destruct (ctl_set_processes env c d ps (UsedBytes d - owned d + owned_bytes ps) (FreeBytes d + owned d - owned_bytes ps) w1)
      as (out & w' & Hx & Hg); [by rewrite G | done | done | | | lia |].
    { split; [word | by apply Hmod]. }
    { split; [word |]. replace (FreeBytes d + owned d - owned_bytes ps) with (FreeBytes d - owned_bytes ps + owned d) by lia.
      by apply Hmod. }
    rewrite Hx. split; [done |]. cbn. rewrite Hg. apply (update_gpu_unique _ d); [by rewrite G | done].
  - edestruct SetProcessesReconciled_rejects as [e ->]; [done | | | | | by split; [exists e |]]; [word .. |].
    intros [_ Hle]. lia.
Qed.
End edits.

(** ** The in-memory node obeys the law *)
Lemma update_gpu_reconciled_ok index ps used free l :
  machine_ok l -> Forall process_ok ps -> distinct ps -> mib_aligned used -> mib_aligned free ->
  (forall d, d ∈ l -> Index d = index -> used + free <= TotalBytes d) ->
  machine_ok (update_gpu index (set_reconciled ps used free) l).
Proof.
  intros ((Hok & Hi & Hu) & Hpool) Hps Hdist Hus Hf Hle. split; [split; [| split] |].
  - rewrite Forall_forall in *. intros e (d & Hd & ->)%elem_of_update_gpu. specialize (Hok d Hd).
    destruct (Index d =? index); [| done]. unfold device_ok in *. cbn. tauto.
  - unfold update_gpu. rewrite map_map. erewrite map_ext; [exact Hi |]. intros e. by destruct (Index e =? index).
  - unfold update_gpu. rewrite map_map. erewrite map_ext; [exact Hu |]. intros e. by destruct (Index e =? index).
  - rewrite Forall_forall in *. intros e (d & Hd & ->)%elem_of_update_gpu. specialize (Hpool d Hd).
    destruct (Z.eqb_spec (Index d) index); [| done]. destruct Hpool as [_ Huuid]. split; [cbn; by apply Hle | exact Huuid].
Qed.

Lemma ctl_exec_set_processes (c : Client Machine) d ps used free n :
  d ∈ machine_gpus n -> Forall sent ps -> distinct ps -> mib_aligned used -> mib_aligned free ->
  used + free <= TotalBytes d ->
  exists n', ctl_exec (full_args c (reconciled_args (Itoa (Index d)) (json_processes ps) used free)) n = (("", None), n') /\
    machine_gpus n' = update_gpu (Index d) (set_reconciled ps used free) (machine_gpus n).
Proof.
  intros Hd Hs Hdist Hu Hf Hle. unfold ctl_exec, reconciled_args. cbv zeta. rewrite strip_flags_full by done.
  rewrite !TrimPrefix_app, !ParseUint_FormatUint by (destruct Hu, Hf; word). assert (Forall sendable ps) as Hsend.
  { eapply Forall_impl; [exact Hs |]. intros p [Hp Hn].
    assert (sent p) as [? _]%sent_valid by done. destruct Hp as (_ & Ht & _).
    split; [done |]. split; [by destruct Ht as [-> | ->] | done]. }
  rewrite read_json_processes, sendable_unchanged; [| done | by eapply Forall_impl; [exact Hsend | intros ? []]].
  pose proof (machine_gpus_ok n) as Hn. pose proof Hn as ((Hok & Hidx & _) & _). rewrite Forall_forall in Hok.
  assert (map (fun e => if String.eqb (Itoa (Index e)) (Itoa (Index d)) then set_reconciled ps used free e else e)
    (machine_gpus n) = update_gpu (Index d) (set_reconciled ps used free) (machine_gpus n)) as ->.
  { apply map_ext_in. intros e He%list_elem_of_In.
    pose proof (Hok e He) as (Hie & _). pose proof (Hok d Hd) as (Hid & _).
    destruct (Z.eqb_spec (Index e) (Index d)) as [-> | Hne]; [by rewrite String.eqb_refl |].
    destruct (String.eqb_spec (Itoa (Index e)) (Itoa (Index d))) as [E |]; [| done].
    apply Itoa_inj in E; [done | split; unfold int64_cutoff in *; lia ..]. }
  destruct (make_machine_ok (update_gpu (Index d) (set_reconciled ps used free) (machine_gpus n))) as (n' & -> & Hg).
  { apply update_gpu_reconciled_ok; [done | by eapply Forall_impl; [exact Hs | by intros ? []] | done .. |].
    intros e He E. by assert (e = d) as -> by by apply (NoDup_map_inj Index (machine_gpus n)). }
  exists n'. by split.
Qed.

#[export] Instance machine_processes : NvmlMockProcesses Machine.
Proof.
  refine {| ctl_set_processes := _ |}. intros env c d ps used free n Hd Hs Hdist Hu Hf Hle.
  exists "". by apply ctl_exec_set_processes.
Defined.
End process_node.
