(* ===== verification/Locking.v ===== *)
(** * Concurrent control processes: the mutation lock of
    [internal/control/manager.go]

    Several processes run memory operations on one GPU at the same time.
    Each operation is the sequence of steps of [withMutationLock] around
    [update_memory]: take the file lock, read the device, compute the plan
    and write the two counters, drop the lock.  The steps of different
    processes interleave arbitrarily.  With the lock the operations are
    atomic; without it (an empty [MutationLockPath]) an update can be lost. *)
From stdpp Require Import relations.
From S2P Require Import Prelude Control Observe Manager Node.
Import control observe manager node.

Module locking.

(** What an operation computes from the state it read ([reserve_plan delta],
    [release_plan delta], [set_used_plan used]). *)
Definition plan : Type := DeviceState -> result (Z * Z).

Inductive phase :=
  | Start
  | Entered                      (* inside withMutationLock, nothing read *)
  | HasRead (seen : DeviceState)
  | Wrote (r : result unit)      (* SetMemory returned, lock not yet dropped *)
  | Finished (r : result unit).

Record state := {
  dev : DeviceState;
  holder : option nat;
  phases : list phase;
  log : list (nat * result unit)   (* the operations that took effect, in order *)
}.

(** The outcome of a plan computed on [seen] and written to [current]. *)
Definition write_result (p : plan) (seen : DeviceState) : result unit := '(_, _) ← p seen; Ok tt.
Definition write_device (p : plan) (seen current : DeviceState) : DeviceState :=
  match p seen with Ok (used, free) => set_memory used free current | Err _ => current end.

Section system.
Context (locked : bool) (plans : list plan).

Inductive step : state -> state -> Prop :=
  | step_acquire s i :
      phases s !! i = Some Start -> (locked = true -> holder s = None) ->
      step s {| dev := dev s; holder := if locked then Some i else holder s;
                phases := <[i := Entered]> (phases s); log := log s |}
  | step_read s i :
      phases s !! i = Some Entered ->
      step s {| dev := dev s; holder := holder s;
                phases := <[i := HasRead (dev s)]> (phases s); log := log s |}
  | step_write s i p seen :
      phases s !! i = Some (HasRead seen) -> plans !! i = Some p ->
      step s {| dev := write_device p seen (dev s); holder := holder s;
                phases := <[i := Wrote (write_result p seen)]> (phases s);
                log := log s ++ [(i, write_result p seen)] |}
  | step_release s i r :
      phases s !! i = Some (Wrote r) ->
      step s {| dev := dev s; holder := if locked then None else holder s;
                phases := <[i := Finished r]> (phases s); log := log s |}.

Definition init (d0 : DeviceState) : state :=
  {| dev := d0; holder := None; phases := map (fun _ => Start) plans; log := [] |}.

(** ** The specification: operations that happen at one instant *)
Inductive spec_step : DeviceState * list (nat * result unit) -> DeviceState * list (nat * result unit) -> Prop :=
  | spec_atomic d l i p :
      plans !! i = Some p -> i ∉ map fst l ->
      spec_step (d, l) (write_device p d d, l ++ [(i, write_result p d)]).

(** ** The invariant of the locked system *)
Definition inside (ph : phase) : bool :=
  match ph with Entered | HasRead _ | Wrote _ => true | Start | Finished _ => false end.
Definition logged (ph : phase) : option (result unit) :=
  match ph with Wrote r | Finished r => Some r | _ => None end.

Record inv (s : state) : Prop := {
  inv_length : length (phases s) = length plans;
  inv_holder : forall i ph, phases s !! i = Some ph -> inside ph = true -> holder s = Some i;
  inv_holder_inside : forall i, holder s = Some i -> exists ph, phases s !! i = Some ph /\ inside ph = true;
  inv_seen : forall i seen, phases s !! i = Some (HasRead seen) -> seen = dev s;
  inv_log : forall i r, (i, r) ∈ log s <-> exists ph, phases s !! i = Some ph /\ logged ph = Some r
}.

Lemma inv_init d0 : inv (init d0).
Proof.
  split; cbn.
  - by rewrite length_map.
  - intros i ph Hi Hin. apply list_lookup_fmap_Some in Hi as (? & -> & _). done.
  - done.
  - intros i seen Hi. by apply list_lookup_fmap_Some in Hi as (? & ? & _).
  - intros i r. split; [by intros ?%elem_of_nil |]. intros (ph & Hi & Hl).
    by apply list_lookup_fmap_Some in Hi as (? & -> & _).
Qed.

Lemma lookup_insert_phase (l : list phase) i j ph ph' old :
  l !! i = Some old -> <[i := ph]> l !! j = Some ph' ->
  (j = i /\ ph' = ph) \/ (j <> i /\ l !! j = Some ph').
Proof.
  intros Hi Hj. destruct (decide (i = j)) as [<- | Hne].
  - rewrite list_lookup_insert_eq in Hj by by eapply lookup_lt_Some. left. by injection Hj.
  - rewrite list_lookup_insert_ne in Hj by done. by right.
Qed.

Lemma phase_insert_eq (l : list phase) i ph old : l !! i = Some old -> <[i := ph]> l !! i = Some ph.
Proof. intros Hi. apply list_lookup_insert_eq. by eapply lookup_lt_Some. Qed.

(** The log clause under a change of one phase. *)
Lemma log_insert s i old new :
  inv s -> phases s !! i = Some old -> logged new = logged old ->
  forall j r, (j, r) ∈ log s <-> exists ph, <[i := new]> (phases s) !! j = Some ph /\ logged ph = Some r.
Proof.
  intros Hs Hi Hl j r. rewrite (inv_log s Hs). split.
  - intros (ph & Hj & Hr). destruct (decide (i = j)) as [<- | Hne].
    + exists new. split; [by eapply phase_insert_eq | congruence].
    + exists ph. by rewrite list_lookup_insert_ne.
  - intros (ph & Hj & Hr). destruct (lookup_insert_phase _ _ _ _ _ _ Hi Hj) as [[-> ->] | [_ Hj']].
    + exists old. split; [done | congruence].
    + by exists ph.
Qed.

(** And when its operation takes effect. *)
Lemma log_append s i seen res :
  inv s -> phases s !! i = Some (HasRead seen) ->
  forall j r, (j, r) ∈ log s ++ [(i, res)] <-> exists ph, <[i := Wrote res]> (phases s) !! j = Some ph /\ logged ph = Some r.
Proof.
  intros Hs Hi j r. rewrite elem_of_app, list_elem_of_singleton, (inv_log s Hs). split.
  - intros [(ph & Hj & Hl) | [= -> ->]].
    + exists ph. rewrite list_lookup_insert_ne; [done |]. intros ->. rewrite Hi in Hj. by simplify_eq.
    + eexists. split; [by eapply phase_insert_eq | done].
  - intros (ph & Hj & Hl). destruct (lookup_insert_phase _ _ _ _ _ _ Hi Hj) as [[-> ->] | [_ Hj']].
    + right. cbn in Hl. congruence.
    + left. by exists ph.
Qed.
End system.

(** With the lock, a process inside is alone. *)
Lemma step_inv plans s s' : inv plans s -> step true plans s s' -> inv plans s'.
Proof.
  intros Hs Hstep. pose proof (inv_holder plans s Hs) as Hh.
  assert (forall i j phi phj, phases s !! i = Some phi -> phases s !! j = Some phj ->
    inside phi = true -> inside phj = true -> i = j) as Halone.
  { intros i j phi phj Hi Hj Ii Ij. pose proof (Hh _ _ Hi Ii). pose proof (Hh _ _ Hj Ij). congruence. }
  destruct Hstep as [s i Hi Hfree | s i Hi | s i p seen Hi Hp | s i r Hi].
  - assert (forall j ph, phases s !! j = Some ph -> inside ph = false) as Hout.
    { intros j ph Hj. destruct (inside ph) eqn:E; [| done]. pose proof (Hh _ _ Hj E).
      rewrite Hfree in *; done. }
    split; cbn.
    + rewrite length_insert. apply Hs.
    + intros j ph Hj Hin. destruct (lookup_insert_phase _ _ _ _ _ _ Hi Hj) as [[-> _] | [_ Hj']]; [done |].
      by rewrite (Hout j ph Hj') in Hin.
    + intros j [= <-]. exists Entered. split; [by eapply phase_insert_eq | done].
    + intros j seen Hj. destruct (lookup_insert_phase _ _ _ _ _ _ Hi Hj) as [[_ ?] | [_ Hj']]; [done |].
      by eapply (inv_seen plans s Hs).
    + by apply (log_insert plans s i Start).
  - split; cbn.
    + rewrite length_insert. apply Hs.
    + intros j ph Hj Hin. destruct (lookup_insert_phase _ _ _ _ _ _ Hi Hj) as [[-> _] | [_ Hj']]; by eapply Hh.
    + intros j Hj. assert (j = i) as -> by (pose proof (Hh _ _ Hi eq_refl); congruence).
      exists (HasRead (dev s)). split; [by eapply phase_insert_eq | done].
    + intros j seen Hj. destruct (lookup_insert_phase _ _ _ _ _ _ Hi Hj) as [[_ [= ->]] | [_ Hj']]; [done |].
      by eapply (inv_seen plans s Hs).
    + by apply (log_insert plans s i Entered).
  - split; cbn.
    + rewrite length_insert. apply Hs.
    + intros j ph Hj Hin. destruct (lookup_insert_phase _ _ _ _ _ _ Hi Hj) as [[-> _] | [_ Hj']]; by eapply Hh.
    + intros j Hj. assert (j = i) as -> by (pose proof (Hh _ _ Hi eq_refl); congruence).
      eexists. split; [by eapply phase_insert_eq | done].
    + intros j seen' Hj. destruct (lookup_insert_phase _ _ _ _ _ _ Hi Hj) as [[_ ?] | [Hne Hj']]; [done |].
      exfalso. apply Hne. by apply (Halone j i (HasRead seen') (HasRead seen)).
    + by eapply log_append.
  - split; cbn.
    + rewrite length_insert. apply Hs.
    + intros j ph Hj Hin. destruct (lookup_insert_phase _ _ _ _ _ _ Hi Hj) as [[_ ->] | [Hne Hj']]; [done |].
      exfalso. apply Hne. by apply (Halone j i ph (Wrote r)).
    + done.
    + intros j seen Hj. destruct (lookup_insert_phase _ _ _ _ _ _ Hi Hj) as [[_ ?] | [_ Hj']]; [done |].
      by eapply (inv_seen plans s Hs).
    + by apply (log_insert plans s i (Wrote r)).
Qed.

Lemma reachable_inv plans d0 s : rtc (step true plans) (init plans d0) s -> inv plans s.
Proof.
  intros Hr. assert (inv plans (init plans d0)) as H0 by apply inv_init. revert H0.
  induction Hr as [| s1 s2 s3 Hst _ IH]; [done |]. intros H1. apply IH. by eapply step_inv.
Qed.

(** One step of the locked system is an atomic operation or changes nothing
    that the specification shows. *)
Lemma step_refines plans s s' : inv plans s -> step true plans s s' ->
  (dev s', log s') = (dev s, log s) \/ spec_step plans (dev s, log s) (dev s', log s').
Proof.
  intros Hs Hstep. destruct Hstep as [s i Hi Hfree | s i Hi | s i p seen Hi Hp | s i r Hi];
    [by left | by left | | by left].
  right. cbn. rewrite (inv_seen plans s Hs i seen Hi) in *. constructor; [done |].
  intros Hin. apply list_elem_of_fmap in Hin as ([j r] & E & Hr). cbn in E. subst j.
  apply (inv_log plans s Hs) in Hr as (ph & Hph & Hl). rewrite Hi in Hph. by simplify_eq.
Qed.

Lemma spec_log_NoDup plans d0 x : rtc (spec_step plans) (d0, []) x -> NoDup (map fst x.2).
Proof.
  intros Hr. apply (rtc_ind_r (fun x => NoDup (map fst x.2)) (d0, [])) in Hr; [done | constructor |].
  intros y z _ [d l i p Hp Hi] Hnd. cbn in *. rewrite map_app. apply NoDup_app. split; [done |].
  split; [| apply NoDup_singleton]. cbn. set_solver.
Qed.

(** What reservations have added up to. *)
Definition granted (deltas : list Z) (l : list (nat * result unit)) : Z :=
  sumZ (fun e => match e.2 with Ok _ => default 0 (deltas !! e.1) | Err _ => 0 end) l.

Lemma granted_snoc deltas l i r :
  granted deltas (l ++ [(i, r)]) =
  granted deltas l + match r with Ok _ => default 0 (deltas !! i) | Err _ => 0 end.
Proof. unfold granted. rewrite sumZ_app. cbn. lia. Qed.

Definition reservations (deltas : list Z) : list plan := map reserve_plan deltas.

Lemma reservations_accounting deltas d0 x :
  device_typed d0 -> Forall u64 deltas -> UsedBytes d0 + FreeBytes d0 <= u64_max ->
  rtc (spec_step (reservations deltas)) (d0, []) x ->
  device_typed x.1 /\ UsedBytes x.1 = UsedBytes d0 + granted deltas x.2 /\
  FreeBytes x.1 = FreeBytes d0 - granted deltas x.2.
Proof.
  intros Ht Hdeltas Hpool Hr.
  apply (rtc_ind_r (fun x => device_typed x.1 /\ UsedBytes x.1 = UsedBytes d0 + granted deltas x.2 /\
    FreeBytes x.1 = FreeBytes d0 - granted deltas x.2) (d0, [])) in Hr; [done | |].
  - cbn. split; [done |]. split; lia.
  - intros y z _ [d l i p Hp Hi] (Hd & Hu & Hf). cbn [fst snd] in *.
    apply list_lookup_fmap_Some in Hp as (delta & -> & Hdelta).
    assert (u64 delta) as Hdu by (rewrite Forall_lookup in Hdeltas; by eapply Hdeltas).
    rewrite granted_snoc, Hdelta. unfold write_device, write_result.
    destruct (reserve_plan delta d) as [[used free] | e] eqn:Ep; cbn.
    + apply reserve_plan_ok in Ep as (? & ? & [= -> ->]); [| done | done].
      destruct Hd as (? & ? & ? & Hps). split; [| split; lia].
      split; [done |]. split; [cbn; word |]. split; [cbn; word | exact Hps].
    + split; [done |]. split; lia.
Qed.

(** The step relation as a function of the process that moves. *)
Definition sched_step (locked : bool) (plans : list plan) (s : state) (i : nat) : option state :=
  match phases s !! i with
  | Some Start =>
      if locked && negb (bool_decide (holder s = None)) then None else
      Some {| dev := dev s; holder := if locked then Some i else holder s;
              phases := <[i := Entered]> (phases s); log := log s |}
  | Some Entered =>
      Some {| dev := dev s; holder := holder s;
              phases := <[i := HasRead (dev s)]> (phases s); log := log s |}
  | Some (HasRead seen) =>
      match plans !! i with
      | Some p =>
          Some {| dev := write_device p seen (dev s); holder := holder s;
                  phases := <[i := Wrote (write_result p seen)]> (phases s);
                  log := log s ++ [(i, write_result p seen)] |}
      | None => None
      end
  | Some (Wrote r) =>
      Some {| dev := dev s; holder := if locked then None else holder s;
              phases := <[i := Finished r]> (phases s); log := log s |}
  | _ => None
  end.

Fixpoint run_schedule (locked : bool) (plans : list plan) (s : state) (schedule : list nat) : option state :=
  match schedule with
  | [] => Some s
  | i :: rest => s' ← sched_step locked plans s i; run_schedule locked plans s' rest
  end.

Lemma sched_step_sound locked plans s i s' : sched_step locked plans s i = Some s' -> step locked plans s s'.
Proof.
  unfold sched_step. destruct (phases s !! i) as [[| | seen | r | r] |] eqn:Ei; try discriminate.
  - destruct (locked && _) eqn:E; [discriminate |]. intros [= <-]. apply step_acquire; [done |].
    intros ->. cbn in E. case_bool_decide; [done | discriminate].
  - intros [= <-]. by apply step_read.
  - destruct (plans !! i) as [p |] eqn:Ep; [| discriminate]. intros [= <-]. by apply step_write.
  - intros [= <-]. by apply step_release.
Qed.

Lemma run_schedule_reachable locked plans schedule s s' :
  run_schedule locked plans s schedule = Some s' -> rtc (step locked plans) s s'.
Proof.
  revert s. induction schedule as [| i schedule IH]; intros s; cbn; [by intros [= <-] |].
  destruct (sched_step locked plans s i) as [s1 |] eqn:E; [| discriminate]. intros Hr.
  eapply rtc_l; [by eapply sched_step_sound | by apply IH].
Qed.

(** How many steps the processes still have to take. *)
Definition phase_steps (ph : phase) : nat :=
  match ph with Start => 4 | Entered => 3 | HasRead _ => 2 | Wrote _ => 1 | Finished _ => 0 end.
Definition remaining (s : state) : nat := sum_list_with phase_steps (phases s).

Lemma sum_list_with_insert (f : phase -> nat) l i old new :
  l !! i = Some old -> (sum_list_with f (<[i := new]> l) + f old = sum_list_with f l + f new)%nat.
Proof.
  revert i. induction l as [| ph l IH]; intros [| i]; [done | done | |].
  - intros [= ->]. change (<[0%nat := new]> (old :: l)) with (new :: l). cbn. lia.
  - intros Hi. specialize (IH i Hi). change (<[S i := new]> (ph :: l)) with (ph :: <[i := new]> l).
    cbn [sum_list_with]. lia.
Qed.

Lemma step_remaining locked plans s s' : step locked plans s s' -> (remaining s' < remaining s)%nat.
Proof.
  intros [s1 i Hi _ | s1 i Hi | s1 i p seen Hi Hp | s1 i r Hi]; unfold remaining; cbn;
  match goal with |- context [<[i := ?new]> _] =>
    pose proof (sum_list_with_insert phase_steps _ i _ new Hi) as E; cbn in E; lia end.
Qed.

(** ** Properties *)

(** C5. With the mutation lock, memory operations of concurrent control
    processes are linearizable: whatever the interleaving, the device and
    the results are those of running the operations one after the other,
    each at one instant, in the order they are logged; every operation takes
    effect at most once, and one that has returned is in the log with the
    result it returned. *)
Theorem locked_linearizable plans d0 s :
  rtc (step true plans) (init plans d0) s ->
  rtc (spec_step plans) (d0, []) (dev s, log s) /\ NoDup (map fst (log s)) /\
  forall i r, phases s !! i = Some (Finished r) -> (i, r) ∈ log s.
Proof.
  intros Hr. assert (rtc (spec_step plans) (d0, []) (dev s, log s)) as Hspec.
  { apply (rtc_ind_r (fun s => inv plans s /\ rtc (spec_step plans) (d0, []) (dev s, log s)) (init plans d0)) in Hr.
    - by destruct Hr.
    - split; [apply inv_init | done].
    - intros y z _ Hyz [Hy IH]. split; [by eapply step_inv |].
      destruct (step_refines plans y z Hy Hyz) as [-> | Hsp]; [done |]. by eapply rtc_r. }
  split; [done |]. split; [by apply spec_log_NoDup in Hspec |].
  intros i r Hi. apply (inv_log plans s); [by eapply reachable_inv |]. by exists (Finished r).
Qed.

(** No reservation is lost: when every process reserves memory, the
    used bytes are at all times the initial ones plus the sum of all granted
    reservations, the free bytes are the initial ones minus that sum, and
    free memory never goes below zero: concurrent reservations are never
    granted more than was free. *)
Theorem locked_reservations_exact deltas d0 s :
  device_typed d0 -> Forall u64 deltas -> UsedBytes d0 + FreeBytes d0 <= u64_max ->
  rtc (step true (reservations deltas)) (init (reservations deltas) d0) s ->
  UsedBytes (dev s) = UsedBytes d0 + granted deltas (log s) /\
  FreeBytes (dev s) = FreeBytes d0 - granted deltas (log s) /\ 0 <= FreeBytes (dev s).
Proof.
  intros Ht Hdeltas Hpool Hr. assert (rtc (spec_step (reservations deltas)) (d0, []) (dev s, log s)) as Hspec.
  { apply (rtc_ind_r (fun s => inv (reservations deltas) s /\
      rtc (spec_step (reservations deltas)) (d0, []) (dev s, log s)) (init (reservations deltas) d0)) in Hr.
    - by destruct Hr.
    - split; [apply inv_init | done].
    - intros y z _ Hyz [Hy IH]. split; [by eapply step_inv |].
      destruct (step_refines _ y z Hy Hyz) as [-> | Hsp]; [done |]. by eapply rtc_r. }
  apply reservations_accounting in Hspec as (Hd & Hu & Hf); [| done ..]. cbn in *.
  split; [done |]. split; [done |]. destruct Hd as (_ & _ & [? _] & _). done.
Qed.

(** C40. The lock never blocks the processes for good: from every reachable
    state some process can take a step unless all have finished, and every
    step, by any process, brings the end nearer, so every run is finite and
    ends with all operations finished. *)
Theorem locked_progress plans d0 s :
  rtc (step true plans) (init plans d0) s ->
  ((forall i ph, phases s !! i = Some ph -> exists r, ph = Finished r) \/ exists s', step true plans s s') /\
  forall s', step true plans s s' -> (remaining s' < remaining s)%nat.
Proof.
  intros Hr. split; [| intros s'; apply step_remaining]. pose proof (reachable_inv _ _ _ Hr) as Hs.
  destruct (holder s) as [i |] eqn:Eh.
  - right. destruct (inv_holder_inside plans s Hs i Eh) as (ph & Hi & Hin).
    destruct ph as [| | seen | r | r]; try done.
    + eexists. by apply step_read.
    + destruct (lookup_lt_is_Some_2 plans i) as [p Hp].
      { rewrite <- (inv_length plans s Hs). by eapply lookup_lt_Some. }
      eexists. by eapply step_write.
    + eexists. by eapply step_release.
  - assert (forall i ph, phases s !! i = Some ph -> ph = Start \/ exists r, ph = Finished r) as Hout.
    { intros i ph Hi. destruct (inside ph) eqn:Ein.
      - pose proof (inv_holder plans s Hs i ph Hi Ein). congruence.
      - destruct ph; try done; [by left | right; by eexists]. }
    destruct (decide (Exists (fun ph => phase_steps ph = 4%nat) (phases s))) as [Hex | Hno].
    + right. apply Exists_exists in Hex as (ph & Hin & Hph). apply list_elem_of_lookup in Hin as [i Hi].
      destruct ph; try done. eexists. by apply (step_acquire true plans s i).
    + left. intros i ph Hi. destruct (Hout i ph Hi) as [-> | ?]; [| done].
      exfalso. apply Hno. apply Exists_exists. exists Start. split; [by eapply list_elem_of_lookup_2 | done].
Qed.

Definition spare_gpu (used free : Z) : DeviceState :=
  {| Index := 0; UUID := "GPU-aa"; ds_Name := "T4"; TotalBytes := 16384 * mib; UsedBytes := used * mib;
     FreeBytes := free * mib; GPUUtilization := 0; MemoryUtilization := 0; Processes := [] |}.
Definition two_reservations : list plan := reservations [1024 * mib; 2048 * mib].

(** Without the lock (an empty [MutationLockPath]) the property fails:
    two processes that both reserve and both succeed can leave the device
    with only one of the reservations. *)
Theorem unlocked_lost_update :
  exists s, rtc (step false two_reservations) (init two_reservations (spare_gpu 0 16000)) s /\
    phases s = [Finished (Ok tt); Finished (Ok tt)] /\ UsedBytes (dev s) = 1024 * mib.
Proof.
  destruct (run_schedule false two_reservations (init two_reservations (spare_gpu 0 16000))
    [0; 1; 0; 1; 1; 0; 0; 1]%nat) as [s |] eqn:E; [| by vm_compute in E].
  exists s. split; [by eapply run_schedule_reachable |]. vm_compute in E. by injection E as <-.
Qed.

(** ** Witnesses *)
Definition end_state : state :=
  {| dev := set_memory (3072 * mib) (12928 * mib) (spare_gpu 0 16000); holder := None;
     phases := [Finished (Ok tt); Finished (Ok tt)]; log := [(1%nat, Ok tt); (0%nat, Ok tt)] |}.

Lemma end_state_reachable :
  rtc (step true two_reservations) (init two_reservations (spare_gpu 0 16000)) end_state.
Proof.
  apply (run_schedule_reachable true two_reservations [1; 1; 1; 1; 0; 0; 0; 0]%nat). by vm_compute.
Qed.

Lemma locked_linearizable_witness :
  rtc (spec_step two_reservations) (spare_gpu 0 16000, []) (dev end_state, log end_state).
Proof. exact (proj1 (locked_linearizable two_reservations _ end_state end_state_reachable)). Defined.

Lemma locked_reservations_exact_witness :
  UsedBytes (dev end_state) = 0 + granted [1024 * mib; 2048 * mib] (log end_state).
Proof.
  refine (proj1 (locked_reservations_exact [1024 * mib; 2048 * mib] (spare_gpu 0 16000) end_state _ _ _
    end_state_reachable)).
  - apply (bool_decide_unpack _). by vm_compute.
  - repeat constructor; by vm_compute.
  - by vm_compute.
Defined.

Lemma locked_progress_witness :
  exists s', step true two_reservations (init two_reservations (spare_gpu 0 16000)) s'.
Proof.
  destruct (proj1 (locked_progress two_reservations (spare_gpu 0 16000)
    (init two_reservations (spare_gpu 0 16000)) (rtc_refl _ _))) as [Hall | Hstep]; [| exact Hstep].
  destruct (Hall 0%nat Start eq_refl) as [r Hr]. discriminate Hr.
Defined.

End locking.
