(* ===== verification/CudaEngine.v ===== *)
(** * CUDA engine: [internal/cuda/engine.go]

    Device selection, allocation bookkeeping and fault injection, over a
    backend known only through its operations.  [AccountingBackend] is what
    the engine's correctness needs of a backend; [CudaBackend.v] shows that
    the control backend has it. *)
From S2P Require Import Prelude GoStrings GoStrconv Control.
Import control.

Module cuda.

(** ** Data *)
Inductive Status :=
  | StatusSuccess
  | StatusInvalidValue
  | StatusOutOfMemory
  | StatusInitialization
  | StatusNoDevice
  | StatusInvalidDevice
  | StatusNotFound
  | StatusNotSupported
  | StatusUnknown.

#[export] Instance Status_eq_dec : EqDecision Status.
Proof. solve_decision. Defined.

Definition ErrOutOfMemory : string := "cuda.ErrOutOfMemory".

Record Device := {
  dv_Index : Z;
  dv_UUID : string;
  dv_Name : string;
  dv_PCIBusID : string;
  dv_ComputeMajor : Z;
  dv_ComputeMinor : Z;
  dv_TotalBytes : Z;
  dv_UsedBytes : Z;
  dv_FreeBytes : Z
}.

Definition zero_Device : Device :=
  {| dv_Index := 0; dv_UUID := ""; dv_Name := ""; dv_PCIBusID := ""; dv_ComputeMajor := 0;
     dv_ComputeMinor := 0; dv_TotalBytes := 0; dv_UsedBytes := 0; dv_FreeBytes := 0 |}.

(** The Go interface [Backend]. *)
Record Backend (W : Type) := {
  Devices : M W (list Device);
  Reserve : Z -> Z -> M W unit;
  Release : Z -> Z -> M W unit;
  backend_CUDAVersion : Z
}.
Arguments Devices {W}. Arguments Reserve {W}. Arguments Release {W}. Arguments backend_CUDAVersion {W}.

Record FaultPolicy := { OOMAfter : Z }.

Record Allocation := { Token : Z; Size : Z; al_Device : Z }.

Record Engine (W : Type) := {
  backend : option (Backend W);   (* nil interface: None *)
  fault : FaultPolicy;
  currentDevice : Z;
  allocations : gmap Z Allocation;
  successfulAllocations : Z
}.
Arguments backend {W}. Arguments fault {W}. Arguments currentDevice {W}.
Arguments allocations {W}. Arguments successfulAllocations {W}.

(** An [int64] increment. *)
Definition wrap_int64 (z : Z) : Z := (z + 9223372036854775808) mod 18446744073709551616 - 9223372036854775808.

Lemma wrap_int64_small z : int64 z -> wrap_int64 z = z.
Proof. unfold int64, int64_cutoff, wrap_int64. intros. rewrite Z.mod_small; lia. Qed.

(** ** Configuration *)
(** [os.Getenv]: the first definition in the environment block, or empty. *)
Definition Getenv (environ : list string) (key : string) : string :=
  match env_values key environ with v :: _ => v | [] => "" end.

Definition FaultPolicyFromEnv (environ : list string) : result FaultPolicy :=
  let raw := TrimSpace (Getenv environ "FAKE_NVIDIA_CUDA_OOM_AFTER") in
  if String.eqb raw "" then Ok {| OOMAfter := -1 |} else
  let bad := Errorf "FAKE_NVIDIA_CUDA_OOM_AFTER must be a non-negative integer" [] in
  match ParseInt raw with
  | Err _ => Err bad
  | Ok value => if value <? 0 then Err bad else Ok {| OOMAfter := value |}
  end.

Definition NewEngine {W} (b : option (Backend W)) (policy : FaultPolicy) : result (Engine W) :=
  match b with
  | None => Err (Errorf "CUDA backend is required" [])
  | Some _ =>
      if OOMAfter policy <? -1 then Err (Errorf "OOMAfter cannot be below -1" []) else
      Ok {| backend := b; fault := policy; currentDevice := 0; allocations := ∅; successfulAllocations := 0 |}
  end.

Definition findDevice (devices : list Device) (index : Z) : option Device :=
  find_first (fun d => dv_Index d =? index) devices.

(** ** Operations

    A method on the engine pointer: the pointer may be nil, and the engine
    and the world change. *)
Section engine.
Context {W : Type}.
Implicit Type e : option (Engine W).

Definition with_backend {A} e (nil : A) (f : Engine W -> Backend W -> W -> A * option (Engine W) * W) (w : W)
    : A * option (Engine W) * W :=
  match e with
  | Some en => match backend en with Some b => f en b w | None => (nil, e, w) end
  | None => (nil, e, w)
  end.

Definition Init e : W -> Status * option (Engine W) * W :=
  with_backend e StatusInitialization (fun en b w =>
    match Devices b w with
    | (Err _, w1) => (StatusInitialization, Some en, w1)
    | (Ok _, w1) => (StatusSuccess, Some en, w1)
    end).

Definition DeviceCount e : W -> (Z * Status) * option (Engine W) * W :=
  with_backend e (0, StatusInitialization) (fun en b w =>
    match Devices b w with
    | (Err _, w1) => ((0, StatusUnknown), Some en, w1)
    | (Ok devices, w1) => ((Z.of_nat (length devices), StatusSuccess), Some en, w1)
    end).

Definition engine_Device e (index : Z) : W -> (Device * Status) * option (Engine W) * W :=
  with_backend e (zero_Device, StatusInitialization) (fun en b w =>
    match Devices b w with
    | (Err _, w1) => ((zero_Device, StatusUnknown), Some en, w1)
    | (Ok devices, w1) =>
        match findDevice devices index with
        | Some d => ((d, StatusSuccess), Some en, w1)
        | None => ((zero_Device, StatusInvalidDevice), Some en, w1)
        end
    end).

Definition set_currentDevice (index : Z) (en : Engine W) : Engine W :=
  {| backend := backend en; fault := fault en; currentDevice := index;
     allocations := allocations en; successfulAllocations := successfulAllocations en |}.

Definition SetDevice e (index : Z) (w : W) : Status * option (Engine W) * W :=
  let '((_, status), e1, w1) := engine_Device e index w in
  match status with
  | StatusSuccess => (StatusSuccess, set_currentDevice index <$> e1, w1)
  | _ => (status, e1, w1)
  end.

Definition CurrentDevice e : Z * Status :=
  match e with None => (0, StatusInitialization) | Some en => (currentDevice en, StatusSuccess) end.

(** Free and total bytes of the current device. *)
Definition MemoryInfo e : W -> (Z * Z * Status) * option (Engine W) * W :=
  with_backend e (0, 0, StatusInitialization) (fun en b w =>
    let '((device, status), e1, w1) := engine_Device (Some en) (currentDevice en) w in
    match status with
    | StatusSuccess => ((dv_FreeBytes device, dv_TotalBytes device, StatusSuccess), e1, w1)
    | _ => ((0, 0, status), e1, w1)
    end).

Definition shouldInjectOOMLocked (en : Engine W) : bool :=
  (OOMAfter (fault en) >=? 0) && (successfulAllocations en >=? OOMAfter (fault en)).

Definition add_allocation (token size : Z) (en : Engine W) : Engine W :=
  {| backend := backend en; fault := fault en; currentDevice := currentDevice en;
     allocations := <[token := {| Token := token; Size := size; al_Device := currentDevice en |}]> (allocations en);
     successfulAllocations := wrap_int64 (successfulAllocations en + 1) |}.

Definition set_allocations (m : gmap Z Allocation) (en : Engine W) : Engine W :=
  {| backend := backend en; fault := fault en; currentDevice := currentDevice en;
     allocations := m; successfulAllocations := successfulAllocations en |}.

Definition TrackAllocation e (token size : Z) : W -> Status * option (Engine W) * W :=
  with_backend e StatusInitialization (fun en b w =>
    if (token =? 0) || (size =? 0) then (StatusInvalidValue, Some en, w) else
    match allocations en !! token with
    | Some _ => (StatusInvalidValue, Some en, w)
    | None =>
        if shouldInjectOOMLocked en then (StatusOutOfMemory, Some en, w) else
        match Devices b w with
        | (Err _, w1) => (StatusUnknown, Some en, w1)
        | (Ok devices, w1) =>
            match findDevice devices (currentDevice en) with
            | None => (StatusInvalidDevice, Some en, w1)
            | Some device =>
                if size >? dv_FreeBytes device then (StatusOutOfMemory, Some en, w1) else
                match Reserve b (currentDevice en) size w1 with
                | (Err err, w2) =>
                    (if errors_Is err ErrOutOfMemory then StatusOutOfMemory else StatusUnknown, Some en, w2)
                | (Ok _, w2) => (StatusSuccess, Some (add_allocation token size en), w2)
                end
            end
        end
    end).

Definition FreeAllocation e (token : Z) : W -> Status * option (Engine W) * W :=
  with_backend e StatusInitialization (fun en b w =>
    if token =? 0 then (StatusSuccess, Some en, w) else
    match allocations en !! token with
    | None => (StatusInvalidValue, Some en, w)
    | Some allocation =>
        match Release b (al_Device allocation) (Size allocation) w with
        | (Err _, w1) => (StatusUnknown, Some en, w1)
        | (Ok _, w1) => (StatusSuccess, Some (set_allocations (delete token (allocations en)) en), w1)
        end
    end).

(** The summing loop of [ResetDevice] over the allocations in some order;
    [None] when the sum would overflow. *)
Fixpoint reset_total (current : Z) (order : list Allocation) (total : Z) : option Z :=
  match order with
  | [] => Some total
  | a :: rest =>
      if negb (al_Device a =? current) then reset_total current rest total else
      if Size a >? u64_max ⊖ total then None else
      reset_total current rest (total ⊕ Size a)
  end.

(** [order] is the order in which the range loop visits the map. *)
Definition ResetDevice_in_order (order : list Allocation) e : W -> Status * option (Engine W) * W :=
  with_backend e StatusInitialization (fun en b w =>
    match reset_total (currentDevice en) order 0 with
    | None => (StatusUnknown, Some en, w)
    | Some total =>
        let cleared := set_allocations
          (filter (fun kv => al_Device kv.2 <> currentDevice en) (allocations en)) en in
        if negb (total =? 0) then
          match Release b (currentDevice en) total w with
          | (Err _, w1) => (StatusUnknown, Some en, w1)
          | (Ok _, w1) => (StatusSuccess, Some cleared, w1)
          end
        else (StatusSuccess, Some cleared, w)
    end).

Definition allocation_list e : list Allocation :=
  match e with Some en => (map_to_list (allocations en)).*2 | None => [] end.
Definition ResetDevice e : W -> Status * option (Engine W) * W := ResetDevice_in_order (allocation_list e) e.

Definition CUDAVersion e : Z * Status :=
  match e with
  | Some en =>
      match backend en with
      | Some b => if backend_CUDAVersion b <=? 0 then (0, StatusUnknown) else (backend_CUDAVersion b, StatusSuccess)
      | None => (0, StatusInitialization)
      end
  | None => (0, StatusInitialization)
  end.

Definition engine_Allocation e (token : Z) : option Allocation := e ≫= (fun en => allocations en !! token).
Definition AllocationCount e : Z :=
  match e with None => 0 | Some en => Z.of_nat (size (allocations en)) end.
End engine.

(** ** What the engine relies on of a backend

    [mem w] is the effective device state, [releasable w i] the bytes of
    device [i] that can be given back (negative when processes own more than
    is in use), [exact] the sizes the backend accounts
    to the byte. *)
Definition charge (taken : Z -> Z) (d : Device) : Device :=
  {| dv_Index := dv_Index d; dv_UUID := dv_UUID d; dv_Name := dv_Name d; dv_PCIBusID := dv_PCIBusID d;
     dv_ComputeMajor := dv_ComputeMajor d; dv_ComputeMinor := dv_ComputeMinor d;
     dv_TotalBytes := dv_TotalBytes d; dv_UsedBytes := dv_UsedBytes d + taken (dv_Index d);
     dv_FreeBytes := dv_FreeBytes d - taken (dv_Index d) |}.
Definition on_device (index amount : Z) : Z -> Z := fun i => if i =? index then amount else 0.

Class AccountingBackend (W : Type) (b : Backend W) := {
  mem : W -> list Device;
  releasable : W -> Z -> Z;
  exact : Z -> Prop;
  exact_word : forall s, exact s -> u64 s;
  exact_sum : forall s t, exact s -> exact t -> s + t <= u64_max -> exact (s + t);
  exact_zero : exact 0;
  mem_word : forall w, Forall (fun d => u64 (dv_FreeBytes d)) (mem w);
  Devices_law : forall w, Devices b w = (Ok (mem w), w);
  Reserve_law : forall w index d size,
    findDevice (mem w) index = Some d -> exact size ->
    let r := Reserve b index size w in
    if size <=? dv_FreeBytes d
    then r.1 = Ok tt /\ mem r.2 = map (charge (on_device index size)) (mem w) /\
         forall i, releasable r.2 i = releasable w i + on_device index size i
    else (exists err, r.1 = Err err /\ errors_Is err ErrOutOfMemory = true) /\
         mem r.2 = mem w /\ forall i, releasable r.2 i = releasable w i;
  Release_law : forall w index d size,
    findDevice (mem w) index = Some d -> exact size ->
    let r := Release b index size w in
    if size <=? releasable w index
    then r.1 = Ok tt /\ mem r.2 = map (charge (on_device index (- size))) (mem w) /\
         forall i, releasable r.2 i = releasable w i + on_device index (- size) i
    else (exists err, r.1 = Err err) /\ mem r.2 = mem w /\ forall i, releasable r.2 i = releasable w i
}.

(** ** Accounting of an allocation table *)
Definition owned_by (m : gmap Z Allocation) (i : Z) : Z :=
  sumZ (fun kv => if al_Device kv.2 =? i then Size kv.2 else 0) (map_to_list m).

Lemma owned_by_insert m token a i : m !! token = None ->
  owned_by (<[token := a]> m) i = on_device (al_Device a) (Size a) i + owned_by m i.
Proof.
  intros Hm. unfold owned_by. rewrite (map_to_list_insert m token a Hm). cbn.
  unfold on_device. by rewrite Z.eqb_sym.
Qed.

Lemma owned_by_delete m token a i : m !! token = Some a ->
  owned_by m i = on_device (al_Device a) (Size a) i + owned_by (delete token m) i.
Proof.
  intros Hm. rewrite <- (insert_delete_id m token a Hm) at 1. apply owned_by_insert, lookup_delete_eq.
Qed.

Lemma owned_by_empty i : owned_by ∅ i = 0.
Proof. unfold owned_by. by rewrite map_to_list_empty. Qed.

Lemma owned_by_filter m current i :
  owned_by (filter (fun kv => al_Device kv.2 <> current) m) i = if i =? current then 0 else owned_by m i.
Proof.
  induction m as [| token a m Hm IH] using map_ind.
  { rewrite map_filter_empty, owned_by_empty. by destruct (i =? current). }
  rewrite map_filter_insert. case_decide as Hd; cbn in Hd.
  - rewrite !owned_by_insert, IH by (done || by apply map_lookup_filter_None_2; left).
    unfold on_device. destruct (Z.eqb_spec i (al_Device a)), (Z.eqb_spec i current); try lia.
  - rewrite map_filter_delete, delete_id by by apply map_lookup_filter_None_2; left.
    rewrite IH, owned_by_insert by done. unfold on_device.
    destruct (Z.eqb_spec i (al_Device a)), (Z.eqb_spec i current); lia.
Qed.

Section accounting.
Context {W : Type} {b : Backend W} `{!AccountingBackend W b}.

(** Well-formed entries: the key is the token, the size is exact and not
    zero, the device exists. *)
Definition entry_ok (devices : list Device) (token : Z) (a : Allocation) : Prop :=
  Token a = token /\ token <> 0 /\ exact (Size a) /\ 0 < Size a /\
  is_Some (findDevice devices (al_Device a)).

(** The engine accounts for the difference between [w0], where it was
    created, and the present world [w]. *)
Record accounted (w0 : W) (en : Engine W) (w : W) : Prop := {
  acc_backend : backend en = Some b;
  acc_initial : forall i, 0 <= releasable w0 i;
  acc_entries : forall token a, allocations en !! token = Some a -> entry_ok (mem w0) token a;
  acc_mem : mem w = map (charge (owned_by (allocations en))) (mem w0);
  acc_releasable : forall i, releasable w i = releasable w0 i + owned_by (allocations en) i
}.

Lemma owned_by_nonneg (m : gmap Z Allocation) i :
  (forall token a, m !! token = Some a -> 0 <= Size a) -> 0 <= owned_by m i.
Proof.
  intros Hm. apply sumZ_nonneg. apply Forall_forall. intros [token a] Hin%elem_of_map_to_list. cbn.
  destruct (al_Device a =? i); [by eapply Hm | lia].
Qed.

Lemma accounted_sizes w0 en w token a : accounted w0 en w -> allocations en !! token = Some a -> 0 <= Size a.
Proof. intros Ha Hl. destruct (acc_entries _ _ _ Ha _ _ Hl) as (_ & _ & _ & ? & _). lia. Qed.

Lemma findDevice_charge f l index :
  findDevice (map (charge f) l) index = charge f <$> findDevice l index.
Proof.
  unfold findDevice. induction l as [| d l IH]; cbn; [done |]. by destruct (dv_Index d =? index).
Qed.

Lemma findDevice_Index l index d : findDevice l index = Some d -> dv_Index d = index.
Proof. intros [_ Hd]%find_first_some. by to_prop. Qed.

Lemma map_charge_compose f g h l : (forall i, h i = f i + g i) ->
  map (charge g) (map (charge f) l) = map (charge h) l.
Proof.
  intros Hh. rewrite map_map. apply map_ext. intros d. unfold charge. cbn. f_equal; rewrite Hh; lia.
Qed.

Lemma map_charge_zero f l : (forall i, f i = 0) -> map (charge f) l = l.
Proof.
  intros Hf. transitivity (map (fun d : Device => d) l); [| apply map_id]. apply map_ext. intros d.
  unfold charge. rewrite Hf. destruct d. cbn. f_equal; lia.
Qed.

(** The present state of a device of the engine. *)
Lemma accounted_find w0 en w index d0 : accounted w0 en w -> findDevice (mem w0) index = Some d0 ->
  findDevice (mem w) index = Some (charge (owned_by (allocations en)) d0).
Proof. intros Ha Hd. by rewrite (acc_mem _ _ _ Ha), findDevice_charge, Hd. Qed.

Lemma accounted_find_inv w0 en w index d : accounted w0 en w -> findDevice (mem w) index = Some d ->
  exists d0, findDevice (mem w0) index = Some d0.
Proof.
  intros Ha. rewrite (acc_mem _ _ _ Ha), findDevice_charge.
  destruct (findDevice (mem w0) index) as [d0 |]; [by exists d0 | done].
Qed.

(** ** One step of each operation *)
Lemma track_step w0 en w token size :
  accounted w0 en w -> exact size ->
  let r := TrackAllocation (Some en) token size w in
  (exists d, token <> 0 /\ size <> 0 /\ allocations en !! token = None /\ shouldInjectOOMLocked en = false /\
     findDevice (mem w) (currentDevice en) = Some d /\ size <= dv_FreeBytes d /\
     r.1 = (StatusSuccess, Some (add_allocation token size en)) /\
     accounted w0 (add_allocation token size en) r.2) \/
  (r.1.1 <> StatusSuccess /\ r.1.2 = Some en /\ mem r.2 = mem w /\
   (forall i, releasable r.2 i = releasable w i) /\
   (token = 0 \/ size = 0 \/ is_Some (allocations en !! token) \/ shouldInjectOOMLocked en = true \/
    findDevice (mem w) (currentDevice en) = None \/
    exists d, findDevice (mem w) (currentDevice en) = Some d /\ dv_FreeBytes d < size)).
Proof.
  intros Ha Hex r. subst r. unfold TrackAllocation, with_backend. rewrite (acc_backend _ _ _ Ha).
  destruct (_ || _) eqn:E0; [right; cbn; to_prop; naive_solver |]. to_prop. destruct E0 as [Ht Hs].
  destruct (allocations en !! token) as [a |] eqn:El; [right; cbn; naive_solver |].
  destruct (shouldInjectOOMLocked en) eqn:Ei; [right; cbn; naive_solver |].
  rewrite Devices_law. destruct (findDevice (mem w) (currentDevice en)) as [d |] eqn:Ed; [| right; cbn; naive_solver].
  destruct (_ >? _) eqn:Eg; to_prop; [right; cbn; split; [done |]; naive_solver |].
  pose proof (Reserve_law w (currentDevice en) d size Ed Hex) as Hr. cbv zeta in Hr.
  rewrite (proj2 (Z.leb_le _ _)) in Hr by done. destruct Hr as (Hok & Hmem & Hrel).
  destruct (Reserve b (currentDevice en) size w) as [[[] | err] w2]; cbn in Hok; [| done]. cbn in *.
  left. exists d. do 7 (split; [done |]).
  destruct (accounted_find_inv _ _ _ _ _ Ha Ed) as [d0 Ed0].
  pose proof (exact_word size Hex) as [? _].
  split; cbn.
  - apply Ha.
  - apply Ha.
  - intros tk a [[<- <-] | [_ Hl]]%lookup_insert_Some; [| by apply Ha].
    split; [done |]. split; [done |]. split; [done |]. split; [cbn; lia | by exists d0].
  - rewrite Hmem, (acc_mem _ _ _ Ha). apply map_charge_compose. intros i. rewrite owned_by_insert by done. cbn. lia.
  - intros i. rewrite Hrel, (acc_releasable _ _ _ Ha), owned_by_insert by done. cbn. lia.
Qed.

Lemma free_step w0 en w token a :
  accounted w0 en w -> allocations en !! token = Some a ->
  let r := FreeAllocation (Some en) token w in
  r.1 = (StatusSuccess, Some (set_allocations (delete token (allocations en)) en)) /\
  accounted w0 (set_allocations (delete token (allocations en)) en) r.2.
Proof.
  intros Ha Hl r. subst r. unfold FreeAllocation, with_backend. rewrite (acc_backend _ _ _ Ha).
  destruct (acc_entries _ _ _ Ha _ _ Hl) as (_ & Ht & Hex & Hpos & [d0 Ed0]).
  rewrite (proj2 (Z.eqb_neq _ _)) by done. rewrite Hl.
  pose proof (accounted_find _ _ _ _ _ Ha Ed0) as Ed.
  pose proof (Release_law w (al_Device a) _ (Size a) Ed Hex) as Hr. cbv zeta in Hr.
  assert (Size a <= releasable w (al_Device a)) as Hle.
  { rewrite (acc_releasable _ _ _ Ha), (owned_by_delete _ _ _ _ Hl). unfold on_device. rewrite Z.eqb_refl.
    pose proof (acc_initial _ _ _ Ha (al_Device a)).
    assert (0 <= owned_by (delete token (allocations en)) (al_Device a)); [| lia].
    apply owned_by_nonneg. intros tk x [_ Hx]%lookup_delete_Some. by eapply accounted_sizes. }
  rewrite (proj2 (Z.leb_le _ _)) in Hr by done. destruct Hr as (Hok & Hmem & Hrel).
  destruct (Release b (al_Device a) (Size a) w) as [[[] | err] w2]; cbn in Hok; [| done]. cbn in *.
  split; [done |]. split; cbn.
  - apply Ha.
  - apply Ha.
  - intros tk x [_ Hx]%lookup_delete_Some. by apply Ha.
  - rewrite Hmem, (acc_mem _ _ _ Ha). apply map_charge_compose. intros i.
    rewrite (owned_by_delete _ _ _ i Hl). unfold on_device. destruct (i =? al_Device a); lia.
  - intros i. rewrite Hrel, (acc_releasable _ _ _ Ha), (owned_by_delete _ _ _ i Hl).
    unfold on_device. destruct (i =? al_Device a); lia.
Qed.

(** *** Resetting a device *)
Definition order_sum (current : Z) (order : list Allocation) : Z :=
  sumZ (fun a => if al_Device a =? current then Size a else 0) order.

Lemma reset_total_spec current order total :
  Forall (fun a => 0 <= Size a) order -> u64 total ->
  reset_total current order total =
  if total + order_sum current order <=? u64_max then Some (total + order_sum current order) else None.
Proof.
  intros Ho. revert total. unfold order_sum. induction Ho as [| a order Ha Ho IH]; intros total Ht; cbn.
  { rewrite (proj2 (Z.leb_le _ _)) by word. f_equal. lia. }
  assert (0 <= sumZ (fun a => if al_Device a =? current then Size a else 0) order) as Hnn.
  { apply sumZ_nonneg. eapply Forall_impl; [exact Ho |]. cbn. intros x. by destruct (al_Device x =? current). }
  destruct (al_Device a =? current); cbn [negb]; [| by rewrite IH].
  rewrite (wrap64_small (u64_max - total)) by word. destruct (_ >? _) eqn:E; to_prop.
  - by rewrite (proj2 (Z.leb_gt _ _)) by lia.
  - rewrite wrap64_small by word. rewrite IH by word.
    by replace (total + Size a + _) with (total + (Size a +
      sumZ (fun a => if al_Device a =? current then Size a else 0) order)) by lia.
Qed.

Lemma order_sum_owned current (m : gmap Z Allocation) : order_sum current (map_to_list m).*2 = owned_by m current.
Proof. unfold order_sum, owned_by. induction (map_to_list m) as [| kv l IH]; cbn; [done |]. by rewrite IH. Qed.

Lemma exact_sumZ current order :
  Forall (fun a => exact (Size a)) order -> order_sum current order <= u64_max -> exact (order_sum current order).
Proof.
  unfold order_sum. induction 1 as [| a order Ha Ho IH]; cbn; [intros; apply exact_zero |].
  assert (0 <= sumZ (fun a => if al_Device a =? current then Size a else 0) order) as Hnn.
  { apply sumZ_nonneg. eapply Forall_impl; [exact Ho |]. cbn. intros x Hx%exact_word.
    destruct (al_Device x =? current); [apply Hx | done]. }
  pose proof (exact_word _ Ha) as [? _]. destruct (al_Device a =? current); intros Hle.
  - apply exact_sum; [done | apply IH; lia | done].
  - apply IH. lia.
Qed.

Lemma accounted_order w0 en w : accounted w0 en w ->
  Forall (fun a => exact (Size a) /\ 0 < Size a) (map_to_list (allocations en)).*2.
Proof.
  intros Ha. apply Forall_forall. intros a Hin. apply list_elem_of_fmap in Hin as ([token a'] & -> & Hin).
  apply elem_of_map_to_list in Hin. by destruct (acc_entries _ _ _ Ha _ _ Hin) as (_ & _ & ? & ? & _).
Qed.

Lemma owned_by_pos_device w0 en w i : accounted w0 en w -> owned_by (allocations en) i <> 0 ->
  is_Some (findDevice (mem w0) i).
Proof.
  intros Ha Hne. destruct (decide (is_Some (findDevice (mem w0) i))) as [| Hno]; [done |]. exfalso. apply Hne.
  unfold owned_by. assert (forall l, (forall kv, kv ∈ l -> kv ∈ map_to_list (allocations en)) ->
    sumZ (fun kv => if al_Device kv.2 =? i then Size kv.2 else 0) l = 0) as Hz; [| by apply Hz].
  intros l. induction l as [| [token a] l IH]; intros Hl; cbn; [done |].
  rewrite IH by (intros kv Hkv; apply Hl; by right).
  destruct (Z.eqb_spec (al_Device a) i) as [<- |]; [| done]. exfalso. apply Hno.
  assert ((token, a) ∈ map_to_list (allocations en)) as Hin by (apply Hl; left).
  apply elem_of_map_to_list in Hin. by destruct (acc_entries _ _ _ Ha _ _ Hin) as (_ & _ & _ & _ & ?).
Qed.

Lemma owned_by_word w0 en w i : accounted w0 en w -> u64 (owned_by (allocations en) i).
Proof.
  intros Ha. assert (0 <= owned_by (allocations en) i) as Hnn.
  { apply owned_by_nonneg. intros. by eapply accounted_sizes. }
  destruct (decide (owned_by (allocations en) i = 0)) as [-> |]; [by vm_compute |].
  destruct (owned_by_pos_device _ _ _ _ Ha ltac:(done)) as [d0 Ed0].
  pose proof (accounted_find _ _ _ _ _ Ha Ed0) as Ed.
  pose proof (mem_word w) as Hw. pose proof (mem_word w0) as Hw0. rewrite Forall_forall in Hw, Hw0.
  apply find_first_some in Ed as [Hin _]. specialize (Hw _ Hin).
  pose proof (findDevice_Index _ _ _ Ed0) as Ei. apply find_first_some in Ed0 as [Hin0 _]. specialize (Hw0 _ Hin0).
  cbn in Hw. rewrite Ei in Hw. word.
Qed.

Definition cleared (en : Engine W) : Engine W :=
  set_allocations (filter (fun kv => al_Device kv.2 <> currentDevice en) (allocations en)) en.

Lemma reset_step w0 en w order :
  accounted w0 en w -> order ≡ₚ (map_to_list (allocations en)).*2 ->
  let r := ResetDevice_in_order order (Some en) w in
  r.1 = (StatusSuccess, Some (cleared en)) /\ accounted w0 (cleared en) r.2.
Proof.
  intros Ha Hperm r. subst r. unfold ResetDevice_in_order, with_backend. rewrite (acc_backend _ _ _ Ha).
  pose proof (accounted_order _ _ _ Ha) as Hord. rewrite <- Hperm in Hord.
  assert (order_sum (currentDevice en) order = owned_by (allocations en) (currentDevice en)) as Hsum.
  { rewrite <- order_sum_owned. by apply sumZ_perm. }
  pose proof (owned_by_word _ _ _ (currentDevice en) Ha) as Hword.
  rewrite reset_total_spec; [| eapply Forall_impl; [exact Hord |]; cbn; lia | by vm_compute].
  rewrite Hsum, Z.add_0_l, (proj2 (Z.leb_le _ _)) by apply Hword. fold (cleared en).
  assert (forall w', mem w' = map (charge (on_device (currentDevice en)
        (- owned_by (allocations en) (currentDevice en)))) (mem w) ->
    (forall i, releasable w' i = releasable w i +
        on_device (currentDevice en) (- owned_by (allocations en) (currentDevice en)) i) ->
    accounted w0 (cleared en) w') as Hdone.
  { intros w' Hmem Hrel. split; cbn.
    - apply Ha.
    - apply Ha.
    - intros tk x [Hx _]%map_lookup_filter_Some. by apply Ha.
    - rewrite Hmem, (acc_mem _ _ _ Ha). apply map_charge_compose. intros i. rewrite owned_by_filter.
      unfold on_device. destruct (Z.eqb_spec i (currentDevice en)) as [-> |]; lia.
    - intros i. rewrite Hrel, (acc_releasable _ _ _ Ha), owned_by_filter.
      unfold on_device. destruct (Z.eqb_spec i (currentDevice en)) as [-> |]; lia. }
  destruct (Z.eqb_spec (owned_by (allocations en) (currentDevice en)) 0) as [E0 | Hne]; cbn [negb].
  - split; [done |]. cbn. apply Hdone; rewrite E0.
    + symmetry. apply map_charge_zero. intros i. unfold on_device. by destruct (i =? currentDevice en).
    + intros i. unfold on_device. destruct (i =? currentDevice en); lia.
  - destruct (owned_by_pos_device _ _ _ _ Ha Hne) as [d0 Ed0].
    pose proof (accounted_find _ _ _ _ _ Ha Ed0) as Ed.
    assert (exact (owned_by (allocations en) (currentDevice en))) as Hex.
    { rewrite <- Hsum. apply exact_sumZ; [| rewrite Hsum; apply Hword].
      eapply Forall_impl; [exact Hord |]. by intros ? [? _]. }
    pose proof (Release_law w _ _ _ Ed Hex) as Hr. cbv zeta in Hr.
    rewrite (proj2 (Z.leb_le _ _)) in Hr.
    2: { rewrite (acc_releasable _ _ _ Ha). pose proof (acc_initial _ _ _ Ha (currentDevice en)). lia. }
    destruct Hr as (Hok & Hmem & Hrel). destruct (Release b _ _ w) as [[[] | err] w2]; cbn in Hok; [| done].
    split; [done |]. by apply Hdone.
Qed.

(** ** Runs *)
Inductive op :=
  | OpTrack (token size : Z)
  | OpFree (token : Z)
  | OpReset
  | OpSetDevice (index : Z).

Definition exec_op (o : op) (e : option (Engine W)) (w : W) : Status * option (Engine W) * W :=
  match o with
  | OpTrack token size => TrackAllocation e token size w
  | OpFree token => FreeAllocation e token w
  | OpReset => ResetDevice e w
  | OpSetDevice index => SetDevice e index w
  end.

Fixpoint run_ops (ops : list op) (e : option (Engine W)) (w : W) : list Status * option (Engine W) * W :=
  match ops with
  | [] => ([], e, w)
  | o :: rest =>
      let '(st, e1, w1) := exec_op o e w in
      let '(sts, e2, w2) := run_ops rest e1 w1 in
      (st :: sts, e2, w2)
  end.

Definition op_exact (o : op) : Prop := match o with OpTrack _ size => exact size | _ => True end.

Lemma accounted_world w0 en w w' :
  accounted w0 en w -> mem w' = mem w -> (forall i, releasable w' i = releasable w i) -> accounted w0 en w'.
Proof.
  intros [? ? ? ? ?] Hm Hr. split; [done | done | done | congruence |]. intros i. rewrite Hr. auto.
Qed.

Lemma SetDevice_step w0 en w index : accounted w0 en w ->
  SetDevice (Some en) index w =
  match findDevice (mem w) index with
  | Some _ => (StatusSuccess, Some (set_currentDevice index en), w)
  | None => (StatusInvalidDevice, Some en, w)
  end.
Proof.
  intros Ha. unfold SetDevice, engine_Device, with_backend. rewrite (acc_backend _ _ _ Ha), Devices_law.
  by destruct (findDevice (mem w) index).
Qed.

Lemma exec_op_accounted o w0 en w :
  accounted w0 en w -> op_exact o ->
  exists en', (exec_op o (Some en) w).1.2 = Some en' /\ accounted w0 en' (exec_op o (Some en) w).2.
Proof.
  intros Ha Ho. destruct o as [token size | token | | index]; cbn [exec_op].
  - destruct (track_step w0 en w token size Ha Ho) as [(d & Hs) | (_ & He & Hm & Hr & _)].
    + exists (add_allocation token size en). destruct Hs as (_ & _ & _ & _ & _ & _ & -> & ?). done.
    + exists en. split; [done |]. by eapply accounted_world.
  - destruct (allocations en !! token) as [a |] eqn:El.
    + destruct (free_step w0 en w token a Ha El) as [-> ?]. by eexists.
    + exists en. unfold FreeAllocation, with_backend. rewrite (acc_backend _ _ _ Ha), El.
      by destruct (token =? 0).
  - destruct (reset_step w0 en w (map_to_list (allocations en)).*2 Ha ltac:(done)) as [E ?].
    exists (cleared en). unfold ResetDevice. cbn [allocation_list]. by rewrite E.
  - rewrite (SetDevice_step _ _ _ _ Ha). destruct (findDevice (mem w) index); [| by exists en].
    exists (set_currentDevice index en). split; [done |]. destruct Ha as [? ? ? ? ?]. by split.
Qed.

Lemma run_ops_accounted ops w0 en w :
  accounted w0 en w -> Forall op_exact ops ->
  exists en', (run_ops ops (Some en) w).1.2 = Some en' /\ accounted w0 en' (run_ops ops (Some en) w).2.
Proof.
  intros Ha Hops. revert en w Ha. induction Hops as [| o ops Ho _ IH]; intros en w Ha; cbn [run_ops]; [by exists en |].
  destruct (exec_op_accounted o w0 en w Ha Ho) as (en1 & E1 & Ha1).
  destruct (exec_op o (Some en) w) as [[st e1] w1]. cbn in E1, Ha1. subst e1.
  destruct (IH en1 w1 Ha1) as (en2 & E2 & Ha2). destruct (run_ops ops (Some en1) w1) as [[sts e2] w2].
  by exists en2.
Qed.

Lemma new_engine_accounted policy en w :
  NewEngine (Some b) policy = Ok en -> (forall i, 0 <= releasable w i) -> accounted w en w.
Proof.
  unfold NewEngine. destruct (_ <? _); [discriminate |]. intros [= <-] Hi. split; cbn; [done | done | done | |].
  - symmetry. apply map_charge_zero, owned_by_empty.
  - intros i. rewrite owned_by_empty. lia.
Qed.
End accounting.

(** ** Properties *)
Section properties.
Context {W : Type} {b : Backend W} `{!AccountingBackend W b}.

(** C23. On the sizes its backend accounts for exactly, the engine never leaks
    or invents memory.  The sizes are the [exact] ones of [AccountingBackend]:
    on the node, whole numbers of MiB; the claim says nothing of a run with an
    allocation of another size, whose part below a MiB the node forgets.
    After any sequence of allocations of exact sizes, frees, device resets and
    device switches on a fresh engine, with whatever outcomes, the effective
    state is the initial one with exactly the live allocations charged to
    their devices, and the releasable bytes have grown by exactly that; so
    once no allocation is live the state is the initial one.  (Initially no
    device has more process-owned than used memory.) *)
Theorem engine_accounting policy en w0 ops :
  NewEngine (Some b) policy = Ok en -> (forall i, 0 <= releasable w0 i) -> Forall op_exact ops ->
  exists en', (run_ops ops (Some en) w0).1.2 = Some en' /\
    let w := (run_ops ops (Some en) w0).2 in
    mem w = map (charge (owned_by (allocations en'))) (mem w0) /\
    (forall i, releasable w i = releasable w0 i + owned_by (allocations en') i) /\
    (allocations en' = ∅ -> mem w = mem w0).
Proof.
  intros Hnew Hinit Hops. apply (new_engine_accounted policy en w0) in Hnew; [| done].
  destruct (run_ops_accounted ops w0 en w0 Hnew Hops) as (en' & He & Ha). exists en'. split; [done |].
  cbv zeta. split; [apply Ha |]. split; [apply Ha |]. intros Hemp.
  rewrite (acc_mem _ _ _ Ha), Hemp. apply map_charge_zero, owned_by_empty.
Qed.

(** An allocation succeeds exactly when the token is new and not nil,
    the size is not zero, no injected failure is due, the current device
    exists and has the bytes free; it then records the allocation and
    charges the current device.  Every other outcome leaves the engine and
    the effective memory as they were. *)
Theorem TrackAllocation_exact w0 en w token size :
  accounted w0 en w -> exact size ->
  let r := TrackAllocation (Some en) token size w in
  (r.1.1 = StatusSuccess <->
     token <> 0 /\ size <> 0 /\ allocations en !! token = None /\ shouldInjectOOMLocked en = false /\
     exists d, findDevice (mem w) (currentDevice en) = Some d /\ size <= dv_FreeBytes d) /\
  (r.1.1 = StatusSuccess ->
     r.1.2 = Some (add_allocation token size en) /\ accounted w0 (add_allocation token size en) r.2) /\
  (r.1.1 <> StatusSuccess -> r.1.2 = Some en /\ mem r.2 = mem w).
Proof.
  intros Ha Hex r.
  destruct (track_step w0 en w token size Ha Hex) as [(d & H1 & H2 & H3 & H4 & H5 & H6 & E & Hacc) | Hfail];
    [fold r in E, Hacc | fold r in Hfail].
  - rewrite E. cbn. split; [| done]. split; [intros _ | done]. do 4 (split; [done |]). by exists d.
  - destruct Hfail as (Hst & He & Hm & _ & Hwhy). split; [| done]. split; [done |].
    intros (T1 & T2 & T3 & T4 & d & T5 & T6). exfalso.
    destruct Hwhy as [? | [? | [[? ?] | [? | [? | (d' & ? & ?)]]]]]; try congruence.
    assert (d' = d) as -> by congruence. lia.
Qed.

(** Allocating and freeing is a round trip: freeing a live token always
    succeeds (even after other operations), gives its bytes back to the
    device they were taken from and forgets the token; freeing it again is
    an invalid value and changes nothing. *)
Theorem FreeAllocation_roundtrip w0 en w token a :
  accounted w0 en w -> allocations en !! token = Some a ->
  let r := FreeAllocation (Some en) token w in
  r.1.1 = StatusSuccess /\
  r.1.2 = Some (set_allocations (delete token (allocations en)) en) /\
  mem r.2 = map (charge (owned_by (delete token (allocations en)))) (mem w0) /\
  FreeAllocation r.1.2 token r.2 = (StatusInvalidValue, r.1.2, r.2).
Proof.
  intros Ha Hl r. destruct (free_step w0 en w token a Ha Hl) as [E Hacc]. fold r in E, Hacc.
  rewrite E. split; [done |]. split; [done |]. split; [apply (acc_mem _ _ _ Hacc) |]. cbn [fst snd].
  unfold FreeAllocation, with_backend. rewrite (acc_backend _ _ _ Hacc).
  destruct (acc_entries _ _ _ Ha _ _ Hl) as (_ & Ht & _). rewrite (proj2 (Z.eqb_neq _ _)) by done.
  cbn. by rewrite lookup_delete_eq.
Qed.

(** Resetting the current device releases all of its allocations in one
    request and only those: whatever order the runtime visits the table in,
    it succeeds, keeps every allocation of the other devices, and gives the
    device's bytes back. *)
Theorem ResetDevice_exact w0 en w order :
  accounted w0 en w -> order ≡ₚ allocation_list (Some en) ->
  let r := ResetDevice_in_order order (Some en) w in
  r.1.1 = StatusSuccess /\
  (forall token, engine_Allocation r.1.2 token =
     match allocations en !! token with
     | Some a => if al_Device a =? currentDevice en then None else Some a
     | None => None
     end) /\
  mem r.2 = map (charge (fun i => if i =? currentDevice en then 0 else owned_by (allocations en) i)) (mem w0) /\
  r.1 = (ResetDevice (Some en) w).1.
Proof.
  intros Ha Hperm r. destruct (reset_step w0 en w order Ha Hperm) as [E Hacc]. fold r in E, Hacc.
  destruct (reset_step w0 en w (map_to_list (allocations en)).*2 Ha ltac:(done)) as [E' _].
  rewrite E. split; [done |]. split; [| split; [| by rewrite <- E']].
  - intros token. cbn. destruct (allocations en !! token) as [a |] eqn:El.
    + destruct (Z.eqb_spec (al_Device a) (currentDevice en)) as [Ed | Ed].
      * apply map_lookup_filter_None_2. right. intros x Hx. assert (x = a) as -> by congruence. cbn. tauto.
      * apply map_lookup_filter_Some_2; done.
    + apply map_lookup_filter_None_2. by left.
  - rewrite (acc_mem _ _ _ Hacc). apply map_ext. intros d. unfold charge. cbn. by rewrite owned_by_filter.
Qed.
End properties.

(** ** Injected failures, for any backend *)
Definition is_track (o : op) : bool := match o with OpTrack _ _ => true | _ => false end.
(** One for a successful allocation. *)
Definition success (o : op) (st : Status) : Z := if is_track o && bool_decide (st = StatusSuccess) then 1 else 0.
(** The successful allocations of a run. *)
Definition successes (ops : list op) (sts : list Status) : Z := sumZ (fun os => success os.1 os.2) (zip ops sts).

Section injection.
Context {W : Type} (b : Backend W) (policy : FaultPolicy).
Context (Hpolicy : 0 <= OOMAfter policy < 9223372036854775808).

Record counted (k : Z) (en : Engine W) : Prop := {
  cnt_backend : backend en = Some b;
  cnt_fault : fault en = policy;
  cnt_count : successfulAllocations en = k;
  cnt_bound : 0 <= k <= OOMAfter policy
}.

Lemma exec_op_counted o k en w : counted k en ->
  exists en', (exec_op o (Some en) w).1.2 = Some en' /\ counted (k + success o (exec_op o (Some en) w).1.1) en'.
Proof.
  intros [Hb Hf Hc Hk]. assert (counted (k + 0) en) as Hsame by (rewrite Z.add_0_r; by split).
  destruct o as [token size | token | | index]; cbn [exec_op]; unfold success; cbn [is_track andb].
  - unfold TrackAllocation, with_backend. rewrite Hb.
    destruct (_ || _); [by exists en |]. destruct (allocations en !! token); [by exists en |].
    destruct (shouldInjectOOMLocked en) eqn:Ei; [by exists en |].
    destruct (Devices b w) as [[devices | e] w1]; [| by exists en].
    destruct (findDevice devices (currentDevice en)) as [d |]; [| by exists en].
    destruct (_ >? _); [by exists en |].
    destruct (Reserve b (currentDevice en) size w1) as [[[] | e] w2].
    + exists (add_allocation token size en). split; [done |]. cbn. unfold shouldInjectOOMLocked in Ei.
      rewrite Hf, Hc in Ei. apply andb_false_iff in Ei.
      assert (k < OOMAfter policy) as Hlt by (to_prop; destruct Ei; lia).
      rewrite bool_decide_true by done. split; cbn; [done | done | | lia]. rewrite Hc. unfold wrap_int64. rewrite Z.mod_small; lia.
    + exists en. destruct (errors_Is e ErrOutOfMemory); by split.
  - exists (match allocations en !! token with
            | Some a => match Release b (al_Device a) (Size a) w with
                        | (Ok _, _) => if token =? 0 then en else set_allocations (delete token (allocations en)) en
                        | _ => en end
            | None => en end).
    unfold FreeAllocation, with_backend. rewrite Hb.
    destruct (token =? 0); destruct (allocations en !! token) as [a |]; try done;
      destruct (Release b (al_Device a) (Size a) w) as [[[] | e] w1]; try done.
    cbn. split; [done |]. by rewrite Z.add_0_r.
  - unfold ResetDevice, ResetDevice_in_order, with_backend. rewrite Hb.
    destruct (reset_total _ _ _) as [total |]; [| by exists en].
    destruct (negb (total =? 0)).
    + destruct (Release b (currentDevice en) total w) as [[[] | e] w1]; [| by exists en].
      eexists. split; [done |]. cbn. rewrite Z.add_0_r. by split.
    + eexists. split; [done |]. cbn. rewrite Z.add_0_r. by split.
  - unfold SetDevice, engine_Device, with_backend. rewrite Hb.
    destruct (Devices b w) as [[devices | e] w1]; [| by exists en].
    destruct (findDevice devices index); [| by exists en].
    eexists. split; [done |]. cbn. rewrite Z.add_0_r. by split.
Qed.

Lemma run_ops_counted ops k en w : counted k en ->
  exists en', (run_ops ops (Some en) w).1.2 = Some en' /\
    counted (k + successes ops (run_ops ops (Some en) w).1.1) en'.
Proof.
  revert k en w. induction ops as [| o ops IH]; intros k en w Hc; cbn [run_ops].
  { exists en. split; [done |]. unfold successes. cbn. by rewrite Z.add_0_r. }
  destruct (exec_op_counted o k en w Hc) as (en1 & E1 & Hc1).
  destruct (exec_op o (Some en) w) as [[st e1] w1]. cbn in E1, Hc1. subst e1.
  destruct (IH _ en1 w1 Hc1) as (en2 & E2 & Hc2). destruct (run_ops ops (Some en1) w1) as [[sts e2] w2].
  exists en2. split; [exact E2 |]. unfold successes in *. cbn in *. by rewrite Z.add_assoc.
Qed.
End injection.

(** Fault injection is exact for every backend: with [OOMAfter = n], in
    any run at most [n] allocations succeed, and once [n] have succeeded
    every further request with a new token is answered out-of-memory
    without reading or changing anything. *)
Theorem oom_injection {W} (b : Backend W) policy en ops w :
  NewEngine (Some b) policy = Ok en -> 0 <= OOMAfter policy < 9223372036854775808 ->
  let r := run_ops ops (Some en) w in
  successes ops r.1.1 <= OOMAfter policy /\
  (successes ops r.1.1 = OOMAfter policy ->
   forall token size, token <> 0 -> size <> 0 -> engine_Allocation r.1.2 token = None ->
     TrackAllocation r.1.2 token size r.2 = (StatusOutOfMemory, r.1.2, r.2)).
Proof.
  intros Hnew Hp r.
  assert (counted b policy 0 en) as Hc.
  { unfold NewEngine in Hnew. destruct (_ <? _) in Hnew; [discriminate |]. injection Hnew as <-. split; cbn; done || lia. }
  destruct (run_ops_counted b policy Hp ops 0 en w Hc) as (en' & E & [Hb Hf Hk Hbound]). fold r in E, Hk, Hbound.
  split; [lia |]. intros Hfull token size Ht Hs Hfresh. rewrite E in *. cbn in Hfresh.
  unfold TrackAllocation, with_backend. rewrite Hb.
  rewrite (proj2 (Z.eqb_neq token 0)), (proj2 (Z.eqb_neq size 0)) by done. cbn [orb]. rewrite Hfresh.
  assert (shouldInjectOOMLocked en' = true) as ->; [| done].
  unfold shouldInjectOOMLocked. rewrite Hf, Hk. to_prop. lia.
Qed.

(** ** Witnesses: one device of 16 GiB whose used bytes are the world *)
Definition capacity : Z := 17179869184.
Definition clamp (w : Z) : Z := Z.max 0 (Z.min w capacity).
Definition toy_device (w : Z) : Device :=
  {| dv_Index := 0; dv_UUID := "GPU-aa"; dv_Name := "T4"; dv_PCIBusID := "0000:01:00.0"; dv_ComputeMajor := 7;
     dv_ComputeMinor := 5; dv_TotalBytes := capacity; dv_UsedBytes := clamp w; dv_FreeBytes := capacity - clamp w |}.
Definition toy_reserve (index size w : Z) : result unit * Z :=
  if (index =? 0) && (0 <=? size) && (size <=? capacity - clamp w) then (Ok tt, clamp w + size)
  else (Err (Sentinel ErrOutOfMemory), w).
Definition toy_release (index size w : Z) : result unit * Z :=
  if (index =? 0) && (0 <=? size) && (size <=? clamp w) then (Ok tt, clamp w - size)
  else (Err (Errorf "not releasable" []), w).
Definition toy : Backend Z := {|
  Devices := fun w => (Ok [toy_device w], w);
  Reserve := toy_reserve; Release := toy_release; backend_CUDAVersion := 13000 |}.
Definition toy_releasable (w i : Z) : Z := if i =? 0 then clamp w else 0.

Lemma clamp_range w : 0 <= clamp w <= capacity.
Proof. unfold clamp, capacity. lia. Qed.
Lemma clamp_id w : 0 <= w <= capacity -> clamp w = w.
Proof. unfold clamp, capacity. lia. Qed.

Lemma toy_find w index d : findDevice [toy_device w] index = Some d -> index = 0 /\ d = toy_device w.
Proof.
  unfold findDevice, find_first. change (dv_Index (toy_device w)) with 0.
  destruct (Z.eqb_spec 0 index) as [<- |]; [by intros [= <-] | done].
Qed.

Lemma toy_charge amount w w' : clamp w' = clamp w + amount ->
  [toy_device w'] = map (charge (on_device 0 amount)) [toy_device w].
Proof.
  intros E. unfold toy_device, charge, on_device. cbn -[clamp capacity]. rewrite E.
  by replace (capacity - (clamp w + amount)) with (capacity - clamp w - amount) by lia.
Qed.

Lemma toy_rel amount w w' i : clamp w' = clamp w + amount ->
  toy_releasable w' i = toy_releasable w i + on_device 0 amount i.
Proof. unfold toy_releasable, on_device. intros E. destruct (i =? 0); lia. Qed.

Lemma toy_Reserve_law w index d size :
  findDevice [toy_device w] index = Some d -> u64 size ->
  let r := toy_reserve index size w in
  if size <=? dv_FreeBytes d
  then r.1 = Ok tt /\ [toy_device r.2] = map (charge (on_device index size)) [toy_device w] /\
       forall i, toy_releasable r.2 i = toy_releasable w i + on_device index size i
  else (exists err, r.1 = Err err /\ errors_Is err ErrOutOfMemory = true) /\
       [toy_device r.2] = [toy_device w] /\ forall i, toy_releasable r.2 i = toy_releasable w i.
Proof.
  intros [-> ->]%toy_find [Hs _]. unfold toy_reserve. change (dv_FreeBytes (toy_device w)) with (capacity - clamp w).
  rewrite (proj2 (Z.leb_le 0 size)) by done. cbn [Z.eqb andb].
  pose proof (clamp_range w). destruct (Z.leb_spec size (capacity - clamp w)).
  - split; [done |]. cbn [snd]. pose proof (clamp_id (clamp w + size) ltac:(lia)).
    split; [by apply toy_charge | intros i; by apply toy_rel].
  - split; [by eexists | done].
Qed.

Lemma toy_Release_law w index d size :
  findDevice [toy_device w] index = Some d -> u64 size ->
  let r := toy_release index size w in
  if size <=? toy_releasable w index
  then r.1 = Ok tt /\ [toy_device r.2] = map (charge (on_device index (- size))) [toy_device w] /\
       forall i, toy_releasable r.2 i = toy_releasable w i + on_device index (- size) i
  else (exists err, r.1 = Err err) /\ [toy_device r.2] = [toy_device w] /\
       forall i, toy_releasable r.2 i = toy_releasable w i.
Proof.
  intros [-> ->]%toy_find [Hs _]. unfold toy_release, toy_releasable at 1.
  rewrite (proj2 (Z.leb_le 0 size)) by done. cbn [Z.eqb andb].
  pose proof (clamp_range w). destruct (Z.leb_spec size (clamp w)).
  - split; [done |]. cbn [snd]. pose proof (clamp_id (clamp w - size) ltac:(lia)).
    split; [apply toy_charge; lia | intros i; apply toy_rel; lia].
  - split; [by eexists | done].
Qed.

#[local] Instance toy_accounting : AccountingBackend Z toy.
Proof.
  refine {| mem := fun w : Z => [toy_device w]; releasable := toy_releasable; exact := u64 |};
    [done | | done | | done | exact toy_Reserve_law | exact toy_Release_law].
  - intros s t [? ?] [? ?] ?. unfold u64. lia.
  - intros w. repeat constructor; cbn -[clamp capacity]; pose proof (clamp_range w); unfold capacity in *; word.
Defined.

Definition toy_engine : Engine Z :=
  {| backend := Some toy; fault := {| OOMAfter := 2 |}; currentDevice := 0; allocations := ∅;
     successfulAllocations := 0 |}.
Definition toy_loaded : Engine Z := add_allocation 5 1024 toy_engine.

Lemma toy_nonneg w i : 0 <= toy_releasable w i.
Proof. unfold toy_releasable. pose proof (clamp_range w). destruct (i =? 0); lia. Qed.

Lemma toy_accounted : accounted (b := toy) 0 toy_engine 0.
Proof. apply (new_engine_accounted {| OOMAfter := 2 |}); [done |]. intros i. apply toy_nonneg. Qed.

Lemma toy_loaded_accounted : accounted (b := toy) 0 toy_loaded 1024.
Proof.
  destruct (track_step (b := toy) 0 toy_engine 0 5 1024 toy_accounted ltac:(by vm_compute))
    as [(d & _ & _ & _ & _ & _ & _ & _ & Ha) | (Hbad & _)]; [exact Ha | by vm_compute in Hbad].
Qed.

Lemma engine_accounting_witness :
  exists en', (run_ops [OpTrack 5 1024; OpTrack 6 10; OpFree 5; OpReset] (Some toy_engine) 0).1.2 = Some en' /\
    mem (b := toy) (run_ops [OpTrack 5 1024; OpTrack 6 10; OpFree 5; OpReset] (Some toy_engine) 0).2 =
    map (charge (owned_by (allocations en'))) (mem (b := toy) 0).
Proof.
  destruct (engine_accounting (b := toy) {| OOMAfter := 2 |} toy_engine 0
    [OpTrack 5 1024; OpTrack 6 10; OpFree 5; OpReset] eq_refl) as (en' & E & Hm & _).
  - exact (toy_nonneg 0).
  - repeat constructor; by vm_compute.
  - exists en'. split; [exact E | exact Hm].
Defined.

Lemma TrackAllocation_exact_witness :
  (TrackAllocation (Some toy_engine) 5 1024 0).1.2 = Some toy_loaded.
Proof.
  destruct (TrackAllocation_exact (b := toy) 0 toy_engine 0 5 1024 toy_accounted ltac:(by vm_compute))
    as (_ & Hok & _).
  exact (proj1 (Hok ltac:(by vm_compute))).
Defined.

Lemma FreeAllocation_roundtrip_witness :
  (FreeAllocation (Some toy_loaded) 5 1024).1.1 = StatusSuccess.
Proof.
  exact (proj1 (FreeAllocation_roundtrip (b := toy) 0 toy_loaded 1024 5
    {| Token := 5; Size := 1024; al_Device := 0 |} toy_loaded_accounted ltac:(by vm_compute))).
Defined.

Lemma ResetDevice_exact_witness :
  (ResetDevice_in_order [{| Token := 5; Size := 1024; al_Device := 0 |}] (Some toy_loaded) 1024).1.1 = StatusSuccess.
Proof.
  refine (proj1 (ResetDevice_exact (b := toy) 0 toy_loaded 1024 _ toy_loaded_accounted _)).
  by vm_compute.
Defined.

Lemma oom_injection_witness :
  successes [OpTrack 5 1; OpTrack 6 1; OpTrack 7 1]
    (run_ops [OpTrack 5 1; OpTrack 6 1; OpTrack 7 1] (Some toy_engine) 0).1.1 <= 2.
Proof.
  refine (proj1 (oom_injection toy {| OOMAfter := 2 |} toy_engine [OpTrack 5 1; OpTrack 6 1; OpTrack 7 1] 0 _ _)).
  - reflexivity.
  - cbn. lia.
Defined.

End cuda.
