(* ===== verification/CudaBackend.v ===== *)
(** * The control backend of the CUDA engine: [internal/cuda/backend.go]

    [ControlBackend] turns the manager's memory operations into the engine's
    [Backend].  On a node that obeys [NvmlMock] it is an
    [AccountingBackend] for sizes that are whole MiB, so every theorem of
    [CudaEngine.v] holds of CUDA allocations on the simulated GPUs. *)
From S2P Require Import Prelude GoStrings GoStrconv Catalog Config Control Observe Manager Node CudaEngine.
Import control observe manager node.

Module cuda_backend.
Import cuda.

Definition defaultCUDAVersion : Z := 13000.

Record ControlBackend (W : Type) := {
  cb_manager : option (Manager W);
  cb_capability : gmap string profiles.ComputeCapability;
  cb_cudaVersion : Z
}.
Arguments cb_manager {W}. Arguments cb_capability {W}. Arguments cb_cudaVersion {W}.

(** ** The CUDA version *)
Definition parseCUDAVersion (raw : string) : result Z :=
  match Split (TrimSpace raw) "." with
  | [p0; p1] =>
      let invalid := Errorf "invalid CUDA version %q" [AS raw] in
      match Atoi p0 with
      | Err _ => Err invalid
      | Ok major =>
          if major <? 0 then Err invalid else
          match Atoi p1 with
          | Err _ => Err invalid
          | Ok minor =>
              if (minor <? 0) || (minor >? 99) then Err invalid else
              Ok (wrap_int64 (wrap_int64 (major * 1000) + minor * 10))
          end
      end
  | _ => Err (Errorf "CUDA version %q must be major.minor" [AS raw])
  end.

(** [bufio.Scanner] gives up on a line that does not fit its 64 KiB buffer. *)
Definition max_line : Z := 65535.
Definition ErrTooLong : error := Sentinel "bufio.ErrTooLong".

Fixpoint scan_cuda_version (lines : list string) : result Z :=
  match lines with
  | [] => Ok defaultCUDAVersion
  | text :: rest =>
      if slen text >? max_line
      then Err (Wrapf "read Mock NVML config for CUDA version: %w" [] ErrTooLong) else
      let line := TrimSpace text in
      if negb (HasPrefix line "cuda_version:") then scan_cuda_version rest else
      parseCUDAVersion (Trim (TrimSpace (TrimPrefix line "cuda_version:")) dquote)
  end.

Section backend.
Context {W : Type} `{OS W}.

Definition envOr (key fallback : string) : string :=
  let value := TrimSpace (Getenv os_environ key) in
  if negb (String.eqb value "") then value else fallback.

Definition configuredCUDAVersion (configPath : string) (w : W) : result Z :=
  let raw := TrimSpace (Getenv os_environ "FAKE_NVIDIA_CUDA_VERSION") in
  if negb (String.eqb raw "") then parseCUDAVersion raw else
  if String.eqb configPath "" then Ok defaultCUDAVersion else
  match os_read_file configPath w with
  | Err e => Err (Wrapf "open Mock NVML config for CUDA version: %w" [] e)
  | Ok text => scan_cuda_version (Split text newline)
  end.

(** The capabilities by profile name; a later id replaces an earlier one
    with the same name. *)
Definition capability_map (catalog : profiles.Catalog) : gmap string profiles.ComputeCapability :=
  fold_left (fun m id =>
    match profiles.LookupProfile catalog id with
    | Some p => <[profiles.p_Name p := profiles.p_ComputeCapability p]> m
    | None => m
    end) (profiles.ProfileIDs catalog) ∅.

(** [loaded] is the result of loading the embedded catalog. *)
Definition NewControlBackendFromEnv (loaded : result profiles.Catalog) (w : W) : result (ControlBackend W) :=
  let configPath := TrimSpace (Getenv os_environ "MOCK_NVML_CONFIG") in
  let overridePath := TrimSpace (Getenv os_environ "MOCK_NVML_OVERRIDES") in
  let ctlBinary := envOr "FAKE_NVIDIA_CTL_BIN" "nvml-mock-ctl" in
  let smiBinary := envOr "FAKE_NVIDIA_SMI_BIN" "nvidia-smi" in
  let client := New ctlBinary configPath overridePath in
  let overlay :=
    (if negb (String.eqb configPath "") then [("MOCK_NVML_CONFIG", configPath)] else []) ++
    (if negb (String.eqb overridePath "") then [("MOCK_NVML_OVERRIDES", overridePath)] else []) in
  let observer :=
    match overlay with
    | [] => NewObserver smiBinary
    | _ => {| ob_Binary := smiBinary; ob_Runner := Some (EnvExecRunner overlay) |}
    end in
  catalog ← wrap_err (Wrapf "load CUDA profile metadata: %w" []) loaded;
  cudaVersion ← configuredCUDAVersion configPath w;
  Ok {| cb_manager := Some (NewManager (Some client) (Some observer));
        cb_capability := capability_map catalog; cb_cudaVersion := cudaVersion |}.

Definition stablePCIBusID (index : Z) : string :=
  let n := index + 1 in
  pad_left 4 "0" (FormatHex (Z.quot n 256)) +:+ ":" +:+
  pad_left 2 "0" (FormatHex (Z.rem n 256)) +:+ ":00.0".

Definition zero_capability : profiles.ComputeCapability := {| profiles.cc_Major := 0; profiles.cc_Minor := 0 |}.

Definition cuda_device (capability : gmap string profiles.ComputeCapability) (state : DeviceState) : cuda.Device :=
  let cc := default zero_capability (capability !! ds_Name state) in
  {| dv_Index := Index state; dv_UUID := UUID state; dv_Name := ds_Name state;
     dv_PCIBusID := stablePCIBusID (Index state); dv_ComputeMajor := profiles.cc_Major cc;
     dv_ComputeMinor := profiles.cc_Minor cc; dv_TotalBytes := TotalBytes state;
     dv_UsedBytes := UsedBytes state; dv_FreeBytes := FreeBytes state |}.

Definition ErrNotInitialized : error := Errorf "CUDA control backend is not initialized" [].

Definition backend_Devices (cb : option (ControlBackend W)) : M W (list cuda.Device) :=
  match cb ≫= cb_manager, cb with
  | Some mg, Some c =>
      states ← manager_Snapshot (Some mg);
      mret (map (cuda_device (cb_capability c)) states)
  | _, _ => throw ErrNotInitialized
  end.

Definition backend_Reserve (cb : option (ControlBackend W)) (device bytes : Z) : M W unit := fun w =>
  match cb ≫= cb_manager with
  | None => (Err ErrNotInitialized, w)
  | Some mg =>
      let '(r, w1) := ReserveMemory (Some mg) (Itoa device) bytes w in
      match r with
      | Ok _ => (Ok tt, w1)
      | Err err =>
          if errors_Is err ErrInsufficientMemory
          then (Err (Wrapf "%w: %v" [AE err] (Sentinel ErrOutOfMemory)), w1)
          else (Err err, w1)
      end
  end.

Definition backend_Release (cb : option (ControlBackend W)) (device bytes : Z) : M W unit :=
  match cb ≫= cb_manager with
  | None => throw ErrNotInitialized
  | Some mg => ReleaseMemory (Some mg) (Itoa device) bytes
  end.

Definition reported_CUDAVersion (cb : option (ControlBackend W)) : Z :=
  match cb with
  | Some c => if cb_cudaVersion c <=? 0 then defaultCUDAVersion else cb_cudaVersion c
  | None => defaultCUDAVersion
  end.

(** The methods as a value of the engine's interface. *)
Definition as_backend (cb : option (ControlBackend W)) : Backend W :=
  {| Devices := backend_Devices cb; Reserve := backend_Reserve cb; Release := backend_Release cb;
     backend_CUDAVersion := reported_CUDAVersion cb |}.
End backend.

(** ** The control backend accounts exactly for whole MiB *)
Section accounting.
Context {W : Type} `{NvmlMock W}.
Context (mg : Manager W) (capability : gmap string profiles.ComputeCapability) (version : Z).
Context (Hwired : wired mg) (Hlock : forall w, lockable mg w).

Definition control : option (ControlBackend W) :=
  Some {| cb_manager := Some mg; cb_capability := capability; cb_cudaVersion := version |}.

Definition control_mem (w : W) : list cuda.Device := map (cuda_device capability) (gpus w).
(** Used memory that no process owns. *)
Definition control_releasable (w : W) (i : Z) : Z :=
  match find_first (fun d => Index d =? i) (gpus w) with Some d => UsedBytes d - owned d | None => 0 end.

Lemma find_control w index :
  findDevice (control_mem w) index = cuda_device capability <$> find_first (fun d => Index d =? index) (gpus w).
Proof.
  unfold findDevice, control_mem. induction (gpus w) as [| d l IH]; cbn; [done |].
  by destruct (Index d =? index).
Qed.

Lemma find_control_some w index dev :
  findDevice (control_mem w) index = Some dev ->
  exists d, find_first (fun d => Index d =? index) (gpus w) = Some d /\ dev = cuda_device capability d /\
    names_gpu (Itoa index) d w /\ Index d = index.
Proof.
  rewrite find_control. intros Hf. destruct (find_first _ _) as [d |] eqn:E; [| done]. injection Hf as <-.
  pose proof E as [Hin Hi]%find_first_some. to_prop. exists d. by subst index.
Qed.

Lemma find_update_gpu i j f l : (forall d, Index (f d) = Index d) ->
  find_first (fun e => Index e =? i) (update_gpu j f l) =
  (fun d => if Index d =? j then f d else d) <$> find_first (fun e => Index e =? i) l.
Proof.
  intros Hf. unfold update_gpu. induction l as [| d l IH]; cbn; [done |].
  assert (Index (if Index d =? j then f d else d) = Index d) as -> by (by destruct (Index d =? j)).
  by destruct (Index d =? i).
Qed.

(** What a change of the two counters is, seen through the interface. *)
Lemma control_charge w w' d amount :
  d ∈ gpus w -> gpus w' = update_gpu (Index d) (set_memory (UsedBytes d + amount) (FreeBytes d - amount)) (gpus w) ->
  control_mem w' = map (charge (on_device (Index d) amount)) (control_mem w) /\
  forall i, control_releasable w' i = control_releasable w i + on_device (Index d) amount i.
Proof.
  intros Hd G. destruct (gpus_ok w) as (_ & Hidx & _).
  assert (forall e, e ∈ gpus w -> Index e = Index d -> e = d) as Huniq.
  { intros e He E. by apply (NoDup_map_inj Index (gpus w)). }
  split.
  - unfold control_mem. rewrite G. unfold update_gpu. rewrite !map_map. apply map_ext_in.
    intros e He%list_elem_of_In. unfold charge, on_device. cbn.
    destruct (Z.eqb_spec (Index e) (Index d)) as [E | E].
    + rewrite (Huniq e He E). by unfold cuda_device.
    + unfold cuda_device. f_equal; lia.
  - intros i. unfold control_releasable, on_device. rewrite G, find_update_gpu by done.
    destruct (find_first (fun e => Index e =? i) (gpus w)) as [e |] eqn:E; cbn [fmap option_fmap option_map].
    + apply find_first_some in E as [He Ei]. to_prop. rewrite Ei.
      destruct (Z.eqb_spec i (Index d)) as [Ed | Ed]; [| lia].
      rewrite (Huniq e He) by congruence. unfold owned. cbn [UsedBytes Processes set_memory]. lia.
    + rewrite find_first_none in E. specialize (E d Hd). rewrite Z.eqb_sym in E. rewrite E. lia.
Qed.

Lemma gpu_word d w : d ∈ gpus w -> u64 (FreeBytes d).
Proof. intros Hd. destruct (gpus_device_ok d w Hd) as (_ & _ & _ & _ & _ & [Hf _] & _). exact Hf. Qed.

Lemma control_Devices w : Devices (as_backend control) w = (Ok (control_mem w), w).
Proof.
  cbn. unfold manager_Snapshot, manager_observer. cbn. destruct Hwired as [_ Ho].
  destruct (mg_Observer mg) as [o |] eqn:Eo; [| by destruct Ho as (? & ? & _)].
  by rewrite (M_bind_ok _ _ _ _ _ (Snapshot_gpus _ w Ho)).
Qed.

Lemma control_Reserve_law w index dev size :
  findDevice (control_mem w) index = Some dev -> mib_aligned size ->
  let r := Reserve (as_backend control) index size w in
  if size <=? dv_FreeBytes dev
  then r.1 = Ok tt /\ control_mem r.2 = map (charge (on_device index size)) (control_mem w) /\
       forall i, control_releasable r.2 i = control_releasable w i + on_device index size i
  else (exists err, r.1 = Err err /\ errors_Is err ErrOutOfMemory = true) /\
       control_mem r.2 = control_mem w /\ forall i, control_releasable r.2 i = control_releasable w i.
Proof.
  intros (d & _ & -> & Hn & <-)%find_control_some Hs. cbn [dv_FreeBytes cuda_device].
  pose proof (reserve_run mg _ d size w Hwired (Hlock w) Hn Hs) as Hrun. cbv zeta in *.
  cbn [Reserve as_backend]. unfold backend_Reserve. cbn [control mbind option_bind cb_manager].
  destruct (ReserveMemory (Some mg) (Itoa (Index d)) size w) as [r w1]. cbn [fst snd] in Hrun.
  destruct (size <=? FreeBytes d).
  - destruct Hrun as [-> G]. split; [done |]. cbn [snd]. apply control_charge; [apply Hn | exact G].
  - destruct Hrun as [(e & -> & He) G]. rewrite He. cbn [fst snd].
    split; [eexists; split; [reflexivity | done] |]. unfold control_mem, control_releasable. by rewrite G.
Qed.

Lemma control_Release_law w index dev size :
  findDevice (control_mem w) index = Some dev -> mib_aligned size ->
  let r := Release (as_backend control) index size w in
  if size <=? control_releasable w index
  then r.1 = Ok tt /\ control_mem r.2 = map (charge (on_device index (- size))) (control_mem w) /\
       forall i, control_releasable r.2 i = control_releasable w i + on_device index (- size) i
  else (exists err, r.1 = Err err) /\
       control_mem r.2 = control_mem w /\ forall i, control_releasable r.2 i = control_releasable w i.
Proof.
  intros (d & Hfind & -> & Hn & Hi)%find_control_some Hs.
  assert (control_releasable w index = UsedBytes d - owned d) as -> by (unfold control_releasable; by rewrite Hfind).
  subst index. pose proof (release_run mg _ d size w Hwired (Hlock w) Hn Hs) as Hrun. cbv zeta in *.
  cbn [Release as_backend]. unfold backend_Release. cbn [control mbind option_bind cb_manager].
  destruct (ReleaseMemory (Some mg) (Itoa (Index d)) size w) as [r w1]. cbn [fst snd] in *.
  destruct (Z.leb_spec (owned d + size) (UsedBytes d)) as [Hle | Hgt].
  - rewrite (proj2 (Z.leb_le _ _)) by lia. destruct Hrun as [-> G]. split; [done |].
    apply control_charge; [apply Hn |]. rewrite G.
    by replace (UsedBytes d + - size) with (UsedBytes d - size) by lia;
       replace (FreeBytes d - - size) with (FreeBytes d + size) by lia.
  - rewrite (proj2 (Z.leb_gt _ _)) by lia. destruct Hrun as [(e & ->) G].
    split; [by eexists |]. unfold control_mem, control_releasable. by rewrite G.
Qed.

Lemma control_initial w0 : (forall d, d ∈ gpus w0 -> owned d <= UsedBytes d) ->
  forall i, 0 <= control_releasable w0 i.
Proof.
  intros Hinit i. unfold control_releasable. destruct (find_first _ _) as [d |] eqn:E; [| done].
  apply find_first_some in E as [Hd _]. specialize (Hinit d Hd). lia.
Qed.

(** What a charge of the devices is for each GPU. *)
Lemma control_charged w0 w f : control_mem w = map (charge f) (control_mem w0) ->
  forall d, d ∈ gpus w0 -> exists d', d' ∈ gpus w /\ Index d' = Index d /\
    UsedBytes d' = UsedBytes d + f (Index d) /\ FreeBytes d' = FreeBytes d - f (Index d).
Proof.
  intros Hm d [k Hk]%list_elem_of_lookup. unfold control_mem in Hm.
  assert (map (charge f) (map (cuda_device capability) (gpus w0)) !! k =
    Some (charge f (cuda_device capability d))) as Hk' by by rewrite !list_lookup_fmap, Hk.
  rewrite <- Hm, list_lookup_fmap in Hk'. apply fmap_Some in Hk' as (d' & Hd' & E).
  exists d'. split; [by eapply list_elem_of_lookup_2 |].
  unfold charge, cuda_device in E. cbn in E. injection E as Ei _ _ _ _ _ _ Eu Ef.
  rewrite <- Ei, <- Eu, <- Ef. done.
Qed.

#[export] Instance control_accounting : AccountingBackend W (as_backend control).
Proof.
  refine {| mem := control_mem; releasable := control_releasable; exact := mib_aligned |};
    [| | | | exact control_Devices | exact control_Reserve_law | exact control_Release_law].
  - by intros s [? _].
  - intros s t. apply aligned_add.
  - by vm_compute.
  - intros w. apply Forall_map, Forall_forall. intros d Hd. cbn. by eapply gpu_word.
Defined.
End accounting.

(** ** Lemmas: versions *)
Definition version_text (major minor : Z) : string := Itoa major +:+ "." +:+ Itoa minor.

Lemma parse_version_text major minor :
  0 <= major <= 9223372036854774 -> 0 <= minor <= 99 ->
  parseCUDAVersion (version_text major minor) = Ok (major * 1000 + minor * 10).
Proof.
  intros HM Hm. unfold parseCUDAVersion, version_text. rewrite !Itoa_nonneg by lia.
  rewrite TrimSpace_graph by by rewrite !sforall_append, !FormatUint_graph by lia.
  change (FormatUint major +:+ "." +:+ FormatUint minor) with (FormatUint major +:+ ("."%char ::: FormatUint minor)).
  rewrite Split_app, Split_free by (apply FormatUint_free; done || lia).
  rewrite !Atoi_nonneg by (unfold int64_cutoff; lia).
  rewrite !(proj2 (Z.ltb_ge _ 0)) by lia. rewrite (proj2 (gtb_false minor 99)) by lia. cbn [orb].
  f_equal. rewrite (wrap_int64_small (major * 1000)) by (unfold int64, int64_cutoff; lia).
  apply wrap_int64_small. unfold int64, int64_cutoff. lia.
Qed.

Lemma parse_version_refused major minor :
  0 <= major < int64_cutoff -> 99 < minor < int64_cutoff ->
  is_ok (parseCUDAVersion (version_text major minor)) = false.
Proof.
  intros HM Hm. unfold parseCUDAVersion, version_text. rewrite !Itoa_nonneg by lia.
  rewrite TrimSpace_graph by by rewrite !sforall_append, !FormatUint_graph by lia.
  change (FormatUint major +:+ "." +:+ FormatUint minor) with (FormatUint major +:+ ("."%char ::: FormatUint minor)).
  rewrite Split_app, Split_free by (apply FormatUint_free; done || lia).
  rewrite !Atoi_nonneg by lia. rewrite !(proj2 (Z.ltb_ge _ 0)) by lia. by rewrite (proj2 (Z.gtb_lt minor 99)) by lia.
Qed.

(** ** Properties *)

(** C2. The engine over the control backend, the manager, [nvidia-smi] and
    the mock control command, end to end: run any sequence of allocations of
    whole MiB, frees, resets and device switches from a fresh engine; then
    every GPU of the node has its initial used and free memory plus and
    minus exactly the live CUDA allocations on it, and once none is live
    each GPU has its initial counters. *)
Theorem cuda_allocations_on_node {W} `{NvmlMock W} mg capability version policy en w0 ops :
  wired mg -> (forall w, lockable mg w) ->
  (forall d, d ∈ gpus w0 -> owned d <= UsedBytes d) ->
  NewEngine (Some (as_backend (control mg capability version))) policy = Ok en ->
  Forall (fun o => match o with OpTrack _ size => mib_aligned size | _ => True end) ops ->
  exists en', (run_ops ops (Some en) w0).1.2 = Some en' /\
    let w := (run_ops ops (Some en) w0).2 in
    forall d, d ∈ gpus w0 -> exists d', d' ∈ gpus w /\ Index d' = Index d /\
      UsedBytes d' = UsedBytes d + owned_by (allocations en') (Index d) /\
      FreeBytes d' = FreeBytes d - owned_by (allocations en') (Index d) /\
      (allocations en' = ∅ -> UsedBytes d' = UsedBytes d /\ FreeBytes d' = FreeBytes d).
Proof.
  intros Hw Hl Hinit Hnew Hops.
  set (acc := control_accounting mg capability version Hw Hl).
  assert (accounted (AccountingBackend0 := acc) w0 en w0) as Ha.
  { apply (new_engine_accounted (AccountingBackend0 := acc) policy); [done |]. by apply control_initial. }
  destruct (run_ops_accounted (AccountingBackend0 := acc) ops w0 en w0 Ha Hops) as (en' & He & Ha').
  exists en'. split; [done |]. cbv zeta. intros d Hd.
  destruct (control_charged _ _ _ _ (acc_mem _ _ _ Ha') d Hd) as (d' & Hin & Hi & Hu & Hf).
  exists d'. split; [done |]. split; [done |]. split; [done |]. split; [done |].
  intros Hemp. rewrite Hu, Hf, Hemp, owned_by_empty. lia.
Qed.

(** The two readers of a CUDA version agree: a version the configuration
    composer accepts, written as two dot-separated parts with a minor of at
    most 99, is parsed by the backend to the packed number of the same major
    and minor; and every major.minor text is parsed to a number from which
    both parts can be read back. *)
Theorem cuda_version_agreement s ms :
  config.normalizeSystem s = Ok ms -> TrimSpace (config.ms_CUDAVersion ms) = config.ms_CUDAVersion ms ->
  length (Split (config.ms_CUDAVersion ms) ".") = 2%nat ->
  config.ms_CUDAVersionMinor ms <= 99 -> config.ms_CUDAVersionMajor ms <= 9223372036854774 ->
  exists v, parseCUDAVersion (config.ms_CUDAVersion ms) = Ok v /\
    v / 1000 = config.ms_CUDAVersionMajor ms /\ v mod 1000 / 10 = config.ms_CUDAVersionMinor ms /\
    parseCUDAVersion (version_text (config.ms_CUDAVersionMajor ms) (config.ms_CUDAVersionMinor ms)) = Ok v.
Proof.
  unfold config.normalizeSystem. cbv zeta.
  set (cuda := if String.eqb (config.s_CUDAVersion s) "" then "13.0" else config.s_CUDAVersion s).
  destruct (Split cuda ".") as [| p0 [| p1 rest]] eqn:E; [discriminate | discriminate |].
  destruct (Atoi p0) as [major |] eqn:E0; [| discriminate].
  destruct (Z.ltb_spec major 0) as [| HM]; [discriminate |].
  destruct (Atoi p1) as [minor |] eqn:E1; [| discriminate].
  destruct (Z.ltb_spec minor 0) as [| Hm]; [discriminate |]. intros [= <-].
  cbn [config.ms_CUDAVersion config.ms_CUDAVersionMajor config.ms_CUDAVersionMinor]. intros Htrim Hlen H99 Hmax. rewrite E in Hlen. destruct rest; [| discriminate].
  exists (major * 1000 + minor * 10). split; [| split; [| split; [| by apply parse_version_text]]].
  2, 3: Z.to_euclidean_division_equations; lia.
  unfold parseCUDAVersion. rewrite Htrim, E, E0, E1.
  rewrite !(proj2 (Z.ltb_ge _ 0)) by lia. rewrite (proj2 (gtb_false minor 99)) by lia. cbn [orb].
  f_equal. rewrite (wrap_int64_small (major * 1000)) by (unfold int64, int64_cutoff; lia).
  apply wrap_int64_small. unfold int64, int64_cutoff. lia.
Qed.

(** Outside that form they disagree: the composer accepts a version
    with a third part, and one with a minor above 99, that the CUDA backend
    refuses when it reads the composed configuration. *)
Theorem cuda_version_mismatch :
  forall v, v ∈ ["12.8.1"; "13.100"] ->
  is_ok (config.normalizeSystem {| config.s_DriverVersion := ""; config.s_CUDAVersion := v |}) = true /\
  is_ok (parseCUDAVersion v) = false /\
  is_ok (scan_cuda_version ["cuda_version: " +:+ chr dquote +:+ v +:+ chr dquote]) = false.
Proof.
  intros v Hv. repeat (apply elem_of_cons in Hv as [-> | Hv]; [by vm_compute |]). by apply elem_of_nil in Hv.
Qed.

(** A reservation that is not a whole number of MiB can never be
    observed: whatever the commands do, if a GPU is reported as [d] and
    later as [d'], then [d'] does not have the used bytes of [d] plus (or
    minus) such an amount.  The engine and the node necessarily drift apart
    on allocations of these sizes. *)
Theorem unaligned_reservation_unobservable {W} `{OS W} (o : option (Observer W)) target w w1 w' w1' d d' delta :
  observe.Device o target w = (Ok d, w1) -> observe.Device o target w' = (Ok d', w1') -> delta mod mib <> 0 ->
  UsedBytes d' <> UsedBytes d + delta /\ UsedBytes d' <> UsedBytes d - delta.
Proof.
  intros (_ & _ & [_ Hd] & _)%Device_bounded (_ & _ & [_ Hd'] & _)%Device_bounded Hdelta.
  split; intros E; apply Hdelta.
  - replace delta with (UsedBytes d' - UsedBytes d) by lia. by rewrite Zminus_mod, Hd, Hd'.
  - replace delta with (UsedBytes d - UsedBytes d') by lia. by rewrite Zminus_mod, Hd, Hd'.
Qed.

(** ** Witnesses *)
Definition demo_policy : FaultPolicy := {| OOMAfter := -1 |}.
Definition demo_backend : Backend Machine := as_backend (control demo_manager ∅ 13000).
Definition demo_engine : Engine Machine :=
  {| backend := Some demo_backend; fault := demo_policy; currentDevice := 0; allocations := ∅;
     successfulAllocations := 0 |}.
Definition demo_ops : list op := [OpTrack 1 (64 * mib); OpSetDevice 1; OpTrack 2 mib; OpFree 1; OpReset].

Lemma cuda_allocations_on_node_witness :
  exists en', (run_ops demo_ops (Some demo_engine) demo_machine).1.2 = Some en' /\
    exists d', d' ∈ machine_gpus (run_ops demo_ops (Some demo_engine) demo_machine).2 /\
      UsedBytes d' = 3072 * mib + owned_by (allocations en') 0.
Proof.
  destruct (cuda_allocations_on_node demo_manager ∅ 13000 demo_policy demo_engine demo_machine demo_ops)
    as (en' & E & Hd).
  - apply demo_wired.
  - apply demo_lockable.
  - intros d Hd. apply elem_of_cons in Hd as [-> | Hd]; [by vm_compute |].
    apply elem_of_cons in Hd as [-> | Hd]; [by vm_compute | by apply elem_of_nil in Hd].
  - reflexivity.
  - repeat constructor; by vm_compute.
  - exists en'. split; [exact E |].
    destruct (Hd (demo_gpu 0 "GPU-aa" 3072 13000 [demo_worker 7 2048; demo_worker 9 512]) ltac:(left))
      as (d' & Hin & _ & Hu & _).
    exists d'. split; [exact Hin | exact Hu].
Defined.

Lemma cuda_version_agreement_witness :
  exists v, parseCUDAVersion "12.8" = Ok v /\ v / 1000 = 12.
Proof.
  destruct (cuda_version_agreement {| config.s_DriverVersion := ""; config.s_CUDAVersion := "12.8" |} _ eq_refl
    ltac:(by vm_compute) ltac:(by vm_compute) ltac:(by vm_compute) ltac:(by vm_compute)) as (v & H1 & H2 & _).
  exists v. split; [exact H1 | exact H2].
Defined.

Lemma cuda_version_mismatch_witness : is_ok (parseCUDAVersion "12.8.1") = false.
Proof. apply (proj1 (proj2 (cuda_version_mismatch "12.8.1" ltac:(left)))). Defined.

Lemma unaligned_reservation_unobservable_witness :
  UsedBytes (demo_gpu 0 "GPU-aa" 3072 13000 [demo_worker 7 2048; demo_worker 9 512]) <> 3072 * mib + 1000.
Proof.
  refine (proj1 (unaligned_reservation_unobservable (W := Machine) demo_observer "0" demo_machine demo_machine
    demo_machine demo_machine (demo_gpu 0 "GPU-aa" 3072 13000 [demo_worker 7 2048; demo_worker 9 512]) _ 1000 _ _ _)).
  - vm_compute. reflexivity.
  - vm_compute. reflexivity.
  - by vm_compute.
Defined.

End cuda_backend.
