(* ===== verification/LibCuda.v ===== *)
(** * The CUDA shim's C interface: [cmd/libcuda/bridge_linux.go] and
    [cmd/libcuda/helpers.c]

    Each exported function is a transformer of the process state of the shim
    (the engine created on first use, the last runtime error and the live
    host tokens) and of the world.  A pointer the caller passes is the flag
    whether it is not NULL; what a call stores through it is returned.
    [malloc(1)] and [dlsym] are parameters. *)
From S2P Require Import Prelude GoStrings GoStrconv Catalog Config Control Observe Manager Node CudaEngine CudaBackend.
Import control observe manager node cuda cuda_backend.

Module libcuda.

(** ** Result codes ([cuda_abi.h]) *)
Definition FAKE_CUDA_SUCCESS : Z := 0.
Definition FAKE_CUDA_ERROR_INVALID_VALUE : Z := 1.
Definition FAKE_CUDA_ERROR_MEMORY_ALLOCATION : Z := 2.
Definition FAKE_CUDA_ERROR_INITIALIZATION : Z := 3.
Definition FAKE_CUDA_ERROR_INVALID_DEVICE : Z := 10.
Definition FAKE_CUDA_ERROR_NO_DEVICE : Z := 100.
Definition FAKE_CUDA_ERROR_NOT_SUPPORTED : Z := 801.
Definition FAKE_CUDA_ERROR_UNKNOWN : Z := 999.
Definition FAKE_CUDA_DRIVER_SUCCESS : Z := 0.
Definition FAKE_CUDA_DRIVER_ERROR_INVALID_VALUE : Z := 1.
Definition FAKE_CUDA_DRIVER_ERROR_OUT_OF_MEMORY : Z := 2.
Definition FAKE_CUDA_DRIVER_ERROR_NOT_INITIALIZED : Z := 3.
Definition FAKE_CUDA_DRIVER_ERROR_NO_DEVICE : Z := 100.
Definition FAKE_CUDA_DRIVER_ERROR_INVALID_DEVICE : Z := 101.
Definition FAKE_CUDA_DRIVER_ERROR_NOT_FOUND : Z := 500.
Definition FAKE_CUDA_DRIVER_ERROR_NOT_SUPPORTED : Z := 801.
Definition FAKE_CUDA_DRIVER_ERROR_UNKNOWN : Z := 999.

Definition driverStatus (status : Status) : Z :=
  match status with
  | StatusSuccess => FAKE_CUDA_DRIVER_SUCCESS
  | StatusInvalidValue => FAKE_CUDA_DRIVER_ERROR_INVALID_VALUE
  | StatusOutOfMemory => FAKE_CUDA_DRIVER_ERROR_OUT_OF_MEMORY
  | StatusInitialization => FAKE_CUDA_DRIVER_ERROR_NOT_INITIALIZED
  | StatusNoDevice => FAKE_CUDA_DRIVER_ERROR_NO_DEVICE
  | StatusInvalidDevice => FAKE_CUDA_DRIVER_ERROR_INVALID_DEVICE
  | StatusNotFound => FAKE_CUDA_DRIVER_ERROR_NOT_FOUND
  | StatusNotSupported => FAKE_CUDA_DRIVER_ERROR_NOT_SUPPORTED
  | StatusUnknown => FAKE_CUDA_DRIVER_ERROR_UNKNOWN
  end.

Definition runtime_code (status : Status) : Z :=
  match status with
  | StatusSuccess => FAKE_CUDA_SUCCESS
  | StatusInvalidValue => FAKE_CUDA_ERROR_INVALID_VALUE
  | StatusOutOfMemory => FAKE_CUDA_ERROR_MEMORY_ALLOCATION
  | StatusInitialization => FAKE_CUDA_ERROR_INITIALIZATION
  | StatusNoDevice => FAKE_CUDA_ERROR_NO_DEVICE
  | StatusInvalidDevice => FAKE_CUDA_ERROR_INVALID_DEVICE
  | StatusNotSupported | StatusNotFound => FAKE_CUDA_ERROR_NOT_SUPPORTED
  | StatusUnknown => FAKE_CUDA_ERROR_UNKNOWN
  end.

(** Conversion of a Go int to a C int. *)
Definition wrap_int32 (z : Z) : Z := (z + 2147483648) mod 4294967296 - 2147483648.

(** ** helpers.c *)
(** The bytes before the first NUL. *)
Fixpoint c_string (s : string) : string :=
  match s with
  | EmptyString => EmptyString
  | c ::: r => if byte_val c =? 0 then EmptyString else c ::: c_string r
  end.

Fixpoint take_string (n : nat) (s : string) : string :=
  match n, s with
  | S k, c ::: r => c ::: take_string k r
  | _, _ => EmptyString
  end.

(** What [fake_cuda_copy_string] leaves before the terminating NUL. *)
Definition fake_cuda_copy_string (len : Z) (src : string) : string :=
  let s := c_string src in
  if slen s >=? len then take_string (Z.to_nat (len - 1)) s else s.

Definition hex_value (c : ascii) : option Z :=
  let v := byte_val c in
  if in_range 48 v 57 then Some (v - 48) else
  let v := if in_range 65 v 90 then v + 32 else v in
  if in_range 97 v 102 then Some (10 + v - 97) else None.

(** The digits collected by the first loop: dashes are skipped, the loop ends
    at 32 digits, [None] on another character. *)
Fixpoint collect_hex (text : string) (room : nat) : option (list Z) :=
  match room with
  | O => Some []
  | S k =>
      match text with
      | EmptyString => Some []
      | c ::: r =>
          if char_eqb c "-" then collect_hex r room else
          match hex_value c with
          | None => None
          | Some v => cons v <$> collect_hex r k
          end
      end
  end.

Fixpoint pair_digits (l : list Z) : list Z :=
  match l with
  | hi :: lo :: r => Z.lor (Z.shiftl hi 4) lo :: pair_digits r
  | _ => []
  end.

Definition fake_cuda_parse_uuid (text : string) : option (list Z) :=
  match collect_hex (TrimPrefix (c_string text) "GPU-") 32 with
  | None => None
  | Some digits => if (length digits =? 32)%nat then Some (pair_digits digits) else None
  end.

Definition driver_error_name (code : Z) : string :=
  if code =? 0 then "CUDA_SUCCESS" else
  if code =? 1 then "CUDA_ERROR_INVALID_VALUE" else
  if code =? 2 then "CUDA_ERROR_OUT_OF_MEMORY" else
  if code =? 3 then "CUDA_ERROR_NOT_INITIALIZED" else
  if code =? 100 then "CUDA_ERROR_NO_DEVICE" else
  if code =? 101 then "CUDA_ERROR_INVALID_DEVICE" else
  if code =? 500 then "CUDA_ERROR_NOT_FOUND" else
  if code =? 801 then "CUDA_ERROR_NOT_SUPPORTED" else "CUDA_ERROR_UNKNOWN".

Definition driver_error_string (code : Z) : string :=
  if code =? 0 then "no error" else
  if code =? 1 then "invalid argument" else
  if code =? 2 then "out of memory" else
  if code =? 3 then "driver not initialized" else
  if code =? 100 then "no CUDA-capable device is detected" else
  if code =? 101 then "invalid device ordinal" else
  if code =? 500 then "named symbol was not found" else
  if code =? 801 then "operation is not supported by fake-nvidia" else "unknown CUDA driver error".

Definition runtime_error_name (code : Z) : string :=
  if code =? 0 then "cudaSuccess" else
  if code =? 1 then "cudaErrorInvalidValue" else
  if code =? 2 then "cudaErrorMemoryAllocation" else
  if code =? 3 then "cudaErrorInitializationError" else
  if code =? 10 then "cudaErrorInvalidDevice" else
  if code =? 100 then "cudaErrorNoDevice" else
  if code =? 801 then "cudaErrorNotSupported" else "cudaErrorUnknown".

Definition runtime_error_string (code : Z) : string :=
  if code =? 0 then "no error" else
  if code =? 1 then "invalid argument" else
  if code =? 2 then "out of memory" else
  if code =? 3 then "initialization error" else
  if code =? 10 then "invalid device ordinal" else
  if code =? 100 then "no CUDA-capable device is detected" else
  if code =? 801 then "operation is not supported by fake-nvidia" else "unknown CUDA runtime error".

Definition supported_symbols : list string := [
  "cuInit"; "cuDriverGetVersion"; "cuDeviceGetCount"; "cuDeviceGet";
  "cuDeviceGetName"; "cuDeviceGetUuid"; "cuDeviceGetUuid_v2";
  "cuDeviceGetPCIBusId"; "cuDeviceTotalMem"; "cuDeviceTotalMem_v2";
  "cuDeviceComputeCapability"; "cuDeviceGetAttribute"; "cuMemGetInfo";
  "cuMemGetInfo_v2"; "cuMemAlloc"; "cuMemAlloc_v2"; "cuMemFree";
  "cuMemFree_v2"; "cuGetErrorName"; "cuGetErrorString";
  "cuGetProcAddress"; "cuGetProcAddress_v2"; "cuModuleLoadData";
  "cuModuleLoadDataEx"; "cuModuleGetFunction"; "cuLaunchKernel"].

(** [cudaDeviceProp] as [fake_cuda_fill_properties] fills it: the fields that
    are not zero. *)
Record DeviceProp := {
  prop_name : string;
  prop_uuid : list Z;
  prop_totalGlobalMem : Z;
  prop_sharedMemPerBlock : Z;
  prop_regsPerBlock : Z;
  prop_warpSize : Z;
  prop_memPitch : Z;
  prop_maxThreadsPerBlock : Z;
  prop_maxThreadsDim : list Z;
  prop_maxGridSize : list Z;
  prop_totalConstMem : Z;
  prop_major : Z;
  prop_minor : Z
}.

Definition zero_uuid : list Z := replicate 16 0.

Definition fake_cuda_fill_properties (name uuid : string) (total_bytes major minor : Z) : DeviceProp :=
  {| prop_name := fake_cuda_copy_string 256 name;
     prop_uuid := default zero_uuid (fake_cuda_parse_uuid uuid);
     prop_totalGlobalMem := total_bytes; prop_sharedMemPerBlock := 48 * 1024;
     prop_regsPerBlock := 65536; prop_warpSize := 32; prop_memPitch := 2147483647;
     prop_maxThreadsPerBlock := 1024; prop_maxThreadsDim := [1024; 1024; 64];
     prop_maxGridSize := [2147483647; 65535; 65535]; prop_totalConstMem := 64 * 1024;
     prop_major := major; prop_minor := minor |}.

(** ** The process state of the shim *)
Record Shim (W : Type) := {
  engine_once : option (result (Engine W));   (* None until the first call *)
  lastError : Z;
  tokens : gset Z                             (* live host tokens *)
}.
Arguments engine_once {W}. Arguments lastError {W}. Arguments tokens {W}.

Definition fresh_shim {W} : Shim W := {| engine_once := None; lastError := 0; tokens := ∅ |}.

(** ** The exported functions *)
Section api.
Context {W : Type} `{OS W}.
(** The embedded catalog, [malloc(1)] on the live tokens, and [dlsym]. *)
Context (loaded : result profiles.Catalog) (malloc1 : gset Z -> option Z) (dlsym : string -> option Z).

Definition API (A : Type) : Type := Shim W -> W -> A * Shim W * W.

Definition set_engine (en : Engine W) (s : Shim W) : Shim W :=
  {| engine_once := Some (Ok en); lastError := lastError s; tokens := tokens s |}.
Definition set_tokens (t : gset Z) (s : Shim W) : Shim W :=
  {| engine_once := engine_once s; lastError := lastError s; tokens := t |}.

(** The body of [engineOnce.Do]. *)
Definition initEngine (w : W) : result (Engine W) :=
  cb ← NewControlBackendFromEnv loaded w;
  policy ← FaultPolicyFromEnv os_environ;
  NewEngine (Some (as_backend (Some cb))) policy.

Definition getEngine (s : Shim W) (w : W) : result (Engine W) * Shim W :=
  match engine_once s with
  | Some r => (r, s)
  | None =>
      let r := initEngine w in
      (r, {| engine_once := Some r; lastError := lastError s; tokens := tokens s |})
  end.

(** Keep the engine a method returns. *)
Definition keep_engine (e : option (Engine W)) (s : Shim W) : Shim W :=
  match e with Some en => set_engine en s | None => s end.

(** A call on the engine; [failed] when the engine cannot be created. *)
Definition on_engine {A} (failed : A) (call : option (Engine W) -> W -> A * option (Engine W) * W) : API A :=
  fun s w =>
    match getEngine s w with
    | (Err _, s1) => (failed, s1, w)
    | (Ok en, s1) => let '(a, e, w1) := call (Some en) w in (a, keep_engine e s1, w1)
    end.

Definition runtimeStatus {A} (status : Status) (stored : A) : Shim W -> (Z * A) * Shim W := fun s =>
  let code := runtime_code status in
  ((code, stored),
   if negb (code =? FAKE_CUDA_SUCCESS)
   then {| engine_once := engine_once s; lastError := code; tokens := tokens s |} else s).

(** End of a runtime call: the code, what was stored, the state. *)
Definition runtime_return {A} (status : Status) (stored : A) (s : Shim W) (w : W) : (Z * A) * Shim W * W :=
  let '(r, s1) := runtimeStatus status stored s in (r, s1, w).

Definition bridge_device (index : Z) : API (cuda.Device * Status) :=
  on_engine (zero_Device, StatusInitialization) (fun e => engine_Device e index).

(** *** Driver API *)
Definition cuInit (flags : Z) : API Z := fun s w =>
  if negb (flags =? 0) then (FAKE_CUDA_DRIVER_ERROR_INVALID_VALUE, s, w) else
  let '(status, s1, w1) := on_engine StatusInitialization Init s w in (driverStatus status, s1, w1).

(** A driver query that stores a value on success. *)
Definition driver_query {A B} (call : API (A * Status)) (store : A -> B) : API (Z * option B) := fun s w =>
  let '((value, status), s1, w1) := call s w in
  ((driverStatus status, if bool_decide (status = StatusSuccess) then Some (store value) else None), s1, w1).

Definition invalid_driver {B} : API (Z * option B) := fun s w =>
  ((FAKE_CUDA_DRIVER_ERROR_INVALID_VALUE, None), s, w).

Definition engine_version : API (Z * Status) :=
  on_engine (0, StatusInitialization) (fun e w => (CUDAVersion e, e, w)).
Definition engine_count : API (Z * Status) :=
  on_engine (0, StatusInitialization) DeviceCount.
Definition engine_memory : API ((Z * Z) * Status) :=
  on_engine ((0, 0), StatusInitialization) (fun e w =>
    let '((free, total, status), e1, w1) := MemoryInfo e w in (((free, total), status), e1, w1)).

Definition cuDriverGetVersion (version : bool) : API (Z * option Z) :=
  if negb version then invalid_driver else driver_query engine_version wrap_int32.

Definition cuDeviceGetCount (count : bool) : API (Z * option Z) :=
  if negb count then invalid_driver else driver_query engine_count wrap_int32.

Definition cuDeviceGet (out : bool) (ordinal : Z) : API (Z * option Z) :=
  if negb out then invalid_driver else driver_query (bridge_device ordinal) (fun _ => ordinal).

Definition cuDeviceGetName (name : bool) (length dev : Z) : API (Z * option string) :=
  if negb name || (length <=? 0) then invalid_driver else
  driver_query (bridge_device dev) (fun info => fake_cuda_copy_string length (dv_Name info)).

Definition cuDeviceGetUuid (uuid : bool) (dev : Z) : API (Z * option (list Z)) :=
  if negb uuid then invalid_driver else fun s w =>
  let '((info, status), s1, w1) := bridge_device dev s w in
  match status with
  | StatusSuccess =>
      match fake_cuda_parse_uuid (dv_UUID info) with
      | None => ((FAKE_CUDA_DRIVER_ERROR_UNKNOWN, None), s1, w1)
      | Some bytes => ((FAKE_CUDA_DRIVER_SUCCESS, Some bytes), s1, w1)
      end
  | _ => ((driverStatus status, None), s1, w1)
  end.
Definition cuDeviceGetUuid_v2 := cuDeviceGetUuid.

Definition cuDeviceGetPCIBusId (busID : bool) (length dev : Z) : API (Z * option string) :=
  if negb busID || (length <=? 0) then invalid_driver else
  driver_query (bridge_device dev) (fun info => fake_cuda_copy_string length (dv_PCIBusID info)).

Definition cuDeviceTotalMem (bytes : bool) (dev : Z) : API (Z * option Z) :=
  if negb bytes then invalid_driver else driver_query (bridge_device dev) dv_TotalBytes.
Definition cuDeviceTotalMem_v2 := cuDeviceTotalMem.

Definition cuDeviceComputeCapability (major minor : bool) (dev : Z) : API (Z * option (Z * Z)) :=
  if negb major || negb minor then invalid_driver else fun s w =>
  let '((info, status), s1, w1) := bridge_device dev s w in
  match status with
  | StatusSuccess =>
      if dv_ComputeMajor info <=? 0 then ((FAKE_CUDA_DRIVER_ERROR_NOT_SUPPORTED, None), s1, w1)
      else ((FAKE_CUDA_DRIVER_SUCCESS, Some (wrap_int32 (dv_ComputeMajor info), wrap_int32 (dv_ComputeMinor info))), s1, w1)
  | _ => ((driverStatus status, None), s1, w1)
  end.

(** The attribute table; [None] for an attribute that is not supported. *)
Definition attribute_value (info : cuda.Device) (attribute : Z) : option Z :=
  if attribute =? 1 then Some 1024 else
  if (attribute =? 2) || (attribute =? 3) then Some 1024 else
  if attribute =? 4 then Some 64 else
  if attribute =? 5 then Some 2147483647 else
  if (attribute =? 6) || (attribute =? 7) then Some 65535 else
  if attribute =? 8 then Some (48 * 1024) else
  if attribute =? 9 then Some (64 * 1024) else
  if attribute =? 10 then Some 32 else
  if attribute =? 11 then Some 2147483647 else
  if attribute =? 12 then Some 65536 else
  if attribute =? 41 then Some 1 else
  if attribute =? 75 then Some (dv_ComputeMajor info) else
  if attribute =? 76 then Some (dv_ComputeMinor info) else
  if attribute =? 83 then Some 0 else None.

Definition cuDeviceGetAttribute (value : bool) (attribute dev : Z) : API (Z * option Z) :=
  if negb value then invalid_driver else fun s w =>
  let '((info, status), s1, w1) := bridge_device dev s w in
  match status with
  | StatusSuccess =>
      match attribute_value info attribute with
      | None => ((FAKE_CUDA_DRIVER_ERROR_NOT_SUPPORTED, None), s1, w1)
      | Some out => ((FAKE_CUDA_DRIVER_SUCCESS, Some (wrap_int32 out)), s1, w1)
      end
  | _ => ((driverStatus status, None), s1, w1)
  end.

Definition cuMemGetInfo (freeBytes totalBytes : bool) : API (Z * option (Z * Z)) :=
  if negb freeBytes || negb totalBytes then invalid_driver else driver_query engine_memory id.
Definition cuMemGetInfo_v2 := cuMemGetInfo.

(** [fake_cuda_alloc_token] and [fake_cuda_free_token]. *)
Definition alloc_token (s : Shim W) : option Z * Shim W :=
  match malloc1 (tokens s) with
  | Some p => (Some p, set_tokens ({[p]} ∪ tokens s) s)
  | None => (None, s)
  end.
Definition free_token (p : Z) (s : Shim W) : Shim W := set_tokens (tokens s ∖ {[p]}) s.

(** The part [cuMemAlloc] and [cudaMalloc] share: the engine, a token, the
    reservation; the token is given back when the reservation fails. *)
Definition allocate (bytes : Z) : API (Status * option Z) := fun s w =>
  match getEngine s w with
  | (Err _, s1) => ((StatusInitialization, None), s1, w)
  | (Ok en, s1) =>
      match alloc_token s1 with
      | (None, s2) => ((StatusOutOfMemory, None), s2, w)
      | (Some token, s2) =>
          let '(status, e, w1) := TrackAllocation (Some en) token bytes w in
          let s3 := keep_engine e s2 in
          match status with
          | StatusSuccess => ((StatusSuccess, Some token), s3, w1)
          | _ => ((status, None), free_token token s3, w1)
          end
      end
  end.

(** The part [cuMemFree] and [cudaFree] share. *)
Definition release (ptr : Z) : API Status := fun s w =>
  match getEngine s w with
  | (Err _, s1) => (StatusInitialization, s1, w)
  | (Ok en, s1) =>
      let '(status, e, w1) := FreeAllocation (Some en) ptr w in
      let s2 := keep_engine e s1 in
      (status, match status with StatusSuccess => free_token ptr s2 | _ => s2 end, w1)
  end.

Definition cuMemAlloc (out : bool) (bytes : Z) : API (Z * option Z) :=
  if negb out || (bytes =? 0) then invalid_driver else fun s w =>
  let '((status, ptr), s1, w1) := allocate bytes s w in ((driverStatus status, ptr), s1, w1).
Definition cuMemAlloc_v2 := cuMemAlloc.

Definition cuMemFree (ptr : Z) : API Z := fun s w =>
  if ptr =? 0 then (FAKE_CUDA_DRIVER_SUCCESS, s, w) else
  let '(status, s1, w1) := release ptr s w in (driverStatus status, s1, w1).
Definition cuMemFree_v2 := cuMemFree.

Definition cuGetErrorName (code : Z) (name : bool) : Z * option string :=
  if negb name then (FAKE_CUDA_DRIVER_ERROR_INVALID_VALUE, None)
  else (FAKE_CUDA_DRIVER_SUCCESS, Some (driver_error_name code)).

Definition cuGetErrorString (code : Z) (text : bool) : Z * option string :=
  if negb text then (FAKE_CUDA_DRIVER_ERROR_INVALID_VALUE, None)
  else (FAKE_CUDA_DRIVER_SUCCESS, Some (driver_error_string code)).

Definition fake_cuda_lookup_symbol (symbol : string) : option Z :=
  if negb (existsb (String.eqb symbol) supported_symbols) then None else dlsym symbol.

Definition cuGetProcAddress (symbol : option string) (pfn : bool) : Z * option (option Z) :=
  match symbol with
  | Some name =>
      if negb pfn then (FAKE_CUDA_DRIVER_ERROR_INVALID_VALUE, None) else
      match fake_cuda_lookup_symbol name with
      | None => (FAKE_CUDA_DRIVER_ERROR_NOT_FOUND, Some None)
      | Some found => (FAKE_CUDA_DRIVER_SUCCESS, Some (Some found))
      end
  | None => (FAKE_CUDA_DRIVER_ERROR_INVALID_VALUE, None)
  end.

Definition cuGetProcAddress_v2 (symbol : option string) (pfn query : bool) : (Z * option (option Z)) * option Z :=
  let result_ := cuGetProcAddress symbol pfn in
  (result_, if query then Some (if result_.1 =? FAKE_CUDA_DRIVER_SUCCESS then 0 else 1) else None).

Definition cuModuleLoadData : Z := FAKE_CUDA_DRIVER_ERROR_NOT_SUPPORTED.
Definition cuModuleLoadDataEx : Z := FAKE_CUDA_DRIVER_ERROR_NOT_SUPPORTED.
Definition cuModuleGetFunction : Z := FAKE_CUDA_DRIVER_ERROR_NOT_SUPPORTED.
Definition cuLaunchKernel : Z := FAKE_CUDA_DRIVER_ERROR_NOT_SUPPORTED.

(** *** Runtime API *)
Definition runtime_query {A B} (call : API (A * Status)) (store : A -> B) : API (Z * option B) := fun s w =>
  let '((value, status), s1, w1) := call s w in
  runtime_return status (if bool_decide (status = StatusSuccess) then Some (store value) else None) s1 w1.

Definition invalid_runtime {B} : API (Z * option B) := runtime_return StatusInvalidValue None.

Definition runtime_call (call : API Status) : API (Z * option unit) := fun s w =>
  let '(status, s1, w1) := call s w in runtime_return status None s1 w1.

Definition cudaDriverGetVersion (version : bool) : API (Z * option Z) :=
  if negb version then invalid_runtime else runtime_query engine_version wrap_int32.
Definition cudaRuntimeGetVersion := cudaDriverGetVersion.

Definition cudaGetDeviceCount (count : bool) : API (Z * option Z) :=
  if negb count then invalid_runtime else runtime_query engine_count wrap_int32.

Definition cudaSetDevice (index : Z) : API (Z * option unit) :=
  runtime_call (on_engine StatusInitialization (fun e => SetDevice e index)).

Definition cudaGetDevice (index : bool) : API (Z * option Z) :=
  if negb index then invalid_runtime else
  runtime_query (on_engine (0, StatusInitialization) (fun e w => (CurrentDevice e, e, w))) wrap_int32.

Definition cudaDeviceReset : API (Z * option unit) :=
  runtime_call (on_engine StatusInitialization ResetDevice).

Definition cudaMemGetInfo (freeBytes totalBytes : bool) : API (Z * option (Z * Z)) :=
  if negb freeBytes || negb totalBytes then invalid_runtime else runtime_query engine_memory id.

Definition cudaMalloc (out : bool) (bytes : Z) : API (Z * option Z) :=
  if negb out || (bytes =? 0) then invalid_runtime else fun s w =>
  let '((status, ptr), s1, w1) := allocate bytes s w in runtime_return status ptr s1 w1.

Definition cudaFree (ptr : Z) : API (Z * option unit) :=
  if ptr =? 0 then runtime_return StatusSuccess None else runtime_call (release ptr).

Definition cudaGetDeviceProperties (properties : bool) (index : Z) : API (Z * option DeviceProp) :=
  if negb properties then invalid_runtime else fun s w =>
  let '((info, status), s1, w1) := bridge_device index s w in
  match status with
  | StatusSuccess =>
      if dv_ComputeMajor info <=? 0 then runtime_return StatusNotSupported None s1 w1 else
      runtime_return StatusSuccess (Some (fake_cuda_fill_properties (dv_Name info) (dv_UUID info)
        (dv_TotalBytes info) (wrap_int32 (dv_ComputeMajor info)) (wrap_int32 (dv_ComputeMinor info)))) s1 w1
  | _ => runtime_return status None s1 w1
  end.
Definition cudaGetDeviceProperties_v2 := cudaGetDeviceProperties.

(** A host copy stores the bytes read at [src]. *)
Definition cudaMemcpy (dst src : bool) (count kind : Z) (data : list Z) : API (Z * option (list Z)) :=
  if count =? 0 then runtime_return StatusSuccess None else
  if kind =? 0 then
    if negb dst || negb src then runtime_return StatusInvalidValue None
    else runtime_return StatusSuccess (Some (take (Z.to_nat count) data))
  else runtime_return StatusNotSupported None.

Definition cudaLaunchKernel : API (Z * option unit) := runtime_return StatusNotSupported None.
Definition cudaDeviceSynchronize : API (Z * option unit) := runtime_return StatusSuccess None.

Definition cudaGetErrorName (code : Z) : string := runtime_error_name code.
Definition cudaGetErrorString (code : Z) : string := runtime_error_string code.

Definition cudaPeekAtLastError : API Z := fun s w => (lastError s, s, w).
Definition cudaGetLastError : API Z := fun s w =>
  (lastError s, {| engine_once := engine_once s; lastError := 0; tokens := tokens s |}, w).

(** *** Calls

    One constructor per exported function that reads or changes the process
    state (a [_v2] alias is its original); the result of a call is the code
    it returns. *)
Inductive Call :=
  | CuInit (flags : Z)
  | CuDriverGetVersion (version : bool)
  | CuDeviceGetCount (count : bool)
  | CuDeviceGet (out : bool) (ordinal : Z)
  | CuDeviceGetName (name : bool) (length dev : Z)
  | CuDeviceGetUuid (uuid : bool) (dev : Z)
  | CuDeviceGetPCIBusId (busID : bool) (length dev : Z)
  | CuDeviceTotalMem (bytes : bool) (dev : Z)
  | CuDeviceComputeCapability (major minor : bool) (dev : Z)
  | CuDeviceGetAttribute (value : bool) (attribute dev : Z)
  | CuMemGetInfo (freeBytes totalBytes : bool)
  | CuMemAlloc (out : bool) (bytes : Z)
  | CuMemFree (ptr : Z)
  | CudaDriverGetVersion (version : bool)
  | CudaGetDeviceCount (count : bool)
  | CudaSetDevice (index : Z)
  | CudaGetDevice (index : bool)
  | CudaDeviceReset
  | CudaMemGetInfo (freeBytes totalBytes : bool)
  | CudaMalloc (out : bool) (bytes : Z)
  | CudaFree (ptr : Z)
  | CudaGetDeviceProperties (properties : bool) (index : Z)
  | CudaMemcpy (dst src : bool) (count kind : Z) (data : list Z)
  | CudaLaunchKernel
  | CudaDeviceSynchronize
  | CudaPeekAtLastError
  | CudaGetLastError.

Definition code_of {B} (f : API (Z * B)) : API Z := fun s w =>
  let '((code, _), s1, w1) := f s w in (code, s1, w1).

Definition exec_call (c : Call) : API Z :=
  match c with
  | CuInit flags => cuInit flags
  | CuDriverGetVersion version => code_of (cuDriverGetVersion version)
  | CuDeviceGetCount count => code_of (cuDeviceGetCount count)
  | CuDeviceGet out ordinal => code_of (cuDeviceGet out ordinal)
  | CuDeviceGetName name length dev => code_of (cuDeviceGetName name length dev)
  | CuDeviceGetUuid uuid dev => code_of (cuDeviceGetUuid uuid dev)
  | CuDeviceGetPCIBusId busID length dev => code_of (cuDeviceGetPCIBusId busID length dev)
  | CuDeviceTotalMem bytes dev => code_of (cuDeviceTotalMem bytes dev)
  | CuDeviceComputeCapability major minor dev => code_of (cuDeviceComputeCapability major minor dev)
  | CuDeviceGetAttribute value attribute dev => code_of (cuDeviceGetAttribute value attribute dev)
  | CuMemGetInfo freeBytes totalBytes => code_of (cuMemGetInfo freeBytes totalBytes)
  | CuMemAlloc out bytes => code_of (cuMemAlloc out bytes)
  | CuMemFree ptr => cuMemFree ptr
  | CudaDriverGetVersion version => code_of (cudaDriverGetVersion version)
  | CudaGetDeviceCount count => code_of (cudaGetDeviceCount count)
  | CudaSetDevice index => code_of (cudaSetDevice index)
  | CudaGetDevice index => code_of (cudaGetDevice index)
  | CudaDeviceReset => code_of cudaDeviceReset
  | CudaMemGetInfo freeBytes totalBytes => code_of (cudaMemGetInfo freeBytes totalBytes)
  | CudaMalloc out bytes => code_of (cudaMalloc out bytes)
  | CudaFree ptr => code_of (cudaFree ptr)
  | CudaGetDeviceProperties properties index => code_of (cudaGetDeviceProperties properties index)
  | CudaMemcpy dst src count kind data => code_of (cudaMemcpy dst src count kind data)
  | CudaLaunchKernel => code_of cudaLaunchKernel
  | CudaDeviceSynchronize => code_of cudaDeviceSynchronize
  | CudaPeekAtLastError => cudaPeekAtLastError
  | CudaGetLastError => cudaGetLastError
  end.

Fixpoint run_calls (calls : list Call) (s : Shim W) (w : W) : list Z * Shim W * W :=
  match calls with
  | [] => ([], s, w)
  | c :: rest =>
      let '(code, s1, w1) := exec_call c s w in
      let '(codes, s2, w2) := run_calls rest s1 w1 in
      (code :: codes, s2, w2)
  end.
End api.

Create HintDb quiet.
Create HintDb shim.

(** ** Error bookkeeping *)
(** The runtime calls that record their failure. *)
Definition records_error (c : Call) : bool :=
  match c with
  | CudaDriverGetVersion _ | CudaGetDeviceCount _ | CudaSetDevice _ | CudaGetDevice _ | CudaDeviceReset
  | CudaMemGetInfo _ _ | CudaMalloc _ _ | CudaFree _ | CudaGetDeviceProperties _ _ | CudaMemcpy _ _ _ _ _
  | CudaLaunchKernel | CudaDeviceSynchronize => true
  | _ => false
  end.

(** The error a trace of calls and their codes leaves pending: the last
    failure of a runtime call that no [cudaGetLastError] has followed. *)
Fixpoint pending_error (trace : list (Call * Z)) (e : Z) : Z :=
  match trace with
  | [] => e
  | (CudaGetLastError, _) :: rest => pending_error rest 0
  | (c, code) :: rest => pending_error rest (if records_error c && negb (code =? 0) then code else e)
  end.

Section errors.
Context {W : Type} `{OS W} (loaded : result profiles.Catalog) (malloc1 : gset Z -> option Z).

(** A part of a call that does not touch the pending error. *)
Definition quiet {A} (f : API (W := W) A) : Prop := forall s w, lastError (f s w).1.2 = lastError s.
(** A runtime call that records the code it returns. *)
Definition recording {B} (f : API (W := W) (Z * B)) : Prop := forall s w,
  lastError (f s w).1.2 = if negb ((f s w).1.1.1 =? 0) then (f s w).1.1.1 else lastError s.

Lemma getEngine_quiet s w : lastError (getEngine loaded s w).2 = lastError s.
Proof. unfold getEngine. by destruct (engine_once s). Qed.

Lemma keep_engine_quiet e (s : Shim W) : lastError (keep_engine e s) = lastError s.
Proof. by destruct e. Qed.

Lemma on_engine_quiet {A} (failed : A) call : quiet (on_engine loaded failed call).
Proof.
  intros s w. unfold on_engine. pose proof (getEngine_quiet s w) as Hq.
  destruct (getEngine loaded s w) as [[en | e] s1]; [| done].
  destruct (call (Some en) w) as [[a e] w1]. cbn in *. by rewrite keep_engine_quiet.
Qed.

Lemma driver_query_quiet {A B} call (store : A -> B) : quiet call -> quiet (driver_query call store).
Proof.
  intros Hc s w. unfold driver_query. specialize (Hc s w). by destruct (call s w) as [[[v st] s1] w1].
Qed.

Lemma invalid_driver_quiet {B} : quiet (invalid_driver (B := B)).
Proof. by intros s w. Qed.

Lemma code_of_quiet {B} (f : API (W := W) (Z * B)) : quiet f -> quiet (code_of f).
Proof. intros Hf s w. unfold code_of. specialize (Hf s w). by destruct (f s w) as [[[c b] s1] w1]. Qed.

Lemma allocate_quiet bytes : quiet (allocate loaded malloc1 bytes).
Proof.
  intros s w. unfold allocate. pose proof (getEngine_quiet s w) as Hq.
  destruct (getEngine loaded s w) as [[en | e] s1]; [| done].
  unfold alloc_token. destruct (malloc1 (tokens s1)) as [p |]; [| done].
  destruct (TrackAllocation (Some en) p bytes w) as [[st e] w1].
  destruct st; cbn in *; by rewrite keep_engine_quiet.
Qed.

Lemma release_quiet ptr : quiet (release loaded ptr).
Proof.
  intros s w. unfold release. pose proof (getEngine_quiet s w) as Hq.
  destruct (getEngine loaded s w) as [[en | e] s1]; [| done].
  destruct (FreeAllocation (Some en) ptr w) as [[st e] w1].
  destruct st; cbn in *; by rewrite keep_engine_quiet.
Qed.

Lemma runtime_return_recording {B} status (stored : B) : recording (runtime_return status stored).
Proof. intros s w. by destruct status. Qed.

Lemma runtime_query_recording {A B} call (store : A -> B) : quiet call -> recording (runtime_query call store).
Proof.
  intros Hc s w. unfold runtime_query. specialize (Hc s w). destruct (call s w) as [[[v st] s1] w1].
  cbn in Hc. rewrite <- Hc. apply runtime_return_recording.
Qed.

Lemma runtime_call_recording call : quiet call -> recording (runtime_call call).
Proof.
  intros Hc s w. unfold runtime_call. specialize (Hc s w). destruct (call s w) as [[st s1] w1].
  cbn in Hc. rewrite <- Hc. apply runtime_return_recording.
Qed.
End errors.
#[export] Hint Resolve on_engine_quiet driver_query_quiet invalid_driver_quiet code_of_quiet allocate_quiet
  release_quiet runtime_return_recording runtime_query_recording runtime_call_recording : quiet.

Section pending.
Context {W : Type} `{OS W} (loaded : result profiles.Catalog) (malloc1 : gset Z -> option Z).

(** A call that runs a quiet part [f] first: name its outcome. *)
Ltac run_first f q :=
  let Hq := fresh "Hq" in
  pose proof q as Hq; destruct f as [[? ?] ?]; cbn in Hq; try rewrite <- Hq.

Lemma device_quiet dev : quiet (bridge_device (W := W) loaded dev).
Proof. apply on_engine_quiet. Qed.

Lemma cuInit_quiet flags : quiet (cuInit (W := W) loaded flags).
Proof.
  intros s w. unfold cuInit. destruct (negb _); [done |].
  by run_first (on_engine loaded StatusInitialization Init s w) (on_engine_quiet loaded StatusInitialization Init s w).
Qed.

Lemma cuDeviceGetUuid_quiet uuid dev : quiet (cuDeviceGetUuid (W := W) loaded uuid dev).
Proof.
  unfold cuDeviceGetUuid. destruct (negb uuid); [auto with quiet |]. intros s w.
  run_first (bridge_device loaded dev s w) (device_quiet dev s w).
  destruct p as [info []]; try done. by destruct (fake_cuda_parse_uuid _).
Qed.

Lemma cuDeviceComputeCapability_quiet major minor dev :
  quiet (cuDeviceComputeCapability (W := W) loaded major minor dev).
Proof.
  unfold cuDeviceComputeCapability. destruct (_ || _); [auto with quiet |]. intros s w.
  run_first (bridge_device loaded dev s w) (device_quiet dev s w).
  destruct p as [info []]; try done. by destruct (_ <=? _).
Qed.

Lemma cuDeviceGetAttribute_quiet value attribute dev :
  quiet (cuDeviceGetAttribute (W := W) loaded value attribute dev).
Proof.
  unfold cuDeviceGetAttribute. destruct (negb value); [auto with quiet |]. intros s w.
  run_first (bridge_device loaded dev s w) (device_quiet dev s w).
  destruct p as [info []]; try done. by destruct (attribute_value _ _).
Qed.

Lemma cuMemAlloc_quiet out bytes : quiet (cuMemAlloc loaded malloc1 out bytes).
Proof.
  unfold cuMemAlloc. destruct (_ || _); [auto with quiet |]. intros s w.
  run_first (allocate loaded malloc1 bytes s w) (allocate_quiet loaded malloc1 bytes s w). by destruct p.
Qed.

Lemma cuMemFree_quiet ptr : quiet (cuMemFree (W := W) loaded ptr).
Proof.
  intros s w. unfold cuMemFree. destruct (ptr =? 0); [done |].
  by run_first (release loaded ptr s w) (release_quiet loaded ptr s w).
Qed.

Lemma cudaMalloc_recording out bytes : recording (cudaMalloc loaded malloc1 out bytes).
Proof.
  unfold cudaMalloc. destruct (_ || _); [apply runtime_return_recording |]. intros s w.
  run_first (allocate loaded malloc1 bytes s w) (allocate_quiet loaded malloc1 bytes s w).
  destruct p. apply runtime_return_recording.
Qed.

Lemma cudaFree_recording ptr : recording (cudaFree (W := W) loaded ptr).
Proof. unfold cudaFree. destruct (ptr =? 0); auto with quiet. Qed.

Lemma cudaGetDeviceProperties_recording properties index :
  recording (cudaGetDeviceProperties (W := W) loaded properties index).
Proof.
  unfold cudaGetDeviceProperties. destruct (negb properties); [apply runtime_return_recording |]. intros s w.
  run_first (bridge_device loaded index s w) (device_quiet index s w).
  destruct p as [info []]; try apply runtime_return_recording.
  destruct (_ <=? _); apply runtime_return_recording.
Qed.

Lemma cudaMemcpy_recording dst src count kind data : recording (W := W) (cudaMemcpy dst src count kind data).
Proof.
  unfold cudaMemcpy. destruct (count =? 0), (kind =? 0), (negb dst || negb src); apply runtime_return_recording.
Qed.
#[local] Hint Resolve device_quiet cuInit_quiet cuDeviceGetUuid_quiet cuDeviceComputeCapability_quiet
  cuDeviceGetAttribute_quiet cuMemAlloc_quiet cuMemFree_quiet cudaMalloc_recording cudaFree_recording
  cudaGetDeviceProperties_recording cudaMemcpy_recording : quiet.

Lemma quiet_call c (f : API (W := W) Z) s w : quiet f -> records_error c = false -> c <> CudaGetLastError ->
  lastError (f s w).1.2 = pending_error [(c, (f s w).1.1)] (lastError s).
Proof. intros Hf Hc Hne. rewrite Hf. by destruct c. Qed.

Lemma recording_call {B} c (f : API (W := W) (Z * B)) s w : recording f -> records_error c = true ->
  lastError (code_of f s w).1.2 = pending_error [(c, (code_of f s w).1.1)] (lastError s).
Proof.
  intros Hf Hc. unfold code_of. specialize (Hf s w). destruct (f s w) as [[[code v] s1] w1]. cbn in Hf |- *.
  rewrite Hf. by destruct c.
Qed.

Lemma exec_call_pending c s w :
  lastError (exec_call loaded malloc1 c s w).1.2 =
  pending_error [(c, (exec_call loaded malloc1 c s w).1.1)] (lastError s).
Proof.
  destruct c; cbn [exec_call];
    first [done
          | apply recording_call; [| done]
          | apply quiet_call; [try apply code_of_quiet | done | done]]; auto with quiet.
  all: unfold cuDriverGetVersion, cuDeviceGetCount, cuDeviceGet, cuDeviceGetName, cuDeviceGetPCIBusId,
    cuDeviceTotalMem, cuMemGetInfo, cudaDriverGetVersion, cudaGetDeviceCount, cudaSetDevice, cudaGetDevice,
    cudaDeviceReset, cudaMemGetInfo, cudaLaunchKernel, cudaDeviceSynchronize, invalid_runtime,
    engine_version, engine_count, engine_memory.
  all: repeat match goal with |- context [if ?c then _ else _] => destruct c end.
  all: auto 6 with quiet.
Qed.

Lemma run_calls_pending calls s w :
  lastError (run_calls loaded malloc1 calls s w).1.2 =
  pending_error (zip calls (run_calls loaded malloc1 calls s w).1.1) (lastError s).
Proof.
  revert s w. induction calls as [| c calls IH]; intros s w; cbn [run_calls]; [done |].
  pose proof (exec_call_pending c s w) as Hc. destruct (exec_call loaded malloc1 c s w) as [[code s1] w1].
  specialize (IH s1 w1). destruct (run_calls loaded malloc1 calls s1 w1) as [[codes s2] w2].
  cbn in IH, Hc |- *. rewrite IH, Hc. by destruct c.
Qed.
End pending.

(** ** The token heap and the engine

    [shim_ok] ties the live host tokens to the allocation table: every
    allocation has a live token, and without a device reset ([leaky] false)
    every live token is an allocation. *)
Section heap.
Context {W : Type} `{OS W} {b : Backend W} `{!AccountingBackend W b}.
Context (loaded : result profiles.Catalog) (malloc1 : gset Z -> option Z).
(** [malloc] returns a block that is not live, and never the null pointer as
    a success. *)
Context (Hmalloc : forall live p, malloc1 live = Some p -> (p ∉ live) /\ p <> 0).
Context (w0 : W).
Context (Hinit : forall en, initEngine loaded w0 = Ok en -> accounted w0 en w0 /\ allocations en = ∅).

Definition heap_ok (leaky : bool) (en : Engine W) (live : gset Z) : Prop :=
  dom (allocations en) ⊆ live /\ (leaky = false -> live ⊆ dom (allocations en)).

Record shim_ok (leaky : bool) (s : Shim W) (w : W) : Prop := {
  sk_null : 0 ∉ tokens s;
  sk_engine : match engine_once s with
              | Some (Ok en) => accounted w0 en w /\ heap_ok leaky en (tokens s)
              | _ => w = w0 /\ tokens s = ∅
              end
}.

(** The live allocations; none before the engine exists. *)
Definition table (s : Shim W) : gmap Z Allocation :=
  match engine_once s with Some (Ok en) => allocations en | _ => ∅ end.

Definition preserving {A} (leaky : bool) (f : API (W := W) A) : Prop := forall s w,
  shim_ok leaky s w -> shim_ok leaky (f s w).1.2 (f s w).2.

(** A method that keeps the accounts and the live allocations (a reset, on
    a leaky heap, may drop some). *)
Definition method_ok {A} (leaky : bool) (call : option (Engine W) -> W -> A * option (Engine W) * W) : Prop :=
  forall en w, accounted w0 en w -> exists en', (call (Some en) w).1.2 = Some en' /\
    (accounted w0 en' (call (Some en) w).2) /\ dom (allocations en') ⊆ dom (allocations en) /\
    (leaky = false -> dom (allocations en') = dom (allocations en)).

Lemma shim_error leaky s w code : shim_ok leaky s w ->
  shim_ok leaky {| engine_once := engine_once s; lastError := code; tokens := tokens s |} w.
Proof. by intros [? ?]. Qed.

Lemma getEngine_ok leaky s w : shim_ok leaky s w -> shim_ok leaky (getEngine loaded s w).2 w.
Proof.
  intros [Hn He]. unfold getEngine. destruct (engine_once s) as [r |] eqn:E; cbn; split; cbn; [done | by rewrite E | done |].
  destruct He as [-> Ht]. destruct (initEngine loaded w0) as [en |] eqn:Ei; [| done].
  destruct (Hinit en eq_refl) as [Ha Hm]. split; [done |]. unfold heap_ok. rewrite Hm, Ht, dom_empty_L. done.
Qed.

Lemma getEngine_some leaky s w en : shim_ok leaky s w -> (getEngine loaded s w).1 = Ok en ->
  engine_once (getEngine loaded s w).2 = Some (Ok en) /\ accounted w0 en w /\
  heap_ok leaky en (tokens (getEngine loaded s w).2).
Proof.
  intros Hs Hg. pose proof (getEngine_ok _ _ _ Hs) as [_ He].
  assert (engine_once (getEngine loaded s w).2 = Some (Ok en)) as E.
  { revert Hg. unfold getEngine. destruct (engine_once s) as [r |] eqn:E; cbn; congruence. }
  rewrite E in He. by split.
Qed.

Lemma runtime_return_preserving {B} leaky status (stored : B) : preserving leaky (runtime_return status stored).
Proof. intros s w Hs. unfold runtime_return, runtimeStatus. by destruct (negb _); [apply shim_error |]. Qed.

Lemma on_engine_preserving {A} leaky (failed : A) call :
  method_ok leaky call -> preserving leaky (on_engine loaded failed call).
Proof.
  intros Hm s w Hs. unfold on_engine. pose proof (getEngine_ok _ _ _ Hs) as Hs1.
  pose proof (fun en => getEngine_some leaky s w en Hs) as Hsome.
  destruct (getEngine loaded s w) as [[en | e] s1]; [| done]. cbn in *.
  destruct (Hsome en eq_refl) as (E & Ha & Hd & Hl). destruct (Hm en w Ha) as (en' & Ee & Ha' & Hd' & Hl').
  destruct (call (Some en) w) as [[a e] w1]. cbn in *. subst e. cbn. split; [apply Hs1 |]. cbn.
  split; [done |]. split; [by etransitivity |]. intros Hleak. rewrite Hl' by done. by apply Hl.
Qed.

(** *** Methods *)
Lemma reads_ok {A} leaky (call : option (Engine W) -> W -> A * option (Engine W) * W) :
  (forall en w, accounted w0 en w -> exists a, call (Some en) w = (a, Some en, w)) -> method_ok leaky call.
Proof. intros Hc en w Ha. destruct (Hc en w Ha) as [a ->]. by exists en. Qed.

Lemma Init_ok leaky : method_ok leaky Init.
Proof.
  apply reads_ok. intros en w Ha. unfold Init, with_backend. rewrite (acc_backend _ _ _ Ha), Devices_law. by eexists.
Qed.

Lemma DeviceCount_ok leaky : method_ok leaky DeviceCount.
Proof.
  apply reads_ok. intros en w Ha. unfold DeviceCount, with_backend.
  rewrite (acc_backend _ _ _ Ha), Devices_law. by eexists.
Qed.

(** What a device query returns. *)
Lemma engine_Device_run en w index : accounted w0 en w ->
  engine_Device (Some en) index w =
  (match findDevice (mem w) index with Some d => (d, StatusSuccess) | None => (zero_Device, StatusInvalidDevice) end,
   Some en, w).
Proof.
  intros Ha. unfold engine_Device, with_backend. rewrite (acc_backend _ _ _ Ha), Devices_law.
  by destruct (findDevice (mem w) index).
Qed.

Lemma engine_Device_ok leaky index : method_ok leaky (fun e => engine_Device e index).
Proof. apply reads_ok. intros en w Ha. rewrite engine_Device_run by done. by eexists. Qed.

Lemma MemoryInfo_run en w : accounted w0 en w ->
  MemoryInfo (Some en) w =
  (match findDevice (mem w) (currentDevice en) with
   | Some d => (dv_FreeBytes d, dv_TotalBytes d, StatusSuccess) | None => (0, 0, StatusInvalidDevice) end, Some en, w).
Proof.
  intros Ha. unfold MemoryInfo, with_backend. rewrite (acc_backend _ _ _ Ha), engine_Device_run by done.
  by destruct (findDevice (mem w) (currentDevice en)).
Qed.

Lemma MemoryInfo_ok leaky : method_ok leaky (fun e w =>
  let '((free, total, status), e1, w1) := MemoryInfo e w in (((free, total), status), e1, w1)).
Proof.
  apply reads_ok. intros en w Ha. rewrite MemoryInfo_run by done.
  destruct (findDevice (mem w) (currentDevice en)); by eexists.
Qed.

Lemma value_ok {A} leaky (f : option (Engine W) -> A) : method_ok leaky (fun e w => (f e, e, w)).
Proof. apply reads_ok. intros en w _. by eexists. Qed.

Lemma SetDevice_ok leaky index : method_ok leaky (fun e => SetDevice e index).
Proof.
  intros en w Ha. rewrite (SetDevice_step _ _ _ _ Ha).
  destruct (findDevice (mem w) index); [| by exists en].
  exists (set_currentDevice index en). split; [done |]. split; [| done]. destruct Ha. by split.
Qed.

Lemma ResetDevice_ok : method_ok true ResetDevice.
Proof.
  intros en w Ha. destruct (reset_step w0 en w (map_to_list (allocations en)).*2 Ha ltac:(done)) as [E Ha'].
  exists (cleared en). unfold ResetDevice. cbn [allocation_list]. rewrite E. split; [done |]. split; [done |].
  split; [| done]. apply dom_filter_subseteq.
Qed.

(** *** Composition *)
Lemma driver_query_preserving {A B} leaky call (store : A -> B) :
  preserving leaky call -> preserving leaky (driver_query call store).
Proof.
  intros Hc s w Hs. unfold driver_query. specialize (Hc s w Hs). by destruct (call s w) as [[[v st] s1] w1].
Qed.

Lemma runtime_query_preserving {A B} leaky call (store : A -> B) :
  preserving leaky call -> preserving leaky (runtime_query call store).
Proof.
  intros Hc s w Hs. unfold runtime_query. specialize (Hc s w Hs). destruct (call s w) as [[[v st] s1] w1].
  by apply runtime_return_preserving.
Qed.

Lemma runtime_call_preserving leaky call : preserving leaky call -> preserving leaky (runtime_call call).
Proof.
  intros Hc s w Hs. unfold runtime_call. specialize (Hc s w Hs). destruct (call s w) as [[st s1] w1].
  by apply runtime_return_preserving.
Qed.

Lemma code_of_preserving {B} leaky (f : API (W := W) (Z * B)) : preserving leaky f -> preserving leaky (code_of f).
Proof. intros Hf s w Hs. unfold code_of. specialize (Hf s w Hs). by destruct (f s w) as [[[c v] s1] w1]. Qed.

Lemma invalid_driver_preserving {B} leaky : preserving leaky (invalid_driver (B := B)).
Proof. by intros s w Hs. Qed.

Lemma device_preserving leaky index : preserving leaky (bridge_device loaded index).
Proof. apply on_engine_preserving, engine_Device_ok. Qed.

(** *** Allocation and release *)
Lemma allocate_preserving leaky bytes : exact bytes -> preserving leaky (allocate loaded malloc1 bytes).
Proof.
  intros Hex s w Hs. unfold allocate. pose proof (getEngine_ok _ _ _ Hs) as Hs1.
  pose proof (fun en => getEngine_some leaky s w en Hs) as Hsome.
  destruct (getEngine loaded s w) as [[en | e] s1]; [| done]. cbn in Hsome, Hs1.
  destruct (Hsome en eq_refl) as (E & Ha & Hd & Hl). unfold alloc_token.
  destruct (malloc1 (tokens s1)) as [p |] eqn:Em; [| done]. destruct (Hmalloc _ _ Em) as [Hp Hp0].
  destruct (track_step w0 en w p bytes Ha Hex) as [(d & _ & _ & Hnew & _ & _ & _ & Er & Ha') | (Hst & Ee & Hm & Hr & _)].
  - destruct (TrackAllocation (Some en) p bytes w) as [[st e] w1]. cbn in Er, Ha'. injection Er as -> ->. cbn.
    split; cbn; [pose proof (sk_null _ _ _ Hs1); set_solver |]. split; [done |]. unfold heap_ok. cbn.
    rewrite dom_insert_L. split; [set_solver |]. intros Hleak. specialize (Hl Hleak). set_solver.
  - destruct (TrackAllocation (Some en) p bytes w) as [[st e] w1]. cbn in Hst, Ee, Hm, Hr. subst e.
    assert (shim_ok leaky (free_token p (keep_engine (Some en) (set_tokens ({[p]} ∪ tokens s1) s1))) w1) as Hdone.
    { split; cbn; [pose proof (sk_null _ _ _ Hs1); set_solver |].
      split; [by eapply accounted_world |]. unfold heap_ok. split; [set_solver |].
      intros Hleak. specialize (Hl Hleak). set_solver. }
    by destruct st.
Qed.

Lemma release_preserving leaky ptr : preserving leaky (release loaded ptr).
Proof.
  intros s w Hs. unfold release. pose proof (getEngine_ok _ _ _ Hs) as Hs1.
  pose proof (fun en => getEngine_some leaky s w en Hs) as Hsome.
  destruct (getEngine loaded s w) as [[en | e] s1]; [| done]. cbn in Hsome, Hs1.
  destruct (Hsome en eq_refl) as (E & Ha & Hd & Hl). destruct (allocations en !! ptr) as [a |] eqn:El.
  - destruct (free_step w0 en w ptr a Ha El) as [Er Ha'].
    destruct (FreeAllocation (Some en) ptr w) as [[st e] w1]. cbn in Er, Ha'. injection Er as -> ->. cbn.
    split; cbn; [pose proof (sk_null _ _ _ Hs1); set_solver |]. split; [done |]. unfold heap_ok. cbn.
    rewrite dom_delete_L. split; [set_solver |]. intros Hleak. specialize (Hl Hleak). set_solver.
  - unfold FreeAllocation, with_backend. rewrite (acc_backend _ _ _ Ha), El.
    destruct (Z.eqb_spec ptr 0) as [-> |]; cbn.
    + split; cbn; [pose proof (sk_null _ _ _ Hs1); set_solver |]. split; [done |]. pose proof (sk_null _ _ _ Hs1).
      unfold heap_ok. assert (0 ∉ dom (allocations en)) by by apply not_elem_of_dom.
      split; [set_solver |]. intros Hleak. specialize (Hl Hleak). set_solver.
    + split; cbn; [apply Hs1 |]. by split.
Qed.

(** *** The exported functions *)
Definition call_ok (leaky : bool) (c : Call) : Prop :=
  match c with
  | CuMemAlloc _ bytes | CudaMalloc _ bytes => exact bytes
  | CudaDeviceReset => leaky = true
  | _ => True
  end.

Lemma cuInit_preserving leaky flags : preserving leaky (cuInit loaded flags).
Proof.
  intros s w Hs. unfold cuInit. destruct (negb _); [done |].
  pose proof (on_engine_preserving leaky StatusInitialization Init (Init_ok leaky) s w Hs) as Hp.
  by destruct (on_engine loaded StatusInitialization Init s w) as [[st s1] w1].
Qed.

Lemma cuDeviceGetUuid_preserving leaky uuid dev : preserving leaky (cuDeviceGetUuid loaded uuid dev).
Proof.
  unfold cuDeviceGetUuid. destruct (negb uuid); [apply invalid_driver_preserving |]. intros s w Hs.
  pose proof (device_preserving leaky dev s w Hs) as Hp. destruct (bridge_device loaded dev s w) as [[[info st] s1] w1].
  destruct st; try done. by destruct (fake_cuda_parse_uuid _).
Qed.

Lemma cuDeviceComputeCapability_preserving leaky major minor dev :
  preserving leaky (cuDeviceComputeCapability loaded major minor dev).
Proof.
  unfold cuDeviceComputeCapability. destruct (_ || _); [apply invalid_driver_preserving |]. intros s w Hs.
  pose proof (device_preserving leaky dev s w Hs) as Hp. destruct (bridge_device loaded dev s w) as [[[info st] s1] w1].
  destruct st; try done. by destruct (_ <=? _).
Qed.

Lemma cuDeviceGetAttribute_preserving leaky value attribute dev :
  preserving leaky (cuDeviceGetAttribute loaded value attribute dev).
Proof.
  unfold cuDeviceGetAttribute. destruct (negb value); [apply invalid_driver_preserving |]. intros s w Hs.
  pose proof (device_preserving leaky dev s w Hs) as Hp. destruct (bridge_device loaded dev s w) as [[[info st] s1] w1].
  destruct st; try done. by destruct (attribute_value _ _).
Qed.

Lemma cuMemAlloc_preserving leaky out bytes : exact bytes -> preserving leaky (cuMemAlloc loaded malloc1 out bytes).
Proof.
  intros Hex. unfold cuMemAlloc. destruct (_ || _); [apply invalid_driver_preserving |]. intros s w Hs.
  pose proof (allocate_preserving leaky bytes Hex s w Hs) as Hp.
  by destruct (allocate loaded malloc1 bytes s w) as [[[st ptr] s1] w1].
Qed.

Lemma cudaMalloc_preserving leaky out bytes : exact bytes -> preserving leaky (cudaMalloc loaded malloc1 out bytes).
Proof.
  intros Hex. unfold cudaMalloc. destruct (_ || _); [apply runtime_return_preserving |]. intros s w Hs.
  pose proof (allocate_preserving leaky bytes Hex s w Hs) as Hp.
  destruct (allocate loaded malloc1 bytes s w) as [[[st ptr] s1] w1]. by apply runtime_return_preserving.
Qed.

Lemma cuMemFree_preserving leaky ptr : preserving leaky (cuMemFree loaded ptr).
Proof.
  intros s w Hs. unfold cuMemFree. destruct (ptr =? 0); [done |].
  pose proof (release_preserving leaky ptr s w Hs) as Hp. by destruct (release loaded ptr s w) as [[st s1] w1].
Qed.

Lemma cudaFree_preserving leaky ptr : preserving leaky (cudaFree loaded ptr).
Proof.
  unfold cudaFree. destruct (ptr =? 0); [apply runtime_return_preserving |].
  apply runtime_call_preserving, release_preserving.
Qed.

Lemma cudaGetDeviceProperties_preserving leaky properties index :
  preserving leaky (cudaGetDeviceProperties loaded properties index).
Proof.
  unfold cudaGetDeviceProperties. destruct (negb properties); [apply runtime_return_preserving |]. intros s w Hs.
  pose proof (device_preserving leaky index s w Hs) as Hp.
  destruct (bridge_device loaded index s w) as [[[info st] s1] w1].
  destruct st; try by apply runtime_return_preserving. destruct (_ <=? _); by apply runtime_return_preserving.
Qed.

Lemma cudaMemcpy_preserving leaky dst src count kind data : preserving leaky (cudaMemcpy dst src count kind data).
Proof.
  unfold cudaMemcpy. destruct (count =? 0), (kind =? 0), (negb dst || negb src); apply runtime_return_preserving.
Qed.

#[local] Hint Resolve runtime_return_preserving on_engine_preserving Init_ok DeviceCount_ok engine_Device_ok
  MemoryInfo_ok value_ok SetDevice_ok ResetDevice_ok driver_query_preserving runtime_query_preserving
  runtime_call_preserving code_of_preserving invalid_driver_preserving device_preserving cuInit_preserving
  cuDeviceGetUuid_preserving cuDeviceComputeCapability_preserving cuDeviceGetAttribute_preserving
  cuMemAlloc_preserving cudaMalloc_preserving cuMemFree_preserving cudaFree_preserving
  cudaGetDeviceProperties_preserving cudaMemcpy_preserving : shim.

Lemma exec_call_preserving leaky c : call_ok leaky c -> preserving leaky (exec_call loaded malloc1 c).
Proof.
  intros Hc. destruct c; cbn [exec_call call_ok] in *; auto with shim.
  all: unfold cuDriverGetVersion, cuDeviceGetCount, cuDeviceGet, cuDeviceGetName, cuDeviceGetPCIBusId,
    cuDeviceTotalMem, cuMemGetInfo, cudaDriverGetVersion, cudaGetDeviceCount, cudaSetDevice, cudaGetDevice,
    cudaDeviceReset, cudaMemGetInfo, cudaLaunchKernel, cudaDeviceSynchronize, invalid_runtime,
    engine_version, engine_count, engine_memory.
  all: repeat match goal with |- context [if ?c then _ else _] => destruct c end.
  all: subst; auto 6 with shim.
  all: intros s w Hs; first [exact Hs | by apply shim_error].
Qed.

Lemma run_calls_ok leaky calls s w : shim_ok leaky s w -> Forall (call_ok leaky) calls ->
  shim_ok leaky (run_calls loaded malloc1 calls s w).1.2 (run_calls loaded malloc1 calls s w).2.
Proof.
  intros Hs Hc. revert s w Hs. induction Hc as [| c calls Hc _ IH]; intros s w Hs; cbn [run_calls]; [done |].
  pose proof (exec_call_preserving leaky c Hc s w Hs) as H1.
  destruct (exec_call loaded malloc1 c s w) as [[code s1] w1]. specialize (IH s1 w1 H1).
  by destruct (run_calls loaded malloc1 calls s1 w1) as [[codes s2] w2].
Qed.

Lemma fresh_shim_ok leaky : shim_ok leaky fresh_shim w0.
Proof. by split. Qed.

(** *** What the calls do to the table and the heap *)
Lemma getEngine_table leaky s w : shim_ok leaky s w ->
  table (getEngine loaded s w).2 = table s /\ tokens (getEngine loaded s w).2 = tokens s.
Proof.
  intros [_ He]. unfold getEngine, table. destruct (engine_once s) as [r |] eqn:E; [by cbn; rewrite ?E |]. cbn.
  split; [| done]. destruct He as [-> _]. destruct (initEngine loaded w0) as [en |] eqn:Ei; [| done].
  by destruct (Hinit en eq_refl).
Qed.

Lemma shim_mem leaky s w : shim_ok leaky s w -> mem w = map (charge (owned_by (table s))) (mem w0).
Proof.
  intros [_ He]. unfold table. destruct (engine_once s) as [[en | e] |]; [by destruct He as [[] _] | |];
    destruct He as [-> _]; symmetry; apply map_charge_zero, owned_by_empty.
Qed.

Lemma table_live leaky s w : shim_ok leaky s w ->
  dom (table s) ⊆ tokens s /\ (leaky = false -> tokens s = dom (table s)).
Proof.
  intros [_ He]. unfold table. destruct (engine_once s) as [[en | e] |]; [| set_solver ..].
  destruct He as (_ & Hd & Hl). split; [done |]. intros Hleak. specialize (Hl Hleak). set_solver.
Qed.

Lemma table_null leaky s w : shim_ok leaky s w -> table s !! 0 = None.
Proof.
  intros Hs. apply not_elem_of_dom. pose proof (sk_null _ _ _ Hs). destruct (table_live _ _ _ Hs). set_solver.
Qed.

Definition released (ptr : Z) (s : Shim W) (w : W) (r : Status * Shim W * W) : Prop :=
  match table s !! ptr with
  | Some _ => r.1.1 = StatusSuccess /\ ptr ∈ tokens s /\ tokens r.1.2 = tokens s ∖ {[ptr]} /\
      table r.1.2 = delete ptr (table s)
  | None => (r.1.1 = StatusInvalidValue \/ r.1.1 = StatusInitialization) /\
      tokens r.1.2 = tokens s /\ table r.1.2 = table s /\ r.2 = w
  end.

Lemma release_exact leaky s w ptr : shim_ok leaky s w -> ptr <> 0 -> released ptr s w (release loaded ptr s w).
Proof.
  intros Hs Hp. unfold released, release. destruct (getEngine_table _ _ _ Hs) as [Et Ek].
  pose proof (fun en => getEngine_some leaky s w en Hs) as Hsome.
  destruct (table_live _ _ _ Hs) as [Hd _]. pose proof (getEngine_ok _ _ _ Hs) as Hs1.
  destruct (getEngine loaded s w) as [[en | e] s1] eqn:Eg; cbn [fst snd] in *.
  - destruct (Hsome en eq_refl) as (E & Ha & _). assert (table s1 = allocations en) as Ht by (unfold table; by rewrite E).
    rewrite Ht in Et. rewrite <- Et. destruct (allocations en !! ptr) as [a |] eqn:El.
    + destruct (free_step w0 en w ptr a Ha El) as [Er _].
      destruct (FreeAllocation (Some en) ptr w) as [[st e] w1]. cbn in Er. injection Er as -> ->. cbn.
      split; [done |]. split; [| by rewrite Ek]. apply Hd. rewrite <- Et. by apply elem_of_dom_2 in El.
    + unfold FreeAllocation, with_backend. rewrite (acc_backend _ _ _ Ha), El, (proj2 (Z.eqb_neq _ _)) by done.
      cbn. split; [by left | done].
  - assert (table s !! ptr = None) as ->.
    { clear - Eg. revert Eg. unfold getEngine, table. by destruct (engine_once s) as [[en' | e'] |]. }
    split; [by right | done].
Qed.

Definition allocated (bytes : Z) (s : Shim W) (w : W) (r : (Status * option Z) * Shim W * W) : Prop :=
  match r.1.1.2 with
  | Some p => r.1.1.1 = StatusSuccess /\ p <> 0 /\ (p ∉ tokens s) /\ table s !! p = None /\
      tokens r.1.2 = {[p]} ∪ tokens s /\
      exists device, table r.1.2 = <[p := {| Token := p; Size := bytes; al_Device := device |}]> (table s)
  | None => r.1.1.1 <> StatusSuccess /\ tokens r.1.2 = tokens s /\ table r.1.2 = table s
  end.

Lemma allocate_exact leaky s w bytes : shim_ok leaky s w -> exact bytes ->
  allocated bytes s w (allocate loaded malloc1 bytes s w).
Proof.
  intros Hs Hex. unfold allocated, allocate. destruct (getEngine_table _ _ _ Hs) as [Et Ek].
  pose proof (fun en => getEngine_some leaky s w en Hs) as Hsome. destruct (table_live _ _ _ Hs) as [Hd _].
  destruct (getEngine loaded s w) as [[en | e] s1]; cbn [fst snd] in *; [| by cbn].
  destruct (Hsome en eq_refl) as (E & Ha & _). assert (table s1 = allocations en) as Ht by (unfold table; by rewrite E).
  unfold alloc_token. rewrite Ek. destruct (malloc1 (tokens s)) as [p |] eqn:Em; [| by cbn].
  destruct (Hmalloc _ _ Em) as [Hp Hp0].
  destruct (track_step w0 en w p bytes Ha Hex) as [(d & _ & _ & Hnew & _ & _ & _ & Er & _) | (Hst & Ee & _)].
  - destruct (TrackAllocation (Some en) p bytes w) as [[st e] w1]. cbn in Er. injection Er as -> ->. cbn.
    split; [done |]. split; [done |]. split; [done |]. rewrite <- Et, Ht. split; [done |]. split; [done |].
    by eexists.
  - destruct (TrackAllocation (Some en) p bytes w) as [[st e] w1]. cbn in Hst, Ee. subst e.
    assert (tokens (free_token p (keep_engine (Some en) (set_tokens ({[p]} ∪ tokens s) s1))) = tokens s /\
      table (free_token p (keep_engine (Some en) (set_tokens ({[p]} ∪ tokens s) s1))) = table s) as Hdone.
    { cbn. split; [set_solver | by rewrite <- Et, Ht]. }
    by destruct st.
Qed.

(** A reset drops the allocations of the current device and no token. *)
Lemma reset_exact leaky s w en : shim_ok leaky s w -> engine_once s = Some (Ok en) ->
  (cudaDeviceReset loaded s w).1.1.1 = 0 /\
  tokens (cudaDeviceReset loaded s w).1.2 = tokens s /\
  table (cudaDeviceReset loaded s w).1.2 = filter (fun kv => al_Device kv.2 <> currentDevice en) (table s).
Proof.
  intros [_ He] E. rewrite E in He. destruct He as [Ha _].
  unfold cudaDeviceReset, runtime_call, on_engine, getEngine. rewrite E.
  destruct (reset_step w0 en w (map_to_list (allocations en)).*2 Ha ltac:(done)) as [Er _].
  unfold ResetDevice. cbn [allocation_list]. destruct (ResetDevice_in_order _ (Some en) w) as [[st e] w1].
  cbn in Er. injection Er as -> ->. cbn. split; [done |]. split; [done |]. unfold table. by rewrite E.
Qed.

Lemma runtime_return_state {B} status (stored : B) s w :
  let r := runtime_return status stored s w in
  r.1.1 = (runtime_code status, stored) /\ tokens r.1.2 = tokens s /\ table r.1.2 = table s /\ r.2 = w.
Proof. by destruct status. Qed.

Lemma runtime_code_zero status : runtime_code status = 0 <-> status = StatusSuccess.
Proof. by destruct status. Qed.

(** *** Properties *)

(** Memory of the host is only freed when it was handed out: a free of
    a pointer that is not null succeeds exactly when the pointer is a live
    allocation; its host token is then live and is the one given back, and the
    allocation is forgotten.  Any other pointer (never allocated, freed
    already, lost in a reset) is refused, and neither the heap, the
    table nor the world changes.  The driver's [cuMemFree] behaves alike. *)
Theorem cudaFree_exact leaky s w ptr : shim_ok leaky s w -> ptr <> 0 ->
  let r := cudaFree loaded ptr s w in
  (r.1.1.1 = 0 <-> is_Some (table s !! ptr)) /\
  (r.1.1.1 = 0 -> ptr ∈ tokens s /\ tokens r.1.2 = tokens s ∖ {[ptr]} /\ table r.1.2 = delete ptr (table s)) /\
  (r.1.1.1 <> 0 -> tokens r.1.2 = tokens s /\ table r.1.2 = table s /\ r.2 = w) /\
  let d := cuMemFree loaded ptr s w in
  (d.1.1 = 0 <-> r.1.1.1 = 0) /\ tokens d.1.2 = tokens r.1.2 /\ table d.1.2 = table r.1.2 /\ d.2 = r.2.
Proof.
  intros Hs Hp. pose proof (release_exact leaky s w ptr Hs Hp) as Hr. unfold released in Hr.
  unfold cudaFree, cuMemFree, runtime_call. rewrite (proj2 (Z.eqb_neq _ _)) by done.
  destruct (release loaded ptr s w) as [[st s1] w1]. cbn [fst snd] in Hr.
  pose proof (runtime_return_state st (@None unit) s1 w1) as Hret. cbv zeta in *.
  destruct (runtime_return st None s1 w1) as [[[code v] s2] w2]. cbn [fst snd] in *.
  destruct Hret as ([= -> ->] & Et & Eb & ->).
  destruct (table s !! ptr) as [a |].
  - destruct Hr as (-> & Hin & -> & ->) in Et, Eb |- *. cbn. rewrite Et, Eb. naive_solver.
  - destruct Hr as (Hst & Ht & Hb & ->). rewrite Et, Eb, Ht, Hb.
    destruct Hst as [-> | ->]; cbn; split_and!; try done; (split; [done | by intros [? ?]]).
Qed.

(** C27. [cudaMalloc] and [cudaFree] are inverse, for sizes that the backend
    accounts for exactly ([exact]: on the node whole numbers of MiB, nothing is
    claimed of other sizes) in a state the shim reaches by such calls
    ([shim_ok]).  When [cudaMalloc] stores a pointer it returned success, the pointer is not null, was not live and
    names no other allocation; freeing it at once succeeds and restores the
    host heap, the allocation table and the memory of every GPU.  When it
    stores none it returned an error, and left all three as they were: the
    token of a failed reservation is given back. *)
Theorem cudaMalloc_cudaFree_roundtrip leaky s w bytes : shim_ok leaky s w -> exact bytes ->
  let r := cudaMalloc loaded malloc1 true bytes s w in
  match r.1.1.2 with
  | Some p =>
      r.1.1.1 = 0 /\ p <> 0 /\ (p ∉ tokens s) /\ table s !! p = None /\
      let f := cudaFree loaded p r.1.2 r.2 in
      f.1.1.1 = 0 /\ tokens f.1.2 = tokens s /\ table f.1.2 = table s /\ mem f.2 = mem w
  | None => r.1.1.1 <> 0 /\ tokens r.1.2 = tokens s /\ table r.1.2 = table s /\ mem r.2 = mem w
  end.
Proof.
  intros Hs Hex r. pose proof (cudaMalloc_preserving leaky true bytes Hex s w Hs) as Hs'. fold r in Hs'.
  assert (match r.1.1.2 with
    | Some p => r.1.1.1 = 0 /\ p <> 0 /\ (p ∉ tokens s) /\ table s !! p = None /\
        tokens r.1.2 = {[p]} ∪ tokens s /\ exists a, table r.1.2 = <[p := a]> (table s)
    | None => r.1.1.1 <> 0 /\ tokens r.1.2 = tokens s /\ table r.1.2 = table s end) as Hr.
  { pose proof (allocate_exact leaky s w bytes Hs Hex) as Ha. unfold allocated in Ha.
    subst r. unfold cudaMalloc. cbn [negb orb]. destruct (Z.eqb_spec bytes 0) as [E0 | _]; [by cbn |].
    destruct (allocate loaded malloc1 bytes s w) as [[[st ptr] s1] w1].
    pose proof (runtime_return_state st ptr s1 w1) as Hret. cbv zeta in Hret.
    destruct (runtime_return st ptr s1 w1) as [[[code v] s2] w2]. cbn [fst snd] in *.
    destruct Hret as ([= -> ->] & -> & -> & _). destruct ptr as [p |].
    - destruct Ha as (-> & ? & ? & ? & ? & dev & ?). split_and!; try done. by eexists.
    - destruct Ha as (Hst & ? & ?). rewrite runtime_code_zero. done. }
  destruct r.1.1.2 as [p |].
  - destruct Hr as (Hc & Hp & Hfresh & Hnone & Ht & a & Htab). split_and!; try done. intros f.
    pose proof (release_exact leaky r.1.2 r.2 p Hs' Hp) as Hrel. unfold released in Hrel.
    rewrite Htab, lookup_insert_eq, Ht in Hrel.
    pose proof (cudaFree_preserving leaky p r.1.2 r.2 Hs') as Hs''. fold f in Hs''.
    assert (f.1.1.1 = 0 /\ tokens f.1.2 = tokens s /\ table f.1.2 = table s) as (Hf & Hft & Hftab).
    { subst f. unfold cudaFree, runtime_call. rewrite (proj2 (Z.eqb_neq _ _)) by done.
      destruct (release loaded p r.1.2 r.2) as [[st s1] w1]. cbn [fst snd] in Hrel.
      destruct Hrel as (-> & _ & Hk & Hb). cbn. rewrite Hk, Hb, delete_insert_id by done. split_and!; [done | set_solver | done]. }
    split_and!; try done. by rewrite (shim_mem _ _ _ Hs''), (shim_mem _ _ _ Hs), Hftab.
  - destruct Hr as (Hc & Ht & Htab). split_and!; try done. by rewrite (shim_mem _ _ _ Hs'), (shim_mem _ _ _ Hs), Htab.
Qed.

(** A device reset loses host memory.  It forgets the allocations of
    the current device without freeing their tokens: each stays live in
    the host heap, and a later free of it is refused, so that it is never
    given back. *)
Theorem cudaDeviceReset_leaks s w en p a :
  shim_ok true s w -> engine_once s = Some (Ok en) ->
  table s !! p = Some a -> al_Device a = currentDevice en ->
  let r := cudaDeviceReset loaded s w in
  r.1.1.1 = 0 /\ p ∈ tokens r.1.2 /\
  let f := cudaFree loaded p r.1.2 r.2 in
  f.1.1.1 = FAKE_CUDA_ERROR_INVALID_VALUE /\ p ∈ tokens f.1.2.
Proof.
  intros Hs He Hp Ha r. destruct (reset_exact _ _ _ _ Hs He) as (Hc & Ht & Htab). fold r in Hc, Ht, Htab.
  assert (p ∈ tokens s) as Hin by (apply (table_live _ _ _ Hs), elem_of_dom; by exists a).
  assert (p <> 0) as Hp0 by (intros ->; by rewrite (table_null _ _ _ Hs) in Hp).
  split; [done |]. split; [by rewrite Ht |]. intros f.
  assert (shim_ok true r.1.2 r.2) as Hs'.
  { apply (runtime_call_preserving true _ (on_engine_preserving true StatusInitialization _ ResetDevice_ok)). done. }
  assert (exists en', engine_once r.1.2 = Some (Ok en')) as [en' He'].
  { subst r. unfold cudaDeviceReset, runtime_call, on_engine, getEngine. rewrite He.
    destruct (ResetDevice (Some en) w) as [[st [e |]] w1]; destruct st; cbn; by eexists. }
  assert (table r.1.2 !! p = None) as Hnone.
  { rewrite Htab. apply map_lookup_filter_None_2. right. intros x Hx. cbn. assert (x = a) as -> by congruence. tauto. }
  pose proof (release_exact true r.1.2 r.2 p Hs' Hp0) as Hr. unfold released in Hr. rewrite Hnone in Hr.
  subst f. unfold cudaFree, runtime_call. rewrite (proj2 (Z.eqb_neq _ _)) by done.
  assert ((release loaded p r.1.2 r.2).1.1 = StatusInvalidValue) as Hst.
  { unfold release, getEngine. rewrite He'. pose proof (sk_engine _ _ _ Hs') as Hsk. rewrite He' in Hsk.
    destruct Hsk as [Hacc _]. unfold table in Hnone. rewrite He' in Hnone.
    unfold FreeAllocation, with_backend. by rewrite (acc_backend _ _ _ Hacc), (proj2 (Z.eqb_neq _ _)), Hnone. }
  destruct (release loaded p r.1.2 r.2) as [[st s1] w1]. cbn [fst snd] in Hr, Hst. subst st.
  destruct Hr as (_ & Hk & _). cbn. split; [done |]. by rewrite Hk, Ht.
Qed.
End heap.

(** ** UUID texts *)
Definition hex_string (ds : list Z) : string := foldr (fun d s => digit_char d ::: s) EmptyString ds.
(** The [k] low hexadecimal digits of [n], most significant first. *)
Fixpoint hex_digits (k : nat) (n : Z) : list Z :=
  match k with O => [] | S k => hex_digits k (n / 16) ++ [n mod 16] end.
(** The number a list of digits (or bytes) is in big-endian order. *)
Definition big_endian (base : Z) (ds : list Z) : Z := fold_left (fun a d => a * base + d) ds 0.

Lemma hex_string_app l k : hex_string (l ++ k) = hex_string l +:+ hex_string k.
Proof. induction l as [| d l IH]; [done |]. cbn [foldr app hex_string]. unfold hex_string in *. cbn. by rewrite IH. Qed.

Lemma hex_string_length l : String.length (hex_string l) = length l.
Proof. induction l as [| d l IH]; [done |]. cbn. by rewrite <- IH. Qed.

Lemma hex_digits_length k n : length (hex_digits k n) = k.
Proof. revert n. induction k as [| k IH]; intros n; cbn; [done |]. rewrite length_app, IH. cbn. lia. Qed.

Lemma hex_digits_range k n : Forall (fun d => 0 <= d < 16) (hex_digits k n).
Proof.
  revert n. induction k as [| k IH]; intros n; cbn; [constructor |]. apply Forall_app. split; [apply IH |].
  repeat constructor; apply Z.mod_pos_bound; lia.
Qed.

Lemma hex_digits_value k n : 0 <= n < 16 ^ Z.of_nat k -> big_endian 16 (hex_digits k n) = n.
Proof.
  revert n. induction k as [| k IH]; intros n Hn; [cbn in *; lia |]. cbn [hex_digits]. unfold big_endian.
  rewrite fold_left_app. cbn [fold_left]. fold (big_endian 16 (hex_digits k (n / 16))). rewrite IH.
  - pose proof (Z.div_mod n 16). lia.
  - rewrite Nat2Z.inj_succ, Z.pow_succ_r in Hn by lia. split; [apply Z.div_pos; lia | apply Z.div_lt_upper_bound; lia].
Qed.

Lemma hex_digits_pad k n : n < 16 ^ Z.of_nat k -> 0 <= n -> forall j, hex_digits (j + k) n = replicate j 0 ++ hex_digits k n.
Proof.
  revert n. induction k as [| k IH]; intros n Hn H0 j.
  - cbn in Hn. assert (n = 0) as -> by lia. rewrite Nat.add_0_r, app_nil_r.
    induction j as [| j IHj]; [done |]. change (hex_digits (S j) 0) with (hex_digits j 0 ++ [0]).
    by rewrite IHj, <- replicate_cons_app.
  - rewrite Nat.add_succ_r. cbn [hex_digits]. rewrite IH, app_assoc; [done | | by apply Z.div_pos].
    rewrite Nat2Z.inj_succ, Z.pow_succ_r in Hn by lia. apply Z.div_lt_upper_bound; lia.
Qed.

(** [%x] prints the digits without leading zeros. *)
Lemma digits_hex fuel n acc : 0 <= n < 16 ^ Z.of_nat fuel -> (0 < fuel)%nat ->
  exists m, digits 16 fuel n acc = hex_string (hex_digits m n) +:+ acc /\ n < 16 ^ Z.of_nat m /\
    (m = 1%nat \/ 16 ^ (Z.of_nat m - 1) <= n).
Proof.
  revert n acc. induction fuel as [| fuel IH]; intros n acc Hn Hf; [lia |]. cbn [digits].
  destruct (Z.ltb_spec n 16) as [Hlt | Hge].
  - exists 1%nat. split; [| split; [lia | by left]]. cbn. done.
  - rewrite Nat2Z.inj_succ, Z.pow_succ_r in Hn by lia.
    destruct fuel as [| fuel]; [cbn in Hn; lia |].
    destruct (IH (n / 16) (digit_char (n mod 16) ::: acc)) as (m & -> & Hm & Hlow); [| lia |].
    { split; [apply Z.div_pos; lia | apply Z.div_lt_upper_bound; lia]. }
    exists (S m). split; [| split].
    + cbn [hex_digits]. rewrite hex_string_app. by rewrite append_assoc.
    + rewrite Nat2Z.inj_succ, Z.pow_succ_r by lia. pose proof (Z.mod_pos_bound n 16). pose proof (Z.div_mod n 16). lia.
    + right. rewrite Nat2Z.inj_succ. replace (Z.succ (Z.of_nat m) - 1) with (Z.of_nat m) by lia.
      pose proof (Z.mod_pos_bound n 16). pose proof (Z.div_mod n 16). destruct Hlow as [-> | Hlow]; [cbn; lia |].
      destruct m as [| m]; [cbn in *; lia |]. rewrite Nat2Z.inj_succ, Z.pow_succ_r in * by lia.
      replace (Z.succ (Z.of_nat m) - 1) with (Z.of_nat m) in Hlow by lia. lia.
Qed.

Lemma pad_left_hex k n : 0 <= n < 16 ^ Z.of_nat k -> (0 < k)%nat ->
  pad_left k "0" (FormatHex n) = hex_string (hex_digits k n).
Proof.
  intros Hn Hk. unfold FormatHex.
  destruct (digits_hex (fuel_for n) n EmptyString) as (m & -> & Hm & Hlow); [| unfold fuel_for; lia |].
  { split; [lia |]. pose proof (fuel_for_enough n ltac:(lia)).
    eapply Z.lt_le_trans; [done |]. apply Z.pow_le_mono_l. lia. }
  assert (m <= k)%nat as Hmk.
  { destruct Hlow as [-> | Hlow]; [lia |].
    destruct (decide (m <= k)%nat) as [| Hgt]; [done |].
    pose proof (Z.pow_le_mono_r 16 (Z.of_nat k) (Z.of_nat m - 1)). lia. }
  rewrite append_nil_r. unfold pad_left. rewrite hex_string_length, hex_digits_length.
  replace k with ((k - m) + m)%nat at 2 by lia. rewrite hex_digits_pad, hex_string_app by (done || lia). f_equal.
  induction (k - m)%nat as [| j IH]; [done |]. cbn. by rewrite IH.
Qed.

Lemma nibble d : 0 <= d < 16 -> d ∈ [0; 1; 2; 3; 4; 5; 6; 7; 8; 9; 10; 11; 12; 13; 14; 15].
Proof. intros Hd. rewrite !elem_of_cons. lia. Qed.

Lemma hex_digit_cases d : 0 <= d < 16 ->
  hex_value (digit_char d) = Some d /\ char_eqb (digit_char d) "-" = false /\ byte_val (digit_char d) <> 0.
Proof.
  intros Hin%nibble. repeat (apply elem_of_cons in Hin as [-> | Hin]; [done |]). by apply elem_of_nil in Hin.
Qed.

Lemma collect_hex_digits ds t room : Forall (fun d => 0 <= d < 16) ds ->
  collect_hex (hex_string ds +:+ t) (length ds + room) = (fun l => ds ++ l) <$> collect_hex t room.
Proof.
  induction 1 as [| d ds Hd _ IH].
  { cbn [length Nat.add]. change (hex_string [] +:+ t) with t. by destruct (collect_hex t room). }
  cbn [length Nat.add hex_string foldr]. rewrite append_cons. cbn [collect_hex]. destruct (hex_digit_cases d Hd) as (-> & -> & _).
  fold (hex_string ds). rewrite IH. by destruct (collect_hex t room).
Qed.

Lemma c_string_id s : sforall (fun c => negb (byte_val c =? 0)) s = true -> c_string s = s.
Proof.
  induction s as [| c s IH]; [done |]. cbn. intros [Hc Hs]%andb_true_iff. apply negb_true_iff in Hc.
  by rewrite Hc, IH.
Qed.

Lemma pair_digits_value n ds a : length ds = (2 * n)%nat -> Forall (fun d => 0 <= d < 16) ds ->
  length (pair_digits ds) = n /\ Forall (fun x => 0 <= x < 256) (pair_digits ds) /\
  fold_left (fun a d => a * 256 + d) (pair_digits ds) a = fold_left (fun a d => a * 16 + d) ds a.
Proof.
  revert ds a. induction n as [| n IH]; intros ds a Hlen Hds; [by destruct ds |].
  destruct ds as [| hi [| lo ds]]; [done | cbn in Hlen; lia |]. cbn in Hlen.
  apply Forall_cons in Hds as [Hhi [Hlo Hds]%Forall_cons].
  assert (Z.lor (Z.shiftl hi 4) lo = hi * 16 + lo) as Elor.
  { apply nibble in Hhi, Hlo. rewrite Z.add_comm.
    repeat (apply elem_of_cons in Hhi as [-> | Hhi];
      [repeat (apply elem_of_cons in Hlo as [-> | Hlo]; [done |]); by apply elem_of_nil in Hlo |]).
    by apply elem_of_nil in Hhi. }
  cbn [pair_digits fold_left length]. rewrite Elor.
  destruct (IH ds (a * 256 + (hi * 16 + lo)) ltac:(lia) Hds) as (-> & Hb & ->).
  split; [done |]. split; [constructor; [lia | done] |]. f_equal. lia.
Qed.

(** The text of a device's identity, read back. *)
Lemma parse_stableUUID i : 0 <= i < 2 ^ 48 - 1 ->
  fake_cuda_parse_uuid (config.stableUUID i) = Some (pair_digits (replicate 20 0 ++ hex_digits 12 (i + 1))).
Proof.
  intros Hi. unfold config.stableUUID. rewrite pad_left_hex by lia. unfold fake_cuda_parse_uuid.
  rewrite c_string_id.
  2: { rewrite sforall_append. apply andb_true_iff. split; [done |].
       pose proof (hex_digits_range 12 (i + 1)) as Hr. induction Hr as [| d ds Hd _ IH]; [done |]. cbn.
       destruct (hex_digit_cases d Hd) as (_ & _ & Hne). rewrite (proj2 (Z.eqb_neq _ _)) by done. exact IH. }
  change ("GPU-00000000-0000-0000-0000-" +:+ hex_string (hex_digits 12 (i + 1)))
    with ("GPU-" +:+ ("00000000-0000-0000-0000-" +:+ hex_string (hex_digits 12 (i + 1)))).
  rewrite TrimPrefix_app.
  assert (collect_hex ("00000000-0000-0000-0000-" +:+ hex_string (hex_digits 12 (i + 1))) 32 =
    (fun l => replicate 20 0 ++ l) <$> collect_hex (hex_string (hex_digits 12 (i + 1))) 12) as ->.
  { generalize (hex_string (hex_digits 12 (i + 1))). intros t.
    change (collect_hex ("00000000-0000-0000-0000-" +:+ t) 32) with
      (Nat.iter 20 (fun r => cons 0 <$> r) (collect_hex t 12)).
    by destruct (collect_hex t 12). }
  pose proof (collect_hex_digits (hex_digits 12 (i + 1)) "" 0 (hex_digits_range _ _)) as Hc.
  rewrite append_nil_r, hex_digits_length in Hc. cbn [Nat.add] in Hc. rewrite Hc. cbn [collect_hex fmap option_fmap option_map].
  rewrite app_nil_r, length_app, hex_digits_length. done.
Qed.

Lemma stableUUID_digits i : 0 <= i < 2 ^ 48 - 1 ->
  exists ds, fake_cuda_parse_uuid (config.stableUUID i) = Some (pair_digits ds) /\ length ds = 32%nat /\
    Forall (fun d => 0 <= d < 16) ds /\ big_endian 16 ds = i + 1.
Proof.
  intros Hi. exists (replicate 20 0 ++ hex_digits 12 (i + 1)). split; [by apply parse_stableUUID |].
  split; [by rewrite length_app, hex_digits_length |].
  split; [apply Forall_app; split; [by repeat constructor | apply hex_digits_range] |].
  assert (16 ^ Z.of_nat 12 = 2 ^ 48) as E by done.
  pose proof (hex_digits_value 12 (i + 1)) as Hx. rewrite E in Hx.
  transitivity (big_endian 16 (hex_digits 12 (i + 1))); [| apply Hx; lia].
  unfold big_endian. rewrite fold_left_app. f_equal.
Qed.

(** ** The shim on a node *)
(** The environment names the node's two commands. *)
Definition env_names_node {W} `{NvmlMock W} : Prop :=
  envOr (W := W) "FAKE_NVIDIA_CTL_BIN" "nvml-mock-ctl" = ctl_binary /\
  envOr (W := W) "FAKE_NVIDIA_SMI_BIN" "nvidia-smi" = smi_binary.

Lemma envOr_nonempty {W} `{OS W} key fallback : fallback <> "" -> envOr (W := W) key fallback <> "".
Proof. intros Hf. unfold envOr. by destruct (String.eqb_spec (TrimSpace (Getenv os_environ key)) ""). Qed.

(** The engine of [engineOnce] runs over the control backend. *)
Lemma initEngine_control {W} `{NvmlMock W} loaded w (en : Engine W) :
  env_names_node (W := W) -> initEngine loaded w = Ok en ->
  exists mg capability version policy, wired mg /\
    NewEngine (Some (as_backend (control mg capability version))) policy = Ok en.
Proof.
  intros [Hctl Hsmi]. unfold initEngine. intros (cb & Hcb & Hrest)%result_bind_ok.
  apply result_bind_ok in Hrest as (policy & _ & Hnew).
  pose proof (envOr_nonempty (W := W) "FAKE_NVIDIA_CTL_BIN" "nvml-mock-ctl" ltac:(done)) as Hc0.
  pose proof (envOr_nonempty (W := W) "FAKE_NVIDIA_SMI_BIN" "nvidia-smi" ltac:(done)) as Hs0.
  unfold NewControlBackendFromEnv in Hcb. cbv zeta in Hcb. rewrite Hctl in *. rewrite Hsmi in *.
  apply result_bind_ok in Hcb as (catalog & _ & Hcb). apply result_bind_ok in Hcb as (version & _ & [= <-]).
  eexists _, _, _, policy. split; [| exact Hnew]. split.
  - eexists. split; [reflexivity |]. unfold effective_binary, effective_runner. cbn.
    destruct (String.eqb_spec ctl_binary ""); [done |]. split; [done | by left].
  - unfold reads_node. eexists. split; [reflexivity |]. unfold observer_binary, observer_runner.
    destruct (_ ++ _); cbn; (destruct (String.eqb_spec smi_binary ""); [done |]); (split; [done |]);
      [by left | right; by eexists].
Qed.

(** C1. The C interface end to end.  Run any sequence of calls of the
    exported functions in a fresh process on a node with the mock NVML
    commands, allocations being of whole MiB, with whatever outcomes.  Then
    every GPU of the node has its initial used and free memory plus and minus
    exactly the allocations live in the shim; each of these has a live host
    token; and if no device was reset no other token is live. *)
Theorem shim_on_node {W} `{NvmlMock W} loaded malloc1 w0 (en0 : Engine W) calls :
  env_names_node (W := W) -> (forall mg w, lockable mg w) ->
  (forall d, d ∈ gpus w0 -> owned d <= UsedBytes d) ->
  (forall live p, malloc1 live = Some p -> (p ∉ live) /\ p <> 0) ->
  initEngine loaded w0 = Ok en0 ->
  Forall (fun c => match c with CuMemAlloc _ n | CudaMalloc _ n => mib_aligned n | _ => True end) calls ->
  let r := run_calls loaded malloc1 calls fresh_shim w0 in
  (forall d, d ∈ gpus w0 -> exists d', d' ∈ gpus r.2 /\ Index d' = Index d /\
     UsedBytes d' = UsedBytes d + owned_by (table r.1.2) (Index d) /\
     FreeBytes d' = FreeBytes d - owned_by (table r.1.2) (Index d)) /\
  dom (table r.1.2) ⊆ tokens r.1.2 /\
  (CudaDeviceReset ∉ calls -> tokens r.1.2 = dom (table r.1.2)).
Proof.
  intros Henv Hl Hinit Hmalloc Hen Hcalls r.
  destruct (initEngine_control loaded w0 en0 Henv Hen) as (mg & capability & version & policy & Hw & Hnew).
  set (acc := control_accounting mg capability version Hw (Hl mg)).
  assert (forall en, initEngine loaded w0 = Ok en ->
    accounted (AccountingBackend0 := acc) w0 en w0 /\ allocations en = ∅) as Hfresh.
  { intros en [= <-]%(eq_trans (eq_sym Hen)). split.
    - apply (new_engine_accounted (AccountingBackend0 := acc) policy); [done |]. by apply control_initial.
    - revert Hnew. unfold NewEngine. destruct (_ <? _); [done | by intros [= <-]]. }
  assert (forall leaky, (CudaDeviceReset ∈ calls -> leaky = true) ->
    shim_ok (AccountingBackend0 := acc) w0 leaky r.1.2 r.2) as Hok.
  { intros leaky Hleaky. apply (run_calls_ok (AccountingBackend0 := acc)); [done | done | by apply fresh_shim_ok |].
    rewrite Forall_forall in *. intros c Hc. specialize (Hcalls c Hc). destruct c; try exact Hcalls. by apply Hleaky. }
  pose proof (Hok true (fun _ => eq_refl)) as Hs. split; [| split].
  - apply (control_charged capability). by eapply (shim_mem (AccountingBackend0 := acc)).
  - by eapply (table_live (AccountingBackend0 := acc)).
  - intros Hno. eapply (table_live (AccountingBackend0 := acc)); [.. | done]; [done .. |]. apply Hok. by intros Hc%Hno.
Qed.

(** The error state is that of CUDA: after any sequence of calls the
    pending error is the last failure of a runtime call since the last
    [cudaGetLastError] (successes and driver calls leave it);
    [cudaPeekAtLastError] returns it and keeps it, [cudaGetLastError] returns
    it and clears it. *)
Theorem last_error_exact {W} `{OS W} loaded malloc1 calls (s : Shim W) w :
  let r := run_calls loaded malloc1 calls s w in
  let e := pending_error (zip calls r.1.1) (lastError s) in
  exec_call loaded malloc1 CudaPeekAtLastError r.1.2 r.2 = (e, r.1.2, r.2) /\
  let g := exec_call loaded malloc1 CudaGetLastError r.1.2 r.2 in
  g.1.1 = e /\ lastError g.1.2 = 0 /\ engine_once g.1.2 = engine_once r.1.2 /\
  tokens g.1.2 = tokens r.1.2 /\ g.2 = r.2.
Proof.
  intros r e. pose proof (run_calls_pending loaded malloc1 calls s w) as Hp. fold r e in Hp. cbn.
  unfold cudaPeekAtLastError. by rewrite Hp.
Qed.

(** The UUID text the configuration gives a device is read back by the
    shim: the 16 bytes are the device's index plus one in big-endian order,
    so that devices keep distinct identities through the C interface. *)
Theorem uuid_roundtrip i : 0 <= i < 2 ^ 48 - 1 ->
  exists bytes, fake_cuda_parse_uuid (config.stableUUID i) = Some bytes /\
    length bytes = 16%nat /\ Forall (fun x => 0 <= x < 256) bytes /\ big_endian 256 bytes = i + 1.
Proof.
  intros Hi. destruct (stableUUID_digits i Hi) as (ds & Hp & Hl & Hr & Hv). exists (pair_digits ds).
  split; [exact Hp |]. destruct (pair_digits_value 16 ds 0 Hl Hr) as (Hlen & Hb & Ev).
  split; [exact Hlen |]. split; [exact Hb |]. unfold big_endian in *. by rewrite Ev.
Qed.

(** ** Witnesses: the demo node *)
Definition demo_loaded : result profiles.Catalog := Ok {| profiles.profiles := ∅; profiles.topologies := ∅ |}.
(** An allocator with four blocks. *)
Definition demo_malloc (live : gset Z) : option Z := find_first (fun p => bool_decide (p ∉ live)) [16; 32; 48; 64].
Definition demo_calls : list Call :=
  [CuInit 0; CudaMalloc true (64 * mib); CudaMalloc true (100000 * mib); CudaSetDevice 1; CuMemAlloc true mib;
   CudaFree 16; CudaFree 16; CudaMalloc true (2 * mib)].
Definition demo_run : list Z * Shim Machine * Machine :=
  run_calls demo_loaded demo_malloc demo_calls fresh_shim demo_machine.

Lemma demo_malloc_fresh live p : demo_malloc live = Some p -> (p ∉ live) /\ p <> 0.
Proof.
  intros [Hin Hp]%find_first_some. to_prop. split; [done |]. rewrite !elem_of_cons, elem_of_nil in Hin. lia.
Qed.

Definition demo_env_manager : Manager Machine :=
  NewManager (Some (New "nvml-mock-ctl" "" "")) (Some (NewObserver "nvidia-smi")).
Definition demo_control : Backend Machine :=
  as_backend (control demo_env_manager ∅ 13000).
Definition demo_engine0 : Engine Machine :=
  {| backend := Some demo_control; fault := {| OOMAfter := -1 |}; currentDevice := 0; allocations := ∅;
     successfulAllocations := 0 |}.

Lemma demo_initEngine : initEngine demo_loaded demo_machine = Ok demo_engine0.
Proof. reflexivity. Qed.
Lemma demo_env : env_names_node (W := Machine).
Proof. by split. Qed.
Lemma demo_all_lockable (mg : Manager Machine) n : lockable mg n.
Proof. right. by exists n, n, n. Qed.
Lemma demo_owned d : d ∈ gpus demo_machine -> owned d <= UsedBytes d.
Proof.
  intros Hd. apply elem_of_cons in Hd as [-> | Hd]; [by vm_compute |].
  apply elem_of_cons in Hd as [-> | Hd]; [by vm_compute | by apply elem_of_nil in Hd].
Qed.
Lemma demo_env_wired : wired demo_env_manager.
Proof.
  split; (eexists; split; [reflexivity |]; split; [reflexivity | by left]).
Qed.

#[local] Instance demo_accounting : AccountingBackend Machine demo_control :=
  control_accounting demo_env_manager ∅ 13000 demo_env_wired
    (demo_all_lockable demo_env_manager).

Lemma demo_init en : initEngine demo_loaded demo_machine = Ok en ->
  accounted demo_machine en demo_machine /\ allocations en = ∅.
Proof.
  rewrite demo_initEngine. intros [= <-]. split; [| done].
  apply (new_engine_accounted {| OOMAfter := -1 |}); [done |]. apply control_initial, demo_owned.
Qed.

Lemma demo_shim_ok leaky : shim_ok demo_machine leaky demo_run.1.2 demo_run.2.
Proof.
  apply (run_calls_ok demo_loaded demo_malloc demo_malloc_fresh demo_machine demo_init); [by apply fresh_shim_ok |].
  repeat constructor; by vm_compute.
Qed.

Lemma shim_on_node_witness :
  (exists d', d' ∈ gpus demo_run.2 /\ Index d' = 0 /\
     UsedBytes d' = 3072 * mib + owned_by (table demo_run.1.2) 0) /\
  tokens demo_run.1.2 = dom (table demo_run.1.2).
Proof.
  destruct (shim_on_node demo_loaded demo_malloc demo_machine demo_engine0 demo_calls demo_env demo_all_lockable
    demo_owned demo_malloc_fresh demo_initEngine) as (Hd & _ & Hno).
  - repeat constructor; by vm_compute.
  - split.
    + destruct (Hd (demo_gpu 0 "GPU-aa" 3072 13000 [demo_worker 7 2048; demo_worker 9 512]) ltac:(left))
        as (d' & Hin & Hi & Hu & _). exists d'. split; [exact Hin |]. split; [exact Hi | exact Hu].
    + apply Hno. intros Hc. repeat (apply elem_of_cons in Hc as [Hc | Hc]; [discriminate |]). by apply elem_of_nil in Hc.
Defined.

Lemma cudaFree_exact_witness : (cudaFree demo_loaded 48 demo_run.1.2 demo_run.2).1.1.1 <> 0.
Proof.
  intros E.
  destruct (proj1 (proj1 (cudaFree_exact demo_loaded demo_malloc demo_malloc_fresh demo_machine demo_init false
    demo_run.1.2 demo_run.2 48 (demo_shim_ok false) ltac:(done))) E) as [a Ha]. by vm_compute in Ha.
Defined.

Lemma cudaMalloc_cudaFree_roundtrip_witness :
  (cudaFree demo_loaded 48 (cudaMalloc demo_loaded demo_malloc true mib demo_run.1.2 demo_run.2).1.2
    (cudaMalloc demo_loaded demo_malloc true mib demo_run.1.2 demo_run.2).2).1.1.1 = 0.
Proof.
  pose proof (cudaMalloc_cudaFree_roundtrip demo_loaded demo_malloc demo_malloc_fresh demo_machine demo_init false
    demo_run.1.2 demo_run.2 mib (demo_shim_ok false) ltac:(by vm_compute)) as H. cbv zeta in H.
  assert ((cudaMalloc demo_loaded demo_malloc true mib demo_run.1.2 demo_run.2).1.1.2 = Some 48) as E
    by by vm_compute.
  rewrite E in H. apply H.
Defined.

Lemma cudaDeviceReset_leaks_witness :
  16 ∈ tokens (cudaDeviceReset demo_loaded demo_run.1.2 demo_run.2).1.2.
Proof.
  assert (match engine_once demo_run.1.2 with Some (Ok en) => currentDevice en | _ => 0 end = 1) as Hc
    by by vm_compute.
  destruct (engine_once demo_run.1.2) as [[en | e] |] eqn:E; [| discriminate ..].
  destruct (cudaDeviceReset_leaks demo_loaded demo_malloc demo_malloc_fresh demo_machine demo_init demo_run.1.2
    demo_run.2 en 16 {| Token := 16; Size := 2 * mib; al_Device := 1 |} (demo_shim_ok true) E) as (_ & Hin & _).
  - by vm_compute.
  - by rewrite Hc.
  - exact Hin.
Defined.

Lemma uuid_roundtrip_witness :
  exists bytes, fake_cuda_parse_uuid (config.stableUUID 7) = Some bytes /\ big_endian 256 bytes = 8.
Proof.
  destruct (uuid_roundtrip 7 ltac:(lia)) as (bytes & Hp & _ & _ & Hv). exists bytes. split; [exact Hp | exact Hv].
Defined.

End libcuda.
