(* ===== verification/Render.v ===== *)
(** * Mock NVML YAML: [internal/config/render.go]

    [RenderYAML] writes the composed configuration line by line.  The CUDA
    backend scans the same text for the CUDA version. *)
From Stdlib Require Import SpecFloat.
From S2P Require Import Prelude GoStrings GoStrconv GoJson GoFloat GoQuote Catalog Config CudaBackend.

Module render.
Import config.

Section render.
(** Unicode's printable runes beyond ASCII. *)
Context (is_print : Z -> bool).
Let q : string -> string := Quote is_print.

(** A line [key: value]. *)
Definition kv (key value : string) : string := key +:+ ": " +:+ value.

Definition renderProcess (p : Process) : list string :=
  [kv "      - pid" (FormatUint (pr_PID p))] ++
  (if String.eqb (pr_Type p) "" then [] else [kv "        type" (q (pr_Type p))]) ++
  (if String.eqb (pr_Name p) "" then [] else [kv "        name" (q (pr_Name p))]) ++
  (if pr_UsedMemoryMiB p =? 0 then [] else [kv "        used_memory_mib" (FormatUint (pr_UsedMemoryMiB p))]) ++
  (if pr_SMUtil p =? 0 then [] else [kv "        sm_util" (FormatUint (pr_SMUtil p))]) ++
  (if pr_MemoryUtil p =? 0 then [] else [kv "        mem_util" (FormatUint (pr_MemoryUtil p))]) ++
  (if pr_EncoderUtil p =? 0 then [] else [kv "        enc_util" (FormatUint (pr_EncoderUtil p))]) ++
  (if pr_DecoderUtil p =? 0 then [] else [kv "        dec_util" (FormatUint (pr_DecoderUtil p))]).

(** [d.Failure.Probability != 0]: minus zero is zero. *)
Definition f64_nonzero (f : spec_float) : bool := negb (SFeqb f (S754_zero false)).

Definition renderFailure (f : Failure) : list string :=
  ["    failure:"; kv "      mode" (q (f_Mode f))] ++
  (if f64_nonzero (f_Probability f) then [kv "      probability" (FormatFloat (f_Probability f))] else []) ++
  (if f_AfterCalls f =? 0 then [] else [kv "      after_calls" (Itoa (f_AfterCalls f))]) ++
  (if f_XID f =? 0 then [] else ["      xid:"; kv "        code" (FormatUint (f_XID f))]).

Definition renderDevice (d : Device) : list string :=
  [kv "  - index" (Itoa (d_Index d));
   kv "    minor_number" (Itoa (d_Index d));
   kv "    uuid" (q (d_UUID d));
   kv "    name" (q (d_Name d));
   kv "    architecture" (q (d_Architecture d));
   "    compute_capability:";
   kv "      major" (Itoa (profiles.cc_Major (d_ComputeCapability d)));
   kv "      minor" (Itoa (profiles.cc_Minor (d_ComputeCapability d)));
   "    memory:";
   kv "      total_bytes" (FormatUint (m_TotalBytes (d_Memory d)));
   kv "      reserved_bytes" (FormatUint (m_ReservedBytes (d_Memory d)));
   kv "      free_bytes" (FormatUint (m_FreeBytes (d_Memory d)));
   kv "      used_bytes" (FormatUint (m_UsedBytes (d_Memory d)));
   "    pci:";
   kv "      bus_id" (q (d_PCI_BusID d));
   "    utilization:";
   kv "      gpu" (FormatUint (u_GPU (d_Utilization d)));
   kv "      memory" (FormatUint (u_Memory (d_Utilization d)));
   "    thermal:";
   kv "      temperature_gpu_c" (Itoa (d_TemperatureGPUC d));
   "    power:";
   kv "      current_draw_mw" (FormatUint (d_CurrentDrawMW d))] ++
  (match d_Processes d with [] => [] | l => "    processes:" :: concat (map renderProcess l) end) ++
  (match d_Failure d with Some f => renderFailure f | None => [] end).

Definition renderSystem (cfg : MockConfig) : list string :=
  ["system:";
   kv "  driver_version" (q (ms_DriverVersion (mc_System cfg)));
   kv "  cuda_version" (q (ms_CUDAVersion (mc_System cfg)));
   kv "  cuda_version_major" (Itoa (ms_CUDAVersionMajor (mc_System cfg)));
   kv "  cuda_version_minor" (Itoa (ms_CUDAVersionMinor (mc_System cfg)));
   kv "  num_devices" (Itoa (Z.of_nat (length (mc_Devices cfg))))].

(** The lines written; an empty line is the second newline of a pair. *)
Definition renderLines (cfg : MockConfig) : list string :=
  [kv "version" (q (mc_Version cfg)); ""] ++ renderSystem cfg ++
  [""; "device_defaults: {}"; ""; "devices:"] ++ concat (map renderDevice (mc_Devices cfg)).

Definition RenderYAML (cfg : MockConfig) : result string :=
  if String.eqb (mc_Version cfg) "" then Err (Errorf "config version is required" []) else
  match mc_Devices cfg with
  | [] => Err (Errorf "at least one device is required" [])
  | _ =>
      let n := Z.of_nat (length (mc_Devices cfg)) in
      if n >? maxDevices then Err (Errorf "device count %d exceeds Mock NVML limit %d" [AZ n; AZ maxDevices]) else
      Ok (unlines (renderLines cfg))
  end.
End render.

(** ** Lemmas *)
Lemma slen_append s t : slen (s +:+ t) = slen s + slen t.
Proof. induction s as [| c s IH]; [done |]. rewrite append_cons. cbn [slen]. rewrite IH. lia. Qed.

Lemma digits_slen base fuel n acc : slen (digits base fuel n acc) <= Z.of_nat fuel + slen acc.
Proof.
  revert n acc. induction fuel as [| fuel IH]; intros n acc; cbn [digits]; [lia |].
  destruct (n <? base); [cbn [slen]; lia |]. specialize (IH (n / base) (digit_char (n mod base) ::: acc)).
  cbn [slen] in IH. lia.
Qed.

Lemma FormatUint_slen n : 0 <= n < int64_cutoff -> slen (FormatUint n) <= 64.
Proof.
  intros Hn. pose proof (digits_slen 10 (fuel_for n) n "") as H. unfold FormatUint. cbn [slen] in H.
  assert (Z.log2 n < 63) as Hl.
  { destruct (Z.eq_dec n 0) as [-> |]; [done |]. apply Z.log2_lt_pow2; [lia |]. exact (proj2 Hn). }
  pose proof (Z.log2_nonneg n). assert (Z.of_nat (fuel_for n) <= 64) by (unfold fuel_for; lia). lia.
Qed.

Lemma TrimLeft_other c s d t : s = d ::: t -> char_eqb d c = false -> TrimLeft s c = s.
Proof. intros -> H. cbn. by rewrite H. Qed.

Lemma Trim_quoted s : sforall plain s = true -> Trim (quoted s) dquote = s.
Proof.
  intros H. unfold Trim, quoted. change (chr dquote +:+ s +:+ chr dquote) with (dquote ::: (s +:+ chr dquote)).
  cbn [TrimLeft]. rewrite char_eqb_refl.
  assert (forall t, sforall plain t = true -> TrimLeft (t +:+ chr dquote) dquote = if String.eqb t "" then "" else t +:+ chr dquote) as Hl.
  { intros [| c t]; [done |]. rewrite append_cons. cbn [sforall TrimLeft]. intros Ht. to_prop.
    assert (char_eqb c dquote = false) as ->; [| done]. apply char_eqb_neq. intros ->.
    destruct Ht as [Ht _]. by vm_compute in Ht. }
  rewrite Hl by done. destruct (String.eqb_spec s "") as [-> | Hne]; [done |].
  rewrite srev_append. change (srev (chr dquote)) with (chr dquote).
  change (chr dquote +:+ srev s) with (dquote ::: srev s). cbn [TrimLeft]. rewrite char_eqb_refl.
  destruct (string_snoc s) as [-> | (t & d & ->)]; [done |].
  rewrite srev_append. change (srev (chr d) +:+ srev t) with (d ::: srev t).
  assert (char_eqb d dquote = false) as Hd.
  { apply char_eqb_neq. intros ->. rewrite sforall_append in H. to_prop. destruct H as [_ H]. by vm_compute in H. }
  rewrite (TrimLeft_other _ _ d (srev t)) by done. rewrite srev_cons. by rewrite srev_involutive.
Qed.

Lemma plain_no_newline s : sforall plain s = true -> free_of newline s = true.
Proof.
  unfold free_of. apply sforall_impl. intros c Hc. apply negb_true_iff, char_eqb_neq. intros ->. by vm_compute in Hc.
Qed.

Lemma digits_plain s : sforall is_digit s = true -> sforall plain s = true.
Proof.
  apply sforall_impl. unfold is_digit, plain, in_range. intros c Hc. to_prop. lia.
Qed.

Lemma version_text_plain M m : 0 <= M -> 0 <= m -> sforall plain (cuda_backend.version_text M m) = true.
Proof.
  intros HM Hm. unfold cuda_backend.version_text. rewrite !Itoa_nonneg, !sforall_append by done.
  rewrite !(digits_plain (FormatUint _)) by by apply FormatUint_digits. done.
Qed.

(** A quoted [key: value] line inside the system block. *)
Lemma kv_line n key v : sforall graph key = true -> key <> "" -> one_line (quoted v) ->
  TrimSpace (kv (spaces n +:+ key) (quoted v)) = kv key (quoted v) /\ one_line (kv (spaces n +:+ key) (quoted v)).
Proof.
  intros Hk Hne Hv. unfold kv. split.
  - rewrite append_assoc, TrimSpace_spaces. apply edged_TrimSpace.
    apply edged_append; [by apply graph_edged |]. unfold edged, quoted. by rewrite !srev_append.
  - apply one_line_app; [apply one_line_app; [by induction n |] | by apply (one_line_app ": ")].
    unfold one_line, free_of. eapply sforall_impl; [| exact Hk]. intros c Hc. apply negb_true_iff, char_eqb_neq.
    intros ->. by vm_compute in Hc.
Qed.

Lemma version_line M m : 0 <= M -> 0 <= m -> one_line (quoted (cuda_backend.version_text M m)).
Proof. intros HM Hm. rewrite <- (Quote_plain (fun _ => false)) by by apply version_text_plain. apply Quote_line. Qed.

Lemma slen_nonneg s : 0 <= slen s.
Proof. induction s; cbn [slen]; lia. Qed.

(** ** Reading the text back *)
Lemma Split_line l rest : free_of newline l = true -> Split (unlines (l :: rest)) newline = l :: Split (unlines rest) newline.
Proof. intros Hl. cbn [unlines]. by rewrite Split_app. Qed.

Lemma scan_skip l rest :
  slen l <= cuda_backend.max_line -> HasPrefix (TrimSpace l) "cuda_version:" = false ->
  cuda_backend.scan_cuda_version (l :: rest) = cuda_backend.scan_cuda_version rest.
Proof. intros Hl Hp. cbn. rewrite (proj2 (gtb_false _ _)) by exact Hl. by rewrite Hp. Qed.

Lemma scan_version_line M m rest :
  0 <= M < int64_cutoff -> 0 <= m < int64_cutoff ->
  cuda_backend.scan_cuda_version (kv "  cuda_version" (quoted (cuda_backend.version_text M m)) :: rest) =
  cuda_backend.parseCUDAVersion (cuda_backend.version_text M m).
Proof.
  intros HM Hm. pose proof (version_text_plain M m ltac:(lia) ltac:(lia)) as Hp.
  destruct (kv_line 2 "cuda_version" _ ltac:(done) ltac:(done) (version_line M m ltac:(lia) ltac:(lia))) as [Ht _].
  cbn [cuda_backend.scan_cuda_version].
  rewrite (proj2 (gtb_false _ _)).
  2: { unfold kv, quoted, cuda_backend.version_text. rewrite !slen_append, !Itoa_nonneg by lia.
       pose proof (FormatUint_slen M HM). pose proof (FormatUint_slen m Hm). unfold cuda_backend.max_line in *.
       cbn [slen chr]. lia. }
  change (kv "  cuda_version") with (kv (spaces 2 +:+ "cuda_version")). rewrite Ht.
  unfold kv. change ("cuda_version" +:+ ": " +:+ quoted (cuda_backend.version_text M m))
    with ("cuda_version:" +:+ (" " +:+ quoted (cuda_backend.version_text M m))).
  rewrite HasPrefix_app, TrimPrefix_app. cbn [negb].
  by rewrite TrimSpace_space, edged_TrimSpace, Trim_quoted
    by first [exact Hp | by unfold edged, quoted; rewrite !srev_append].
Qed.

Lemma normalizeSystem_version s ms M m :
  normalizeSystem s = Ok ms -> s_CUDAVersion s = cuda_backend.version_text M m ->
  ms_CUDAVersion ms = cuda_backend.version_text M m /\
  (ms_DriverVersion ms = s_DriverVersion s \/ ms_DriverVersion ms = "580.173.02").
Proof.
  unfold normalizeSystem. cbv zeta. intros H E. rewrite E in H.
  assert (String.eqb (cuda_backend.version_text M m) "" = false) as Hne.
  { apply String.eqb_neq. unfold cuda_backend.version_text. intros Hv.
    assert (slen (Itoa M +:+ "." +:+ Itoa m) = 0) as Hl by by rewrite Hv.
    rewrite !slen_append in Hl. pose proof (slen_nonneg (Itoa M)). pose proof (slen_nonneg (Itoa m)). cbn [slen] in Hl. lia. }
  rewrite Hne in H. destruct (Split _ _) as [| p0 [| p1 rest]]; [done | done |].
  destruct (Atoi p0) as [major |]; [| done]. destruct (major <? 0); [done |].
  destruct (Atoi p1) as [minor |]; [| done]. destruct (minor <? 0); [done |].
  injection H as <-. cbn. split; [done |].
  destruct (String.eqb (s_DriverVersion s) ""); [by right | by left].
Qed.

Lemma Compose_parts catalog spec cfg : Compose catalog spec = Ok cfg ->
  normalizeSystem (sp_System spec) = Ok (mc_System cfg) /\ mc_Version cfg = "1.0" /\
  0 < Z.of_nat (length (mc_Devices cfg)) <= maxDevices.
Proof.
  unfold Compose. destruct catalog as [c |]; [| done]. intros H. invert_ok H. to_prop.
  injection H as <-. cbn. split; [done |]. split; [done |].
  apply map_each_length in Hstep0. lia.
Qed.

(** The backend's scan of the rendered text reaches the version line. *)
Lemma scan_rendered is_print cfg M m :
  mc_Version cfg = "1.0" -> ms_CUDAVersion (mc_System cfg) = cuda_backend.version_text M m ->
  0 <= M < int64_cutoff -> 0 <= m < int64_cutoff ->
  slen (Quote is_print (ms_DriverVersion (mc_System cfg))) <= 65000 ->
  cuda_backend.scan_cuda_version (Split (unlines (renderLines is_print cfg)) newline) =
  cuda_backend.parseCUDAVersion (cuda_backend.version_text M m).
Proof.
  intros Hver Hcuda HM Hm Hds. unfold renderLines, renderSystem.
  rewrite Hver, Hcuda, !(Quote_plain _ (cuda_backend.version_text M m)), (Quote_plain _ "1.0")
    by first [apply version_text_plain; lia | done].
  destruct (kv_line 2 "driver_version" _ ltac:(done) ltac:(done) (Quote_line is_print (ms_DriverVersion (mc_System cfg)))) as [Htrim Hfree].
  destruct (kv_line 2 "cuda_version" _ ltac:(done) ltac:(done) (version_line M m ltac:(lia) ltac:(lia))) as [_ Hfree2].
  cbn [app]. rewrite !Split_line by first [exact Hfree | exact Hfree2 | done].
  rewrite 4!scan_skip; first [by apply scan_version_line | done | idtac].
  - unfold kv. rewrite !slen_append. unfold cuda_backend.max_line. cbn [slen chr]. lia.
  - change (kv "  driver_version") with (kv (spaces 2 +:+ "driver_version")). unfold Quote. by rewrite Htrim.
Qed.

(** A specification for the witness: a driver version that has to be quoted. *)
Definition demo_version_spec : Spec := {|
  sp_System := {| s_DriverVersion := "570.1" +:+ chr newline +:+ chr dquote; s_CUDAVersion := "12.8" |};
  sp_Devices := map topologyRequest (profiles.t_Devices mixed_gpu) |}.

(** ** Properties *)

(** C37. The CUDA version of a rendered configuration, read back.  When a
    specification whose version is the text [M.m] (two decimal numbers, as
    [Itoa] writes them, of at most 63 bits, the major small enough for the
    packed number to fit) composes, and its driver version, whatever bytes it
    has, is quoted in at most 65000 bytes (longer lines exceed the scanner's
    buffer), then the renderer accepts the configuration, and the CUDA backend
    that scans the rendered text line by line finds the packed number of the
    same version when the minor is at most 99, and refuses the configuration
    when it is larger, although it composed.  Versions with a third part
    compose too; they are not of this form, and the backend refuses them
    ([cuda_backend.cuda_version_mismatch]). *)
Theorem composed_version_readback is_print catalog spec cfg M m :
  Compose catalog spec = Ok cfg ->
  s_CUDAVersion (sp_System spec) = cuda_backend.version_text M m ->
  0 <= M <= 9223372036854774 -> 0 <= m < int64_cutoff ->
  slen (Quote is_print (s_DriverVersion (sp_System spec))) <= 65000 ->
  exists text, RenderYAML is_print cfg = Ok text /\
    (m <= 99 -> cuda_backend.scan_cuda_version (Split text newline) = Ok (M * 1000 + m * 10)) /\
    (99 < m -> is_ok (cuda_backend.scan_cuda_version (Split text newline)) = false).
Proof.
  intros (Hsys & Hver & Hlen)%Compose_parts Hv HM Hm Hshort.
  destruct (normalizeSystem_version _ _ _ _ Hsys Hv) as [Hcuda Hdriver].
  assert (slen (Quote is_print (ms_DriverVersion (mc_System cfg))) <= 65000) as Hds.
  { destruct Hdriver as [-> | ->]; [done |]. by rewrite Quote_plain. }
  assert (0 <= M < int64_cutoff) as HM' by (unfold int64_cutoff; lia).
  exists (unlines (renderLines is_print cfg)). split.
  - unfold RenderYAML. rewrite Hver. cbn [String.eqb]. rewrite (proj2 (gtb_false _ _)) by lia.
    destruct (mc_Devices cfg); [cbn in Hlen; lia | done].
  - assert (cuda_backend.scan_cuda_version (Split (unlines (renderLines is_print cfg)) newline) =
            cuda_backend.parseCUDAVersion (cuda_backend.version_text M m)) as ->.
    { by apply scan_rendered. }
    split; intros Hmin; [apply cuda_backend.parse_version_text; lia | apply cuda_backend.parse_version_refused; lia].
Qed.

(** ** Witness *)
Lemma composed_version_readback_witness :
  exists cfg text, Compose (Some demo_catalog) demo_version_spec = Ok cfg /\
    RenderYAML (fun _ => false) cfg = Ok text /\
    cuda_backend.scan_cuda_version (Split text newline) = Ok 12080.
Proof.
  destruct (Compose (Some demo_catalog) demo_version_spec) as [cfg |] eqn:E; [| by vm_compute in E].
  destruct (composed_version_readback (fun _ => false) (Some demo_catalog) demo_version_spec cfg 12 8 E) as (text & H1 & H2 & _);
    [reflexivity | done | done | vm_compute; discriminate |].
  exists cfg, text. split; [done |]. split; [exact H1 | by apply H2].
Defined.

End render.
