(* ===== verification/Scenario.v ===== *)
(** * Scenarios: [internal/scenario/scenario.go]

    A document is validated and run against an executor, a clock and an event
    source, each known only through its operation in the monad [M W].  The
    line-based event source is modelled on the whole of what its reader will
    deliver. *)
From S2P Require Import Prelude GoStrings GoStrconv GoJson GoTime Catalog Config CudaBackend Render.

Module scenario.

(** ** Data *)
Record Operation := { Args : list string }.

Record Step := {
  st_Name : string;
  st_After : string;
  st_Event : string;
  st_Do : Operation
}.

Record Base := {
  bs_System : config.System;
  bs_Profile : string;
  bs_Count : Z;
  bs_VRAMMiB : Z;
  bs_Topology : string;
  bs_Devices : list config.DeviceRequest
}.

Record Document := {
  Version : Z;
  doc_Base : option Base;
  Initial : list Operation;
  Steps : list Step;
  Cleanup : list Operation
}.

(** The contexts a run uses: the caller's, and [context.WithoutCancel] of it. *)
Inductive Ctx := Caller | WithoutCancel.

Section runner.
Context {W : Type}.

(** The interfaces [Executor], [Clock] and [EventSource]. *)
Definition Executor : Type := Ctx -> list string -> M W unit.
Definition Clock : Type := Ctx -> Z -> M W unit.
Definition EventSource : Type := Ctx -> string -> M W unit.

Record Runner := {
  r_Executor : option Executor;
  r_Clock : option Clock;
  r_Events : option EventSource
}.

(** [timer ctx d] waits for whichever comes first of a timer of duration [d]
    and the end of the context (an error). *)
Context (timer : Clock).

Definition RealClock_Wait : Clock := fun ctx d =>
  if d <=? 0 then mret tt else timer ctx d.
End runner.
Arguments Executor : clear implicits. Arguments Clock : clear implicits.
Arguments EventSource : clear implicits. Arguments Runner : clear implicits.

(** ** Validation *)
Definition is_empty (s : string) : bool := String.eqb s "".
Definition count_if (b : bool) : Z := if b then 1 else 0.
Definition no_args (op : Operation) : bool := match Args op with [] => true | _ => false end.

Definition validateBase (b : Base) : result unit :=
  let selected := count_if (negb (is_empty (bs_Profile b))) + count_if (negb (is_empty (bs_Topology b))) +
    count_if (match bs_Devices b with [] => false | _ => true end) in
  if negb (selected =? 1)
  then Err (Errorf "scenario base must choose exactly one of profile, topology, or devices" []) else
  if negb (is_empty (bs_Profile b)) && (bs_Count b <? 0)
  then Err (Errorf "scenario base count cannot be negative" []) else Ok tt.

Definition validateOp (format : string) (i : Z) (op : Operation) : result unit :=
  if no_args op then Err (Errorf format [AZ i]) else Ok tt.

Definition validateStep (i : Z) (step : Step) : result unit :=
  if negb (is_empty (st_After step)) && negb (is_empty (st_Event step))
  then Err (Errorf "step %d cannot set both after and event" [AZ i]) else
  _ ← (if negb (is_empty (st_After step)) then
         let bad := Errorf "step %d has invalid after duration %q" [AZ i; AS (st_After step)] in
         match ParseDuration (st_After step) with
         | Ok d => if d <? 0 then Err bad else Ok tt
         | Err _ => Err bad
         end
       else Ok tt);
  validateOp "step %d has no operation args" i (st_Do step).

Definition Validate (doc : Document) : result unit :=
  if negb (Version doc =? 1) then Err (Errorf "unsupported scenario version %d" [AZ (Version doc)]) else
  _ ← (match doc_Base doc with Some b => validateBase b | None => Ok tt end);
  _ ← for_each (validateOp "initial operation %d has no args") 0 (Initial doc);
  _ ← for_each validateStep 0 (Steps doc);
  for_each (validateOp "cleanup operation %d has no args") 0 (Cleanup doc).

(** [Load] over the outcomes of the decoder. *)
Definition Load (first : result Document) (second : result unit) : result Document :=
  doc ← decode_one "scenario" first second;
  _ ← Validate doc;
  Ok doc.

(** ** The base configuration *)
Definition base_config (catalog : option profiles.Catalog) (base : Base) : result config.MockConfig :=
  let compose devices := config.Compose catalog {| config.sp_System := bs_System base; config.sp_Devices := devices |} in
  if negb (is_empty (bs_Topology base)) then config.ComposeTopology catalog (bs_System base) (bs_Topology base) else
  if negb (is_empty (bs_Profile base)) then
    devices ← config.Repeated (bs_Profile base) (if bs_Count base =? 0 then 1 else bs_Count base) (bs_VRAMMiB base);
    compose devices
  else compose (bs_Devices base).

Definition RenderBase (is_print : Z -> bool) (catalog : option profiles.Catalog) (doc : Document) : result string :=
  _ ← Validate doc;
  match doc_Base doc with
  | None => Err (Errorf "scenario has no base profile/topology" [])
  | Some base => cfg ← base_config catalog base; render.RenderYAML is_print cfg
  end.

(** ** Running *)
Section run.
Context {W : Type} (timer : Clock W).

Fixpoint run_initial (ex : Executor W) (ops : list Operation) : M W unit :=
  match ops with
  | [] => mret tt
  | op :: rest =>
      _ ← wrapM (Wrapf "initial %q: %w" [AS (Join (Args op) " ")]) (ex Caller (Args op));
      run_initial ex rest
  end.

(** One step: the wait, the event, the operation. *)
Definition run_after (clock : Clock W) (i : Z) (step : Step) : M W unit :=
  if is_empty (st_After step) then mret tt else
  d ← wrapM (Wrapf "step %d: invalid after duration: %w" [AZ i]) (lift (ParseDuration (st_After step)));
  wrapM (Wrapf "step %d wait: %w" [AZ i]) (clock Caller d).

Definition run_event (events : option (EventSource W)) (i : Z) (step : Step) : M W unit :=
  if is_empty (st_Event step) then mret tt else
  match events with
  | None => throw (Errorf "step %d requires event source for %q" [AZ i; AS (st_Event step)])
  | Some ev => wrapM (Wrapf "step %d event %q: %w" [AZ i; AS (st_Event step)]) (ev Caller (st_Event step))
  end.

Definition run_step (ex : Executor W) (clock : Clock W) (events : option (EventSource W)) (i : Z) (step : Step)
    : M W unit :=
  _ ← run_after clock i step;
  _ ← run_event events i step;
  wrapM (Wrapf "step %d %q: %w" [AZ i; AS (st_Name step)]) (ex Caller (Args (st_Do step))).

Fixpoint run_steps (ex : Executor W) (clock : Clock W) (events : option (EventSource W)) (i : Z) (steps : list Step)
    : M W unit :=
  match steps with
  | [] => mret tt
  | step :: rest => _ ← run_step ex clock events i step; run_steps ex clock events (i + 1) rest
  end.

(** The deferred function: every operation is attempted, the errors are
    joined to the one being returned. *)
Fixpoint run_cleanup (ex : Executor W) (ops : list Operation) (err : option error) (w : W) : option error * W :=
  match ops with
  | [] => (err, w)
  | op :: rest =>
      let '(r, w1) := ex WithoutCancel (Args op) w in
      let err1 := match r with
                  | Ok _ => err
                  | Err e => errors_Join err (Some (Wrapf "cleanup %q: %w" [AS (Join (Args op) " ")] e))
                  end in
      run_cleanup ex rest err1 w1
  end.

Definition error_of {A} (r : result A) : option error := match r with Ok _ => None | Err e => Some e end.
Definition of_error (e : option error) : result unit := match e with None => Ok tt | Some e => Err e end.

Definition Run (r : Runner W) (doc : Document) : M W unit := fun w =>
  match Validate doc with
  | Err e => (Err e, w)
  | Ok _ =>
      match r_Executor r with
      | None => (Err (Errorf "scenario executor is required" []), w)
      | Some ex =>
          let clock := default (RealClock_Wait timer) (r_Clock r) in
          let '(res, w1) := (_ ← run_initial ex (Initial doc);
                             run_steps ex clock (r_Events r) 0 (Steps doc)) w in
          let '(err, w2) := run_cleanup ex (Cleanup doc) (error_of res) w1 in
          (of_error err, w2)
      end
  end.
End run.

(** ** Line events *)
Record lineEventResult := { line : string; ler_err : option error }.

(** What the scanning goroutine sends for the lines of a text: the lines
    without their ends, until one does not fit the scanner's buffer.  A last
    line without a newline counts when it is not empty. *)
Fixpoint scan_results (lines : list string) : list lineEventResult :=
  match lines with
  | [] => []
  | l :: rest =>
      if (match rest with [] => is_empty l | _ => false end) then [] else
      if slen l >? cuda_backend.max_line then [{| line := ""; ler_err := Some cuda_backend.ErrTooLong |}] else
      {| line := TrimSuffix l (chr (byte_of 13)); ler_err := None |} :: scan_results rest
  end.

(** [NewLineEvents] over a reader that delivers [text]; [None] is a nil source. *)
Definition LineEvents : Type := option (list lineEventResult).
Definition NewLineEvents (text : string) : LineEvents := Some (scan_results (Split text newline)).

(** [Wait]: [cancel = Some (k, e)] when the select finds the context done in
    its [k]-th turn, with error [e]. *)
Fixpoint wait_lines (name : string) (cancel : option (nat * error)) (pending : list lineEventResult)
    : result unit * list lineEventResult :=
  match cancel with
  | Some (O, e) => (Err e, pending)
  | _ =>
      match pending with
      | [] => (Err (Errorf "event %q not received before input closed" [AS name]), [])
      | r :: rest =>
          match ler_err r with
          | Some e => (Err e, rest)
          | None =>
              if String.eqb (TrimSpace (line r)) name then (Ok tt, rest)
              else wait_lines name (match cancel with Some (S k, e) => Some (k, e) | _ => None end) rest
          end
      end
  end.

Definition LineEvents_Wait (l : LineEvents) (name : string) (cancel : option (nat * error)) : result unit * LineEvents :=
  match l with
  | None => (Err (Errorf "event source is required" []), l)
  | Some pending => let '(r, rest) := wait_lines name cancel pending in (r, Some rest)
  end.

(** ** What a run does, as a trace *)
Inductive Action :=
  | AExec (ctx : Ctx) (args : list string)
  | AWait (d : Z)
  | AEvent (name : string).
(** The attempted actions with their errors, oldest first. *)
Abbreviation Trace := (list (Action * option error)).

Section traced.
Context {W : Type} (timer : Clock W).

(** The same operation in a world that also records it. *)
Definition record (a : Action) (m : M W unit) : M (Trace * W) unit := fun '(t, w) =>
  let '(r, w1) := m w in (r, (t ++ [(a, error_of r)], w1)).

Definition traced_timer : Clock (Trace * W) := fun ctx d => record (AWait d) (timer ctx d).
Definition traced (r : Runner W) : Runner (Trace * W) := {|
  r_Executor := (fun ex ctx args => record (AExec ctx args) (ex ctx args)) <$> r_Executor r;
  r_Clock := Some (fun ctx d => record (AWait d) (default (RealClock_Wait timer) (r_Clock r) ctx d));
  r_Events := (fun ev ctx name => record (AEvent name) (ev ctx name)) <$> r_Events r |}.
End traced.

(** The actions a document asks for, in order, without the cleanup. *)
Definition step_script (step : Step) : list Action :=
  (if is_empty (st_After step) then [] else
   match ParseDuration (st_After step) with Ok d => [AWait d] | Err _ => [] end) ++
  (if is_empty (st_Event step) then [] else [AEvent (st_Event step)]) ++
  [AExec Caller (Args (st_Do step))].
Definition script (doc : Document) : list Action :=
  map (fun op => AExec Caller (Args op)) (Initial doc) ++ concat (map step_script (Steps doc)).

(** Running a plan: every action succeeds, or the first failure ends the run
    with an error that wraps it.  Without an event source ([events] false)
    the run ends before the first event. *)
Inductive follows (events : bool) : list Action -> result unit -> Trace -> Prop :=
  | follows_done : follows events [] (Ok tt) []
  | follows_ok a plan r t : follows events plan r t -> follows events (a :: plan) r ((a, None) :: t)
  | follows_fail a plan e0 e :
      (forall target, errors_Is e target = errors_Is e0 target) -> follows events (a :: plan) (Err e) [(a, Some e0)]
  | follows_no_source name plan e : events = false -> follows events (AEvent name :: plan) (Err e) [].

Definition has_events {W} (r : Runner W) : bool := match r_Events r with Some _ => true | None => false end.

(** ** Lemmas *)
Lemma follows_app events p1 p2 r2 t1 t2 :
  follows events p1 (Ok tt) t1 -> follows events p2 r2 t2 -> follows events (p1 ++ p2) r2 (t1 ++ t2).
Proof.
  remember (Ok tt) as r1 eqn:E. intros H1 H2. revert E. induction H1; intros E; cbn; try discriminate; [done |].
  constructor. by apply IHfollows.
Qed.

Lemma follows_err_app events p1 p2 e t : follows events p1 (Err e) t -> follows events (p1 ++ p2) (Err e) t.
Proof.
  remember (Err e) as r1 eqn:E. intros H1. revert E. induction H1; intros E; cbn; try discriminate;
    [constructor; by apply IHfollows | by constructor | by constructor].
Qed.

(** A program of the traced world that follows a plan and erases to [m0]. *)
Definition performs {W} (events : bool) (plan : list Action) (m : M (Trace * W) unit) (m0 : M W unit) : Prop :=
  forall t w, exists t', (m (t, w)).2 = (t ++ t', (m0 w).2) /\ (m (t, w)).1 = (m0 w).1 /\
    follows events plan (m0 w).1 t'.

Lemma performs_ret {W} events : performs (W := W) events [] (mret tt) (mret tt).
Proof. intros t w. exists []. rewrite app_nil_r. split; [done |]. split; [done | constructor]. Qed.

Lemma performs_bind {W} events p1 p2 (m1 m2 : M (Trace * W) unit) (n1 n2 : M W unit) :
  performs events p1 m1 n1 -> performs events p2 m2 n2 ->
  performs events (p1 ++ p2) (_ ← m1; m2) (_ ← n1; n2).
Proof.
  intros H1 H2 t w. destruct (H1 t w) as (t1 & Ew1 & Er1 & F1). unfold mbind, M_bind.
  destruct (m1 (t, w)) as [r1 w1]. destruct (n1 w) as [r1' w1']. cbn in *. subst r1 w1.
  destruct r1' as [[] | e]; cbn.
  - destruct (H2 (t ++ t1) w1') as (t2 & Ew2 & Er2 & F2). exists (t1 ++ t2). rewrite app_assoc.
    split; [exact Ew2 |]. split; [exact Er2 |]. by apply follows_app.
  - exists t1. split; [done |]. split; [done |]. by apply follows_err_app.
Qed.

Lemma performs_record {W} events a f args (m : M W unit) :
  performs events [a] (wrapM (Wrapf f args) (record a m)) (wrapM (Wrapf f args) m).
Proof.
  intros t w. unfold wrapM, record. destruct (m w) as [[[] | e] w1]; cbn; eexists; (split; [done |]; split; [done |]).
  - repeat constructor.
  - by apply follows_fail.
Qed.

Section performs.
Context {W : Type} (timer : Clock W) (r : Runner W) (ex : Executor W) (Hex : r_Executor r = Some ex).
Let tex : Executor (Trace * W) := fun ctx args => record (AExec ctx args) (ex ctx args).
Let clock : Clock W := default (RealClock_Wait timer) (r_Clock r).
Let tclock : Clock (Trace * W) := fun ctx d => record (AWait d) (clock ctx d).

Lemma run_initial_performs ops :
  performs (has_events r) (map (fun op => AExec Caller (Args op)) ops) (run_initial tex ops) (run_initial ex ops).
Proof.
  induction ops as [| op ops IH]; cbn; [apply performs_ret |].
  apply (performs_bind _ [AExec Caller (Args op)]); [apply performs_record | exact IH].
Qed.

Definition step_valid (step : Step) : Prop :=
  Args (st_Do step) <> [] /\ (st_After step = "" \/ st_Event step = "") /\
  (st_After step <> "" -> exists d, ParseDuration (st_After step) = Ok d /\ 0 <= d).

Lemma run_step_performs i step : step_valid step ->
  performs (has_events r) (step_script step) (run_step tex tclock (r_Events (traced timer r)) i step)
    (run_step ex clock (r_Events r) i step).
Proof.
  intros (_ & _ & Hd). unfold run_step, step_script. apply performs_bind; [| apply performs_bind].
  - unfold run_after, is_empty. destruct (String.eqb_spec (st_After step) ""); [apply performs_ret |].
    destruct (Hd n) as (d & -> & _). cbn. apply performs_record.
  - unfold run_event, is_empty, has_events, traced. cbn.
    destruct (String.eqb_spec (st_Event step) ""); [apply performs_ret |].
    destruct (r_Events r) as [ev |]; cbn; [apply performs_record |].
    intros t w. exists []. rewrite app_nil_r. split; [done |]. split; [done |]. by apply follows_no_source.
  - apply performs_record.
Qed.

Lemma run_steps_performs i steps : Forall step_valid steps ->
  performs (has_events r) (concat (map step_script steps)) (run_steps tex tclock (r_Events (traced timer r)) i steps)
    (run_steps ex clock (r_Events r) i steps).
Proof.
  intros Hs. revert i. induction Hs as [| step steps Hstep _ IH]; intros i; cbn; [apply performs_ret |].
  apply performs_bind; [by apply run_step_performs | apply IH].
Qed.
End performs.

(** [out] is an error in which [errors.Is] finds whatever it finds in [e]. *)
Definition carries (out : option error) (e : error) : Prop :=
  exists e', out = Some e' /\ forall target, errors_Is e target = true -> errors_Is e' target = true.
Definition succeeded (t : Trace) : Prop := Forall (fun ae => ae.2 = None) t.

Lemma carries_join_l err e extra : carries err e -> carries (errors_Join err extra) e.
Proof.
  intros (e' & -> & Hc). destruct extra as [x |]; eexists; (split; [reflexivity |]); [| done].
  intros target Ht. cbn. by rewrite (Hc _ Ht).
Qed.

Lemma carries_join_r err f args e : carries (errors_Join err (Some (Wrapf f args e))) e.
Proof.
  destruct err as [x |]; eexists; (split; [reflexivity |]); intros target Ht; cbn; rewrite Ht; [apply orb_true_r | done].
Qed.

Lemma run_cleanup_performs {W} (ex : Executor W) ops err t w :
  let tex := fun ctx args => record (AExec ctx args) (ex ctx args) in
  let r := run_cleanup tex ops err (t, w) in
  exists t', r.2 = (t ++ t', (run_cleanup ex ops err w).2) /\ r.1 = (run_cleanup ex ops err w).1 /\
    t'.*1 = map (fun op => AExec WithoutCancel (Args op)) ops /\
    (r.1 = None <-> err = None /\ succeeded t') /\
    (forall e, carries err e -> carries r.1 e) /\
    (forall a e, (a, Some e) ∈ t' -> carries r.1 e).
Proof.
  cbv zeta. revert err t w. induction ops as [| op ops IH]; intros err t w; cbn [run_cleanup map].
  { exists []. cbn. rewrite app_nil_r. split_and!; try done; [| by intros a e ?%elem_of_nil].
    split; [intros ->; split; [done | constructor] | tauto]. }
  destruct (ex WithoutCancel (Args op) w) as [res w1] eqn:Eop.
  assert (record (AExec WithoutCancel (Args op)) (ex WithoutCancel (Args op)) (t, w) =
    (res, (t ++ [(AExec WithoutCancel (Args op), error_of res)], w1))) as -> by (unfold record; by rewrite Eop).
  set (err1 := match res with Ok _ => err | Err e => _ end).
  destruct (IH err1 (t ++ [(AExec WithoutCancel (Args op), error_of res)]) w1) as (t' & E & Er & Ea & Hn & Hc & Ht).
  exists ((AExec WithoutCancel (Args op), error_of res) :: t').
  split; [rewrite E; by rewrite <- app_assoc |]. split; [done |]. split; [cbn; by rewrite Ea |]. split; [| split].
  - etransitivity; [exact Hn |]. unfold succeeded. rewrite Forall_cons. subst err1. cbn.
    destruct res as [[] | e]; cbn; [tauto |]. split; [| by intros (_ & [=] & _)]. intros [Hj _]. by destruct err.
  - intros e He. apply Hc. subst err1. destruct res; [done | by apply carries_join_l].
  - intros a e [[= -> He] | Hin]%elem_of_cons; [| by eapply Ht]. apply Hc. subst err1.
    destruct res as [[] | e0]; [done |]. cbn in He. injection He as <-. apply carries_join_r.
Qed.

Lemma follows_carries events plan r t : follows events plan r t ->
  (r = Ok tt -> succeeded t) /\ forall a e, (a, Some e) ∈ t -> carries (error_of r) e.
Proof.
  induction 1 as [| a plan r t _ [IH1 IH2] | a plan e0 e He | name plan e _].
  - split; [constructor | by intros a e ?%elem_of_nil].
  - split; [intros E; constructor; [done | by apply IH1] |]. intros b e [[=] | Hin]%elem_of_cons. by eapply IH2.
  - split; [done |]. intros b x [[= -> ->] | ?%elem_of_nil]%elem_of_cons; [| done].
    exists e. split; [done |]. intros target Ht. by rewrite He.
  - split; [done | by intros a x ?%elem_of_nil].
Qed.

(** *** Validation *)
Definition ops_valid (ops : list Operation) : Prop := Forall (fun op => Args op <> []) ops.

Definition base_valid (b : Base) : Prop :=
  ((bs_Profile b <> "" /\ bs_Topology b = "" /\ bs_Devices b = []) \/
   (bs_Profile b = "" /\ bs_Topology b <> "" /\ bs_Devices b = []) \/
   (bs_Profile b = "" /\ bs_Topology b = "" /\ bs_Devices b <> [])) /\
  (bs_Profile b <> "" -> 0 <= bs_Count b).

Lemma for_each_Forall {A} (f : Z -> A -> result unit) (P : A -> Prop) i l :
  (forall i a, f i a = Ok tt <-> P a) -> for_each f i l = Ok tt <-> Forall P l.
Proof.
  intros Hf. rewrite for_each_ok, Forall_lookup. split; intros H k a Hk; specialize (H k a Hk); by apply Hf in H || apply Hf.
Qed.

Lemma validateOp_ok f i op : validateOp f i op = Ok tt <-> Args op <> [].
Proof. unfold validateOp, no_args. by destruct (Args op). Qed.

Lemma validateBase_ok b : validateBase b = Ok tt <-> base_valid b.
Proof.
  unfold validateBase, base_valid, is_empty. cbv zeta.
  destruct (String.eqb_spec (bs_Profile b) ""), (String.eqb_spec (bs_Topology b) ""), (bs_Devices b); cbn;
    try (destruct (Z.ltb_spec (bs_Count b) 0)); naive_solver lia.
Qed.

Lemma validateStep_ok i step : validateStep i step = Ok tt <-> step_valid step.
Proof.
  unfold validateStep, step_valid, is_empty. cbv zeta.
  destruct (String.eqb_spec (st_After step) "") as [-> | Ha], (String.eqb_spec (st_Event step) "") as [-> | He];
    cbn [negb andb]; try (rewrite result_bind_ok; setoid_rewrite validateOp_ok); [naive_solver .. | | naive_solver].
  destruct (ParseDuration (st_After step)) as [d | e]; [| naive_solver].
  destruct (Z.ltb_spec d 0); naive_solver lia.
Qed.

Lemma ops_ok f i ops : for_each (validateOp f) i ops = Ok tt <-> ops_valid ops.
Proof. apply for_each_Forall. intros. apply validateOp_ok. Qed.
Lemma steps_ok i steps : for_each validateStep i steps = Ok tt <-> Forall step_valid steps.
Proof. apply for_each_Forall. intros. apply validateStep_ok. Qed.

Lemma valid_parts doc : Validate doc = Ok tt ->
  Forall step_valid (Steps doc) /\ forall d, AWait d ∈ script doc -> 0 <= d.
Proof.
  unfold Validate. destruct (negb _); [done |]. rewrite !result_seq_ok, steps_ok. intros (_ & _ & Hs & _).
  split; [done |]. intros d [Hin | Hin]%elem_of_app.
  - apply list_elem_of_fmap in Hin as (op & [=] & _).
  - rewrite list_elem_of_In, in_concat in Hin; destruct Hin as (l & Hin & Hl); rewrite <- !list_elem_of_In in *. apply list_elem_of_fmap in Hin as (step & -> & Hin).
    rewrite Forall_forall in Hs. destruct (Hs step Hin) as (_ & _ & Hd). unfold step_script, is_empty in Hl.
    destruct (String.eqb_spec (st_After step) "") as [| Hne]; [by destruct (String.eqb _ _); set_solver |].
    destruct (Hd Hne) as (d' & Ep & Hd'). rewrite Ep in Hl. destruct (String.eqb _ _); set_solver.
Qed.

(** *** Line events *)
Lemma wait_lines_ok name cancel pending rest :
  wait_lines name cancel pending = (Ok tt, rest) <->
  exists skipped r, pending = skipped ++ r :: rest /\ TrimSpace (line r) = name /\ ler_err r = None /\
    Forall (fun x => TrimSpace (line x) <> name /\ ler_err x = None) skipped /\
    (forall k e, cancel = Some (k, e) -> (length skipped < k)%nat).
Proof.
  revert cancel. induction pending as [| x pending IH]; intros cancel.
  { split; [by destruct cancel as [[[] ?] |] | by intros ([] & ? & ? & _)]. }
  assert ((exists e, cancel = Some (O, e)) \/ forall e, cancel <> Some (O, e)) as [[e ->] | Hnc].
  { destruct cancel as [[[| k] e] |]; [left; by exists e | by right ..]. }
  { cbn. split; [done |]. intros (sk & r & _ & _ & _ & _ & Hk). specialize (Hk O e eq_refl). lia. }
  assert (wait_lines name cancel (x :: pending) = match ler_err x with
    | Some e => (Err e, pending)
    | None => if String.eqb (TrimSpace (line x)) name then (Ok tt, pending)
              else wait_lines name (match cancel with Some (S k, e) => Some (k, e) | _ => None end) pending end) as ->.
  { destruct cancel as [[[| k] e] |]; [by destruct (Hnc e) | done ..]. }
  destruct (ler_err x) as [e |] eqn:Ex.
  { split; [done |]. intros ([| y sk] & r & [= -> ->] & _ & Hr & Hsk & _); [congruence |].
    apply Forall_cons in Hsk as [[_ ?] _]. congruence. }
  destruct (String.eqb_spec (TrimSpace (line x)) name) as [En | En].
  - split.
    + intros [= ->]. exists [], x. split_and!; try done. intros k e ->. cbn.
      destruct k; [by destruct (Hnc e) | lia].
    + intros ([| y sk] & r & [= -> ->] & _ & _ & Hsk & _); [done |]. by apply Forall_cons in Hsk as [[? _] _].
  - rewrite IH. split.
    + intros (sk & r & -> & ? & ? & ? & Hk). exists (x :: sk), r. split_and!; try done; [by constructor |].
      intros k e ->. destruct k as [| k]; [by destruct (Hnc e) |]. specialize (Hk k e eq_refl). cbn. lia.
    + intros ([| y sk] & r & [= -> ->] & ? & ? & Hsk & Hk); [done |]. apply Forall_cons in Hsk as [_ Hsk].
      exists sk, r. split_and!; try done. intros k e Hc. destruct cancel as [[[| k'] e'] |]; try done.
      injection Hc as -> ->. specialize (Hk (S k) e eq_refl). cbn in Hk. lia.
Qed.

(** ** Documents without triggers *)
Section untimed.
Context {W : Type}.

(** Commands up to the first that fails, and commands that are all
    attempted; the flag tells whether all succeeded. *)
Fixpoint run_stopping (ex : list string -> M W unit) (cmds : list (list string)) (w : W) : bool * W :=
  match cmds with
  | [] => (true, w)
  | c :: rest =>
      match ex c w with
      | (Ok _, w1) => run_stopping ex rest w1
      | (Err _, w1) => (false, w1)
      end
  end.
Fixpoint run_attempting (ex : list string -> M W unit) (cmds : list (list string)) (w : W) : bool * W :=
  match cmds with
  | [] => (true, w)
  | c :: rest =>
      let '(x, w1) := ex c w in
      let '(ok, w2) := run_attempting ex rest w1 in (is_ok x && ok, w2)
  end.

Definition untimed (step : Step) : Prop := st_After step = "" /\ st_Event step = "".

Lemma run_stopping_app ex l1 l2 w : run_stopping ex (l1 ++ l2) w =
  let '(ok, w1) := run_stopping ex l1 w in if ok then run_stopping ex l2 w1 else (false, w1).
Proof.
  revert w. induction l1 as [| c l1 IH]; intros w; cbn [app run_stopping]; [done |].
  destruct (ex c w) as [[] w1]; [apply IH | done].
Qed.

Lemma run_initial_stopping (ex : list string -> M W unit) ops w :
  let x := run_initial (fun _ => ex) ops w in (is_ok x.1, x.2) = run_stopping ex (map Args ops) w.
Proof.
  cbv zeta. revert w. induction ops as [| op ops IH]; intros w; cbn [run_initial map run_stopping]; [done |].
  unfold mbind at 1 2, M_bind, wrapM. destruct (ex (Args op) w) as [[[] | e] w1]; [apply IH | done].
Qed.

Lemma run_steps_stopping (ex : list string -> M W unit) clock events i steps w : Forall untimed steps ->
  let x := run_steps (fun _ => ex) clock events i steps w in
  (is_ok x.1, x.2) = run_stopping ex (map (fun s => Args (st_Do s)) steps) w.
Proof.
  cbv zeta. intros Hs. revert i w. induction Hs as [| step steps [Ha He] _ IH]; intros i w; cbn [run_steps map run_stopping]; [done |].
  assert (run_step (fun _ => ex) clock events i step =
          wrapM (Wrapf "step %d %q: %w" [AZ i; AS (st_Name step)]) (ex (Args (st_Do step)))) as ->.
  { unfold run_step, run_after, run_event. by rewrite Ha, He. }
  unfold mbind at 1 2, M_bind, wrapM. destruct (ex (Args (st_Do step)) w) as [[[] | e] w1]; [apply IH | done].
Qed.

Lemma run_cleanup_attempting (ex : list string -> M W unit) ops err w :
  let x := run_cleanup (fun _ => ex) ops err w in
  (is_ok (of_error x.1), x.2) =
  let '(ok, w1) := run_attempting ex (map Args ops) w in (is_ok (of_error err) && ok, w1).
Proof.
  cbv zeta. revert err w. induction ops as [| op ops IH]; intros err w; cbn [run_cleanup map run_attempting].
  { by rewrite andb_true_r. }
  destruct (ex (Args op) w) as [[[] | e] w1]; rewrite IH; destruct (run_attempting _ _ w1) as [ok w2]; [done |].
  by destruct err.
Qed.

(** Such a document runs its commands in order until one fails, and then
    attempts the cleanup. *)
Lemma Run_untimed timer (r : Runner W) (ex : list string -> M W unit) doc w :
  r_Executor r = Some (fun _ => ex) -> Validate doc = Ok tt -> Forall untimed (Steps doc) ->
  let '(ok1, w1) := run_stopping ex (map Args (Initial doc) ++ map (fun s => Args (st_Do s)) (Steps doc)) w in
  let '(ok2, w2) := run_attempting ex (map Args (Cleanup doc)) w1 in
  (is_ok (Run timer r doc w).1, (Run timer r doc w).2) = (ok1 && ok2, w2).
Proof.
  intros Hex Hv Hs. unfold Run. rewrite Hv, Hex, run_stopping_app. unfold mbind at 1 2, M_bind.
  pose proof (run_initial_stopping ex (Initial doc) w) as H1. cbv zeta in H1.
  destruct (run_initial (fun _ => ex) (Initial doc) w) as [x1 v1]. cbn [fst snd] in H1. rewrite <- H1.
  set (main := match x1 with
               | Ok a => run_steps (fun _ => ex) (default (RealClock_Wait timer) (r_Clock r)) (r_Events r) 0 (Steps doc) v1
               | Err e => (Err e, v1) end).
  assert ((is_ok main.1, main.2) = if is_ok x1 then run_stopping ex (map (fun s => Args (st_Do s)) (Steps doc)) v1 else (false, v1)) as H2.
  { subst main. destruct x1; cbn [is_ok fst snd]; [by apply run_steps_stopping | done]. }
  rewrite <- H2. replace (match x1 with Ok _ => _ | Err e => (Err e, v1) end) with main by by destruct x1 as [[] |].
  destruct main as [x2 v2]. cbn [fst snd].
  pose proof (run_cleanup_attempting ex (Cleanup doc) (error_of x2) v2) as H3. cbv zeta in H3.
  destruct (run_cleanup (fun _ => ex) (Cleanup doc) (error_of x2) v2) as [x3 v3]. cbn [fst snd] in *.
  destruct (run_attempting ex (map Args (Cleanup doc)) v2) as [ok2 w2]. rewrite H3. by destruct x2 as [[] |].
Qed.
End untimed.

(** ** Properties *)

(** A document is valid exactly when its version is 1, its base (if
    any) names one of a profile, a topology and devices with a count that is
    not negative, every operation has arguments, and every step has at most
    one trigger, its delay being a duration that is not negative. *)
Theorem Validate_iff doc :
  Validate doc = Ok tt <->
  Version doc = 1 /\ (forall b, doc_Base doc = Some b -> base_valid b) /\
  ops_valid (Initial doc) /\ Forall step_valid (Steps doc) /\ ops_valid (Cleanup doc).
Proof.
  unfold Validate. destruct (Z.eqb_spec (Version doc) 1) as [-> | Hv]; cbn [negb]; [| naive_solver].
  rewrite !result_seq_ok, !ops_ok, steps_ok. destruct (doc_Base doc) as [b |]; [rewrite validateBase_ok |]; naive_solver.
Qed.

(** C16. A run of a valid document performs its initial operations and then,
    step by step, its waits, events and operations in order, up to the
    first failure; afterwards every cleanup operation is attempted in order,
    outside the caller's cancellation, whatever has failed.  It succeeds
    exactly when all of that does, no failure is lost in the returned error,
    and no wait has a negative duration.  (Recording the trace changes
    neither result nor effects.)  An invalid document has no effect at all. *)
Theorem Run_exact {W} (timer : Clock W) (r : Runner W) ex doc w :
  r_Executor r = Some ex ->
  let out := Run (traced_timer timer) (traced timer r) doc ([], w) in
  (out.1, out.2.2) = Run timer r doc w /\
  match Validate doc with
  | Err e => out = (Err e, ([], w))
  | Ok _ => exists res main clean,
      out.2.1 = main ++ clean /\
      follows (has_events r) (script doc) res main /\
      clean.*1 = map (fun op => AExec WithoutCancel (Args op)) (Cleanup doc) /\
      (out.1 = Ok tt <-> res = Ok tt /\ succeeded clean) /\
      (forall a e, (a, Some e) ∈ main ++ clean -> carries (error_of out.1) e) /\
      (forall d, AWait d ∈ script doc -> 0 <= d)
  end.
Proof.
  intros Hex. cbv zeta. unfold Run. destruct (Validate doc) as [[] | e] eqn:Ev; [| done].
  destruct (valid_parts _ Ev) as (Hsteps & Hwaits). rewrite Hex. cbn [r_Executor r_Clock traced]. rewrite Hex.
  cbn [fmap option_fmap option_map default].
  pose proof (performs_bind _ _ _ _ _ _ _ (run_initial_performs r ex (Initial doc))
    (run_steps_performs timer r ex 0 (Steps doc) Hsteps) [] w) as (main & Ew & Er & Hf).
  destruct (mbind _ (run_initial (fun ctx args => record _ _) (Initial doc)) ([], w)) as [res tw].
  destruct (mbind _ (run_initial ex (Initial doc)) w) as [res0 w1].
  cbn [fst snd app] in Ew, Er, Hf. subst res tw.
  destruct (run_cleanup_performs ex (Cleanup doc) (error_of res0) main w1) as (clean & Ec & Ecr & Ha & Hn & Hc & Ht).
  destruct (run_cleanup (fun ctx args => record _ _) (Cleanup doc) (error_of res0) (main, w1)) as [err tw].
  destruct (run_cleanup ex (Cleanup doc) (error_of res0) w1) as [err0 w2]. cbn [fst snd] in Ec, Ecr. subst err tw.
  split; [done |]. exists res0, main, clean. cbn [fst snd]. split; [done |]. split; [exact Hf |]. split; [exact Ha |].
  assert (error_of (of_error err0) = err0) as -> by by destruct err0. cbn [fst] in Hn, Hc, Ht. split; [| split].
  - destruct err0 as [e |], res0 as [[] | e0]; cbn in *; naive_solver.
  - intros a e [Hin | Hin]%elem_of_app; [| by eapply Ht]. apply Hc. by eapply follows_carries.
  - exact Hwaits.
Qed.

(** Waiting for an event consumes the lines up to and including the
    first that names it, and nothing else: it succeeds exactly when such a
    line comes before any read error and the context is not done by then. *)
Theorem LineEvents_Wait_exact name cancel pending rest :
  LineEvents_Wait (Some pending) name cancel = (Ok tt, Some rest) <->
  exists skipped r, pending = skipped ++ r :: rest /\ TrimSpace (line r) = name /\ ler_err r = None /\
    Forall (fun x => TrimSpace (line x) <> name /\ ler_err x = None) skipped /\
    (forall k e, cancel = Some (k, e) -> (length skipped < k)%nat).
Proof.
  unfold LineEvents_Wait.
  assert (wait_lines name cancel pending = (Ok tt, rest) <->
    exists skipped r, pending = skipped ++ r :: rest /\ TrimSpace (line r) = name /\ ler_err r = None /\
      Forall (fun x => TrimSpace (line x) <> name /\ ler_err x = None) skipped /\
      (forall k e, cancel = Some (k, e) -> (length skipped < k)%nat)) as <-.
  2: { destruct (wait_lines name cancel pending) as [res l]. split; [by intros [= -> ->] | by intros [= -> ->]]. }
  apply wait_lines_ok.
Qed.

(** ** Witnesses: an executor that counts, and refuses one operation *)
Definition demo_executor : Executor Z := fun ctx args w =>
  if bool_decide (args = ["fail"]) then (Err (Sentinel "refused"), w) else (Ok tt, w + 1).
Definition demo_timer : Clock Z := fun ctx d w => (Ok tt, w).
Definition demo_runner : Runner Z := {| r_Executor := Some demo_executor; r_Clock := None; r_Events := None |}.
Definition demo_op (word : string) : Operation := {| Args := [word] |}.
Definition demo_doc : Document := {|
  Version := 1; doc_Base := None; Initial := [demo_op "list"];
  Steps := [{| st_Name := "a"; st_After := "1.5s"; st_Event := ""; st_Do := demo_op "fail" |};
            {| st_Name := "b"; st_After := ""; st_Event := "go"; st_Do := demo_op "list" |}];
  Cleanup := [demo_op "fail"; demo_op "reset"] |}.

Lemma Run_exact_witness :
  (Run demo_timer demo_runner demo_doc 0).2 = 2 /\
  exists res main clean,
    (Run (traced_timer demo_timer) (traced demo_timer demo_runner) demo_doc ([], 0)).2.1 = main ++ clean /\
    follows false (script demo_doc) res main /\
    clean.*1 = [AExec WithoutCancel ["fail"]; AExec WithoutCancel ["reset"]].
Proof.
  destruct (Run_exact demo_timer demo_runner demo_executor demo_doc 0 eq_refl) as [E H]. split.
  - rewrite <- E. by vm_compute.
  - destruct (Validate demo_doc) as [[] | e] eqn:Ev; [| by vm_compute in Ev].
    destruct H as (res & main & clean & Ht & Hf & Hc & _). exists res, main, clean.
    split; [exact Ht |]. split; [exact Hf | exact Hc].
Defined.

End scenario.
