(* ===== verification/ControlCLI.v ===== *)
(** * Control command line: [internal/controlcli/controlcli.go]

    [Execute] maps one command line to the operations of the client, the
    manager and the scenario runner; [Run] parses the global flags and builds
    the runtime.  The text a flag set prints when it refuses an argument is
    not modelled. *)
From S2P Require Import Prelude GoStrings GoStrconv GoJson GoTime GoFlag Catalog Config Control Observe Manager Node.
From S2P Require Import CudaEngine CudaBackend Render Scenario.
Import control observe manager node.

Module controlcli.

(** ** The process's other surroundings

    Standard output and error, files that are written, the outcome of opening
    and decoding a scenario document, timers, and when the caller's context is
    found done while an event is awaited. *)
Class Console (W : Type) := {
  stdout_write : string -> M W unit;
  stderr_write : string -> M W unit;
  write_file : string -> string -> M W unit;
  open_document : string -> W -> result (result scenario.Document * result unit);
  timer : scenario.Clock W;
  interrupted : W -> option (nat * error);
  embedded_catalog : result profiles.Catalog;
  printable_rune : Z -> bool
}.

(** ** Sizes and percentages *)
Definition units : list (string * Z) := [
  ("GiB", 1024 * 1024 * 1024); ("MiB", 1024 * 1024); ("KiB", 1024);
  ("GB", 1000 * 1000 * 1000); ("MB", 1000 * 1000); ("KB", 1000); ("B", 1)].

(** The loop over the units: the multiplier and the number's text. *)
Definition split_unit (value : string) : Z * string :=
  match find_first (fun unit => HasSuffix value unit.1) units with
  | Some (suffix, mult) => (mult, TrimSpace (TrimSuffix value suffix))
  | None => (1, value)
  end.

Definition parseBytes (raw : string) : result Z :=
  let value := TrimSpace raw in
  if String.eqb value "" then Err (Errorf "memory size is required" []) else
  let '(multiplier, value) := split_unit value in
  match ParseUint value u64_max with
  | Err _ => Err (Errorf "invalid memory size %q" [AS raw])
  | Ok n =>
      if negb (multiplier =? 0) && (n >? u64_max / multiplier)
      then Err (Errorf "memory size %q overflows bytes" [AS raw]) else Ok (n ⊗ multiplier)
  end.

Definition parseMiBAligned (raw : string) : result Z :=
  bytes ← parseBytes raw;
  if negb (bytes mod mib =? 0) then Err (Errorf "process memory must be MiB-aligned" []) else Ok (bytes / mib).

Definition onePercent (args : list string) : result Z :=
  match args with
  | [arg] =>
      let bad := Errorf "invalid utilization %q; expected 0-100" [AS arg] in
      match ParseUint arg u32_max with
      | Err _ => Err bad
      | Ok value => if value >? 100 then Err bad else Ok value
      end
  | _ => Err (Errorf "expected one utilization percentage" [])
  end.

(** ** JSON of the device list *)
Definition process_json (p : Process) : json :=
  JObject ([field_uint "pid" (PID p)] ++ optional_string "type" (Type_ p) ++ optional_string "name" (Name p) ++
    optional_uint "used_memory_mib" (UsedMemoryMiB p) ++ optional_uint "sm_util" (SMUtil p) ++
    optional_uint "mem_util" (MemoryUtil p) ++ optional_uint "enc_util" (EncoderUtil p) ++
    optional_uint "dec_util" (DecoderUtil p)).

Definition device_json (d : DeviceState) : json :=
  JObject [field_int "index" (Index d); field_string "uuid" (UUID d); field_string "name" (ds_Name d);
    field_uint "total_bytes" (TotalBytes d); field_uint "used_bytes" (UsedBytes d);
    field_uint "free_bytes" (FreeBytes d); field_uint "gpu_utilization" (GPUUtilization d);
    field_uint "memory_utilization" (MemoryUtilization d); ("processes", JArray (map process_json (Processes d)))].

(** ** The runtime *)
Record Runtime (W : Type) := {
  rt_Client : option (Client W);
  rt_Manager : option (Manager W);
  rt_Stdin : string   (* everything the reader will deliver *)
}.
Arguments rt_Client {W}. Arguments rt_Manager {W}. Arguments rt_Stdin {W}.

Definition usage_text : string := unlines [
  "fake-nvidia control/scenario UX";
  "";
  "usage:";
  "  fake-nvidia ctl [global flags] list";
  "  fake-nvidia ctl [global flags] status [gpu-index]";
  "  fake-nvidia ctl [global flags] gpu <gpu> utilization <0-100>";
  "  fake-nvidia ctl [global flags] gpu <gpu> memory-utilization <0-100>";
  "  fake-nvidia ctl [global flags] gpu <gpu> memory used=<size>";
  "  fake-nvidia ctl [global flags] gpu <gpu> memory reserve <size>";
  "  fake-nvidia ctl [global flags] gpu <gpu> memory release <size>";
  "  fake-nvidia ctl [global flags] gpu <gpu> failure <mode> [--after-calls N] [--xid CODE]";
  "  fake-nvidia ctl [global flags] gpu <gpu> offline|online";
  "  fake-nvidia ctl [global flags] process add --pid N --gpu G [--memory 8GiB] [--name NAME] [--sm PCT]";
  "  fake-nvidia ctl [global flags] process update --pid N --gpu G [fields...]";
  "  fake-nvidia ctl [global flags] process remove --pid N --gpu G";
  "  fake-nvidia ctl [global flags] reset [gpu]";
  "  fake-nvidia ctl [global flags] scenario run <scenario.json>";
  "  fake-nvidia ctl [global flags] scenario render [--output path] <scenario.json>";
  "";
  "global flags:";
  "  --ctl-bin PATH          nvml-mock-ctl binary (or FAKE_NVIDIA_CTL_BIN)";
  "  --nvidia-smi-bin PATH   nvidia-smi binary (or FAKE_NVIDIA_SMI_BIN)";
  "  --config PATH           base config (or MOCK_NVML_CONFIG)";
  "  --overrides PATH        override file (or MOCK_NVML_OVERRIDES)";
  "";
  "Scenario event steps consume newline-delimited event names from stdin. All state";
  "mutations are delegated to nvml-mock-ctl; no fake-nvidia state daemon is used."].

(** ** Process edits *)
Definition usage_error (text : string) : error := Errorf text [].
Definition wrap32 (z : Z) : Z := z mod 4294967296.

(** What a parsed [process add] or [process update] asks for. *)
Record Fields := {
  fl_pid : Z;
  fl_gpu : string;
  fl_memory : string;
  fl_name : string;
  fl_type : string;
  fl_sm : Z;
  fl_memUtil : Z;
  fl_enc : Z;
  fl_dec : Z;
  fl_provided : string -> bool
}.

Definition process_flags : FlagSet := [
  ("pid", KUint); ("gpu", KString); ("memory", KString); ("name", KString); ("type", KString);
  ("sm", KUint); ("mem-util", KUint); ("enc", KUint); ("dec", KUint)].

Definition process_fields (p : Parsed) : Fields := {|
  fl_pid := flag_num p "pid" 0; fl_gpu := flag_string p "gpu" ""; fl_memory := flag_string p "memory" "";
  fl_name := flag_string p "name" ""; fl_type := flag_string p "type" "C"; fl_sm := flag_num p "sm" 0;
  fl_memUtil := flag_num p "mem-util" 0; fl_enc := flag_num p "enc" 0; fl_dec := flag_num p "dec" 0;
  fl_provided := flag_provided p |}.

(** The record a new process starts from, without its memory. *)
Definition new_process (f : Fields) (memoryMiB : Z) : Process := {|
  PID := wrap32 (fl_pid f); Type_ := fl_type f; Name := fl_name f; UsedMemoryMiB := memoryMiB;
  SMUtil := wrap32 (fl_sm f); MemoryUtil := wrap32 (fl_memUtil f); EncoderUtil := wrap32 (fl_enc f);
  DecoderUtil := wrap32 (fl_dec f) |}.

(** The provided fields replace those of an existing process. *)
Definition updated_process (f : Fields) (memoryMiB : Z) (old : Process) : Process :=
  let given {A} (name : string) (new old : A) : A := if fl_provided f name then new else old in {|
  PID := PID old; Type_ := given "type" (fl_type f) (Type_ old); Name := given "name" (fl_name f) (Name old);
  UsedMemoryMiB := given "memory" memoryMiB (UsedMemoryMiB old);
  SMUtil := given "sm" (wrap32 (fl_sm f)) (SMUtil old);
  MemoryUtil := given "mem-util" (wrap32 (fl_memUtil f)) (MemoryUtil old);
  EncoderUtil := given "enc" (wrap32 (fl_enc f)) (EncoderUtil old);
  DecoderUtil := given "dec" (wrap32 (fl_dec f)) (DecoderUtil old) |}.

(** The record that is written: [old] is the process with the pid, if any. *)
Definition edited_process (mode : string) (f : Fields) (old : option Process) : result Process :=
  memoryMiB ← (if String.eqb (fl_memory f) "" then Ok 0 else parseMiBAligned (fl_memory f));
  match old with
  | Some old =>
      if String.eqb mode "update" then
        memoryMiB ← (if fl_provided f "memory" then parseMiBAligned (fl_memory f) else Ok 0);
        Ok (updated_process f memoryMiB old)
      else Ok (new_process f memoryMiB)
  | None => Ok (new_process f memoryMiB)
  end.

(** The process list after an edit of [processes] on GPU [gpu]. *)
Definition upsert_list (mode : string) (f : Fields) (processes : list Process) : result (list Process) :=
  let index := processIndex processes (wrap32 (fl_pid f)) in
  if String.eqb mode "add" && negb (bool_decide (index = None))
  then Err (Errorf "process %d already exists on GPU %s" [AZ (fl_pid f); AS (fl_gpu f)]) else
  if String.eqb mode "update" && bool_decide (index = None)
  then Err (Errorf "process %d does not exist on GPU %s" [AZ (fl_pid f); AS (fl_gpu f)]) else
  process ← edited_process mode f (index ≫= fun i => processes !! i);
  if (fl_sm f >? 100) || (fl_memUtil f >? 100) || (fl_enc f >? 100) || (fl_dec f >? 100)
  then Err (Errorf "process utilization values must be between 0 and 100" []) else
  Ok (if String.eqb mode "add" then processes ++ [process]
      else match index with Some i => <[i := process]> processes | None => processes end).

Definition remove_list (pid : Z) (gpu : string) (processes : list Process) : result (list Process) :=
  let keeps p := negb (PID p =? wrap32 pid) in
  if forallb keeps processes
  then Err (Errorf "process %d does not exist on GPU %s" [AZ pid; AS gpu])
  else Ok (List.filter keeps processes).

(** ** Commands *)
Section runtime.
Context {W : Type} `{OS W} `{Console W}.
Implicit Type r : Runtime W.

Definition usage (write : string -> M W unit) : M W unit := write usage_text.

Definition list_ r (args : list string) : M W unit :=
  match args with
  | _ :: _ => throw (usage_error "usage: list")
  | [] =>
      devices ← manager_Snapshot (rt_Manager r);
      stdout_write (encode_indented (JArray (map device_json devices)))
  end.

Definition status r (args : list string) : M W unit :=
  match args with
  | _ :: _ :: _ => throw (usage_error "usage: status [gpu-index]")
  | _ => fun w =>
      let target := match args with t :: _ => t | [] => "all" end in
      let '((out, err), w1) := Status_ (rt_Client r) target w in
      match err with Some e => (Err e, w1) | None => stdout_write out w1 end
  end.

Definition gpuMemory r (target : string) (args : list string) : M W unit :=
  match args with
  | [arg] =>
      if HasPrefix arg "used=" then
        value ← lift (parseBytes (TrimPrefix arg "used="));
        SetUsedMemory (rt_Manager r) target value
      else throw (usage_error "usage: gpu <gpu> memory used=<size> | reserve <size> | release <size>")
  | [op; size] =>
      value ← lift (parseBytes size);
      if String.eqb op "reserve" then ReserveMemory (rt_Manager r) target value else
      if String.eqb op "release" then ReleaseMemory (rt_Manager r) target value else
      throw (Errorf "unknown memory operation %q" [AS op])
  | _ => throw (usage_error "usage: gpu <gpu> memory used=<size> | reserve <size> | release <size>")
  end.

Definition failure_flags : FlagSet := [("after-calls", KInt); ("xid", KUint)].

Definition gpuFailure r (target : string) (rest : list string) : M W unit :=
  match rest with
  | [] => throw (usage_error "usage: gpu <gpu> failure <mode> [--after-calls N] [--xid CODE]")
  | mode :: rest =>
      p ← lift (Parse failure_flags rest);
      match flag_args p with
      | _ :: _ => throw (Errorf "unexpected failure arguments: %s" [AS (Join (flag_args p) " ")])
      | [] => SetFailure (rt_Client r) target mode (flag_num p "after-calls" 0) (flag_num p "xid" 0)
      end
  end.

Definition gpu r (args : list string) : M W unit :=
  match args with
  | target :: op :: rest =>
      if String.eqb op "utilization" then
        value ← lift (onePercent rest); SetGPUUtilization (rt_Client r) target value
      else if String.eqb op "memory-utilization" then
        value ← lift (onePercent rest); SetMemoryUtilization (rt_Client r) target value
      else if String.eqb op "memory" then gpuMemory r target rest
      else if String.eqb op "failure" then gpuFailure r target rest
      else if String.eqb op "offline" then
        match rest with
        | [] => SetFailure (rt_Client r) target "lost" 0 0
        | _ => throw (usage_error "usage: gpu <gpu> offline")
        end
      else if String.eqb op "online" then
        match rest with
        | [] => SetFailure (rt_Client r) target "healthy" 0 0
        | _ => throw (usage_error "usage: gpu <gpu> online")
        end
      else throw (Errorf "unknown GPU operation %q" [AS op])
  | _ => throw (usage_error "usage: gpu <index|uuid> <operation> ...")
  end.

(** The GPU is read, its list edited, and the edit is written from the state
    that was read. *)
Definition edit_processes r (target : string) (edit : list Process -> result (list Process)) : M W unit :=
  d ← observe.Device (manager_observer (rt_Manager r)) target;
  desired ← lift (edit (Processes d));
  ReplaceProcessesFromState (rt_Manager r) target d desired.

Definition upsertProcess r (mode : string) (args : list string) : M W unit :=
  p ← lift (Parse process_flags args);
  match flag_args p with
  | _ :: _ => throw (Errorf "unexpected process arguments: %s" [AS (Join (flag_args p) " ")])
  | [] =>
      let f := process_fields p in
      if (fl_pid f =? 0) || (fl_pid f >? u32_max) || String.eqb (fl_gpu f) ""
      then throw (Errorf "--pid and --gpu are required" []) else
      if negb (String.eqb (fl_type f) "C") && negb (String.eqb (fl_type f) "G")
      then throw (Errorf "process type must be C or G" []) else
      edit_processes r (fl_gpu f) (upsert_list mode f)
  end.

Definition remove_flags : FlagSet := [("pid", KUint); ("gpu", KString)].

Definition removeProcess r (args : list string) : M W unit :=
  p ← lift (Parse remove_flags args);
  let pid := flag_num p "pid" 0 in
  let gpu := flag_string p "gpu" "" in
  if match flag_args p with [] => false | _ => true end || (pid =? 0) || (pid >? u32_max) || String.eqb gpu ""
  then throw (usage_error "usage: process remove --pid <pid> --gpu <index|uuid>")
  else edit_processes r gpu (remove_list pid gpu).

Definition process r (args : list string) : M W unit :=
  match args with
  | [] => throw (usage_error "usage: process <add|update|remove> ...")
  | op :: rest =>
      if String.eqb op "add" || String.eqb op "update" then upsertProcess r op rest else
      if String.eqb op "remove" then removeProcess r rest else
      throw (Errorf "unknown process operation %q" [AS op])
  end.

Definition reset r (args : list string) : M W unit :=
  match args with
  | _ :: _ :: _ => throw (usage_error "usage: reset [gpu]")
  | [target] => Reset_ (rt_Client r) target
  | [] => Reset_ (rt_Client r) "all"
  end.

(** [Execute], with the [scenario] command as a parameter: scenarios run
    these commands and are one of them. *)
Definition execute_with (scenario_command : list string -> M W unit) r (args : list string) : M W unit :=
  match rt_Client r, rt_Manager r with
  | Some _, Some _ =>
      match args with
      | [] => throw (Errorf "control command is required" [])
      | command :: rest =>
          if String.eqb command "list" then list_ r rest else
          if String.eqb command "status" then status r rest else
          if String.eqb command "gpu" then gpu r rest else
          if String.eqb command "process" then process r rest else
          if String.eqb command "reset" then reset r rest else
          if String.eqb command "scenario" then scenario_command rest else
          if String.eqb command "help" || String.eqb command "-h" || String.eqb command "--help"
          then usage stdout_write else
          throw (Errorf "unknown control command %q" [AS command])
      end
  | _, _ => throw (Errorf "control runtime is not initialized" [])
  end.

Definition nested_error : error := Errorf "nested scenario execution is not allowed" [].

(** [scenarioExecutor.Execute]: the [scenario] command is refused before
    [Execute] is reached. *)
Definition scenarioExecutor r (args : list string) : M W unit :=
  match args with
  | command :: _ =>
      if String.eqb command "scenario" then throw nested_error
      else execute_with (fun _ => throw nested_error) r args
  | [] => execute_with (fun _ => throw nested_error) r args
  end.

Definition loadScenario (path : string) : M W scenario.Document := fun w =>
  match open_document path w with
  | Err e => (Err e, w)
  | Ok (first, second) => (scenario.Load first second, w)
  end.

(** A run keeps the lines read ahead from standard input beside the world. *)
Definition beside {A} (m : M W A) : M (W * scenario.LineEvents) A := fun '(w, l) =>
  let '(x, w1) := m w in (x, (w1, l)).
Definition line_events : scenario.EventSource (W * scenario.LineEvents) := fun _ name '(w, l) =>
  let '(x, l1) := scenario.LineEvents_Wait l name (interrupted w) in (x, (w, l1)).
Definition wall_timer : scenario.Clock (W * scenario.LineEvents) := fun ctx d => beside (timer ctx d).

Definition scenario_runner r : scenario.Runner (W * scenario.LineEvents) := {|
  scenario.r_Executor := Some (fun _ args => beside (scenarioExecutor r args));
  scenario.r_Clock := Some (scenario.RealClock_Wait wall_timer);
  scenario.r_Events := Some line_events |}.

Definition run_document r (doc : scenario.Document) : M W unit := fun w =>
  let '(x, (w1, _)) :=
    scenario.Run wall_timer (scenario_runner r) doc (w, scenario.NewLineEvents (rt_Stdin r)) in
  (x, w1).

Definition render_flags : FlagSet := [("output", KString)].

Definition renderScenario (args : list string) : M W unit :=
  p ← lift (Parse render_flags args);
  match flag_args p with
  | [path] =>
      doc ← loadScenario path;
      catalog ← lift embedded_catalog;
      data ← lift (scenario.RenderBase printable_rune (Some catalog) doc);
      let output := flag_string p "output" "-" in
      if String.eqb output "-" then stdout_write data else write_file output data
  | _ => throw (usage_error "usage: scenario render [--output path] <scenario.json>")
  end.

Definition runScenario r (args : list string) : M W unit :=
  match args with
  | [] => throw (usage_error "usage: scenario <run|render> ...")
  | op :: rest =>
      if String.eqb op "run" then
        match rest with
        | [path] => doc ← loadScenario path; run_document r doc
        | _ => throw (usage_error "usage: scenario run <scenario.json>")
        end
      else if String.eqb op "render" then renderScenario rest
      else throw (Errorf "unknown scenario operation %q" [AS op])
  end.

Definition Execute r (args : list string) : M W unit := execute_with (runScenario r) r args.

(** ** Global flags *)
Definition envOr (name fallback : string) : string :=
  let value := cuda.Getenv os_environ name in if negb (String.eqb value "") then value else fallback.

Definition global_flags : FlagSet :=
  [("ctl-bin", KString); ("nvidia-smi-bin", KString); ("config", KString); ("overrides", KString)].

(** The runtime the flags select. *)
Definition new_runtime (p : Parsed) (stdin : string) : Runtime W :=
  let ctlBin := flag_string p "ctl-bin" (envOr "FAKE_NVIDIA_CTL_BIN" "nvml-mock-ctl") in
  let smiBin := flag_string p "nvidia-smi-bin" (envOr "FAKE_NVIDIA_SMI_BIN" "nvidia-smi") in
  let configPath := flag_string p "config" (cuda.Getenv os_environ "MOCK_NVML_CONFIG") in
  let overridePath := flag_string p "overrides" (cuda.Getenv os_environ "MOCK_NVML_OVERRIDES") in
  let client := New ctlBin configPath overridePath in
  let env :=
    (if negb (String.eqb configPath "") then [("MOCK_NVML_CONFIG", configPath)] else []) ++
    (if negb (String.eqb overridePath "") then [("MOCK_NVML_OVERRIDES", overridePath)] else []) in
  let observer := {| ob_Binary := smiBin;
                     ob_Runner := Some (match env with [] => ExecRunner | _ => EnvExecRunner env end) |} in
  {| rt_Client := Some client; rt_Manager := Some (NewManager (Some client) (Some observer)); rt_Stdin := stdin |}.

Definition Run (args : list string) (stdin : string) : M W unit :=
  p ← lift (Parse global_flags args);
  match flag_args p with
  | [] => usage stderr_write
  | command => Execute (new_runtime p stdin) command
  end.
End runtime.

(** ** Lemmas: sizes *)
(** What a number's text can end with before its unit. *)
Definition number_end (c : ascii) : bool := is_digit c || is_space1 c.

Lemma prefix_step a s b t : String.prefix (a ::: s) (b ::: t) = char_eqb a b && String.prefix s t.
Proof.
  cbn [String.prefix]. destruct (ascii_dec a b) as [-> |]; [by rewrite char_eqb_refl |].
  by rewrite (proj2 (char_eqb_neq a b)).
Qed.

Lemma number_end_unit c : number_end c = true ->
  char_eqb "G" c = false /\ char_eqb "M" c = false /\ char_eqb "K" c = false /\ char_eqb "i" c = false.
Proof. intros Hc. repeat split; apply char_eqb_neq; intros <-; by vm_compute in Hc. Qed.

(** The first unit whose suffix the text has is the one it was written with. *)
Lemma split_unit_suffix t c suffix mult :
  (suffix, mult) ∈ units -> number_end c = true ->
  split_unit (t +:+ chr c +:+ suffix) = (mult, TrimSpace (t +:+ chr c)).
Proof.
  intros Hu (HG & HM & HK & Hi)%number_end_unit.
  assert (find_first (fun unit => HasSuffix (t +:+ chr c +:+ suffix) unit.1) units = Some (suffix, mult)) as Hf.
  { unfold HasSuffix. rewrite !srev_append, append_assoc.
    change (srev (chr c) +:+ srev t) with (c ::: srev t). generalize (srev t). intros x. unfold units in Hu.
    repeat (apply elem_of_cons in Hu as [[= -> ->] | Hu];
      [cbn [units find_first fst srev srev_app]; rewrite ?append_cons, ?prefix_step; change ("" +:+ c ::: x) with (c ::: x);
       rewrite ?prefix_step, ?HG, ?HM, ?HK, ?Hi; reflexivity |]).
    by apply elem_of_nil in Hu. }
  unfold split_unit. rewrite Hf, <- append_assoc. by rewrite TrimSuffix_app.
Qed.

Lemma split_unit_none t c : is_digit c = true -> split_unit (t +:+ chr c) = (1, t +:+ chr c).
Proof.
  intros Hc. assert (char_eqb "B" c = false) as HB by (apply char_eqb_neq; intros <-; by vm_compute in Hc).
  unfold split_unit, HasSuffix. cbn [units find_first fst]. rewrite srev_append.
  change (srev (chr c) +:+ srev t) with (c ::: srev t). cbn [srev srev_app].
  by rewrite !prefix_step, HB.
Qed.

(** A number followed by a unit, with any spaces between and around. *)
Definition size_text (i n j : nat) (value : Z) (suffix : string) : string :=
  spaces i +:+ (FormatUint value +:+ spaces n +:+ suffix) +:+ spaces j.

Lemma FormatUint_snoc n : 0 <= n -> exists t c, FormatUint n = t +:+ chr c /\ is_digit c = true.
Proof.
  intros Hn. destruct (string_snoc (FormatUint n)) as [E | (t & c & E)]; [by destruct (FormatUint_nonempty n) |].
  exists t, c. split; [done |]. pose proof (FormatUint_digits n Hn) as H. rewrite E, sforall_append in H. cbn in H.
  to_prop. tauto.
Qed.

Lemma FormatUint_edged n : 0 <= n -> edged (FormatUint n) = true.
Proof. intros Hn. apply graph_edged; [done | by apply FormatUint_graph]. Qed.

Lemma unit_suffix suffix mult : (suffix, mult) ∈ units -> edged suffix = true /\ 1 <= mult <= 1073741824.
Proof.
  intros Hu. unfold units in Hu.
  repeat (apply elem_of_cons in Hu as [[= -> ->] | Hu]; [split; [done | lia] |]). by apply elem_of_nil in Hu.
Qed.

(** The unit and the number's text of such a size. *)
Lemma split_size value n suffix mult : 0 <= value -> (suffix, mult) ∈ ("", 1) :: units -> (suffix = "" -> n = O) ->
  edged (FormatUint value +:+ spaces n +:+ suffix) = true /\
  split_unit (FormatUint value +:+ spaces n +:+ suffix) = (mult, FormatUint value) /\ 1 <= mult <= 1073741824.
Proof.
  intros Hv Hu Hn. pose proof (FormatUint_edged value Hv) as Hedge.
  destruct (FormatUint_snoc value Hv) as (t & c & E & Hc).
  apply elem_of_cons in Hu as [[= -> ->] | Hu].
  { rewrite Hn by done. cbn [spaces]. rewrite !append_nil_r. split; [done |]. split; [| lia]. rewrite E. by apply split_unit_none. }
  destruct (unit_suffix _ _ Hu) as [Hs Hm]. split; [by apply edged_append |]. split; [| done].
  assert (exists t' c', FormatUint value +:+ spaces n = t' +:+ chr c' /\ number_end c' = true) as (t' & c' & E' & Hc').
  { destruct n as [| n].
    - exists t, c. cbn [spaces]. rewrite append_nil_r. split; [done |]. unfold number_end. by rewrite Hc.
    - exists (FormatUint value +:+ spaces n), " "%char. split; [| done]. rewrite append_assoc. f_equal.
      clear. induction n as [| n IH]; [done |]. cbn [spaces] in *. rewrite append_assoc. by rewrite <- IH. }
  rewrite <- append_assoc, E', append_assoc. rewrite (split_unit_suffix t' c' suffix mult) by done.
  rewrite <- E'. by rewrite TrimSpace_edged_spaces.
Qed.

Lemma parseBytes_size i n j value suffix mult : u64 value ->
  (suffix, mult) ∈ ("", 1) :: units -> (suffix = "" -> n = O) ->
  parseBytes (size_text i n j value suffix) =
  if value * mult <=? u64_max then Ok (value * mult)
  else Err (Errorf "memory size %q overflows bytes" [AS (size_text i n j value suffix)]).
Proof.
  intros Hv Hu Hn. destruct (split_size value n suffix mult ltac:(word) Hu Hn) as (Hedge & Hsplit & Hm).
  unfold parseBytes. assert (TrimSpace (size_text i n j value suffix) = FormatUint value +:+ spaces n +:+ suffix) as ->.
  { unfold size_text. rewrite TrimSpace_spaces. by apply TrimSpace_edged_spaces. }
  rewrite (proj2 (String.eqb_neq _ _)) by by apply edged_nonempty.
  rewrite Hsplit, ParseUint_FormatUint by (unfold u64 in Hv; lia).
  rewrite (proj2 (Z.eqb_neq mult 0)) by lia. cbn [negb andb].
  pose proof (Z.div_mod u64_max mult ltac:(lia)) as Hdm. pose proof (Z.mod_pos_bound u64_max mult ltac:(lia)).
  destruct (Z.leb_spec (value * mult) u64_max) as [Hle | Hgt].
  - rewrite (proj2 (gtb_false _ _)) by (apply Z.div_le_lower_bound; lia). rewrite wrap64_small by word_nia. done.
  - assert (value > u64_max / mult) as Hq by nia. apply Z.gt_lt, Z.gtb_lt in Hq. by rewrite Hq.
Qed.

(** An accepted size is a number times its unit, never wrapped around. *)
Lemma parseBytes_inv raw b : parseBytes raw = Ok b ->
  exists mult text value, split_unit (TrimSpace raw) = (mult, text) /\ ParseUint text u64_max = Ok value /\
    b = value * mult /\ u64 b.
Proof.
  unfold parseBytes. destruct (String.eqb _ _); [done |]. destruct (split_unit (TrimSpace raw)) as [mult text] eqn:Es.
  destruct (ParseUint text u64_max) as [value |] eqn:Ep; [| done].
  apply ParseUint_range in Ep as Hr; [| word].
  assert (1 <= mult) as Hm.
  { unfold split_unit in Es. destruct (find_first _ units) as [[s m] |] eqn:Ef; [| injection Es as <- _; lia].
    injection Es as <- _. apply find_first_some in Ef as [Hin _]. apply unit_suffix in Hin. lia. }
  rewrite (proj2 (Z.eqb_neq mult 0)) by lia. cbn [negb andb]. destruct (_ >? _) eqn:E; [done |]. to_prop.
  pose proof (Z.mul_div_le u64_max mult ltac:(lia)). assert (u64 (value * mult)) by word_nia.
  rewrite wrap64_small by done. intros [= <-]. by exists mult, text, value.
Qed.

(** ** Memory commands against a node *)
Inductive MemoryOp := MUse | MReserve | MRelease.
Record MemoryCommand := { mc_gpu : Z; mc_op : MemoryOp; mc_size : string }.

Definition memory_args (c : MemoryCommand) : list string :=
  ["gpu"; Itoa (mc_gpu c); "memory"] ++
  match mc_op c with
  | MUse => ["used=" +:+ mc_size c]
  | MReserve => ["reserve"; mc_size c]
  | MRelease => ["release"; mc_size c]
  end.

(** The contract: the new used and free bytes of a GPU, or a refusal. *)
Definition memory_effect (op : MemoryOp) (bytes : Z) (d : DeviceState) : option (Z * Z) :=
  match op with
  | MUse => if bool_decide (owned d <= bytes <= UsedBytes d + FreeBytes d)
            then Some (bytes, UsedBytes d + FreeBytes d - bytes) else None
  | MReserve => if bytes <=? FreeBytes d then Some (UsedBytes d + bytes, FreeBytes d - bytes) else None
  | MRelease => if owned d + bytes <=? UsedBytes d then Some (UsedBytes d - bytes, FreeBytes d + bytes) else None
  end.

Definition memory_spec (c : MemoryCommand) (gs : list DeviceState) : option (list DeviceState) :=
  match parseBytes (mc_size c), find_first (fun d => Index d =? mc_gpu c) gs with
  | Ok bytes, Some d => '(used, free) ← memory_effect (mc_op c) bytes d;
                        Some (update_gpu (mc_gpu c) (set_memory used free) gs)
  | _, _ => None
  end.

(** Sizes in whole MiB, on a GPU index an [int] can hold. *)
Definition memory_command_ok (c : MemoryCommand) : Prop :=
  int64 (mc_gpu c) /\ forall bytes, parseBytes (mc_size c) = Ok bytes -> bytes mod mib = 0.

Section node.
Context {W : Type} `{NvmlMock W} `{Console W}.
Context (r : Runtime W) (client : Client W) (mg : Manager W).
Context (Hclient : rt_Client r = Some client) (Hmanager : rt_Manager r = Some mg) (Hwired : wired mg).

Lemma find_named i w : int64 i -> find_first (selects (Itoa i)) (gpus w) = find_first (fun d => Index d =? i) (gpus w).
Proof.
  intros Hi. assert (Forall (fun e => selects (Itoa i) e = (Index e =? i)) (gpus w)) as Hs.
  { apply Forall_forall. intros e He. unfold selects. destruct (gpus_device_ok e w He) as (Hie & _).
    destruct (gpus_pool_ok e w He) as [_ Hu].
    assert (String.eqb (UUID e) (Itoa i) = false) as ->.
    { apply String.eqb_neq. intros E. by rewrite E, Atoi_Itoa in Hu. }
    rewrite orb_false_r. destruct (Z.eqb_spec (Index e) i) as [-> | Hne]; [apply String.eqb_refl |].
    apply String.eqb_neq. intros E. apply Hne. apply Itoa_inj; [| done | done]. unfold int64, int64_cutoff in *. lia. }
  induction Hs as [| e l He _ IH]; cbn; [done |]. by rewrite He, IH.
Qed.

Lemma locked_absent target plan w : lockable mg w -> find_first (selects target) (gpus w) = None ->
  let out := withMutationLock (Some mg) (update_memory (Some mg) target plan) w in
  (exists e, out.1 = Err e) /\ gpus out.2 = gpus w.
Proof.
  intros Hl Hf. cbv zeta. destruct (withMutationLock_gpus mg (update_memory (Some mg) target plan) w Hl) as (w1 & G & -> & ->).
  destruct Hwired as [(c & Hc & _) Ho].
  assert (device (Some mg) target w1 = (Err (Errorf "GPU %q not found" [AS target]), w1)) as Hd.
  { unfold device, manager_client, manager_observer. cbn [mbind option_bind]. rewrite Hc.
    destruct (mg_Observer mg) as [o |]; [| by destruct Ho as (? & ? & _)]. by rewrite Device_gpus, G, Hf. }
  unfold update_memory. rewrite (M_bind_err _ _ _ _ _ Hd). split; [by eexists | exact G].
Qed.

Lemma memory_dispatch c w : Execute r (memory_args c) w =
  match parseBytes (mc_size c) with
  | Err e => (Err e, w)
  | Ok bytes =>
      let target := Itoa (mc_gpu c) in
      match mc_op c with
      | MUse => SetUsedMemory (Some mg) target bytes w
      | MReserve => ReserveMemory (Some mg) target bytes w
      | MRelease => ReleaseMemory (Some mg) target bytes w
      end
  end.
Proof.
  unfold Execute, execute_with, memory_args. rewrite Hclient, Hmanager.
  destruct (mc_op c); cbn -[HasPrefix TrimPrefix parseBytes]; rewrite Hmanager, ?HasPrefix_app, ?TrimPrefix_app;
    unfold mbind, M_bind, lift; by destruct (parseBytes (mc_size c)).
Qed.

Lemma memory_command_run c w : memory_command_ok c -> lockable mg w ->
  let out := Execute r (memory_args c) w in
  match memory_spec c (gpus w) with
  | Some gs => out.1 = Ok tt /\ gpus out.2 = gs
  | None => (exists e, out.1 = Err e) /\ gpus out.2 = gpus w
  end.
Proof.
  intros [Hi Ha] Hl. cbv zeta. rewrite memory_dispatch. unfold memory_spec.
  destruct (parseBytes (mc_size c)) as [b | e] eqn:Eb; [| split; [by eexists | done]].
  assert (mib_aligned b) as Hb by (split; [by apply parseBytes_inv in Eb as (? & ? & ? & _ & _ & _ & ?) | by apply Ha]).
  cbv zeta. destruct (find_first (fun d => Index d =? mc_gpu c) (gpus w)) as [d |] eqn:Ef.
  2: { assert (find_first (selects (Itoa (mc_gpu c))) (gpus w) = None) as Hs by by rewrite find_named.
       destruct (mc_op c); by apply locked_absent. }
  pose proof Ef as [Hin Hid]%find_first_some. apply Z.eqb_eq in Hid.
  assert (names_gpu (Itoa (mc_gpu c)) d w) as Hn by (split; [by rewrite Hid | done]). rewrite <- Hid in *.
  destruct (mc_op c); unfold memory_effect.
  - pose proof (set_used_run mg _ d b w Hwired Hl Hn Hb) as Hrun. cbv zeta in Hrun.
    destruct (decide _) as [Hc | Hc]; [rewrite bool_decide_eq_true_2 by done | rewrite bool_decide_eq_false_2 by done];
      exact Hrun.
  - pose proof (reserve_run mg _ d b w Hwired Hl Hn Hb) as Hrun. cbv zeta in Hrun.
    destruct (b <=? FreeBytes d); cbn [mbind option_bind]; [exact Hrun |].
    destruct Hrun as [(e & E & _) G]. split; [by exists e | exact G].
  - pose proof (release_run mg _ d b w Hwired Hl Hn Hb) as Hrun. cbv zeta in Hrun.
    destruct (owned d + b <=? UsedBytes d); exact Hrun.
Qed.

(** *** Scenarios of memory commands *)
Fixpoint spec_stopping (cmds : list MemoryCommand) (gs : list DeviceState) : bool * list DeviceState :=
  match cmds with
  | [] => (true, gs)
  | c :: rest => match memory_spec c gs with Some gs1 => spec_stopping rest gs1 | None => (false, gs) end
  end.
Fixpoint spec_attempting (cmds : list MemoryCommand) (gs : list DeviceState) : bool * list DeviceState :=
  match cmds with
  | [] => (true, gs)
  | c :: rest =>
      match memory_spec c gs with
      | Some gs1 => spec_attempting rest gs1
      | None => let '(_, gs1) := spec_attempting rest gs in (false, gs1)
      end
  end.

Context (Hlock : forall w, lockable mg w).
Let exec : list string -> M W unit := scenarioExecutor r.

Lemma executor_memory c w : exec (memory_args c) w = Execute r (memory_args c) w.
Proof. unfold exec, scenarioExecutor, Execute, memory_args. done. Qed.

Lemma run_stopping_spec cmds w : Forall memory_command_ok cmds ->
  let '(ok, w1) := scenario.run_stopping exec (map memory_args cmds) w in
  spec_stopping cmds (gpus w) = (ok, gpus w1).
Proof.
  intros Hc. revert w. induction Hc as [| c cmds Hc _ IH]; intros w; [done |].
  cbn [map scenario.run_stopping spec_stopping]. rewrite executor_memory.
  pose proof (memory_command_run c w Hc (Hlock w)) as Hrun. cbv zeta in Hrun.
  destruct (Execute r (memory_args c) w) as [x w1]. cbn [fst snd] in Hrun.
  destruct (memory_spec c (gpus w)) as [gs |].
  - destruct Hrun as [-> <-]. apply IH.
  - destruct Hrun as [(e & ->) <-]. done.
Qed.

Lemma run_attempting_spec cmds w : Forall memory_command_ok cmds ->
  let '(ok, w1) := scenario.run_attempting exec (map memory_args cmds) w in
  spec_attempting cmds (gpus w) = (ok, gpus w1).
Proof.
  intros Hc. revert w. induction Hc as [| c cmds Hc _ IH]; intros w; [done |].
  cbn [map scenario.run_attempting spec_attempting]. rewrite executor_memory.
  pose proof (memory_command_run c w Hc (Hlock w)) as Hrun. cbv zeta in Hrun.
  destruct (Execute r (memory_args c) w) as [x w1]. cbn [fst snd] in Hrun.
  destruct (scenario.run_attempting exec (map memory_args cmds) w1) as [ok w2] eqn:E.
  specialize (IH w1). rewrite E in IH.
  destruct (memory_spec c (gpus w)) as [gs |].
  - destruct Hrun as [-> <-]. cbn [is_ok andb]. apply IH.
  - destruct Hrun as [(e & ->) G]. rewrite G in IH. by rewrite IH.
Qed.

Lemma run_stopping_beside (ex : list string -> M W unit) cmds w l :
  scenario.run_stopping (fun args => beside (ex args)) cmds (w, l) =
  let '(ok, w1) := scenario.run_stopping ex cmds w in (ok, (w1, l)).
Proof.
  revert w. induction cmds as [| c cmds IH]; intros w; cbn; [done |].
  destruct (ex c w) as [[] w1]; [apply IH | done].
Qed.

Lemma run_attempting_beside (ex : list string -> M W unit) cmds w l :
  scenario.run_attempting (fun args => beside (ex args)) cmds (w, l) =
  let '(ok, w1) := scenario.run_attempting ex cmds w in (ok, (w1, l)).
Proof.
  revert w. induction cmds as [| c cmds IH]; intros w; cbn; [done |].
  destruct (ex c w) as [x w1]. rewrite IH. by destruct (scenario.run_attempting ex cmds w1).
Qed.

(** The [scenario run] command on a document without triggers. *)
Lemma run_document_untimed path doc w :
  open_document path w = Ok (Ok doc, Err (Sentinel EOF)) -> scenario.Validate doc = Ok tt ->
  Forall scenario.untimed (scenario.Steps doc) ->
  let '(ok1, w1) := scenario.run_stopping exec (map scenario.Args (scenario.Initial doc) ++
                      map (fun s => scenario.Args (scenario.st_Do s)) (scenario.Steps doc)) w in
  let '(ok2, w2) := scenario.run_attempting exec (map scenario.Args (scenario.Cleanup doc)) w1 in
  let out := Execute r ["scenario"; "run"; path] w in (is_ok out.1, out.2) = (ok1 && ok2, w2).
Proof.
  intros Hopen Hv Hs.
  assert (Execute r ["scenario"; "run"; path] w = run_document r doc w) as ->.
  { unfold Execute, execute_with. rewrite Hclient, Hmanager. cbn -[run_document scenario.Load].
    unfold mbind, M_bind, loadScenario. rewrite Hopen. unfold scenario.Load. cbn -[scenario.Validate run_document].
    by rewrite Hv. }
  pose proof (scenario.Run_untimed wall_timer (scenario_runner r) (fun args => beside (exec args)) doc
    (w, scenario.NewLineEvents (rt_Stdin r)) eq_refl Hv Hs) as Hrun.
  rewrite run_stopping_beside in Hrun.
  destruct (scenario.run_stopping exec _ w) as [ok1 w1]. rewrite run_attempting_beside in Hrun.
  destruct (scenario.run_attempting exec _ w1) as [ok2 w2]. cbv zeta. unfold run_document.
  destruct (scenario.Run wall_timer (scenario_runner r) doc _) as [x [w3 l3]]. cbn [fst snd] in *.
  by injection Hrun as -> -> _.
Qed.
End node.

(** ** Process edits from their arguments *)
Record ProcessEdit := {
  e_pid : Z;
  e_gpu : string;
  e_memory : option Z;   (* MiB *)
  e_name : option string;
  e_type : option string;
  e_sm : option Z;
  e_memUtil : option Z;
  e_enc : option Z;
  e_dec : option Z
}.

Definition mib_text (m : Z) : string := FormatUint m +:+ "MiB".

Definition edit_args (e : ProcessEdit) : list string :=
  opt_args "pid" (FormatUint <$> Some (e_pid e)) ++ opt_args "gpu" (Some (e_gpu e)) ++
  opt_args "memory" (mib_text <$> e_memory e) ++ opt_args "name" (e_name e) ++ opt_args "type" (e_type e) ++
  opt_args "sm" (FormatUint <$> e_sm e) ++ opt_args "mem-util" (FormatUint <$> e_memUtil e) ++
  opt_args "enc" (FormatUint <$> e_enc e) ++ opt_args "dec" (FormatUint <$> e_dec e).

(** The numbers are those of the flags' type. *)
Definition edit_typed (e : ProcessEdit) : Prop :=
  u64 (e_pid e) /\ forall n, n ∈ [e_memory e; e_sm e; e_memUtil e; e_enc e; e_dec e] -> u64 (default 0 n).

(** What is checked before the GPU is read, and after. *)
Definition edit_addressed (e : ProcessEdit) : bool :=
  negb (e_pid e =? 0) && (e_pid e <=? u32_max) && negb (String.eqb (e_gpu e) "") &&
  (String.eqb (default "C" (e_type e)) "C" || String.eqb (default "C" (e_type e)) "G").
Definition edit_in_range (e : ProcessEdit) : bool :=
  (default 0 (e_memory e) * mib <=? u64_max) && (default 0 (e_sm e) <=? 100) && (default 0 (e_memUtil e) <=? 100) &&
  (default 0 (e_enc e) <=? 100) && (default 0 (e_dec e) <=? 100).

(** [base] is the process the fields that are not given come from. *)
Definition edited (e : ProcessEdit) (base : Process) : Process := {|
  PID := PID base; Type_ := default (Type_ base) (e_type e); Name := default (Name base) (e_name e);
  UsedMemoryMiB := default (UsedMemoryMiB base) (e_memory e); SMUtil := default (SMUtil base) (e_sm e);
  MemoryUtil := default (MemoryUtil base) (e_memUtil e); EncoderUtil := default (EncoderUtil base) (e_enc e);
  DecoderUtil := default (DecoderUtil base) (e_dec e) |}.
Definition blank (pid : Z) : Process := {|
  PID := pid; Type_ := "C"; Name := ""; UsedMemoryMiB := 0; SMUtil := 0; MemoryUtil := 0; EncoderUtil := 0;
  DecoderUtil := 0 |}.

Fixpoint edit_first (pid : Z) (f : Process -> Process) (l : list Process) : option (list Process) :=
  match l with
  | [] => None
  | p :: rest => if PID p =? pid then Some (f p :: rest) else (fun k => p :: k) <$> edit_first pid f rest
  end.

(** The contract of [process add] and [process update]. *)
Definition apply_edit (add : bool) (e : ProcessEdit) (l : list Process) : option (list Process) :=
  if negb (edit_in_range e) then None else
  if add then if bool_decide (e_pid e ∈ map PID l) then None else Some (l ++ [edited e (blank (e_pid e))])
  else edit_first (e_pid e) (edited e) l.

(** *** Lemmas *)
Lemma mib_text_size m : u64 m -> parseMiBAligned (mib_text m) =
  if m * mib <=? u64_max then Ok m else Err (Errorf "memory size %q overflows bytes" [AS (mib_text m)]).
Proof.
  intros Hm. unfold parseMiBAligned. assert (mib_text m = size_text 0 0 0 m "MiB") as ->.
  { unfold size_text, mib_text. cbn [spaces]. by rewrite append_nil_r. }
  rewrite (parseBytes_size 0 0 0 m "MiB" mib) by first [done | unfold units, mib; set_solver].
  destruct (_ <=? _); [| done]. cbn [mbind result_bind]. rewrite Z.mod_mul, Z.div_mul by done. done.
Qed.

Lemma mib_text_nonempty m : mib_text m <> "".
Proof. unfold mib_text. pose proof (FormatUint_nonempty m). by destruct (FormatUint m). Qed.

Lemma edit_first_index pid f l : edit_first pid f l =
  match processIndex l pid with
  | Some i => match l !! i with Some p => Some (<[i := f p]> l) | None => None end
  | None => None
  end.
Proof.
  induction l as [| p l IH]; [done |]. cbn [edit_first processIndex]. destruct (PID p =? pid); [done |].
  rewrite IH. destruct (processIndex l pid) as [i |]; [| done]. cbn. by destruct (l !! i).
Qed.

(** The fields a printed edit is parsed to. *)
Record reads (e : ProcessEdit) (f : Fields) : Prop := {
  rd_pid : fl_pid f = e_pid e;
  rd_gpu : fl_gpu f = e_gpu e;
  rd_memory : fl_memory f = default "" (mib_text <$> e_memory e) /\ fl_provided f "memory" = bool_decide (is_Some (e_memory e));
  rd_name : fl_name f = default "" (e_name e) /\ fl_provided f "name" = bool_decide (is_Some (e_name e));
  rd_type : fl_type f = default "C" (e_type e) /\ fl_provided f "type" = bool_decide (is_Some (e_type e));
  rd_sm : fl_sm f = default 0 (e_sm e) /\ fl_provided f "sm" = bool_decide (is_Some (e_sm e));
  rd_memUtil : fl_memUtil f = default 0 (e_memUtil e) /\ fl_provided f "mem-util" = bool_decide (is_Some (e_memUtil e));
  rd_enc : fl_enc f = default 0 (e_enc e) /\ fl_provided f "enc" = bool_decide (is_Some (e_enc e));
  rd_dec : fl_dec f = default 0 (e_dec e) /\ fl_provided f "dec" = bool_decide (is_Some (e_dec e))
}.

Lemma edit_typed_each e : edit_typed e ->
  u64 (e_pid e) /\ (forall n, e_memory e = Some n -> u64 n) /\ (forall n, e_sm e = Some n -> u64 n) /\
  (forall n, e_memUtil e = Some n -> u64 n) /\ (forall n, e_enc e = Some n -> u64 n) /\
  (forall n, e_dec e = Some n -> u64 n).
Proof.
  intros [Hp Hl]. assert (forall o n, o ∈ [e_memory e; e_sm e; e_memUtil e; e_enc e; e_dec e] -> o = Some n -> u64 n) as H
    by (intros o n Ho ->; exact (Hl _ Ho)).
  split; [done |]. split_and!; intros k Hk; (eapply H; [| exact Hk]); rewrite !elem_of_cons; tauto.
Qed.

Lemma parse_edit e : edit_typed e ->
  exists p, Parse process_flags (edit_args e) = Ok p /\ flag_args p = [] /\ reads e (process_fields p).
Proof.
  intros (Hp & Hm & Hsm & Hmu & He & Hd)%edit_typed_each. unfold Parse, edit_args.
  rewrite flag_loop_uint by first [done | by intros n [= <-]].
  rewrite !flag_loop_string by done. rewrite !flag_loop_uint by done.
  rewrite <- (app_nil_r (opt_args "dec" _)), flag_loop_uint by done. cbn [flag_loop].
  eexists. split; [reflexivity |]. split; [done |].
  constructor; cbn [process_fields fl_pid fl_gpu fl_memory fl_name fl_type fl_sm fl_memUtil fl_enc fl_dec fl_provided];
    unfold flag_num, flag_string, flag_provided; cbn [actual];
    repeat first [rewrite opt_set_eq | rewrite opt_set_ne by done]; rewrite ?lookup_empty; try done.
  - by destruct (e_memory e).
  - by destruct (e_name e).
  - by destruct (e_type e).
  - by destruct (e_sm e).
  - by destruct (e_memUtil e).
  - by destruct (e_enc e).
  - by destruct (e_dec e).
Qed.

Lemma edited_process_ok e f mode old : edit_typed e -> reads e f -> default 0 (e_memory e) * mib <= u64_max ->
  edited_process mode f old =
  Ok (match old with
      | Some p => if String.eqb mode "update" then updated_process f (default 0 (e_memory e)) p
                  else new_process f (default 0 (e_memory e))
      | None => new_process f (default 0 (e_memory e))
      end).
Proof.
  intros (_ & Hm & _)%edit_typed_each Hr Hfit. unfold edited_process. destruct (rd_memory _ _ Hr) as [-> ->].
  destruct (e_memory e) as [m |]; cbn [fmap option_fmap option_map default from_option id] in *.
  - rewrite (proj2 (String.eqb_neq (mib_text m) "") (mib_text_nonempty m)).
    rewrite mib_text_size, (proj2 (Z.leb_le _ _)) by first [done | by apply Hm]. cbn.
    destruct old; [| done]. by destruct (String.eqb mode "update").
  - cbn. destruct old; [| done]. by destruct (String.eqb mode "update").
Qed.

Lemma edited_process_err e f mode old : edit_typed e -> reads e f -> u64_max < default 0 (e_memory e) * mib ->
  exists err, edited_process mode f old = Err err.
Proof.
  intros (_ & Hm & _)%edit_typed_each Hr Hfit. unfold edited_process. destruct (rd_memory _ _ Hr) as [-> ->].
  destruct (e_memory e) as [m |]; cbn [fmap option_fmap option_map default from_option id] in *; [| by vm_compute in Hfit].
  rewrite (proj2 (String.eqb_neq (mib_text m) "") (mib_text_nonempty m)).
  rewrite mib_text_size, (proj2 (Z.leb_gt _ _)) by first [done | by apply Hm]. by eexists.
Qed.

Lemma wrap32_percent n : u64 n -> n <= 100 -> wrap32 n = n.
Proof. intros [? ?] ?. unfold wrap32. apply Z.mod_small. lia. Qed.

Lemma edited_records e f p : edit_typed e -> reads e f -> edit_in_range e = true -> 0 <= e_pid e <= u32_max ->
  new_process f (default 0 (e_memory e)) = edited e (blank (e_pid e)) /\
  updated_process f (default 0 (e_memory e)) p = edited e p.
Proof.
  intros (_ & _ & Hsm & Hmu & He & Hd)%edit_typed_each [Rp _ [_ Rm] [Rn Rn'] [Rt Rt'] [Rs Rs'] [Ru Ru'] [Re Re'] [Rd Rd']] Hr Hpid.
  unfold edit_in_range in Hr. to_prop. destruct Hr as [[[[_ H1] H2] H3] H4].
  assert (forall o, (forall n, o = Some n -> u64 n) -> default 0 o <= 100 -> wrap32 (default 0 o) = default 0 o) as Hw.
  { intros [n |] Hn Hle; [| done]. apply wrap32_percent; [by apply Hn | done]. }
  unfold new_process, updated_process, edited, blank.
  rewrite Rp, Rm, Rn, Rn', Rt, Rt', Rs, Rs', Ru, Ru', Re, Re', Rd, Rd', !Hw by done.
  assert (wrap32 (e_pid e) = e_pid e) as -> by (unfold wrap32; apply Z.mod_small; unfold u32_max in *; lia).
  cbn [PID Type_ Name UsedMemoryMiB SMUtil MemoryUtil EncoderUtil DecoderUtil]. split; [done |].
  assert (forall A (o : option A) d x, (if bool_decide (is_Some o) then default d o else x) = default x o) as Ho by by intros A [].
  by rewrite !Ho.
Qed.

Definition edit_mode (add : bool) : string := if add then "add" else "update".

(** Building the record and checking the percentages, before [g] uses it. *)
Lemma upsert_record {A} e f mode old (g : Process -> A) :
  edit_typed e -> reads e f -> 0 <= e_pid e <= u32_max ->
  let built := process ← edited_process mode f old;
    if (fl_sm f >? 100) || (fl_memUtil f >? 100) || (fl_enc f >? 100) || (fl_dec f >? 100)
    then Err (Errorf "process utilization values must be between 0 and 100" []) else Ok (g process) in
  if edit_in_range e
  then built = Ok (g (match old with
                      | Some p => if String.eqb mode "update" then edited e p else edited e (blank (e_pid e))
                      | None => edited e (blank (e_pid e)) end))
  else exists err, built = Err err.
Proof.
  intros Ht Hr Hpid. cbv zeta. rewrite (proj1 (rd_sm _ _ Hr)), (proj1 (rd_memUtil _ _ Hr)),
    (proj1 (rd_enc _ _ Hr)), (proj1 (rd_dec _ _ Hr)). destruct (edit_in_range e) eqn:Erange.
  - pose proof (edited_records e f (blank 0) Ht Hr Erange Hpid) as [En _].
    assert (forall p, updated_process f (default 0 (e_memory e)) p = edited e p) as Eu
      by (intros p; by apply edited_records).
    unfold edit_in_range in Erange. to_prop. destruct Erange as [[[[H0 H1] H2] H3] H4].
    rewrite (edited_process_ok e) by done. cbn [mbind result_bind].
    rewrite !(proj2 (gtb_false _ _)) by done. cbn [orb]. rewrite En. destruct old; by rewrite ?Eu.
  - destruct (Z.leb_spec (default 0 (e_memory e) * mib) u64_max) as [Hfit | Hbig].
    + rewrite (edited_process_ok e) by done. cbn [mbind result_bind].
      unfold edit_in_range in Erange. rewrite (proj2 (Z.leb_le _ _) Hfit) in Erange. cbn [andb] in Erange.
      destruct (_ || _) eqn:Ebad; [by eexists |]. exfalso. to_prop. lia.
    + destruct (edited_process_err e f mode old Ht Hr Hbig) as (err & ->). by exists err.
Qed.

Lemma upsert_edit add e f l : edit_typed e -> reads e f -> 0 <= e_pid e <= u32_max ->
  match apply_edit add e l with
  | Some k => upsert_list (edit_mode add) f l = Ok k
  | None => exists err, upsert_list (edit_mode add) f l = Err err
  end.
Proof.
  intros Ht Hr Hpid. unfold upsert_list. rewrite (rd_pid _ _ Hr).
  assert (wrap32 (e_pid e) = e_pid e) as -> by (unfold wrap32; apply Z.mod_small; unfold u32_max in *; lia).
  unfold apply_edit. pose proof (processIndex_look l (e_pid e)) as Hi. rewrite edit_first_index.
  destruct (processIndex l (e_pid e)) as [i |].
  - destruct Hi as (p & Hp & Hlook & _). destruct add.
    + rewrite bool_decide_eq_true_2.
      2: { destruct (decide (e_pid e ∈ map PID l)) as [| Hn]; [done |]. apply look_none in Hn. congruence. }
      destruct (edit_in_range e); by eexists.
    + cbn [mbind option_bind]. rewrite Hp. cbn [edit_mode String.eqb Ascii.eqb Bool.eqb andb negb].
      pose proof (upsert_record e f "update" (Some p) (fun q => <[i := q]> l) Ht Hr Hpid) as Hu. cbv zeta in Hu.
      rewrite bool_decide_eq_false_2 by done. by destruct (edit_in_range e).
  - apply look_none in Hi. destruct add; cbn [edit_mode String.eqb Ascii.eqb Bool.eqb andb negb mbind option_bind].
    + rewrite (bool_decide_eq_true_2 (None = None)), (bool_decide_eq_false_2 (e_pid e ∈ map PID l)) by done. cbn [negb].
      pose proof (upsert_record e f "add" None (fun q => l ++ [q]) Ht Hr Hpid) as Hu. cbv zeta in Hu.
      by destruct (edit_in_range e).
    + rewrite (bool_decide_eq_true_2 (None = None)) by done. destruct (edit_in_range e); by eexists.
Qed.

Section edit_command.
Context {W : Type} `{OS W} `{Console W}.

Lemma edit_dispatch (r : Runtime W) client mg add e w :
  rt_Client r = Some client -> rt_Manager r = Some mg -> edit_typed e ->
  exists f, reads e f /\
  Execute r ("process" :: edit_mode add :: edit_args e) w =
  if (fl_pid f =? 0) || (fl_pid f >? u32_max) || String.eqb (fl_gpu f) ""
  then (Err (Errorf "--pid and --gpu are required" []), w) else
  if negb (String.eqb (fl_type f) "C") && negb (String.eqb (fl_type f) "G")
  then (Err (Errorf "process type must be C or G" []), w) else
  edit_processes r (fl_gpu f) (upsert_list (edit_mode add) f) w.
Proof.
  intros Hc Hm Ht. destruct (parse_edit e Ht) as (p & Hp & Ha & Hr). exists (process_fields p). split; [done |].
  assert (Execute r ("process" :: edit_mode add :: edit_args e) w = upsertProcess r (edit_mode add) (edit_args e) w) as ->.
  { unfold Execute, execute_with. rewrite Hc, Hm. by destruct add. }
  unfold upsertProcess. rewrite (lift_bind_ok _ _ _ _ Hp), Ha. cbv zeta.
  destruct (_ || _ || _); [done |]. by destruct (_ && _).
Qed.

Lemma addressed_checks e f : reads e f -> u64 (e_pid e) -> edit_addressed e =
  negb ((fl_pid f =? 0) || (fl_pid f >? u32_max) || String.eqb (fl_gpu f) "") &&
  negb (negb (String.eqb (fl_type f) "C") && negb (String.eqb (fl_type f) "G")).
Proof.
  intros Hr _. unfold edit_addressed. rewrite (rd_pid _ _ Hr), (rd_gpu _ _ Hr), (proj1 (rd_type _ _ Hr)).
  rewrite Z.gtb_ltb, Z.ltb_antisym, !negb_orb, negb_andb, !negb_involutive. by rewrite <- !andb_assoc.
Qed.

Lemma edit_processes_run (r : Runtime W) mg target edit w : rt_Manager r = Some mg ->
  edit_processes r target edit w =
  match observe.Device (mg_Observer mg) target w with
  | (Err err, w1) => (Err err, w1)
  | (Ok d, w1) =>
      match edit (Processes d) with
      | Ok l => ReplaceProcessesFromState (Some mg) target d l w1
      | Err err => (Err err, w1)
      end
  end.
Proof.
  intros Hm. unfold edit_processes, manager_observer, mbind, M_bind. rewrite Hm. cbn [option_bind].
  destruct (observe.Device (mg_Observer mg) target w) as [[d | err] w1]; [| done]. by destruct (edit (Processes d)).
Qed.
End edit_command.

(** ** Properties *)

(** C30. A size written as a decimal number with a unit, in any spacing, is
    parsed to the exact number of bytes when that fits in 64 bits and is
    refused otherwise; conversely every accepted text is such a number times
    the multiplier of its unit: no size wraps around. *)
Theorem parseBytes_exact :
  (forall i n j value suffix mult, u64 value -> (suffix, mult) ∈ ("", 1) :: units -> (suffix = "" -> n = O) ->
     parseBytes (size_text i n j value suffix) =
     if value * mult <=? u64_max then Ok (value * mult)
     else Err (Errorf "memory size %q overflows bytes" [AS (size_text i n j value suffix)])) /\
  (forall raw bytes, parseBytes raw = Ok bytes ->
     exists mult text value, split_unit (TrimSpace raw) = (mult, text) /\ ParseUint text u64_max = Ok value /\
       bytes = value * mult /\ u64 bytes).
Proof. split; [exact parseBytes_size | exact parseBytes_inv]. Qed.

(** C22. A memory command line on a node: the text of the command, the lock,
    the query of the GPU, the accounting and the mock control command
    together implement the abstract step on the node's GPUs.  The named GPU
    gets the used and free bytes of the step and nothing else changes; a
    command the step refuses (a malformed or overflowing size, an unknown
    GPU, memory that is not free or not releasable) fails and changes no GPU. *)
Theorem memory_command_on_node {W} `{NvmlMock W} `{Console W} (r : Runtime W) client mg c w :
  rt_Client r = Some client -> rt_Manager r = Some mg -> wired mg -> lockable mg w -> memory_command_ok c ->
  let out := Execute r (memory_args c) w in
  match memory_spec c (gpus w) with
  | Some gs => out.1 = Ok tt /\ gpus out.2 = gs
  | None => (exists e, out.1 = Err e) /\ gpus out.2 = gpus w
  end.
Proof. intros Hc Hm Hw Hl Hok. by apply (memory_command_run r client mg). Qed.

(** C4. [scenario run] of a document of memory commands (without delays and
    events) refines the abstract run on the node's GPUs: initial operations
    and steps in order until the first one the accounting refuses, then
    every cleanup operation whatever has failed; the command succeeds exactly
    when no step of the abstract run is refused. *)
Theorem scenario_memory_refinement {W} `{NvmlMock W} `{Console W} (r : Runtime W) client mg
    path doc initial steps cleanup w :
  rt_Client r = Some client -> rt_Manager r = Some mg -> wired mg -> (forall w, lockable mg w) ->
  open_document path w = Ok (Ok doc, Err (Sentinel EOF)) -> scenario.Validate doc = Ok tt ->
  Forall scenario.untimed (scenario.Steps doc) ->
  map scenario.Args (scenario.Initial doc) = map memory_args initial ->
  map (fun s => scenario.Args (scenario.st_Do s)) (scenario.Steps doc) = map memory_args steps ->
  map scenario.Args (scenario.Cleanup doc) = map memory_args cleanup ->
  Forall memory_command_ok (initial ++ steps ++ cleanup) ->
  let out := Execute r ["scenario"; "run"; path] w in
  let '(ok1, gs1) := spec_stopping (initial ++ steps) (gpus w) in
  let '(ok2, gs2) := spec_attempting cleanup gs1 in
  is_ok out.1 = ok1 && ok2 /\ gpus out.2 = gs2.
Proof.
  intros Hc Hm Hw Hl Hopen Hv Hu Ei Es Ec Hok out.
  rewrite app_assoc in Hok. apply Forall_app in Hok as [Hmain Hclean].
  pose proof (run_document_untimed r client mg Hc Hm path doc w Hopen Hv Hu) as Hrun.
  rewrite Ei, Es, Ec, <- map_app in Hrun.
  pose proof (run_stopping_spec r client mg Hc Hm Hw Hl (initial ++ steps) w Hmain) as Hstop.
  destruct (scenario.run_stopping _ _ w) as [ok1 w1]. rewrite Hstop.
  pose proof (run_attempting_spec r client mg Hc Hm Hw Hl cleanup w1 Hclean) as Hattempt.
  destruct (scenario.run_attempting _ _ w1) as [ok2 w2]. rewrite Hattempt.
  cbv zeta in Hrun. fold out in Hrun. injection Hrun as E1 E2. by rewrite E1, E2.
Qed.

(** C36. [process add] and [process update] do exactly what their arguments
    say: an edit whose pid, GPU or type is unusable is refused before
    anything is read; otherwise the named GPU is read, and the manager is
    asked to replace the processes it has by the edited list, in which only
    the addressed process differs, and only in the fields that were given.
    An edit of a process that already or does not exist, or with a value out
    of range, changes nothing. *)
Theorem process_edit_command {W} `{OS W} `{Console W} (r : Runtime W) client mg add e w :
  rt_Client r = Some client -> rt_Manager r = Some mg -> edit_typed e ->
  let out := Execute r ("process" :: edit_mode add :: edit_args e) w in
  if edit_addressed e then
    match observe.Device (mg_Observer mg) (e_gpu e) w with
    | (Err err, w1) => out = (Err err, w1)
    | (Ok d, w1) =>
        match apply_edit add e (Processes d) with
        | Some l => out = ReplaceProcessesFromState (Some mg) (e_gpu e) d l w1
        | None => (exists err, out.1 = Err err) /\ out.2 = w1
        end
    end
  else (exists err, out.1 = Err err) /\ out.2 = w.
Proof.
  intros Hc Hm Ht. cbv zeta. destruct (edit_dispatch r client mg add e w Hc Hm Ht) as (f & Hr & ->).
  rewrite (addressed_checks e f Hr (proj1 Ht)).
  destruct (_ || _ || _) eqn:E1; [split; [by eexists | done] |].
  cbn [negb andb]. destruct (negb (String.eqb (fl_type f) "C") && _) eqn:E2; [split; [by eexists | done] |]. cbn [negb andb].
  rewrite (edit_processes_run _ _ _ _ _ Hm), (rd_gpu _ _ Hr).
  destruct (observe.Device (mg_Observer mg) (e_gpu e) w) as [[d | err] w1]; [| done].
  assert (0 <= e_pid e <= u32_max) as Hpid.
  { rewrite (rd_pid _ _ Hr) in E1. to_prop. destruct Ht as [Ht _]. unfold u64 in Ht. lia. }
  pose proof (upsert_edit add e f (Processes d) Ht Hr Hpid) as Hu.
  destruct (apply_edit add e (Processes d)) as [l |].
  - by rewrite Hu.
  - destruct Hu as (err & ->). split; [by eexists | done].
Qed.

(** ** Witnesses: a console on the in-memory node *)
Definition demo_command (op : MemoryOp) (size : string) : MemoryCommand := {| mc_gpu := 0; mc_op := op; mc_size := size |}.
Definition demo_operation (c : MemoryCommand) : scenario.Operation := {| scenario.Args := memory_args c |}.
Definition demo_initial : list MemoryCommand := [demo_command MReserve "1 GiB"; demo_command MRelease "512MiB"].
Definition demo_steps : list MemoryCommand := [demo_command MReserve "64GiB"; demo_command MUse "5GiB"].
Definition demo_cleanup : list MemoryCommand := [demo_command MUse "1GiB"; demo_command MRelease "512MiB"].
Definition demo_document : scenario.Document := {|
  scenario.Version := 1; scenario.doc_Base := None;
  scenario.Initial := map demo_operation demo_initial;
  scenario.Steps := map (fun c => {| scenario.st_Name := "step"; scenario.st_After := ""; scenario.st_Event := "";
                                     scenario.st_Do := demo_operation c |}) demo_steps;
  scenario.Cleanup := map demo_operation demo_cleanup |}.

#[export] Instance demo_console : Console Machine := {
  stdout_write _ w := (Ok tt, w); stderr_write _ w := (Ok tt, w); write_file _ _ w := (Ok tt, w);
  open_document _ _ := Ok (Ok demo_document, Err (Sentinel EOF));
  timer _ _ w := (Ok tt, w); interrupted _ := None; embedded_catalog := Ok config.demo_catalog;
  printable_rune _ := false
}.

Definition demo_client : Client Machine := New "" "" "".
Definition demo_runtime : Runtime Machine :=
  {| rt_Client := Some demo_client; rt_Manager := Some demo_manager; rt_Stdin := "" |}.

Definition command_okb (c : MemoryCommand) : bool :=
  bool_decide (int64 (mc_gpu c)) && match parseBytes (mc_size c) with Ok b => b mod mib =? 0 | Err _ => true end.
Lemma command_okb_ok c : command_okb c = true -> memory_command_ok c.
Proof.
  unfold command_okb. intros [Hi Hb]%andb_true_iff. apply bool_decide_eq_true in Hi. split; [done |].
  intros b E. rewrite E in Hb. by apply Z.eqb_eq.
Qed.

Lemma parseBytes_exact_witness :
  parseBytes " 8 GiB" = Ok (8 * 1073741824) /\ exists e, parseBytes "17179869184GiB" = Err e.
Proof.
  destruct parseBytes_exact as [Hsize _]. split.
  - apply (Hsize 1%nat 1%nat 0%nat 8 "GiB" 1073741824); [by vm_compute | right; left | done].
  - eexists. apply (Hsize 0%nat 0%nat 0%nat 17179869184 "GiB" 1073741824); [by vm_compute | right; left | done].
Defined.

Lemma memory_command_on_node_witness :
  (Execute demo_runtime ["gpu"; "0"; "memory"; "reserve"; "1 GiB"] demo_machine).1 = Ok tt /\
  exists e, (Execute demo_runtime ["gpu"; "0"; "memory"; "used=1GiB"] demo_machine).1 = Err e.
Proof.
  split.
  - refine (proj1 (memory_command_on_node demo_runtime demo_client demo_manager (demo_command MReserve "1 GiB")
      demo_machine eq_refl eq_refl demo_wired (demo_lockable _) _)). by apply command_okb_ok.
  - refine (proj1 (memory_command_on_node demo_runtime demo_client demo_manager (demo_command MUse "1GiB")
      demo_machine eq_refl eq_refl demo_wired (demo_lockable _) _)). by apply command_okb_ok.
Defined.

Lemma scenario_memory_refinement_witness :
  is_ok (Execute demo_runtime ["scenario"; "run"; "demo.json"] demo_machine).1 = false /\
  map UsedBytes (machine_gpus (Execute demo_runtime ["scenario"; "run"; "demo.json"] demo_machine).2) =
  [3072 * mib; 0].
Proof.
  pose proof (scenario_memory_refinement demo_runtime demo_client demo_manager "demo.json" demo_document
    demo_initial demo_steps demo_cleanup demo_machine eq_refl eq_refl demo_wired demo_lockable eq_refl) as Hrun.
  destruct (spec_stopping (demo_initial ++ demo_steps) (gpus demo_machine)) as [ok1 gs1] eqn:E1.
  destruct (spec_attempting demo_cleanup gs1) as [ok2 gs2] eqn:E2.
  destruct Hrun as [Hok Hgpus]; [by vm_compute | by repeat constructor | done .. | |].
  { repeat constructor; by apply command_okb_ok. }
  vm_compute in E1. injection E1 as <- <-. vm_compute in E2. injection E2 as <- <-.
  split; [exact Hok |]. exact (f_equal (map UsedBytes) Hgpus).
Defined.

Definition demo_edit : ProcessEdit := {|
  e_pid := 7; e_gpu := "0"; e_memory := Some 1024; e_name := None; e_type := None; e_sm := Some 40;
  e_memUtil := None; e_enc := None; e_dec := None |}.

Lemma process_edit_command_witness :
  (exists d w1, Execute demo_runtime ("process" :: "update" :: edit_args demo_edit) demo_machine =
     ReplaceProcessesFromState (Some demo_manager) "0" d
       [edited demo_edit (demo_worker 7 2048); demo_worker 9 512] w1) /\
  exists e, (Execute demo_runtime ("process" :: "add" :: edit_args demo_edit) demo_machine).1 = Err e.
Proof.
  assert (edit_typed demo_edit) as Ht.
  { split; [by vm_compute |]. intros n Hn.
    repeat (apply elem_of_cons in Hn as [-> | Hn]; [by vm_compute |]). by apply elem_of_nil in Hn. }
  pose proof (process_edit_command demo_runtime demo_client demo_manager false demo_edit demo_machine eq_refl eq_refl Ht) as Hu.
  pose proof (process_edit_command demo_runtime demo_client demo_manager true demo_edit demo_machine eq_refl eq_refl Ht) as Ha.
  assert (observe.Device (mg_Observer demo_manager) "0" demo_machine =
    (Ok (demo_gpu 0 "GPU-aa" 3072 13000 [demo_worker 7 2048; demo_worker 9 512]), demo_machine)) as Hd.
  { rewrite (Device_gpus _ "0" demo_machine (wired_observer _ demo_wired)). reflexivity. }
  cbv zeta in Hu, Ha. cbn [e_gpu demo_edit] in Hu, Ha. rewrite Hd in Hu, Ha.
  split; [| exact (proj1 Ha)]. eexists _, _. exact Hu.
Defined.

End controlcli.
