(* ===== verification/LlamaConfig.v ===== *)
(** * Configuration of the fake llama server: [internal/fakellama/config.go]

    Environment variables and command-line arguments to a [Config].  The
    upper-case form of a text that is not ASCII is Unicode data, the
    parameter [unicode_upper]. *)
From Stdlib Require Import SpecFloat.
From S2P Require Import Prelude GoStrings GoStrconv GoTime GoFlag GoFloat GoRat.

Module llama.

(** ** Data *)
Record Config := mkConfig {
  Host : string;
  Port : Z;
  ModelPath : string;
  Targets : list string;
  TensorSplit : list spec_float;
  ContextSize : Z;
  VRAMBytes : Z;
  VRAMExplicit : bool;
  KVBytesPerToken : Z;
  LoadDelay : Z;
  StartupFail : bool;
  ForceOOM : bool;
  CrashAfterReady : Z;
  HangShutdown : bool;
  GrowthAfter : Z;
  GrowthBytes : Z;
  SMUtil : Z;
  MemoryUtil : Z;
  TokenDelay : Z;
  Response : string
}.

(** Assignments to one field. *)
Definition set_Host (v : string) (c : Config) : Config :=
  let 'mkConfig _ x1 x2 x3 x4 x5 x6 x7 x8 x9 x10 x11 x12 x13 x14 x15 x16 x17 x18 x19 := c in
  mkConfig v x1 x2 x3 x4 x5 x6 x7 x8 x9 x10 x11 x12 x13 x14 x15 x16 x17 x18 x19.
Definition set_Port (v : Z) (c : Config) : Config :=
  let 'mkConfig x0 _ x2 x3 x4 x5 x6 x7 x8 x9 x10 x11 x12 x13 x14 x15 x16 x17 x18 x19 := c in
  mkConfig x0 v x2 x3 x4 x5 x6 x7 x8 x9 x10 x11 x12 x13 x14 x15 x16 x17 x18 x19.
Definition set_ModelPath (v : string) (c : Config) : Config :=
  let 'mkConfig x0 x1 _ x3 x4 x5 x6 x7 x8 x9 x10 x11 x12 x13 x14 x15 x16 x17 x18 x19 := c in
  mkConfig x0 x1 v x3 x4 x5 x6 x7 x8 x9 x10 x11 x12 x13 x14 x15 x16 x17 x18 x19.
Definition set_Targets (v : list string) (c : Config) : Config :=
  let 'mkConfig x0 x1 x2 _ x4 x5 x6 x7 x8 x9 x10 x11 x12 x13 x14 x15 x16 x17 x18 x19 := c in
  mkConfig x0 x1 x2 v x4 x5 x6 x7 x8 x9 x10 x11 x12 x13 x14 x15 x16 x17 x18 x19.
Definition set_TensorSplit (v : list spec_float) (c : Config) : Config :=
  let 'mkConfig x0 x1 x2 x3 _ x5 x6 x7 x8 x9 x10 x11 x12 x13 x14 x15 x16 x17 x18 x19 := c in
  mkConfig x0 x1 x2 x3 v x5 x6 x7 x8 x9 x10 x11 x12 x13 x14 x15 x16 x17 x18 x19.
Definition set_ContextSize (v : Z) (c : Config) : Config :=
  let 'mkConfig x0 x1 x2 x3 x4 _ x6 x7 x8 x9 x10 x11 x12 x13 x14 x15 x16 x17 x18 x19 := c in
  mkConfig x0 x1 x2 x3 x4 v x6 x7 x8 x9 x10 x11 x12 x13 x14 x15 x16 x17 x18 x19.
Definition set_VRAMBytes (v : Z) (c : Config) : Config :=
  let 'mkConfig x0 x1 x2 x3 x4 x5 _ x7 x8 x9 x10 x11 x12 x13 x14 x15 x16 x17 x18 x19 := c in
  mkConfig x0 x1 x2 x3 x4 x5 v x7 x8 x9 x10 x11 x12 x13 x14 x15 x16 x17 x18 x19.
Definition set_VRAMExplicit (v : bool) (c : Config) : Config :=
  let 'mkConfig x0 x1 x2 x3 x4 x5 x6 _ x8 x9 x10 x11 x12 x13 x14 x15 x16 x17 x18 x19 := c in
  mkConfig x0 x1 x2 x3 x4 x5 x6 v x8 x9 x10 x11 x12 x13 x14 x15 x16 x17 x18 x19.
Definition set_KVBytesPerToken (v : Z) (c : Config) : Config :=
  let 'mkConfig x0 x1 x2 x3 x4 x5 x6 x7 _ x9 x10 x11 x12 x13 x14 x15 x16 x17 x18 x19 := c in
  mkConfig x0 x1 x2 x3 x4 x5 x6 x7 v x9 x10 x11 x12 x13 x14 x15 x16 x17 x18 x19.
Definition set_LoadDelay (v : Z) (c : Config) : Config :=
  let 'mkConfig x0 x1 x2 x3 x4 x5 x6 x7 x8 _ x10 x11 x12 x13 x14 x15 x16 x17 x18 x19 := c in
  mkConfig x0 x1 x2 x3 x4 x5 x6 x7 x8 v x10 x11 x12 x13 x14 x15 x16 x17 x18 x19.
Definition set_StartupFail (v : bool) (c : Config) : Config :=
  let 'mkConfig x0 x1 x2 x3 x4 x5 x6 x7 x8 x9 _ x11 x12 x13 x14 x15 x16 x17 x18 x19 := c in
  mkConfig x0 x1 x2 x3 x4 x5 x6 x7 x8 x9 v x11 x12 x13 x14 x15 x16 x17 x18 x19.
Definition set_ForceOOM (v : bool) (c : Config) : Config :=
  let 'mkConfig x0 x1 x2 x3 x4 x5 x6 x7 x8 x9 x10 _ x12 x13 x14 x15 x16 x17 x18 x19 := c in
  mkConfig x0 x1 x2 x3 x4 x5 x6 x7 x8 x9 x10 v x12 x13 x14 x15 x16 x17 x18 x19.
Definition set_CrashAfterReady (v : Z) (c : Config) : Config :=
  let 'mkConfig x0 x1 x2 x3 x4 x5 x6 x7 x8 x9 x10 x11 _ x13 x14 x15 x16 x17 x18 x19 := c in
  mkConfig x0 x1 x2 x3 x4 x5 x6 x7 x8 x9 x10 x11 v x13 x14 x15 x16 x17 x18 x19.
Definition set_HangShutdown (v : bool) (c : Config) : Config :=
  let 'mkConfig x0 x1 x2 x3 x4 x5 x6 x7 x8 x9 x10 x11 x12 _ x14 x15 x16 x17 x18 x19 := c in
  mkConfig x0 x1 x2 x3 x4 x5 x6 x7 x8 x9 x10 x11 x12 v x14 x15 x16 x17 x18 x19.
Definition set_GrowthAfter (v : Z) (c : Config) : Config :=
  let 'mkConfig x0 x1 x2 x3 x4 x5 x6 x7 x8 x9 x10 x11 x12 x13 _ x15 x16 x17 x18 x19 := c in
  mkConfig x0 x1 x2 x3 x4 x5 x6 x7 x8 x9 x10 x11 x12 x13 v x15 x16 x17 x18 x19.
Definition set_GrowthBytes (v : Z) (c : Config) : Config :=
  let 'mkConfig x0 x1 x2 x3 x4 x5 x6 x7 x8 x9 x10 x11 x12 x13 x14 _ x16 x17 x18 x19 := c in
  mkConfig x0 x1 x2 x3 x4 x5 x6 x7 x8 x9 x10 x11 x12 x13 x14 v x16 x17 x18 x19.
Definition set_SMUtil (v : Z) (c : Config) : Config :=
  let 'mkConfig x0 x1 x2 x3 x4 x5 x6 x7 x8 x9 x10 x11 x12 x13 x14 x15 _ x17 x18 x19 := c in
  mkConfig x0 x1 x2 x3 x4 x5 x6 x7 x8 x9 x10 x11 x12 x13 x14 x15 v x17 x18 x19.
Definition set_MemoryUtil (v : Z) (c : Config) : Config :=
  let 'mkConfig x0 x1 x2 x3 x4 x5 x6 x7 x8 x9 x10 x11 x12 x13 x14 x15 x16 _ x18 x19 := c in
  mkConfig x0 x1 x2 x3 x4 x5 x6 x7 x8 x9 x10 x11 x12 x13 x14 x15 x16 v x18 x19.
Definition set_TokenDelay (v : Z) (c : Config) : Config :=
  let 'mkConfig x0 x1 x2 x3 x4 x5 x6 x7 x8 x9 x10 x11 x12 x13 x14 x15 x16 x17 _ x19 := c in
  mkConfig x0 x1 x2 x3 x4 x5 x6 x7 x8 x9 x10 x11 x12 x13 x14 x15 x16 x17 v x19.
Definition set_Response (v : string) (c : Config) : Config :=
  let 'mkConfig x0 x1 x2 x3 x4 x5 x6 x7 x8 x9 x10 x11 x12 x13 x14 x15 x16 x17 x18 _ := c in
  mkConfig x0 x1 x2 x3 x4 x5 x6 x7 x8 x9 x10 x11 x12 x13 x14 x15 x16 x17 x18 v.

(** ** Texts and numbers *)
Definition is_ascii (s : string) : bool := sforall (fun c => byte_val c <? 128) s.
Definition ascii_upper (c : ascii) : ascii :=
  if in_range 97 (byte_val c) 122 then byte_of (byte_val c - 32) else c.
Fixpoint string_map (f : ascii -> ascii) (s : string) : string :=
  match s with c ::: r => f c ::: string_map f r | EmptyString => EmptyString end.

(** [strings.EqualFold(s, word)] for a lower-case ASCII word: two runes
    beyond ASCII fold to ASCII letters (U+017F to s, U+212A to k). *)
Fixpoint equal_fold (s word : string) : bool :=
  match word, s with
  | EmptyString, _ => String.eqb s ""
  | _, EmptyString => false
  | w ::: word', c ::: r =>
      if lower_byte c =? byte_val w then equal_fold r word' else
      match r with
      | c2 ::: r2 =>
          if char_eqb w "s" && (byte_val c =? 0xC5) && (byte_val c2 =? 0xBF) then equal_fold r2 word' else
          match r2 with
          | c3 ::: r3 =>
              char_eqb w "k" && (byte_val c =? 0xE2) && (byte_val c2 =? 0x84) && (byte_val c3 =? 0xAA) &&
              equal_fold r3 word'
          | EmptyString => false
          end
      | EmptyString => false
      end
  end.

Definition is_separator (c : ascii) : bool :=
  char_eqb c "," || char_eqb c ";" || char_eqb c " " || (byte_val c =? 9).

(** [splitList]. *)
Definition splitList (raw : string) : list string :=
  List.filter (fun value => negb (String.eqb value "")) (map TrimSpace (FieldsFunc raw is_separator)).

Definition true_words : list string := ["1"; "t"; "T"; "true"; "TRUE"; "True"].
Definition false_words : list string := ["0"; "f"; "F"; "false"; "FALSE"; "False"].
Definition ParseBool (s : string) : result bool :=
  if existsb (String.eqb s) true_words then Ok true else
  if existsb (String.eqb s) false_words then Ok false else Err (num_error "ParseBool" s ErrSyntax).

Definition parsePort (raw : string) : result Z :=
  let bad := Errorf "invalid port %q" [AS raw] in
  match Atoi (TrimSpace raw) with
  | Ok port => if (port <? 0) || (port >? 65535) then Err bad else Ok port
  | Err _ => Err bad
  end.

Definition parsePercent (raw : string) : result Z :=
  let bad := Errorf "invalid percentage %q" [AS raw] in
  match ParseUint (TrimSpace raw) u32_max with
  | Ok value => if value >? 100 then Err bad else Ok value
  | Err _ => Err bad
  end.

Definition parse_duration (bad : error) (raw : string) : result Z :=
  match ParseDuration raw with
  | Ok value => if value <? 0 then Err bad else Ok value
  | Err _ => Err bad
  end.

(** [durationValue] on a value that was read. *)
Definition durationValue (raw : string) : result Z := parse_duration (Errorf "invalid duration %q" [AS raw]) raw.

Definition parseOptionalBool (inline : option string) (defaultValue : bool) : result bool :=
  match inline with
  | None => Ok defaultValue
  | Some raw =>
      match ParseBool (TrimSpace raw) with
      | Ok value => Ok value
      | Err _ => Err (Errorf "invalid boolean %q" [AS raw])
      end
  end.

(** A weight: a float that is finite and not negative. *)
Definition parse_weight (part : string) : result spec_float :=
  let bad := Errorf "invalid tensor split value %q" [AS part] in
  match ParseFloat part with
  | Ok value =>
      match value with
      | S754_infinity _ | S754_nan => Err bad
      | _ => if SFltb value (S754_zero false) then Err bad else Ok value
      end
  | Err _ => Err bad
  end.

Definition parseTensorSplit (raw : string) : result (list spec_float) :=
  match FieldsFunc raw is_separator with
  | [] => Err (Errorf "tensor split is empty" [])
  | parts => map_each (fun _ => parse_weight) 0 parts
  end.

Section config.
(** [strings.ToUpper] of a text that is not ASCII. *)
Context (unicode_upper : string -> string).

Definition ToUpper (s : string) : string := if is_ascii s then string_map ascii_upper s else unicode_upper s.

Definition size_units : list (string * Z) := [
  ("GIB", 1024 * 1024 * 1024); ("GB", 1000 * 1000 * 1000); ("MIB", 1024 * 1024); ("MB", 1000 * 1000);
  ("KIB", 1024); ("KB", 1000); ("B", 1)].

Definition split_size_unit (upper : string) : Z * string :=
  match find_first (fun unit => HasSuffix upper unit.1) size_units with
  | Some (suffix, mult) => (mult, TrimSpace (TrimSuffix upper suffix))
  | None => (1, upper)
  end.

(** [ParseBytes]: the exact rational rounded to the nearest integer, halves
    up. *)
Definition ParseBytes (raw : string) : result Z :=
  let s := TrimSpace raw in
  if String.eqb s "" then Err (Errorf "size is required" []) else
  let '(mult, number) := split_size_unit (ToUpper s) in
  match Rat_SetString number with
  | None => Err (Errorf "invalid size %q" [AS raw])
  | Some (num, den) =>
      if num <? 0 then Err (Errorf "invalid size %q" [AS raw]) else
      let numerator := num * mult in
      let quotient := Z.quot numerator den in
      let remainder := Z.rem numerator den in
      let rounded := if Z.shiftl remainder 1 >=? den then quotient + 1 else quotient in
      if (rounded <? 0) || (rounded >? u64_max) then Err (Errorf "size %q overflows uint64" [AS raw]) else Ok rounded
  end.

(** ** The environment *)
Context (getenv : string -> string).

Definition envOr (key fallback : string) : string :=
  let value := TrimSpace (getenv key) in if negb (String.eqb value "") then value else fallback.

(** An optional variable: [parse] reads the trimmed text when there is one. *)
Definition optional_env {A} (key : string) (absent : A) (parse : string -> result A) : result A :=
  let raw := TrimSpace (getenv key) in if String.eqb raw "" then Ok absent else parse raw.
(** The same with the variable's name before the error. *)
Definition named_env {A} (key : string) (absent : A) (parse : string -> result A) : result A :=
  optional_env key absent (fun raw => wrap_err (Wrapf (key +:+ ": %w") []) (parse raw)).

Definition parseDurationEnv (key : string) : result Z :=
  optional_env key 0 (fun raw => parse_duration (Errorf "invalid %s %q" [AS key; AS raw]) raw).

Definition parseBoolEnv (key : string) : result bool :=
  optional_env key false (fun raw =>
    match ParseBool raw with Ok value => Ok value | Err _ => Err (Errorf "invalid %s %q" [AS key; AS raw]) end).

(** The GPUs the environment names, and whether that is explicit. *)
Definition env_targets : list string * bool :=
  let raw := TrimSpace (getenv "FAKE_LLAMA_GPUS") in
  if negb (String.eqb raw "") then (splitList raw, true) else
  let raw := TrimSpace (getenv "CUDA_VISIBLE_DEVICES") in
  if negb (String.eqb raw "") && negb (String.eqb raw "-1") && negb (equal_fold raw "nodevfiles")
  then (splitList raw, match splitList raw with [] => false | _ => true end) else ([], false).

(** What the arguments are applied to. *)
Record Parsing := { ps_cfg : Config; ps_mainGPU : string; ps_explicit : bool }.

Definition from_env : result Parsing :=
  port ← named_env "FAKE_LLAMA_PORT" 8080 parsePort;
  vram ← named_env "FAKE_LLAMA_VRAM" None (fun raw => value ← ParseBytes raw; Ok (Some value));
  kv ← named_env "FAKE_LLAMA_KV_BYTES_PER_TOKEN" 0 ParseBytes;
  loadDelay ← parseDurationEnv "FAKE_LLAMA_LOAD_DELAY";
  crashAfterReady ← parseDurationEnv "FAKE_LLAMA_CRASH_AFTER_READY";
  growthAfter ← parseDurationEnv "FAKE_LLAMA_VRAM_GROWTH_AFTER";
  tokenDelay ← parseDurationEnv "FAKE_LLAMA_TOKEN_DELAY";
  growth ← named_env "FAKE_LLAMA_VRAM_GROWTH" 0 ParseBytes;
  startupFail ← parseBoolEnv "FAKE_LLAMA_STARTUP_FAIL";
  forceOOM ← parseBoolEnv "FAKE_LLAMA_CUDA_OOM";
  hangShutdown ← parseBoolEnv "FAKE_LLAMA_HANG_SHUTDOWN";
  smUtil ← named_env "FAKE_LLAMA_SM_UTIL" 35 parsePercent;
  memoryUtil ← named_env "FAKE_LLAMA_MEMORY_UTIL" 20 parsePercent;
  let '(targets, explicit) := env_targets in
  Ok {| ps_cfg := {|
          Host := envOr "FAKE_LLAMA_HOST" "127.0.0.1"; Port := port; ModelPath := ""; Targets := targets;
          TensorSplit := []; ContextSize := 0; VRAMBytes := default 0 vram;
          VRAMExplicit := match vram with Some _ => true | None => false end; KVBytesPerToken := kv;
          LoadDelay := loadDelay; StartupFail := startupFail; ForceOOM := forceOOM;
          CrashAfterReady := crashAfterReady; HangShutdown := hangShutdown; GrowthAfter := growthAfter;
          GrowthBytes := growth; SMUtil := smUtil; MemoryUtil := memoryUtil; TokenDelay := tokenDelay;
          Response := envOr "FAKE_LLAMA_RESPONSE" "This is a deterministic fake llama-server response." |};
        ps_mainGPU := ""; ps_explicit := explicit |}.

(** ** The arguments *)
(** What a known flag does: read a value, or be switched on or off. *)
Inductive Action :=
  | TakesValue (set : string -> Parsing -> result Parsing)
  | Toggle (set : bool -> Config -> Config).

Definition on_cfg (f : Config -> Config) (st : Parsing) : Parsing :=
  {| ps_cfg := f (ps_cfg st); ps_mainGPU := ps_mainGPU st; ps_explicit := ps_explicit st |}.

(** A value parsed into one field. *)
Definition parsed {A} (parse : string -> result A) (set : A -> Config -> Config) : Action :=
  TakesValue (fun raw st => v ← parse raw; Ok (on_cfg (set v) st)).

Definition parse_context (raw : string) : result Z :=
  n ← Atoi raw; if n <? 0 then Err (Errorf "invalid --ctx-size %q" [AS raw]) else Ok n.

Definition flag_action (key : string) : option Action :=
  let named names := existsb (String.eqb key) names in
  if named ["model"; "m"] then Some (parsed Ok set_ModelPath) else
  if named ["host"] then Some (parsed Ok set_Host) else
  if named ["port"] then Some (parsed parsePort set_Port) else
  if named ["ctx-size"; "c"] then Some (parsed parse_context set_ContextSize) else
  if named ["main-gpu"] then
    Some (TakesValue (fun raw st =>
      Ok {| ps_cfg := ps_cfg st; ps_mainGPU := TrimSpace raw; ps_explicit := ps_explicit st |})) else
  if named ["tensor-split"] then Some (parsed parseTensorSplit set_TensorSplit) else
  if named ["fake-gpus"] then
    Some (TakesValue (fun raw st =>
      Ok {| ps_cfg := set_Targets (splitList raw) (ps_cfg st); ps_mainGPU := ps_mainGPU st; ps_explicit := true |})) else
  if named ["fake-vram"] then Some (parsed ParseBytes (fun v c => set_VRAMExplicit true (set_VRAMBytes v c))) else
  if named ["fake-kv-bytes-per-token"] then Some (parsed ParseBytes set_KVBytesPerToken) else
  if named ["fake-load-delay"] then Some (parsed durationValue set_LoadDelay) else
  if named ["fake-crash-after-ready"] then Some (parsed durationValue set_CrashAfterReady) else
  if named ["fake-vram-growth-after"] then Some (parsed durationValue set_GrowthAfter) else
  if named ["fake-vram-growth"] then Some (parsed ParseBytes set_GrowthBytes) else
  if named ["fake-token-delay"] then Some (parsed durationValue set_TokenDelay) else
  if named ["fake-response"] then Some (parsed Ok set_Response) else
  if named ["fake-sm-util"] then Some (parsed parsePercent set_SMUtil) else
  if named ["fake-memory-util"] then Some (parsed parsePercent set_MemoryUtil) else
  if named ["fake-startup-fail"] then Some (Toggle set_StartupFail) else
  if named ["fake-cuda-oom"] then Some (Toggle set_ForceOOM) else
  if named ["fake-hang-shutdown"] then Some (Toggle set_HangShutdown) else None.

(** The key and the inline value of an argument. *)
Definition split_arg (raw : string) : string * option string :=
  let text := TrimLeft raw "-" in
  match Cut text "=" with Some (key, inline) => (key, Some inline) | None => (text, None) end.

Fixpoint parse_args (args : list string) (st : Parsing) : result Parsing :=
  match args with
  | [] => Ok st
  | raw :: rest =>
      let '(key, inline) := split_arg raw in
      match flag_action key, inline with
      | None, _ => parse_args rest st
      | Some (Toggle set), _ => b ← parseOptionalBool inline true; parse_args rest (on_cfg (set b) st)
      | Some (TakesValue set), Some value => st1 ← set value st; parse_args rest st1
      | Some (TakesValue set), None =>
          match rest with
          | [] => Err (Errorf "--%s requires a value" [AS key])
          | value :: rest1 => st1 ← set value st; parse_args rest1 st1
          end
      end
  end.

(** The targets when none was named. *)
Fixpoint weighted_targets (i : Z) (weights : list spec_float) : list string :=
  match weights with
  | [] => []
  | w :: rest => (if SFltb (S754_zero false) w then [Itoa i] else []) ++ weighted_targets (i + 1) rest
  end.
Definition default_targets (st : Parsing) : list string :=
  let cfg := ps_cfg st in
  match TensorSplit cfg with
  | [] => if String.eqb (ps_mainGPU st) "" then ["0"] else [ps_mainGPU st]
  | weights => Targets cfg ++ weighted_targets 0 weights
  end.

Definition finish (st : Parsing) : result Config :=
  let cfg := ps_cfg st in
  if String.eqb (TrimSpace (Host cfg)) "" then Err (Errorf "host is required" []) else
  if String.eqb (ModelPath cfg) "" then Err (Errorf "--model is required" []) else
  let cfg := if ps_explicit st then cfg else set_Targets (default_targets st) cfg in
  match Targets cfg with
  | [] => Err (Errorf "at least one fake GPU target is required" [])
  | _ => Ok cfg
  end.

Definition ParseConfig (args : list string) : result Config :=
  st ← from_env;
  st ← parse_args args st;
  finish st.
End config.

(** ** Memory *)
Record FileInfo := { fi_dir : bool; fi_size : Z }.

(** [stat] is [os.Stat] at the time of the call. *)
Definition RequiredVRAMBytes (stat : string -> result FileInfo) (c : Config) : result Z :=
  base ← (if VRAMExplicit c then Ok (VRAMBytes c) else
          info ← wrap_err (Wrapf "stat model %q: %w" [AS (ModelPath c)]) (stat (ModelPath c));
          if fi_dir info then Err (Errorf "model %q is a directory" [AS (ModelPath c)]) else
          if fi_size info <? 0 then Err (Errorf "model size is negative" []) else Ok (fi_size info));
  if (ContextSize c >? 0) && (KVBytesPerToken c >? 0) then
    if ContextSize c >? u64_max / KVBytesPerToken c
    then Err (Errorf "KV cache approximation overflows uint64" []) else
    let kv := ContextSize c ⊗ KVBytesPerToken c in
    if base >? u64_max ⊖ kv then Err (Errorf "simulated VRAM requirement overflows uint64" []) else Ok (base ⊕ kv)
  else Ok base.

(** ** What every parsed configuration satisfies *)
Definition duration_ok (d : Z) : Prop := 0 <= d < int64_cutoff.
(** A float that is finite and not negative. *)
Definition weight_ok (w : spec_float) : Prop :=
  match w with S754_zero _ => True | S754_finite s _ _ => s = false | _ => False end.

Record typed (c : Config) : Prop := {
  t_Port : 0 <= Port c <= 65535;
  t_Targets : Forall (fun target => target <> "") (Targets c);
  t_TensorSplit : Forall weight_ok (TensorSplit c);
  t_ContextSize : 0 <= ContextSize c < int64_cutoff;
  t_VRAMBytes : u64 (VRAMBytes c);
  t_KVBytesPerToken : u64 (KVBytesPerToken c);
  t_LoadDelay : duration_ok (LoadDelay c);
  t_CrashAfterReady : duration_ok (CrashAfterReady c);
  t_GrowthAfter : duration_ok (GrowthAfter c);
  t_GrowthBytes : u64 (GrowthBytes c);
  t_SMUtil : 0 <= SMUtil c <= 100;
  t_MemoryUtil : 0 <= MemoryUtil c <= 100;
  t_TokenDelay : duration_ok (TokenDelay c)
}.

(** *** The readers *)
Lemma parsePort_range raw n : parsePort raw = Ok n -> 0 <= n <= 65535.
Proof. unfold parsePort. destruct (Atoi _); [| done]. destruct (_ || _) eqn:E; [done |]. intros [= <-]. to_prop. lia. Qed.

Lemma parsePercent_range raw n : parsePercent raw = Ok n -> 0 <= n <= 100.
Proof.
  unfold parsePercent. destruct (ParseUint _ _) as [v |] eqn:E; [| done]. apply ParseUint_range in E; [| word].
  destruct (v >? 100) eqn:Ev; [done |]. intros [= <-]. to_prop. lia.
Qed.

Lemma parse_duration_range bad raw n : parse_duration bad raw = Ok n -> duration_ok n.
Proof.
  unfold parse_duration. destruct (ParseDuration raw) as [v |] eqn:E; [| done]. apply ParseDuration_range in E.
  destruct (v <? 0) eqn:Ev; [done |]. intros [= <-]. to_prop. unfold duration_ok, int64_cutoff, max63 in *. lia.
Qed.

Lemma parse_context_range raw n : parse_context raw = Ok n -> 0 <= n < int64_cutoff.
Proof.
  unfold parse_context. intros (v & Hv%ParseInt_range & H)%result_bind_ok. destruct (v <? 0) eqn:E; [done |].
  simplify_eq. to_prop. unfold int64 in Hv. lia.
Qed.

Lemma map_each_Forall {A B} (f : Z -> A -> result B) (P : B -> Prop) i l k :
  (forall j a b, f j a = Ok b -> P b) -> map_each f i l = Ok k -> Forall P k.
Proof.
  intros Hf. revert i k. induction l as [| a l IH]; intros i k; cbn; [by intros [= <-] |].
  intros (b & Hb & (bs & Hbs & [= <-])%result_bind_ok)%result_bind_ok. constructor; eauto.
Qed.

Lemma parse_weight_ok raw w : parse_weight raw = Ok w -> weight_ok w.
Proof.
  unfold parse_weight. destruct (ParseFloat raw) as [[s | s | | s m e] |]; try done; cbn.
  - by intros [= <-].
  - destruct s; [done |]. by intros [= <-].
Qed.

Lemma parseTensorSplit_ok raw ws : parseTensorSplit raw = Ok ws -> Forall weight_ok ws.
Proof.
  unfold parseTensorSplit. destruct (FieldsFunc _ _); [done |]. apply map_each_Forall. intros _. apply parse_weight_ok.
Qed.

Lemma splitList_nonempty raw : Forall (fun target => target <> "") (splitList raw).
Proof.
  apply List.Forall_forall. intros x [_ Hx]%List.filter_In. by to_prop.
Qed.

Lemma env_targets_nonempty getenv : Forall (fun target => target <> "") (env_targets getenv).1.
Proof.
  unfold env_targets. cbv zeta. destruct (negb _); [apply splitList_nonempty |].
  destruct (_ && _); [apply splitList_nonempty | constructor].
Qed.

Section typing.
Context (unicode_upper getenv : string -> string).

Lemma ParseBytes_range raw n : ParseBytes unicode_upper raw = Ok n -> u64 n.
Proof.
  unfold ParseBytes. destruct (String.eqb _ ""); [done |]. destruct (split_size_unit _) as [mult number].
  destruct (Rat_SetString number) as [[num den] |]; [| done]. destruct (num <? 0); [done |]. cbv zeta.
  destruct (_ || _) eqn:E; [done |]. intros [= <-]. to_prop. word.
Qed.

(** *** The environment *)
Lemma optional_env_ok {A} (P : A -> Prop) key absent (parse : string -> result A) v : P absent ->
  (forall raw x, parse raw = Ok x -> P x) -> optional_env getenv key absent parse = Ok v -> P v.
Proof. intros Ha Hp. unfold optional_env. destruct (String.eqb _ ""); [by intros [= <-] | apply Hp]. Qed.

Lemma named_env_ok {A} (P : A -> Prop) key absent (parse : string -> result A) v : P absent ->
  (forall raw x, parse raw = Ok x -> P x) -> named_env getenv key absent parse = Ok v -> P v.
Proof. intros Ha Hp. apply optional_env_ok; [done |]. intros raw x Hx%wrap_err_ok. eauto. Qed.

Lemma from_env_typed st : from_env unicode_upper getenv = Ok st -> typed (ps_cfg st).
Proof.
  unfold from_env. intros H.
  apply result_bind_ok in H as (port & Hport & H). apply (named_env_ok (fun n => 0 <= n <= 65535)) in Hport;
    [| done | apply parsePort_range].
  apply result_bind_ok in H as (vram & Hvram & H).
  apply (named_env_ok (fun v => u64 (default 0 v))) in Hvram;
    [| done | by intros ? ? (x & Hx%ParseBytes_range & [= <-])%result_bind_ok].
  apply result_bind_ok in H as (kv & Hkv & H). apply (named_env_ok u64) in Hkv; [| done | apply ParseBytes_range].
  do 4 (apply result_bind_ok in H as (? & ?Hd & H);
    match goal with Hd : parseDurationEnv _ _ = _ |- _ =>
      apply (optional_env_ok duration_ok) in Hd; [| done | by intros ? ? ?%parse_duration_range] end).
  apply result_bind_ok in H as (growth & Hg & H). apply (named_env_ok u64) in Hg; [| done | apply ParseBytes_range].
  do 3 (apply result_bind_ok in H as (? & _ & H)).
  do 2 (apply result_bind_ok in H as (? & ?Hp & H);
    match goal with Hp : named_env _ _ _ parsePercent = _ |- _ =>
      apply (named_env_ok (fun n => 0 <= n <= 100)) in Hp; [| done | apply parsePercent_range] end).
  destruct (env_targets getenv) as [targets explicit] eqn:E. simplify_eq. constructor; cbn; try done.
  by pose proof (env_targets_nonempty getenv) as Ht; rewrite E in Ht.
Qed.

(** *** The arguments *)
Definition action_ok (a : Action) : Prop :=
  match a with
  | TakesValue set => forall raw st st', typed (ps_cfg st) -> set raw st = Ok st' -> typed (ps_cfg st')
  | Toggle set => forall b c, typed c -> typed (set b c)
  end.

Lemma parsed_ok {A} (P : A -> Prop) (parse : string -> result A) set :
  (forall raw v, parse raw = Ok v -> P v) -> (forall v c, P v -> typed c -> typed (set v c)) ->
  action_ok (parsed parse set).
Proof. intros Hp Hs raw st st' Ht (v & Hv & [= <-])%result_bind_ok. cbn. eauto. Qed.

(** A setter keeps the other fields. *)
Ltac set_field := intros; match goal with H : typed ?c |- _ => destruct c, H end; by constructor.

Lemma flag_action_typed key a : flag_action unicode_upper key = Some a -> action_ok a.
Proof.
  unfold flag_action. cbv zeta.
  repeat match goal with |- (if ?b then Some _ else _) = _ -> _ => destruct b; [intros [= <-] |] end; last done.
  all: try (intros b c Ht; set_field).
  all: first
    [ apply (parsed_ok (fun _ : string => True)); [done | set_field]
    | apply (parsed_ok _ _ _ parsePort_range); set_field
    | apply (parsed_ok _ _ _ parse_context_range); set_field
    | apply (parsed_ok _ _ _ parseTensorSplit_ok); set_field
    | apply (parsed_ok _ _ _ ParseBytes_range); set_field
    | apply (parsed_ok _ _ _ (fun raw => parse_duration_range _ raw)); set_field
    | apply (parsed_ok _ _ _ parsePercent_range); set_field
    | idtac ].
  - by intros raw st st' Ht [= <-].
  - intros raw st st' Ht [= <-]. cbn. pose proof (splitList_nonempty raw). set_field.
Qed.

Lemma parse_args_typed args st st' : typed (ps_cfg st) -> parse_args unicode_upper args st = Ok st' -> typed (ps_cfg st').
Proof.
  remember (length args) as n eqn:Hn. revert args Hn st.
  induction n as [n IH] using lt_wf_ind. intros args -> st Ht. destruct args as [| raw rest]; cbn; [by intros [= <-] |].
  destruct (split_arg raw) as [key inline]. destruct (flag_action _ key) as [[set | set] |] eqn:Ha.
  - apply flag_action_typed in Ha. destruct inline as [v |].
    + intros (st1 & Hs%Ha & H)%result_bind_ok; [| done]. eapply (IH (length rest)); eauto.
    + destruct rest as [| v rest]; [done |].
      intros (st1 & Hs%Ha & H)%result_bind_ok; [| done]. eapply (IH (length rest)); eauto. cbn. lia.
  - apply flag_action_typed in Ha. intros (b & _ & H)%result_bind_ok. eapply (IH (length rest)); [.. | exact H]; eauto.
    apply Ha, Ht.
  - apply (IH (length rest)); cbn; auto.
Qed.

Lemma default_targets_nonempty st : Forall (fun target => target <> "") (Targets (ps_cfg st)) ->
  Forall (fun target => target <> "") (default_targets st).
Proof.
  intros Ht. unfold default_targets. cbv zeta. destruct (TensorSplit (ps_cfg st)) as [| w ws].
  - destruct (String.eqb_spec (ps_mainGPU st) ""); by repeat constructor.
  - apply Forall_app. split; [done |]. generalize (w :: ws), 0. clear. induction l as [| w l IH]; intros i; cbn; [done |].
    apply Forall_app. split; [| done]. destruct (SFltb _ w); [| done]. constructor; [| done].
    unfold Itoa. destruct (i <? 0); [done |]. apply FormatUint_nonempty.
Qed.

(** What [finish] requires of, and does to, what was parsed. *)
Lemma finish_ok st c : finish st = Ok c <->
  c = (if ps_explicit st then ps_cfg st else set_Targets (default_targets st) (ps_cfg st)) /\
  TrimSpace (Host c) <> "" /\ ModelPath c <> "" /\ Targets c <> [].
Proof.
  assert (forall ts x, Host (set_Targets ts x) = Host x /\ ModelPath (set_Targets ts x) = ModelPath x) as Hset
    by by intros ? [].
  unfold finish. cbv zeta. set (final := if ps_explicit st then _ else _).
  assert (Host final = Host (ps_cfg st) /\ ModelPath final = ModelPath (ps_cfg st)) as [<- <-].
  { unfold final. destruct (ps_explicit st); [done | apply Hset]. }
  destruct (String.eqb_spec (TrimSpace (Host final)) "") as [E1 | E1]; [split; [done | by intros (-> & ? & _)] |].
  destruct (String.eqb_spec (ModelPath final) "") as [E2 | E2]; [split; [done | by intros (-> & _ & ? & _)] |].
  destruct (Targets final) as [| t ts] eqn:E3; [split; [done | by intros (-> & _ & _ & ?)] |].
  split; [intros [= <-] | by intros (-> & _)]. by rewrite E3.
Qed.

Lemma parsed_typed args c : ParseConfig unicode_upper getenv args = Ok c ->
  typed c /\ TrimSpace (Host c) <> "" /\ ModelPath c <> "" /\ Targets c <> [].
Proof.
  unfold ParseConfig. intros (st0 & H0%from_env_typed & (st & H1%parse_args_typed & H2)%result_bind_ok)%result_bind_ok;
    [| done]. apply finish_ok in H2 as (-> & Hc). split; [| done]. destruct (ps_explicit st); [done |].
  pose proof (default_targets_nonempty st (t_Targets _ H1)). set_field.
Qed.

(** C28. Whatever the environment and the arguments are, a configuration the
    fake server accepts is within its types and ranges: the port is a TCP
    port, percentages are at most 100, durations are non-negative [int64]s,
    sizes fit a [uint64], every weight is finite and non-negative, and there
    are a host, a model and at least one target, none of them empty. *)
Theorem ParseConfig_typed args c : ParseConfig unicode_upper getenv args = Ok c ->
  typed c /\ TrimSpace (Host c) <> "" /\ ModelPath c <> "" /\ Targets c <> [].
Proof. apply parsed_typed. Qed.
End typing.

(** ** Sizes *)
Lemma nearest_unique x den a b : 0 < den ->
  (2 * a - 1) * den <= x < (2 * a + 1) * den -> (2 * b - 1) * den <= x < (2 * b + 1) * den -> a = b.
Proof.
  intros Hden Ha Hb.
  assert (2 * a - 1 < 2 * b + 1 /\ 2 * b - 1 < 2 * a + 1) as [? ?]; [| lia].
  split; apply (Z.mul_lt_mono_pos_r den); lia.
Qed.

Lemma nearest_half_up x den : 0 < den -> 0 <= x ->
  let q := if Z.shiftl (Z.rem x den) 1 >=? den then Z.quot x den + 1 else Z.quot x den in
  (2 * q - 1) * den <= 2 * x < (2 * q + 1) * den.
Proof.
  intros Hden Hx. pose proof (Z.quot_rem x den ltac:(lia)) as Hqr. pose proof (Z.rem_bound_pos x den Hx Hden) as Hr.
  rewrite Z.shiftl_mul_pow2 by lia. change (2 ^ 1) with 2. cbv zeta.
  revert Hqr Hr. generalize (Z.quot x den) (Z.rem x den). intros q r -> Hr.
  destruct (Z.geb_spec (r * 2) den); lia.
Qed.

(** C29. A size is accepted exactly when its text, less the unit, is a
    non-negative rational, and the result is the number of bytes nearest to
    the exact product with the unit, halves rounded up, fitting a [uint64]. *)
Theorem ParseBytes_nearest unicode_upper raw b : ParseBytes unicode_upper raw = Ok b <->
  TrimSpace raw <> "" /\ u64 b /\
  let '(mult, number) := split_size_unit (ToUpper unicode_upper (TrimSpace raw)) in
  exists num den, Rat_SetString number = Some (num, den) /\ 0 <= num /\
    (2 * b - 1) * den <= 2 * (num * mult) < (2 * b + 1) * den.
Proof.
  unfold ParseBytes. destruct (String.eqb_spec (TrimSpace raw) ""); [split; [done | by intros []] |].
  destruct (split_size_unit _) as [mult number] eqn:Em.
  assert (0 < mult) as Hmult.
  { unfold split_size_unit in Em. destruct (find_first _ _) as [[u k] |] eqn:E; simplify_eq; [| done].
    apply find_first_some in E as [E _]. by repeat (apply elem_of_cons in E as [[= -> ->] | E]); [.. | apply elem_of_nil in E]. }
  destruct (Rat_SetString number) as [[num den] |] eqn:Er; [| split; [done | by intros (_ & _ & ? & ? & ? & _)]].
  pose proof (Rat_SetString_den _ _ _ Er) as Hden.
  destruct (Z.ltb_spec num 0); [split; [done | intros (_ & _ & ? & ? & [= <- <-] & ? & _); lia] |]. cbv zeta.
  set (q := if _ >=? den then _ else _).
  assert ((2 * q - 1) * den <= 2 * (num * mult) < (2 * q + 1) * den) as Hq.
  { apply nearest_half_up; [done | nia]. }
  destruct (_ || _) eqn:E.
  - split; [done |]. intros (_ & Hb & ? & ? & [= <- <-] & _ & Hn). to_prop.
    assert (b = q) as -> by (by eapply nearest_unique). exfalso. word.
  - split.
    + intros [= <-]. to_prop. split; [done |]. split; [word |]. by exists num, den.
    + intros (_ & Hb & ? & ? & [= <- <-] & _ & Hn). f_equal. by eapply nearest_unique.
Qed.

(** The memory the model itself needs: what was asked for, or its size. *)
Definition base_bytes (stat : string -> result FileInfo) (c : Config) : option Z :=
  if VRAMExplicit c then Some (VRAMBytes c) else
  match stat (ModelPath c) with
  | Ok info => if fi_dir info || (fi_size info <? 0) then None else Some (fi_size info)
  | Err _ => None
  end.

Lemma required_exact stat c n : typed c ->
  (forall info, stat (ModelPath c) = Ok info -> fi_size info < int64_cutoff) ->
  RequiredVRAMBytes stat c = Ok n <->
  exists base, base_bytes stat c = Some base /\ n = base + ContextSize c * KVBytesPerToken c /\ u64 n.
Proof.
  intros Ht Hsize. pose proof (t_ContextSize _ Ht) as Hctx. pose proof (t_KVBytesPerToken _ Ht) as Hkv.
  assert (forall base, (if VRAMExplicit c then Ok (VRAMBytes c) else
    info ← wrap_err (Wrapf "stat model %q: %w" [AS (ModelPath c)]) (stat (ModelPath c));
    if fi_dir info then Err (Errorf "model %q is a directory" [AS (ModelPath c)]) else
    if fi_size info <? 0 then Err (Errorf "model size is negative" []) else Ok (fi_size info)) = Ok base <->
    base_bytes stat c = Some base) as Hbase.
  { intros base. unfold base_bytes. destruct (VRAMExplicit c); [naive_solver |].
    destruct (stat (ModelPath c)) as [info |]; cbn; [| done]. destruct (fi_dir info); cbn; [done |].
    destruct (fi_size info <? 0); naive_solver. }
  assert (forall base, base_bytes stat c = Some base -> u64 base) as Hrange.
  { intros base. unfold base_bytes. destruct (VRAMExplicit c); [intros [= <-]; apply Ht |].
    destruct (stat (ModelPath c)) as [info |]; [| done]. specialize (Hsize _ eq_refl).
    destruct (_ || _) eqn:E; [done |]. intros [= <-]. to_prop. unfold int64_cutoff in *. word. }
  unfold RequiredVRAMBytes. rewrite result_bind_ok. setoid_rewrite Hbase. clear Hbase.
  apply exist_proper. intros base. split; intros [Hb H]; (split; [done |]); apply Hrange in Hb.
  - destruct (_ && _) eqn:Epos; to_prop.
    + destruct (_ >? u64_max / _) eqn:E1; [done |]. to_prop.
      assert (ContextSize c * KVBytesPerToken c <= u64_max) by
        (pose proof (Z.mul_div_le u64_max (KVBytesPerToken c) ltac:(lia)); nia).
      cbv zeta in H. rewrite (wrap64_small (_ * _)) in H by (word_nia). 
      destruct (_ >? _ ⊖ _) eqn:E2; [done |]. to_prop. rewrite wrap64_small in E2 by word_nia.
      simplify_eq. rewrite wrap64_small by word_nia. split; [done | word_nia].
    + simplify_eq. split; [| done]. unfold u64 in Hkv. nia.
  - destruct H as [-> Hn]. destruct (_ && _) eqn:Epos; to_prop.
    + rewrite (proj2 (gtb_false (ContextSize c) _)).
      * cbv zeta. rewrite (wrap64_small (ContextSize c * _)), (wrap64_small (u64_max - _)) by word_nia.
        rewrite (proj2 (gtb_false base _)) by word_nia. by rewrite wrap64_small by done.
      * apply Z.div_le_lower_bound; word_nia.
    + f_equal. unfold u64 in Hkv. nia.
Qed.

(** The simulated requirement is exactly the model's bytes plus the
    context times the bytes per token, in unbounded arithmetic, and it is
    refused exactly when that does not fit a [uint64] or the model file cannot
    be measured. *)
Theorem RequiredVRAMBytes_exact stat c n : typed c ->
  (forall info, stat (ModelPath c) = Ok info -> fi_size info < int64_cutoff) ->
  RequiredVRAMBytes stat c = Ok n <->
  exists base, base_bytes stat c = Some base /\ n = base + ContextSize c * KVBytesPerToken c /\ u64 n.
Proof. apply required_exact. Qed.

(** The environment of the witnesses. *)
Definition env_of (l : list (string * string)) (key : string) : string :=
  match find_first (fun kv => String.eqb kv.1 key) l with Some kv => kv.2 | None => "" end.

Definition demo_args : list string :=
  ["--model"; "/models/a.gguf"; "--port=9000"; "--tensor-split"; "3,0,1"; "-c"; "4096"; "--fake-load-delay=1.5s";
   "--n-gpu-layers"; "99"; "--fake-hang-shutdown"].
Definition demo_env : string -> string :=
  env_of [("FAKE_LLAMA_VRAM", "1.5GiB"); ("FAKE_LLAMA_SM_UTIL", "80"); ("FAKE_LLAMA_KV_BYTES_PER_TOKEN", "2kb")].
Definition demo_config : Config := {|
  Host := "127.0.0.1"; Port := 9000; ModelPath := "/models/a.gguf"; Targets := ["0"; "2"];
  TensorSplit := [f64_of_Z 3; S754_zero false; f64_of_Z 1]; ContextSize := 4096; VRAMBytes := 1610612736;
  VRAMExplicit := true; KVBytesPerToken := 2000; LoadDelay := 1500000000; StartupFail := false; ForceOOM := false;
  CrashAfterReady := 0; HangShutdown := true; GrowthAfter := 0; GrowthBytes := 0; SMUtil := 80; MemoryUtil := 20;
  TokenDelay := 0; Response := "This is a deterministic fake llama-server response." |}.

Example demo_parse : ParseConfig id demo_env demo_args = Ok demo_config.
Proof. vm_compute. reflexivity. Qed.

Lemma demo_typed : typed demo_config.
Proof. constructor; repeat constructor; try done; by apply String.eqb_neq. Qed.
Definition demo_stat (path : string) : result FileInfo := Ok {| fi_dir := false; fi_size := 4000000000 |}.

Lemma RequiredVRAMBytes_exact_witness : RequiredVRAMBytes demo_stat demo_config = Ok (1610612736 + 4096 * 2000).
Proof.
  apply (RequiredVRAMBytes_exact demo_stat demo_config _ demo_typed).
  - by intros info [= <-].
  - exists 1610612736. done.
Defined.

Lemma ParseConfig_typed_witness : typed demo_config.
Proof. apply (ParseConfig_typed id demo_env demo_args demo_config demo_parse). Defined.
End llama.
