(* ===== verification/LlamaRegistry.v ===== *)
(** * The fake llama server's process registry: [internal/fakellama/registry.go]

    The records of one pid on the selected GPUs, placed and removed through
    the control manager; the abstract effect on the GPUs of a node and the
    proof that the code has it, errors and rollback included. *)
From Stdlib Require Import SpecFloat.
From S2P Require Import Prelude GoStrings GoStrconv GoTime GoFloat Control ProcessJson Observe Manager Node ProcessNode CudaEngine.
Import control observe manager node payload process_node.

Module registry.

Definition ErrOutOfMemory : string := "fakellama.ErrOutOfMemory".

(** ** Weights *)
(** [math.Floor]. *)
Definition f64_floor (v : spec_float) : spec_float :=
  match v with
  | S754_finite s m e =>
      if e >=? 0 then v else
      let q := Z.shiftr (if s then Z.neg m else Z.pos m) (- e) in
      if (q =? 0) then S754_zero s else f64_of_Z q
  | _ => v
  end.

Section split.
(** A float outside the range of [uint64] converts to an
    implementation-defined value. *)
Context (out_of_range : spec_float -> Z).

Definition f64_uint64 (v : spec_float) : Z :=
  match v with
  | S754_zero _ => 0
  | S754_finite _ _ _ =>
      let t := f64_trunc v in if (0 <=? t) && (t <=? u64_max) then t else wrap64 (out_of_range v)
  | _ => wrap64 (out_of_range v)
  end.

Definition f64_one : spec_float := f64_of_Z 1.
Definition f64_positive (v : spec_float) : bool := SFltb (S754_zero false) v.

Definition weight_of (tensorSplit : list spec_float) (target : string) : spec_float :=
  match Atoi target with
  | Ok index =>
      if (index >=? 0) && (index <? Z.of_nat (length tensorSplit)) then
        match tensorSplit !! Z.to_nat index with
        | Some w => if f64_positive w then w else f64_one
        | None => f64_one
        end
      else f64_one
  | Err _ => f64_one
  end.

(** The amounts: rounded down for all targets but the last, which takes the
    rest. *)
Fixpoint split_amounts (totalMiB : Z) (sum : spec_float) (weights : list spec_float) (assigned : Z) : list Z :=
  match weights with
  | [] => []
  | [_] => [totalMiB ⊖ assigned]
  | w :: rest =>
      let amount := f64_uint64 (f64_floor (f64_div (f64_mul (f64_of_Z totalMiB) w) sum)) in
      amount :: split_amounts totalMiB sum rest (assigned ⊕ amount)
  end.

Definition total_mib (totalBytes : Z) : Z :=
  let totalMiB := totalBytes / mib in if negb (totalBytes mod mib =? 0) then totalMiB ⊕ 1 else totalMiB.

Definition splitProcessMiB (totalBytes : Z) (targets : list string) (tensorSplit : list spec_float) : result (list Z) :=
  match targets with
  | [] => Err (Errorf "at least one target is required" [])
  | _ =>
      let weights := map (weight_of tensorSplit) targets in
      let sum := fold_left f64_add weights (S754_zero false) in
      if SFleb sum (S754_zero false) || match sum with S754_infinity _ | S754_nan => true | _ => false end
      then Err (Errorf "invalid fake llama-server GPU weights" [])
      else Ok (split_amounts (total_mib totalBytes) sum weights 0)
  end.

(** ** The registry *)
Definition withoutPID (processes : list Process) (pid : Z) : list Process := without pid processes.

Record priorProcess := { pr_target : string; pr_process : option Process (* None: it did not exist *) }.

Record NVMLRegistry (W : Type) := { rg_manager : option (Manager W) }.
Arguments rg_manager {W}.
Definition NewNVMLRegistry {W} (manager : option (Manager W)) : NVMLRegistry W := {| rg_manager := manager |}.

(** What a server registers. *)
Record Request := {
  rq_pid : Z; rq_name : string; rq_targets : list string; rq_totalBytes : Z; rq_tensorSplit : list spec_float;
  rq_smUtil : Z; rq_memUtil : Z
}.

Section ops.
Context {W : Type} `{OS W}.
Implicit Type mg : option (Manager W).

(** The first state with that index or UUID, and its record of [pid]. *)
Definition deviceAndProcess mg (target : string) (pid : Z) : M W (DeviceState * option Process) :=
  states ← manager_Snapshot mg;
  lift (match find_first (fun state => String.eqb (Itoa (Index state)) target || String.eqb (UUID state) target) states with
        | Some state => Ok (state, find_first (fun process => PID process =? pid) (Processes state))
        | None => Err (Errorf "GPU %q not found" [AS target])
        end).

(** From the newest entry to the oldest; failures are ignored. *)
Fixpoint rollback_from mg (pid : Z) (newest_first : list priorProcess) : W -> W := fun w =>
  match newest_first with
  | [] => w
  | item :: rest =>
      match deviceAndProcess mg (pr_target item) pid w with
      | (Err _, w1) => rollback_from mg pid rest w1
      | (Ok (before, _), w1) =>
          let desired := withoutPID (Processes before) pid ++
            match pr_process item with Some old => [old] | None => [] end in
          rollback_from mg pid rest (ReplaceProcessesFromState mg (pr_target item) before desired w1).2
      end
  end.
Definition rollback mg (pid : Z) (applied : list priorProcess) : W -> W := rollback_from mg pid (rev applied).

Definition new_process (rq : Request) (amount : Z) : Process :=
  {| PID := rq_pid rq; Type_ := "C"; Name := rq_name rq; UsedMemoryMiB := amount; SMUtil := rq_smUtil rq;
     MemoryUtil := rq_memUtil rq; EncoderUtil := 0; DecoderUtil := 0 |}.

(** The body of the loop of [apply] up to its errors, which the loop turns
    into a rollback. *)
Definition apply_one mg (rq : Request) (target : string) (amount : Z) : M W priorProcess :=
  '(before, old) ← deviceAndProcess mg target (rq_pid rq);
  oldBytes ← lift (match old with
    | Some p => if UsedMemoryMiB p >? u64_max / mib
                then Err (Errorf "existing fake process memory overflows bytes" []) else Ok (UsedMemoryMiB p ⊗ mib)
    | None => Ok 0
    end);
  if amount >? u64_max / mib then throw (Errorf "requested fake process memory overflows bytes" []) else
  let newBytes := amount ⊗ mib in
  if (newBytes >? oldBytes) && (newBytes ⊖ oldBytes >? FreeBytes before)
  then throw (Wrapf "%w on GPU %s: need %d additional bytes, %d free"
                [AS target; AZ (newBytes ⊖ oldBytes); AZ (FreeBytes before)] (Sentinel ErrOutOfMemory)) else
  _ ← wrapM (Wrapf "register fake llama-server on GPU %s: %w" [AS target])
        (ReplaceProcessesFromState mg target before (withoutPID (Processes before) (rq_pid rq) ++ [new_process rq amount]));
  mret {| pr_target := target; pr_process := old |}.

Fixpoint apply_loop mg (rq : Request) (work : list (string * Z)) (applied : list priorProcess) : M W unit := fun w =>
  match work with
  | [] => (Ok tt, w)
  | (target, amount) :: rest =>
      match apply_one mg rq target amount w with
      | (Ok prior, w1) => apply_loop mg rq rest (applied ++ [prior]) w1
      | (Err e, w1) => (Err e, rollback mg (rq_pid rq) applied w1)
      end
  end.

Definition registry_manager (r : option (NVMLRegistry W)) : option (Manager W) := r ≫= rg_manager.
Definition uninitialized : error := Errorf "fake llama-server process registry is not initialized" [].

Definition apply (r : option (NVMLRegistry W)) (rq : Request) : M W unit :=
  match registry_manager r with
  | None => throw uninitialized
  | Some mg =>
      if rq_pid rq =? 0 then throw (Errorf "fake llama-server pid must be positive" []) else
      match rq_targets rq with
      | [] => throw (Errorf "fake llama-server requires at least one GPU target" [])
      | targets =>
          amounts ← lift (splitProcessMiB (rq_totalBytes rq) targets (rq_tensorSplit rq));
          apply_loop (Some mg) rq (combine targets amounts) []
      end
  end.

Definition Register (r : option (NVMLRegistry W)) (rq : Request) : M W unit := apply r rq.
Definition Resize (r : option (NVMLRegistry W)) (rq : Request) : M W unit := apply r rq.

Fixpoint release_loop mg (pid : Z) (targets : list string) (joined : option error) : W -> option error * W := fun w =>
  match targets with
  | [] => (joined, w)
  | target :: rest =>
      match deviceAndProcess mg target pid w with
      | (Err e, w1) => release_loop mg pid rest (errors_Join joined (Some e)) w1
      | (Ok (_, None), w1) => release_loop mg pid rest joined w1
      | (Ok (before, Some _), w1) =>
          match ReplaceProcessesFromState mg target before (withoutPID (Processes before) pid) w1 with
          | (Ok _, w2) => release_loop mg pid rest joined w2
          | (Err e, w2) =>
              release_loop mg pid rest
                (errors_Join joined (Some (Wrapf "release fake llama-server from GPU %s: %w" [AS target] e))) w2
          end
      end
  end.

Definition Release (r : option (NVMLRegistry W)) (pid : Z) (targets : list string) : M W unit :=
  match registry_manager r with
  | None => throw uninitialized
  | Some mg => fun w =>
      let '(joined, w') := release_loop (Some mg) pid targets None w in
      (match joined with Some e => Err e | None => Ok tt end, w')
  end.

(** ** [NewNVMLRegistryFromEnv] *)
Definition envString (key fallback : string) : string :=
  let value := TrimSpace (cuda.Getenv os_environ key) in if negb (String.eqb value "") then value else fallback.

Definition NewNVMLRegistryFromEnv : NVMLRegistry W :=
  let configPath := TrimSpace (cuda.Getenv os_environ "MOCK_NVML_CONFIG") in
  let overridePath := TrimSpace (cuda.Getenv os_environ "MOCK_NVML_OVERRIDES") in
  let ctlBinary := envString "FAKE_NVIDIA_CTL_BIN" "nvml-mock-ctl" in
  let smiBinary := envString "FAKE_NVIDIA_SMI_BIN" "nvidia-smi" in
  let overlay :=
    (if negb (String.eqb configPath "") then [("MOCK_NVML_CONFIG", configPath)] else []) ++
    (if negb (String.eqb overridePath "") then [("MOCK_NVML_OVERRIDES", overridePath)] else []) in
  let observer := NewObserver smiBinary in
  let observer := match overlay with
    | [] => observer
    | _ => {| ob_Binary := ob_Binary observer; ob_Runner := Some (EnvExecRunner overlay) |}
    end in
  NewNVMLRegistry (Some (NewManager (Some (New ctlBinary configPath overridePath)) (Some observer))).
End ops.
End split.
Arguments rg_manager {W}.
(** ** What the operations do to the GPUs of a node *)
(** The record of one GPU, put and taken away. *)
Definition put_gpu (p : Process) (d : DeviceState) : DeviceState := with_processes (put p (Processes d)) d.
Definition drop_gpu (pid : Z) (d : DeviceState) : DeviceState := with_processes (without pid (Processes d)) d.

(** The bytes that [pid] already owns. *)
Definition held (pid : Z) (d : DeviceState) : Z :=
  match look (Processes d) pid with Some p => UsedMemoryMiB p * mib | None => 0 end.

(** Place the record on a GPU, if the node has it and it has the room. *)
Definition place (p : Process) (index : Z) (l : list DeviceState) : option (list DeviceState) :=
  d ← find_first (fun d => Index d =? index) l;
  if UsedMemoryMiB p * mib <=? held (PID p) d + FreeBytes d then Some (update_gpu index (put_gpu p) l) else None.

(** All or nothing, in order. *)
Fixpoint place_all (rq : Request) (work : list (Z * Z)) (l : list DeviceState) : option (list DeviceState) :=
  match work with
  | [] => Some l
  | (index, amount) :: rest => l1 ← place (new_process rq amount) index l; place_all rq rest l1
  end.

(** The record taken off every GPU of the list. *)
Definition drop_all (pid : Z) (indices : list Z) (l : list DeviceState) : list DeviceState :=
  map (fun d => if bool_decide (Index d ∈ indices) then drop_gpu pid d else d) l.

(** GPUs whose accounting is consistent and whose processes can be sent. *)
Definition tidy (d : DeviceState) : Prop := consistent d /\ Forall sent (Processes d).
#[export] Instance tidy_dec d : Decision (tidy d).
Proof. unfold tidy, consistent. apply _. Defined.

(** *** Lemmas: one process list *)
Lemma owned_app l k : owned_bytes (l ++ k) = owned_bytes l + owned_bytes k.
Proof. apply sumZ_app. Qed.

Lemma owned_look l pid : distinct l ->
  owned_bytes l = owned_bytes (without pid l) + match look l pid with Some p => UsedMemoryMiB p * mib | None => 0 end.
Proof.
  intros Hd. destruct (look l pid) as [p |] eqn:E; [| rewrite without_absent by done; lia].
  pose proof (look_PID _ _ _ E) as <-. pose proof (processIndex_look l (PID p)) as Hi. rewrite E in Hi.
  destruct (processIndex l (PID p)) as [i |]; [| done]. destruct Hi as (q & Hq & [= <-] & _).
  rewrite <- (delete_without l i p) by done. rewrite delete_take_drop. rewrite <- (take_drop_middle l i p Hq) at 1.
  rewrite !owned_app. unfold owned_bytes at 2. cbn [sumZ]. unfold owned_bytes. lia.
Qed.

Lemma put_present p q l i : processIndex l (PID p) = Some i -> l !! i = Some q -> PID q = PID p ->
  distinct l -> distinct (put p l) /\ look (put p l) (PID p) = Some p /\ put q (put p l) = l /\
  without (PID p) (put p l) = without (PID p) l.
Proof.
  intros Hi Hq Eq Hd. unfold put at 1 2 4 5. rewrite Hi.
  assert (distinct (<[i := p]> l)) as Hd' by (by eapply distinct_insert).
  assert (<[i := p]> l !! i = Some p) as Hip by (apply list_lookup_insert_eq; by eapply lookup_lt_Some).
  assert (look (<[i := p]> l) (PID p) = Some p) as Hl.
  { rewrite (look_insert l i q p) by done. by rewrite Eq, Z.eqb_refl. }
  split; [done |]. split; [done |]. split.
  - unfold put. rewrite Eq. pose proof (processIndex_look (<[i := p]> l) (PID p)) as Hj.
    destruct (processIndex (<[i := p]> l) (PID p)) as [j |]; [| congruence]. destruct Hj as (r & Hr & Hlr & _).
    assert (r = p) as -> by congruence.
    assert (j = i) as ->.
    { eapply NoDup_lookup; [exact Hd' | |]; change (map PID) with (fmap (M := list) PID);
        rewrite list_lookup_fmap; [by rewrite Hr | by rewrite Hip]. }
    rewrite list_insert_insert_eq. by apply list_insert_id.
  - rewrite <- (delete_without _ i p), <- Eq, <- (delete_without l i q) by done.
    by rewrite !delete_take_drop, take_insert_ge, drop_insert_lt by lia.
Qed.

Lemma put_absent p l : look l (PID p) = None -> put p l = l ++ [p].
Proof.
  intros Hl. unfold put. pose proof (processIndex_look l (PID p)) as Hi.
  destruct (processIndex l (PID p)); [| done]. destruct Hi as (q & _ & ? & _). congruence.
Qed.

(** Putting a record: it is there, the others are untouched, and what was
    there before can be put back. *)
Lemma put_spec p l : distinct l ->
  distinct (put p l) /\ look (put p l) (PID p) = Some p /\ without (PID p) (put p l) = without (PID p) l /\
  match look l (PID p) with Some q => put q (put p l) = l | None => without (PID p) (put p l) = l end.
Proof.
  intros Hd. pose proof (processIndex_look l (PID p)) as Hi. destruct (processIndex l (PID p)) as [i |] eqn:E.
  - destruct Hi as (q & Hq & -> & Eq). destruct (put_present p q l i E Hq Eq Hd) as (? & ? & ? & ?). done.
  - rewrite Hi. rewrite put_absent by done. split; [by apply distinct_snoc |].
    rewrite look_snoc, Z.eqb_refl by done. split; [done |].
    assert (without (PID p) (l ++ [p]) = l) as ->; [| by rewrite without_absent].
    unfold without. rewrite List.filter_app. cbn. rewrite Z.eqb_refl. cbn. rewrite app_nil_r. by apply without_absent.
Qed.

(** *** Lemmas: one GPU *)
Lemma Processes_with ps d : Processes (with_processes ps d) = ps.
Proof. done. Qed.

Lemma consistent_with ps d : consistent d -> consistent (with_processes ps d).
Proof.
  intros Hc. unfold consistent in *. change (owned (with_processes ps d)) with (owned_bytes ps).
  change (UsedBytes (with_processes ps d)) with (UsedBytes d - owned d + owned_bytes ps). lia.
Qed.

Lemma with_processes_twice ps qs d : with_processes ps (with_processes qs d) = with_processes ps d.
Proof. unfold with_processes, set_reconciled, owned, owned_bytes. cbn. f_equal; lia. Qed.

Lemma with_processes_same d : with_processes (Processes d) d = d.
Proof. destruct d. unfold with_processes, set_reconciled, owned, owned_bytes. cbn. f_equal; lia. Qed.

Lemma drop_put_gpu p d : distinct (Processes d) -> drop_gpu (PID p) (put_gpu p d) = drop_gpu (PID p) d.
Proof.
  intros Hd. unfold drop_gpu, put_gpu. rewrite with_processes_twice, Processes_with.
  by destruct (put_spec p (Processes d) Hd) as (_ & _ & -> & _).
Qed.

Lemma drop_gpu_absent pid d : look (Processes d) pid = None -> drop_gpu pid d = d.
Proof. intros Hl. unfold drop_gpu. rewrite without_absent by done. apply with_processes_same. Qed.

(** What a rollback does with the record it saved. *)
Definition restore_gpu (pid : Z) (old : option Process) : DeviceState -> DeviceState :=
  match old with Some q => put_gpu q | None => drop_gpu pid end.

Lemma restore_put_gpu p d : distinct (Processes d) ->
  restore_gpu (PID p) (look (Processes d) (PID p)) (put_gpu p d) = d.
Proof.
  intros Hd. destruct (put_spec p (Processes d) Hd) as (_ & _ & _ & Hback).
  unfold restore_gpu. destruct (look (Processes d) (PID p)) as [q |];
    unfold put_gpu, drop_gpu in *; rewrite with_processes_twice, Processes_with, Hback; apply with_processes_same.
Qed.

Lemma elem_of_put r p l : r ∈ put p l -> r = p \/ r ∈ l.
Proof.
  unfold put. destruct (processIndex l (PID p)) as [i |].
  - intros Hr. apply list_elem_of_lookup in Hr as [j Hj]. destruct (decide (i = j)) as [<- |].
    + apply list_lookup_insert_Some in Hj as [(_ & -> & _) | [? _]]; [by left | done].
    + rewrite list_lookup_insert_ne in Hj by done. right. by apply list_elem_of_lookup_2 with j.
  - intros [Hr | ->%list_elem_of_singleton]%elem_of_app; [by right | by left].
Qed.

Lemma tidy_put_gpu p d : tidy d -> sent p -> tidy (put_gpu p d).
Proof.
  intros [Hc Hs] Hp. split.
  - by apply consistent_with.
  - cbn. rewrite Forall_forall in *. intros r [-> | Hr]%elem_of_put; auto.
Qed.

Lemma tidy_drop_gpu pid d : tidy d -> tidy (drop_gpu pid d).
Proof.
  intros [Hc Hs]. split.
  - by apply consistent_with.
  - cbn. rewrite Forall_forall in *. intros r [Hr _]%elem_of_without. auto.
Qed.

Lemma tidy_update f index l : (forall d, d ∈ l -> tidy d -> tidy (f d)) -> Forall tidy l -> Forall tidy (update_gpu index f l).
Proof.
  intros Hf Hl. rewrite Forall_forall in *. intros e (d & Hd & ->)%elem_of_update_gpu.
  destruct (_ =? _); auto.
Qed.

Lemma owned_put p d : distinct (Processes d) ->
  owned_bytes (put p (Processes d)) = owned d - held (PID p) d + UsedMemoryMiB p * mib.
Proof.
  intros Hd. destruct (put_spec p (Processes d) Hd) as (Hd' & Hl & Hw & _).
  rewrite (owned_look _ (PID p) Hd'), Hl, Hw. unfold owned. rewrite (owned_look _ (PID p) Hd). unfold held. lia.
Qed.

Lemma owned_without pid d : distinct (Processes d) -> owned_bytes (without pid (Processes d)) = owned d - held pid d.
Proof. intros Hd. unfold owned. rewrite (owned_look _ pid Hd). unfold held. lia. Qed.

Lemma held_bounds pid d : device_ok d -> 0 <= held pid d <= owned d.
Proof.
  intros Hd. pose proof Hd as (_ & _ & _ & _ & _ & _ & _ & _ & Hps & Hdist).
  pose proof (owned_without pid d Hdist) as Ho.
  assert (0 <= owned_bytes (without pid (Processes d))).
  { apply sumZ_nonneg, Forall_forall. intros p [Hp _]%elem_of_without. rewrite Forall_forall in Hps.
    destruct (Hps p Hp) as (_ & _ & _ & ? & _). word. }
  split; [| lia]. unfold held. destruct (look (Processes d) pid) as [p |] eqn:E; [| lia].
  apply look_elem in E. rewrite Forall_forall in Hps. destruct (Hps p E) as (_ & _ & _ & ? & _). word.
Qed.

(** *** On a node *)
Section node.
Context {W : Type} `{NvmlMockProcesses W}.
Context (mg : Manager W) (Hwired : wired mg) (Hlock : forall w, lockable mg w) (Hpath : mg_MutationLockPath mg <> "").

Definition all_tidy (w : W) : Prop := Forall tidy (gpus w).

Lemma find_index index w : 0 <= index < int64_cutoff ->
  find_first (selects (Itoa index)) (gpus w) = find_first (fun d => Index d =? index) (gpus w).
Proof.
  intros Hi. destruct (gpus_ok w) as [Hok _]. pose proof (gpus_pool w) as Hpool.
  induction (gpus w) as [| d l IH]; [done |]. cbn. apply Forall_cons in Hok as [Hd Hok].
  apply Forall_cons in Hpool as [[_ Hu] Hpool]. rewrite IH by done.
  assert (selects (Itoa index) d = (Index d =? index)) as ->; [| done].
  destruct Hd as (Hid & _). unfold selects.
  assert (String.eqb (UUID d) (Itoa index) = false) as ->.
  { apply String.eqb_neq. intros E. rewrite E, Atoi_Itoa in Hu; [done |]. unfold int64, int64_cutoff in *. lia. }
  rewrite orb_false_r. destruct (Z.eqb_spec (Index d) index) as [-> | Hne]; [apply String.eqb_refl |].
  apply String.eqb_neq. intros E. apply Hne. apply Itoa_inj; [unfold int64, int64_cutoff in *; lia .. | done].
Qed.

Lemma deviceAndProcess_run index pid w : 0 <= index < int64_cutoff ->
  deviceAndProcess (Some mg) (Itoa index) pid w =
  (match find_first (fun d => Index d =? index) (gpus w) with
   | Some d => Ok (d, look (Processes d) pid)
   | None => Err (Errorf "GPU %q not found" [AS (Itoa index)])
   end, w).
Proof.
  intros Hi. unfold deviceAndProcess. pose proof Hwired as [_ Ho].
  assert (manager_Snapshot (Some mg) w = (Ok (gpus w), w)) as Hs.
  { unfold manager_Snapshot, manager_observer. cbn [mbind option_bind].
    destruct (mg_Observer mg) as [o |] eqn:Eo; [by apply Snapshot_gpus | by destruct Ho as (? & ? & _)]. }
  rewrite (M_bind_ok _ _ _ _ _ Hs), <- (find_index index w Hi). unfold lift.
  change (find_first (fun state => String.eqb (Itoa (Index state)) (Itoa index) || String.eqb (UUID state) (Itoa index)) (gpus w))
    with (find_first (selects (Itoa index)) (gpus w)). by destruct (find_first _ _).
Qed.

Lemma found_index index w d : find_first (fun d => Index d =? index) (gpus w) = Some d ->
  names_gpu (Itoa index) d w /\ Index d = index.
Proof. intros [Hd Hi]%find_first_some. to_prop. subst. split; [by split | done]. Qed.

(** The two edits of a GPU that was just read. *)
Lemma replace_put index p d w : all_tidy w -> sent p -> names_gpu (Itoa index) d w -> Index d = index ->
  UsedMemoryMiB p * mib <= held (PID p) d + FreeBytes d ->
  let r := ReplaceProcessesFromState (Some mg) (Itoa index) d (without (PID p) (Processes d) ++ [p]) w in
  r.1 = Ok tt /\ gpus r.2 = update_gpu index (put_gpu p) (gpus w).
Proof.
  intros Ht Hp Hn <- Hfit r. destruct (names_gpu_ok _ _ _ Hn) as (Hin & Hd & _).
  pose proof Hd as (_ & _ & _ & _ & _ & _ & _ & _ & _ & Hdist).
  unfold all_tidy in Ht. rewrite Forall_forall in Ht. destruct (Ht d Hin) as [Hc Hs].
  pose proof (replace_run mg _ d w Hwired (Hlock w) Hn Hpath Hc d _ (put p (Processes d))
    (rebase_put _ _ p Hdist Hdist eq_refl)) as Hrun. fold r in Hrun.
  rewrite (owned_put p d Hdist), (proj2 (Z.leb_le _ _)) in Hrun by lia.
  destruct Hrun as [E G]; [| by apply put_spec |].
  - rewrite Forall_forall in *. intros q [-> | Hq]%elem_of_put; auto.
  - split; [done |]. rewrite G. by apply update_gpu_unique.
Qed.

Lemma replace_drop index pid d w : all_tidy w -> names_gpu (Itoa index) d w -> Index d = index ->
  let r := ReplaceProcessesFromState (Some mg) (Itoa index) d (without pid (Processes d)) w in
  r.1 = Ok tt /\ gpus r.2 = update_gpu index (drop_gpu pid) (gpus w).
Proof.
  intros Ht Hn <- r. destruct (names_gpu_ok _ _ _ Hn) as (Hin & Hd & _).
  pose proof Hd as (_ & _ & _ & _ & _ & [Hf _] & _ & _ & _ & Hdist). pose proof (held_bounds pid d Hd).
  unfold all_tidy in Ht. rewrite Forall_forall in Ht. destruct (Ht d Hin) as [Hc Hs].
  pose proof (replace_run mg _ d w Hwired (Hlock w) Hn Hpath Hc d _ (without pid (Processes d))
    (rebase_without _ _ pid Hdist Hdist eq_refl)) as Hrun. fold r in Hrun.
  rewrite (owned_without pid d Hdist), (proj2 (Z.leb_le _ _)) in Hrun by word.
  destruct Hrun as [E G]; [| by apply distinct_without |].
  - rewrite Forall_forall in *. intros q [Hq _]%elem_of_without. auto.
  - split; [done |]. rewrite G. by apply update_gpu_unique.
Qed.
(** *** Registering *)
Definition index_ok (index : Z) : Prop := 0 <= index < int64_cutoff.

Lemma apply_one_run rq index amount w :
  all_tidy w -> index_ok index -> sent (new_process rq amount) ->
  match place (new_process rq amount) index (gpus w) with
  | Some l => exists old w', apply_one (Some mg) rq (Itoa index) amount w =
        (Ok {| pr_target := Itoa index; pr_process := old |}, w') /\ gpus w' = l /\ all_tidy w' /\
      update_gpu index (restore_gpu (rq_pid rq) old) l = gpus w
  | None => exists e, apply_one (Some mg) rq (Itoa index) amount w = (Err e, w)
  end.
Proof.
  intros Ht Hi Hp. set (p := new_process rq amount) in *.
  pose proof (deviceAndProcess_run index (rq_pid rq) w Hi) as Hdev. unfold apply_one, place.
  destruct (find_first (fun d => Index d =? index) (gpus w)) as [d |] eqn:Ef.
  2: { rewrite (M_bind_err _ _ _ _ _ Hdev). cbn. by eexists. }
  rewrite (M_bind_ok _ _ _ _ _ Hdev).
  cbn [mbind option_bind]. destruct (found_index _ _ _ Ef) as [Hn Hidx].
  destruct (names_gpu_ok _ _ _ Hn) as (Hin & Hd & [Hvis _] & _).
  pose proof (device_ok_typed d Hd) as (HT & HU & HF & _). pose proof (held_bounds (rq_pid rq) d Hd) as Hh.
  pose proof Ht as Ht'. unfold all_tidy in Ht'. rewrite Forall_forall in Ht'. destruct (Ht' d Hin) as [Hc _]. unfold consistent in Hc.
  change (PID p) with (rq_pid rq). change (UsedMemoryMiB p) with amount.
  pose proof Hp as [(_ & _ & _ & Ha & _) _]. change (UsedMemoryMiB p) with amount in Ha.
  set (old := look (Processes d) (rq_pid rq)).
  assert (match old with
    | Some p => if UsedMemoryMiB p >? u64_max / mib
                then Err (Errorf "existing fake process memory overflows bytes" []) else Ok (UsedMemoryMiB p ⊗ mib)
    | None => Ok 0
    end = Ok (held (rq_pid rq) d)) as Eold.
  { unfold held in *. fold old in Hh |- *. destruct old as [q |]; [| done].
    rewrite (proj2 (gtb_false _ _)) by (apply Z.div_le_lower_bound; word). by rewrite wrap64_small by word. }
  rewrite (lift_bind_ok _ _ _ _ Eold).
  destruct (amount >? u64_max / mib) eqn:Eov.
  { rewrite (proj2 (Z.leb_gt _ _)); [by eexists |]. to_prop.
    assert (u64_max / mib = 17592186044415) as Eq by reflexivity. rewrite Eq in Eov. word. }
  to_prop. assert (amount * mib <= u64_max) by (assert (u64_max / mib = 17592186044415) as Eq by reflexivity; rewrite Eq in Eov; word).
  cbv zeta. rewrite !(wrap64_small (amount * mib)) by word.
  destruct (Z.leb_spec (amount * mib) (held (rq_pid rq) d + FreeBytes d)) as [Hfit | Hno].
  - assert ((amount * mib >? held (rq_pid rq) d) && (amount * mib ⊖ held (rq_pid rq) d >? FreeBytes d) = false) as ->.
    { destruct (_ >? held _ _) eqn:E1; [| done]. apply Z.gtb_lt in E1. rewrite wrap64_small by word. cbn. apply gtb_false. lia. }
    destruct (replace_put index p d w Ht Hp Hn Hidx Hfit) as [Er Eg]. unfold wrapM, mbind, M_bind.
    change (withoutPID (Processes d) (rq_pid rq) ++ [p]) with (without (PID p) (Processes d) ++ [p]).
    destruct (ReplaceProcessesFromState _ _ _ _ w) as [r w'] eqn:E. cbn in Er, Eg. subst r. cbn.
    exists old, w'. split; [done |]. split; [done |]. split.
    + unfold all_tidy. rewrite Eg. apply tidy_update; [| done]. intros e _ He. by apply tidy_put_gpu.
    + rewrite update_gpu_twice by done. rewrite <- Hidx.
      rewrite (update_gpu_unique w d _ (fun e => e)); [| done |].
      * by apply update_gpu_same.
      * pose proof Hd as (_ & _ & _ & _ & _ & _ & _ & _ & _ & Hdist). by apply (restore_put_gpu p).
  - assert ((amount * mib >? held (rq_pid rq) d) && (amount * mib ⊖ held (rq_pid rq) d >? FreeBytes d) = true) as ->;
      [| by eexists].
    rewrite wrap64_small by word. apply andb_true_iff. split; to_prop; word.
Qed.
(** *** Rolling back *)
Definition prior_of (saved : Z * option Process) : priorProcess :=
  {| pr_target := Itoa saved.1; pr_process := saved.2 |}.

(** The record fits back on the GPU it came from. *)
Definition restorable (pid index : Z) (old : option Process) (l : list DeviceState) : Prop :=
  index_ok index /\ exists d, d ∈ l /\ Index d = index /\
  match old with
  | Some q => PID q = pid /\ sent q /\ UsedMemoryMiB q * mib <= held pid d + FreeBytes d
  | None => True
  end.

(** Restoring the saved records, newest first, leads from [l] to [l0]. *)
Fixpoint undoes (pid : Z) (saved : list (Z * option Process)) (l l0 : list DeviceState) : Prop :=
  match saved with
  | [] => l = l0
  | (index, old) :: rest =>
      restorable pid index old l /\ undoes pid rest (update_gpu index (restore_gpu pid old) l) l0
  end.

Lemma rollback_from_run pid saved w l0 : all_tidy w -> undoes pid saved (gpus w) l0 ->
  gpus (rollback_from (Some mg) pid (map prior_of saved) w) = l0.
Proof.
  revert w. induction saved as [| [index old] saved IH]; intros w Ht; cbn [undoes map rollback_from]; [done |].
  intros [(Hi & d & Hin & Hidx & Hold) Hrest]. cbn [prior_of pr_target pr_process fst snd].
  rewrite deviceAndProcess_run by done.
  destruct (find_first (fun d => Index d =? index) (gpus w)) as [e |] eqn:Ef.
  2: { rewrite find_first_none in Ef. specialize (Ef d Hin). to_prop. done. }
  destruct (found_index _ _ _ Ef) as [Hn He]. pose proof Hn as [_ Hein].
  assert (e = d) as ->.
  { destruct (gpus_ok w) as (_ & Hnd & _). apply (NoDup_map_inj Index (gpus w)); [done .. | congruence]. }
  cbv zeta. apply IH; destruct old as [q |].
  - destruct Hold as (Hq & Hs & Hfit). rewrite <- Hq in *.
    destruct (replace_put index q d w Ht Hs Hn He Hfit) as [_ Eg]. unfold all_tidy, withoutPID in *. rewrite Eg.
    apply tidy_update; [| done]. intros x _ Hx. by apply tidy_put_gpu.
  - destruct (replace_drop index pid d w Ht Hn He) as [_ Eg]. unfold all_tidy, withoutPID in *. rewrite app_nil_r, Eg.
    apply tidy_update; [| done]. intros x _ Hx. by apply tidy_drop_gpu.
  - destruct Hold as (Hq & Hs & Hfit). rewrite <- Hq in *.
    destruct (replace_put index q d w Ht Hs Hn He Hfit) as [_ Eg]. unfold withoutPID in *. by rewrite Eg.
  - destruct (replace_drop index pid d w Ht Hn He) as [_ Eg]. unfold withoutPID in *. by rewrite app_nil_r, Eg.
Qed.

Lemma place_restorable rq index amount w l old w' :
  all_tidy w -> index_ok index -> sent (new_process rq amount) ->
  place (new_process rq amount) index (gpus w) = Some l ->
  apply_one (Some mg) rq (Itoa index) amount w = (Ok {| pr_target := Itoa index; pr_process := old |}, w') ->
  restorable (rq_pid rq) index old l.
Proof.
  intros Ht Hi Hp Hplace Hone. split; [done |]. unfold place in Hplace. apply bind_Some in Hplace as (d & Ef & Hplace).
  destruct (_ <=? _) eqn:Efit; [| done]. simplify_eq. to_prop. set (p := new_process rq amount) in *.
  destruct (found_index _ _ _ Ef) as [Hn Hidx]. destruct (names_gpu_ok _ _ _ Hn) as (Hin & Hd & _).
  pose proof Hd as (_ & _ & _ & _ & _ & [Hf _] & _ & _ & _ & Hdist).
  exists (put_gpu p d). split; [apply elem_of_update_gpu; exists d; by rewrite Hidx, Z.eqb_refl |]. split; [done |].
  assert (old = look (Processes d) (rq_pid rq)) as ->.
  { unfold apply_one in Hone. pose proof (deviceAndProcess_run index (rq_pid rq) w Hi) as Hdev. rewrite Ef in Hdev.
    rewrite (M_bind_ok _ _ _ _ _ Hdev) in Hone. apply M_bind_inv in Hone as (b & w1 & _ & Hone).
    destruct (amount >? _); [done |]. cbv zeta in Hone. destruct (_ && _); [done |].
    apply M_bind_inv in Hone as (? & ? & _ & [= <- _]). done. }
  destruct (look (Processes d) (rq_pid rq)) as [q |] eqn:Eq; [| done]. split; [by eapply look_PID |].
  apply look_elem in Eq as Hq. unfold all_tidy in Ht. rewrite Forall_forall in Ht. destruct (Ht d Hin) as [_ Hs].
  rewrite Forall_forall in Hs. split; [by apply Hs |].
  destruct (put_spec p (Processes d) Hdist) as (_ & Hl & _).
  assert (held (rq_pid rq) (put_gpu p d) = amount * mib) as ->.
  { unfold held, put_gpu. rewrite Processes_with. change (rq_pid rq) with (PID p). by rewrite Hl. }
  change (FreeBytes (put_gpu p d)) with (FreeBytes d + owned d - owned_bytes (put p (Processes d))).
  rewrite (owned_put p d Hdist). change (UsedMemoryMiB p) with amount. change (PID p) with (rq_pid rq).
  assert (held (rq_pid rq) d = UsedMemoryMiB q * mib) as -> by (unfold held; by rewrite Eq). word.
Qed.

Lemma apply_loop_run rq work saved w l0 :
  all_tidy w -> Forall (fun ia => index_ok ia.1 /\ sent (new_process rq ia.2)) work ->
  undoes (rq_pid rq) saved (gpus w) l0 ->
  let r := apply_loop (Some mg) rq (map (fun ia => (Itoa ia.1, ia.2)) work) (rev (map prior_of saved)) w in
  match place_all rq work (gpus w) with
  | Some l => r.1 = Ok tt /\ gpus r.2 = l /\ all_tidy r.2
  | None => (exists e, r.1 = Err e) /\ gpus r.2 = l0
  end.
Proof.
  intros Ht Hwork. revert saved w Ht. induction Hwork as [| [index amount] work [Hi Hp] _ IH]; intros saved w Ht Hundo; [done |].
  cbn [map apply_loop place_all]. pose proof (apply_one_run rq index amount w Ht Hi Hp) as Hone. cbn [fst snd] in *.
  destruct (place (new_process rq amount) index (gpus w)) as [l |] eqn:Eplace.
  - destruct Hone as (old & w' & Eone & Eg & Ht' & Eback). rewrite Eone. cbn [mbind option_bind].
    change ({| pr_target := Itoa index; pr_process := old |}) with (prior_of (index, old)).
    specialize (IH ((index, old) :: saved) w' Ht'). cbn [map rev] in IH. rewrite Eg in IH. apply IH.
    split; [by apply (place_restorable rq index amount w l old w') | cbn [undoes]; by rewrite Eback].
  - destruct Hone as (e & Eone). rewrite Eone. cbn. split; [by exists e |].
    unfold rollback. rewrite rev_involutive. by apply rollback_from_run.
Qed.
(** *** Releasing *)
Definition has_gpu (l : list DeviceState) (index : Z) : Prop := index ∈ map Index l.

Lemma drop_all_cons pid index indices l : drop_all pid (index :: indices) l = drop_all pid indices (update_gpu index (drop_gpu pid) l).
Proof.
  unfold drop_all, update_gpu. rewrite map_map. apply map_ext. intros d.
  destruct (Z.eqb_spec (Index d) index) as [E | E].
  - change (Index (drop_gpu pid d)) with (Index d). rewrite (bool_decide_eq_true_2 (Index d ∈ index :: indices)) by set_solver.
    case_bool_decide; [| done]. unfold drop_gpu. rewrite with_processes_twice, Processes_with. f_equal.
    symmetry. apply without_absent. by rewrite look_without, Z.eqb_refl.
  - by rewrite (bool_decide_ext (Index d ∈ index :: indices) (Index d ∈ indices)) by set_solver.
Qed.

Lemma drop_all_idem pid indices l : drop_all pid indices (drop_all pid indices l) = drop_all pid indices l.
Proof.
  unfold drop_all. rewrite map_map. apply map_ext. intros d. destruct (bool_decide (Index d ∈ indices)) eqn:Hd.
  - change (Index (drop_gpu pid d)) with (Index d). rewrite Hd. unfold drop_gpu. rewrite with_processes_twice, Processes_with. f_equal. apply without_absent.
    by rewrite look_without, Z.eqb_refl.
  - by rewrite Hd.
Qed.

Lemma drop_all_indices pid indices l : map Index (drop_all pid indices l) = map Index l.
Proof. unfold drop_all. rewrite map_map. apply map_ext. intros d. by case_bool_decide. Qed.

Lemma update_gpu_indices f index l : (forall d, Index (f d) = Index d) -> map Index (update_gpu index f l) = map Index l.
Proof. intros Hf. unfold update_gpu. rewrite map_map. apply map_ext. intros d. by destruct (_ =? _). Qed.

Lemma release_loop_run pid indices joined w : all_tidy w -> Forall index_ok indices ->
  let r := release_loop (Some mg) pid (map Itoa indices) joined w in
  gpus r.2 = drop_all pid indices (gpus w) /\ all_tidy r.2 /\
  (r.1 = None <-> joined = None /\ Forall (has_gpu (gpus w)) indices).
Proof.
  intros Ht Hi. revert joined w Ht. induction Hi as [| index indices Hi _ IH]; intros joined w Ht.
  { cbn. split; [| split; [done | naive_solver]]. unfold drop_all.
    transitivity (map (fun d : DeviceState => d) (gpus w)); [by rewrite map_id |]. apply map_ext. intros d.
    by rewrite bool_decide_eq_false_2 by set_solver. }
  cbn [map release_loop]. rewrite deviceAndProcess_run by done. rewrite drop_all_cons.
  destruct (find_first (fun d => Index d =? index) (gpus w)) as [d |] eqn:Ef.
  - destruct (found_index _ _ _ Ef) as [Hn He]. pose proof Hn as [_ Hin].
    assert (has_gpu (gpus w) index) as Hhas by (apply list_elem_of_fmap; by exists d).
    destruct (look (Processes d) pid) as [p |] eqn:Ep.
    + destruct (replace_drop index pid d w Ht Hn He) as [Er Eg]. unfold withoutPID.
      destruct (ReplaceProcessesFromState _ _ _ _ w) as [r w1]. cbn in Er, Eg. subst r.
      assert (all_tidy w1) as Ht1.
      { unfold all_tidy. rewrite Eg. apply tidy_update; [| done]. intros x _ Hx. by apply tidy_drop_gpu. }
      destruct (IH joined w1 Ht1) as (Eg2 & Ht2 & Hj). cbn in *. rewrite Eg2, Hj, Eg, Forall_cons.
      split; [done |]. split; [done |].
      unfold has_gpu in *. rewrite (update_gpu_indices (drop_gpu pid)) by done. tauto.
    + assert (update_gpu index (drop_gpu pid) (gpus w) = gpus w) as ->.
      { rewrite <- He. rewrite (update_gpu_unique w d _ (fun e => e) Hin); [by apply update_gpu_same |].
        by apply drop_gpu_absent. }
      destruct (IH joined w Ht) as (Eg2 & Ht2 & Hj). cbn in *. rewrite Hj, Forall_cons. tauto.
  - assert (~ has_gpu (gpus w) index) as Hno.
    { intros (d & -> & Hd)%list_elem_of_fmap. rewrite find_first_none in Ef. specialize (Ef d Hd). by rewrite Z.eqb_refl in Ef. }
    assert (update_gpu index (drop_gpu pid) (gpus w) = gpus w) as ->.
    { apply update_gpu_same. intros d Hd E. exfalso. apply Hno. apply list_elem_of_fmap. by exists d. }
    destruct (IH (errors_Join joined (Some (Errorf "GPU %q not found" [AS (Itoa index)]))) w Ht) as (Eg2 & Ht2 & Hj).
    cbn in *. split; [done |]. split; [done |]. rewrite Hj, Forall_cons.
    destruct joined; cbn; split; [by intros [? _] | by intros [? _] | by intros [? _] | by intros (_ & ? & _)].
Qed.

(** *** Placing, then dropping *)
Definition all_distinct (l : list DeviceState) : Prop := Forall (fun d => distinct (Processes d)) l.

Lemma place_inv p index l l1 : place p index l = Some l1 ->
  exists d, d ∈ l /\ Index d = index /\ UsedMemoryMiB p * mib <= held (PID p) d + FreeBytes d /\
    l1 = update_gpu index (put_gpu p) l.
Proof.
  unfold place. intros (d & [Hd Hi]%find_first_some & Hl)%bind_Some. destruct (_ <=? _) eqn:E; [| done]. simplify_eq.
  to_prop. by exists d.
Qed.

Lemma place_distinct p index l l1 : all_distinct l -> place p index l = Some l1 -> all_distinct l1.
Proof.
  intros Hd (_ & _ & _ & _ & ->)%place_inv. unfold all_distinct in *. rewrite Forall_forall in *.
  intros e (d & Hin & ->)%elem_of_update_gpu. destruct (_ =? _); [| by apply Hd].
  unfold put_gpu. rewrite Processes_with. apply put_spec. by apply Hd.
Qed.

Lemma drop_place p index indices l l1 : all_distinct l -> index ∈ indices -> place p index l = Some l1 ->
  drop_all (PID p) indices l1 = drop_all (PID p) indices l.
Proof.
  intros Hd Hin (_ & _ & _ & _ & ->)%place_inv. unfold drop_all, update_gpu. rewrite map_map.
  apply map_ext_in. intros d Hdin%list_elem_of_In. unfold all_distinct in Hd. rewrite Forall_forall in Hd.
  destruct (Z.eqb_spec (Index d) index) as [E |]; [| done]. change (Index (put_gpu p d)) with (Index d).
  case_bool_decide; [| congruence]. by apply drop_put_gpu, Hd.
Qed.

Lemma drop_place_all rq work indices l l1 : all_distinct l -> Forall (fun ia => ia.1 ∈ indices) work ->
  place_all rq work l = Some l1 -> drop_all (rq_pid rq) indices l1 = drop_all (rq_pid rq) indices l.
Proof.
  intros Hd Hwork. revert l Hd. induction Hwork as [| [index amount] work Hi _ IH]; intros l Hd; cbn [place_all].
  { by intros [= ->]. }
  intros (l2 & Hp & Hrest)%bind_Some. rewrite (IH l2) by (done || by eapply place_distinct).
  by apply (drop_place (new_process rq amount) index).
Qed.

(** A pid without records on these GPUs. *)
Definition fresh (pid : Z) (indices : list Z) (l : list DeviceState) : Prop :=
  forall d, d ∈ l -> Index d ∈ indices -> look (Processes d) pid = None.

Lemma drop_all_fresh pid indices l : fresh pid indices l -> drop_all pid indices l = l.
Proof.
  intros Hf. unfold drop_all. transitivity (map (fun d : DeviceState => d) l); [| apply map_id].
  apply map_ext_in. intros d Hd%list_elem_of_In. case_bool_decide; [| done]. by apply drop_gpu_absent, Hf.
Qed.
End node.
(** ** Amounts *)
Section amounts.
Context (out_of_range : spec_float -> Z).

Lemma f64_uint64_range v : u64 (f64_uint64 out_of_range v).
Proof.
  unfold f64_uint64. destruct v; try apply wrap64_u64; [done |]. cbv zeta.
  destruct (_ && _) eqn:E; [| apply wrap64_u64]. to_prop. word.
Qed.

Lemma wrap64_sub_add a b c : wrap64 (b + wrap64 (a - (c ⊕ b))) = wrap64 (a - c).
Proof.
  unfold wrap64. rewrite Zplus_mod_idemp_r.
  replace (b + (a - (c + b) mod 18446744073709551616)) with (b + a - (c + b) mod 18446744073709551616) by lia.
  rewrite Zminus_mod_idemp_r. f_equal. lia.
Qed.

Lemma split_amounts_spec total sum weights assigned : weights <> [] ->
  let amounts := split_amounts out_of_range total sum weights assigned in
  length amounts = length weights /\ Forall u64 amounts /\ wrap64 (sumZ id amounts) = total ⊖ assigned.
Proof.
  revert assigned. induction weights as [| w weights IH]; intros assigned Hne; [done |]. destruct weights as [| w2 weights].
  - cbn. split; [done |]. split; [repeat constructor; apply wrap64_u64 |]. unfold id. rewrite Z.add_0_r.
    apply wrap64_small, wrap64_u64.
  - cbn [split_amounts]. set (amount := f64_uint64 _ _). destruct (IH (assigned ⊕ amount)) as (Hl & Hu & Hs); [done |].
    set (rest := split_amounts _ _ _ (w2 :: weights) _) in *. cbn [length sumZ]. split; [by f_equal |].
    split; [constructor; [apply f64_uint64_range | done] |]. unfold id at 1.
    transitivity (wrap64 (amount + wrap64 (sumZ id rest))).
    + unfold wrap64. by rewrite Zplus_mod_idemp_r.
    + rewrite Hs. apply wrap64_sub_add.
Qed.

Lemma total_mib_exact totalBytes : u64 totalBytes ->
  0 <= total_mib totalBytes <= 17592186044416 /\
  (total_mib totalBytes - 1) * mib < totalBytes <= total_mib totalBytes * mib.
Proof.
  intros Hu. unfold total_mib. cbv zeta. pose proof (Z.div_mod totalBytes mib ltac:(done)) as Hdm.
  pose proof (Z.mod_pos_bound totalBytes mib ltac:(done)) as Hm. unfold mib in *.
  destruct (Z.eqb_spec (totalBytes mod 1048576) 0) as [E | E]; cbn [negb]; [word |].
  rewrite wrap64_small by word. word.
Qed.

Lemma splitProcessMiB_spec totalBytes targets tensorSplit amounts :
  splitProcessMiB out_of_range totalBytes targets tensorSplit = Ok amounts -> u64 totalBytes ->
  length amounts = length targets /\ Forall u64 amounts /\ wrap64 (sumZ id amounts) = total_mib totalBytes.
Proof.
  unfold splitProcessMiB. destruct targets as [| t targets]; [done |]. cbv zeta. intros H Hu.
  destruct (_ || _); [done |]. simplify_eq.
  destruct (split_amounts_spec (total_mib totalBytes)
    (fold_left f64_add (map (weight_of tensorSplit) (t :: targets)) (S754_zero false))
    (map (weight_of tensorSplit) (t :: targets)) 0) as (Hl & Ha & Hs); [done |].
  rewrite length_map in Hl. split; [done |]. split; [done |]. etransitivity; [exact Hs |]. pose proof (total_mib_exact _ Hu) as [? _].
  rewrite Z.sub_0_r. apply wrap64_small. word.
Qed.
End amounts.

(** *** The bytes a pid holds on a node *)
Definition total_held (pid : Z) (l : list DeviceState) : Z := sumZ (held pid) l.

Lemma total_held_update pid index f l d : NoDup (map Index l) -> d ∈ l -> Index d = index ->
  total_held pid (update_gpu index f l) = total_held pid l - held pid d + held pid (f d).
Proof.
  unfold total_held, update_gpu. intros Hnd Hd <-. apply list_elem_of_split in Hd as (l1 & l2 & ->).
  rewrite map_app in Hnd. cbn in Hnd. apply NoDup_app in Hnd as (_ & Hx & [Hy _]%NoDup_cons).
  assert (forall k, (forall e, e ∈ k -> Index e <> Index d) ->
    map (fun e => if Index e =? Index d then f e else e) k = k) as Hid.
  { intros k Hk. transitivity (map (fun e : DeviceState => e) k); [| apply map_id]. apply map_ext_in.
    intros e He%list_elem_of_In. by rewrite (proj2 (Z.eqb_neq _ _)) by by apply Hk. }
  rewrite map_app. cbn [map]. rewrite Z.eqb_refl, !Hid.
  - rewrite !sumZ_app. cbn. lia.
  - intros e He E. apply Hy. rewrite <- E. by apply list_elem_of_fmap_2.
  - intros e He E. apply (Hx (Index e)); [by apply list_elem_of_fmap_2 | rewrite E; left].
Qed.

Lemma held_put p d : distinct (Processes d) -> held (PID p) (put_gpu p d) = UsedMemoryMiB p * mib.
Proof.
  intros Hd. unfold held, put_gpu. rewrite Processes_with. by destruct (put_spec p (Processes d) Hd) as (_ & -> & _).
Qed.

Lemma fresh_update pid index indices p l : fresh pid indices l -> index ∉ indices ->
  fresh pid indices (update_gpu index (put_gpu p) l).
Proof.
  intros Hf Hno e (d & Hd & ->)%elem_of_update_gpu. destruct (Z.eqb_spec (Index d) index) as [E |]; [| by apply Hf].
  change (Index (put_gpu p d)) with (Index d). congruence.
Qed.

(** On distinct GPUs without a record of the pid, the records placed hold
    what was asked for. *)
Lemma place_all_held rq work l l1 : NoDup (map Index l) -> all_distinct l ->
  NoDup (map fst work) -> fresh (rq_pid rq) (map fst work) l -> place_all rq work l = Some l1 ->
  total_held (rq_pid rq) l1 = total_held (rq_pid rq) l + sumZ (fun ia => ia.2 * mib) work /\
  Forall (fun ia => exists d, d ∈ l /\ Index d = ia.1 /\ ia.2 * mib <= FreeBytes d) work.
Proof.
  revert l. induction work as [| [index amount] work IH]; intros l Hi Hd Hnd Hf; cbn [place_all].
  { intros [= <-]. cbn. split; [lia | done]. }
  cbn [map fst] in Hnd, Hf. apply NoDup_cons in Hnd as [Hno Hnd]. intros (l2 & Hp & Hrest)%bind_Some.
  pose proof (place_distinct _ _ _ _ Hd Hp) as Hd2. apply place_inv in Hp as (d & Hin & Hidx & Hfit & ->).
  change (PID (new_process rq amount)) with (rq_pid rq) in Hfit. change (UsedMemoryMiB (new_process rq amount)) with amount in Hfit.
  assert (held (rq_pid rq) d = 0) as Hzero by (unfold held; rewrite Hf; [done | done | rewrite Hidx; left]).
  destruct (IH (update_gpu index (put_gpu (new_process rq amount)) l)) as [E Hall];
    [by rewrite update_gpu_indices | done | done | | done |].
  { apply fresh_update; [| done]. intros e He Hie. apply Hf; [done | by right]. }
  split.
  - rewrite E, (total_held_update _ _ _ _ d) by done. unfold all_distinct in Hd. rewrite Forall_forall in Hd.
    pose proof (held_put (new_process rq amount) d (Hd d Hin)) as Hput.
    change (PID (new_process rq amount)) with (rq_pid rq) in Hput. rewrite Hput, Hzero. cbn. lia.
  - constructor; [exists d; cbn; by split_and!; [| | lia] |]. rewrite Forall_forall in *. intros ia Hia.
    destruct (Hall ia Hia) as (e & (e0 & He0 & ->)%elem_of_update_gpu & Ei & Hle).
    exists e0. destruct (Z.eqb_spec (Index e0) index) as [E0 |]; [| done].
    exfalso. apply Hno. change (Index (put_gpu (new_process rq amount) e0)) with (Index e0) in Ei. rewrite <- E0, Ei.
    by apply list_elem_of_fmap_2.
Qed.
(** ** Properties *)
(** What a request must be for its records to survive the node's formats. *)
Definition request_ok (rq : Request) : Prop :=
  u32 (rq_pid rq) /\ rq_pid rq <> 0 /\ plain_text (rq_name rq) = true /\ valid_utf8 (rq_name rq) = true /\
  percent (rq_smUtil rq) /\ percent (rq_memUtil rq) /\ u64 (rq_totalBytes rq).
#[export] Instance request_ok_dec rq : Decision (request_ok rq).
Proof. unfold request_ok. apply _. Defined.

Lemma request_sent rq amount : request_ok rq -> u64 amount -> sent (new_process rq amount).
Proof.
  intros (Hp & Hne & Hn & Hj & H1 & H2 & _) Ha. split; [| done].
  split; [done |]. split; [by left |]. split; [done |]. split; [done |]. split; [exact H1 |]. split; [exact H2 |]. by repeat split.
Qed.

Lemma combine_map_l {A B C} (f : A -> B) (l : list A) (k : list C) :
  combine (map f l) k = map (fun x => (f x.1, x.2)) (combine l k).
Proof. revert k. induction l as [| a l IH]; intros [| b k]; cbn; [done .. |]. by rewrite IH. Qed.

Lemma map_fst_combine {A B} (l : list A) (k : list B) : length k = length l -> map fst (combine l k) = l.
Proof.
  revert k. induction l as [| a l IH]; intros [| b k] Hl; try done. cbn in *. f_equal. apply IH. lia.
Qed.

Lemma place_all_present rq work l l1 : place_all rq work l = Some l1 ->
  Forall (has_gpu l) (map fst work) /\ map Index l1 = map Index l.
Proof.
  revert l. induction work as [| [index amount] work IH]; intros l; cbn [place_all]; [by intros [= <-] |].
  intros (l2 & (d & Hd & Hi & _ & ->)%place_inv & [Hall E]%IH)%bind_Some.
  rewrite update_gpu_indices in E by done. unfold has_gpu in *. rewrite update_gpu_indices in Hall by done.
  split; [constructor; [| done] | done]. cbn. apply list_elem_of_fmap. by exists d.
Qed.

Section properties.
Context {W : Type} `{NvmlMockProcesses W} (out_of_range : spec_float -> Z).
Context (mg : Manager W) (Hwired : wired mg) (Hlock : forall w, lockable mg w) (Hpath : mg_MutationLockPath mg <> "").
Context (rq : Request) (indices : list Z) (Hok : request_ok rq).
Context (Htargets : rq_targets rq = map Itoa indices) (Hne : indices <> []) (Hindices : Forall index_ok indices).

Definition amounts_of : result (list Z) :=
  splitProcessMiB out_of_range (rq_totalBytes rq) (rq_targets rq) (rq_tensorSplit rq).

Lemma register_run w : all_tidy w ->
  let r := Register out_of_range (Some (NewNVMLRegistry (Some mg))) rq w in
  match amounts_of with
  | Err e => r = (Err e, w)
  | Ok amounts =>
      match place_all rq (combine indices amounts) (gpus w) with
      | Some l => r.1 = Ok tt /\ gpus r.2 = l /\ all_tidy r.2
      | None => (exists e, r.1 = Err e) /\ gpus r.2 = gpus w
      end
  end.
Proof.
  intros Ht r. subst r. unfold Register, apply, amounts_of. cbn [registry_manager mbind option_bind rg_manager NewNVMLRegistry].
  pose proof Hok as (_ & Hpid & _). apply Z.eqb_neq in Hpid. rewrite Hpid.
  assert (exists t ts, rq_targets rq = t :: ts) as (t & ts & Et) by (rewrite Htargets; destruct indices; [done | by do 2 eexists]).
  rewrite Et. destruct (splitProcessMiB _ _ _ _) as [amounts | e] eqn:Es; [| by rewrite (lift_bind_err _ _ _ _ eq_refl)].
  rewrite (lift_bind_ok _ _ _ _ eq_refl). rewrite <- Et, Htargets, combine_map_l.
  apply splitProcessMiB_spec in Es as (_ & Hu & _); [| apply Hok].
  apply (apply_loop_run mg Hwired Hlock Hpath rq (combine indices amounts) [] w (gpus w) Ht); [| done].
  apply Forall_forall. intros [i a] Hia. apply list_elem_of_In in Hia. pose proof (in_combine_l _ _ _ _ Hia) as Hi.
  apply in_combine_r in Hia. rewrite Forall_forall in Hindices, Hu. split; [by apply Hindices, list_elem_of_In |].
  apply request_sent; [done |]. by apply Hu, list_elem_of_In.
Qed.

(** C6. Registering the server's records on several GPUs is all or nothing.
    It succeeds exactly when every target in turn has the room for its share
    (free memory plus what the pid already holds there), and then each GPU
    carries exactly the new record next to the untouched records of others,
    with used and free memory moved by the difference.  Whatever fails, at
    whichever target, the rollback leaves every GPU as it was. *)
Theorem Register_atomic w : all_tidy w ->
  let r := Register out_of_range (Some (NewNVMLRegistry (Some mg))) rq w in
  match amounts_of with
  | Err e => r = (Err e, w)
  | Ok amounts =>
      match place_all rq (combine indices amounts) (gpus w) with
      | Some l => r.1 = Ok tt /\ gpus r.2 = l
      | None => (exists e, r.1 = Err e) /\ gpus r.2 = gpus w
      end
  end.
Proof.
  intros Ht r. pose proof (register_run w Ht) as Hrun. fold r in Hrun. destruct amounts_of; [| done].
  destruct (place_all _ _ _); [| done]. by destruct Hrun as (? & ? & _).
Qed.

Lemma place_all_amounts amounts : Forall u64 amounts -> wrap64 (sumZ id amounts) = total_mib (rq_totalBytes rq) ->
  Forall (fun a => a * mib <= u64_max) amounts -> Z.of_nat (length amounts) <= mib ->
  sumZ id amounts = total_mib (rq_totalBytes rq).
Proof.
  intros Hu <- Hle Hlen. symmetry. apply wrap64_small.
  assert (0 <= sumZ id amounts <= Z.of_nat (length amounts) * 17592186044415) as Hb; [| unfold mib in Hlen; word].
  clear Hlen. induction Hu as [| a amounts Ha Hu IH]; [done |]. apply Forall_cons in Hle as [Hla Hle]. specialize (IH Hle).
  cbn [sumZ length]. unfold id at 1 3. unfold u64, u64_max, mib in *. lia.
Qed.

Lemma sumZ_combine (ks : list Z) amounts : length amounts = length ks ->
  sumZ (fun ia => ia.2 * mib) (combine ks amounts) = sumZ id amounts * mib.
Proof.
  revert amounts. induction ks as [| k ks IH]; intros [| a amounts] Hl; try done. cbn in Hl. cbn [combine sumZ snd].
  rewrite IH by lia. unfold id at 2. lia.
Qed.

(** C24. On distinct GPUs that hold no record of the pid, a successful
    registration charges exactly the requested memory, rounded up to whole
    mebibytes: however the weights split it and however the divisions round,
    the shares add up, none of them wraps around, and no GPU is charged more
    than it had free. *)
Theorem Register_exact w amounts : all_tidy w -> NoDup indices -> Z.of_nat (length indices) <= mib ->
  fresh (rq_pid rq) indices (gpus w) -> amounts_of = Ok amounts ->
  let r := Register out_of_range (Some (NewNVMLRegistry (Some mg))) rq w in
  r.1 = Ok tt ->
  total_held (rq_pid rq) (gpus r.2) = total_held (rq_pid rq) (gpus w) + total_mib (rq_totalBytes rq) * mib /\
  (total_mib (rq_totalBytes rq) - 1) * mib < rq_totalBytes rq <= total_mib (rq_totalBytes rq) * mib /\
  Forall (fun ia => exists d, d ∈ gpus w /\ Index d = ia.1 /\ 0 <= ia.2 * mib <= FreeBytes d) (combine indices amounts).
Proof.
  intros Ht Hnd Hlen Hfresh Ha r Hr. pose proof (register_run w Ht) as Hrun. fold r in Hrun. rewrite Ha in Hrun.
  apply splitProcessMiB_spec in Ha as (Hl & Hu & Hs); [| apply Hok]. rewrite Htargets, length_map in Hl.
  destruct (place_all _ _ _) as [l |] eqn:Ep; [| by destruct Hrun as [[e He] _]; rewrite He in Hr].
  destruct Hrun as (_ & -> & _).
  assert (map fst (combine indices amounts) = indices) as Hfst by (by apply map_fst_combine).
  destruct (gpus_ok w) as (Hdev & Hidx & _).
  assert (all_distinct (gpus w)) as Hdist.
  { eapply Forall_impl; [exact Hdev |]. by intros d (_ & _ & _ & _ & _ & _ & _ & _ & _ & ?). }
  apply place_all_held in Ep as [E Hall]; [| done | done | by rewrite Hfst ..].
  assert (Forall (fun a => a * mib <= u64_max) amounts) as Hmax.
  { apply Forall_forall. intros a Hin. rewrite Forall_forall in Hall.
    assert (exists i, (i, a) ∈ combine indices amounts) as [i Hia].
    { apply list_elem_of_lookup in Hin as [k Hk]. destruct (lookup_lt_is_Some_2 indices k) as [i Hik].
      { rewrite <- Hl. by eapply lookup_lt_Some. }
      exists i. apply list_elem_of_lookup. exists k. apply lookup_zip_with_Some. by exists i, a. }
    destruct (Hall _ Hia) as (d & Hd & _ & Hle). cbn in Hle. rewrite Forall_forall in Hdev.
    destruct (Hdev d Hd) as (_ & _ & _ & _ & _ & [Hf _] & _). word. }
  rewrite E, sumZ_combine by done. rewrite (place_all_amounts amounts) by (done || by rewrite Hl).
  split; [done |]. split; [apply total_mib_exact, Hok |].
  apply Forall_forall. intros [i a] Hia. rewrite Forall_forall in Hall. destruct (Hall _ Hia) as (d & ? & ? & ?). exists d. cbn in *.
  apply list_elem_of_In, in_combine_r, list_elem_of_In in Hia. rewrite Forall_forall in Hu. specialize (Hu a Hia).
  split_and!; try done. word.
Qed.

(** C26. Releasing undoes a registration: from a node without records of the
    pid on the targets, a successful registration (even of several shares on
    one GPU) followed by a release succeeds and gives back every GPU exactly
    as it was, and releasing again changes nothing. *)
Theorem Register_Release_roundtrip w : all_tidy w -> fresh (rq_pid rq) indices (gpus w) ->
  let registry := Some (NewNVMLRegistry (Some mg)) in
  let r1 := Register out_of_range registry rq w in
  r1.1 = Ok tt ->
  let r2 := Release registry (rq_pid rq) (rq_targets rq) r1.2 in
  let r3 := Release registry (rq_pid rq) (rq_targets rq) r2.2 in
  r2.1 = Ok tt /\ gpus r2.2 = gpus w /\ r3.1 = Ok tt /\ gpus r3.2 = gpus w.
Proof.
  intros Ht Hfresh registry r1 Hr1 r2 r3. pose proof (register_run w Ht) as Hrun. fold registry r1 in Hrun. destruct amounts_of as [amounts | e] eqn:Ha; [| by rewrite Hrun in Hr1].
  destruct (place_all _ _ _) as [l |] eqn:Ep; [| by destruct Hrun as [[e He] _]; rewrite He in Hr1].
  destruct Hrun as (_ & Eg & Ht1). subst l. destruct (gpus_ok w) as (Hdev & _).
  assert (all_distinct (gpus w)) as Hdist.
  { eapply Forall_impl; [exact Hdev |]. by intros d (_ & _ & _ & _ & _ & _ & _ & _ & _ & ?). }
  pose proof (place_all_present _ _ _ _ Ep) as [Hpresent Eindex].
  assert (length amounts = length indices) as Hl.
  { apply splitProcessMiB_spec in Ha as (Hl & _); [| apply Hok]. by rewrite Htargets, length_map in Hl. }
  rewrite map_fst_combine in Hpresent by done.
  assert (forall w1, all_tidy w1 -> map Index (gpus w1) = map Index (gpus w) ->
    drop_all (rq_pid rq) indices (gpus w1) = gpus w ->
    let r := Release registry (rq_pid rq) (rq_targets rq) w1 in r.1 = Ok tt /\ gpus r.2 = gpus w /\ all_tidy r.2) as Hrel.
  { intros w1 Ht2 Ei Ed. unfold Release. cbn [registry registry_manager mbind option_bind rg_manager NewNVMLRegistry].
    rewrite Htargets. destruct (release_loop_run mg Hwired Hlock Hpath (rq_pid rq) indices None w1 Ht2 Hindices) as (E2 & Ht3 & Hj).
    destruct (release_loop _ _ _ None w1) as [joined w2]. cbn [fst snd] in *. rewrite E2, Ed.
    assert (joined = None) as ->; [| done]. apply Hj. split; [done |]. unfold has_gpu in *. by rewrite Ei. }
  destruct (Hrel r1.2 Ht1 Eindex) as (? & E2 & Ht2).
  { rewrite (drop_place_all rq (combine indices amounts) indices (gpus w)); [by apply drop_all_fresh | done | | done].
    apply Forall_forall. intros [i a] Hia. apply list_elem_of_In in Hia. apply list_elem_of_In. by eapply in_combine_l. }
  change (gpus r2.2 = gpus w) in E2. change (all_tidy r2.2) in Ht2.
  destruct (Hrel r2.2 Ht2) as (? & E3 & _); [by rewrite E2 | by rewrite E2; apply drop_all_fresh | done].
Qed.
End properties.
(** ** Witnesses on the in-memory node *)
Definition truncate_only : spec_float -> Z := fun _ => 0.
Definition demo_request (pid bytes : Z) (targets : list string) : Request :=
  {| rq_pid := pid; rq_name := "fake-llama-server"; rq_targets := targets; rq_totalBytes := bytes;
     rq_tensorSplit := [f64_of_Z 3; f64_of_Z 1]; rq_smUtil := 35; rq_memUtil := 20 |}.
Definition demo_indices : list Z := [1; 0].
Definition demo_registry : option (NVMLRegistry Machine) := Some (NewNVMLRegistry (Some demo_manager)).

Lemma demo_tidy : all_tidy demo_machine.
Proof. apply (bool_decide_unpack (Forall tidy demo_gpus)). by vm_compute. Qed.
Lemma demo_lock_path : mg_MutationLockPath demo_manager <> "".
Proof. done. Qed.
Lemma demo_index_ok : Forall index_ok demo_indices.
Proof. repeat constructor; done. Qed.
Lemma demo_fresh : fresh 77 demo_indices demo_gpus.
Proof. intros d [-> | [-> | []%elem_of_nil]%elem_of_cons]%elem_of_cons _; by vm_compute. Qed.

(** 8 GiB and one byte, three quarters of it on GPU 0. *)
Definition demo_bytes : Z := 8589934593.
Definition demo_two : Request := demo_request 77 demo_bytes ["1"; "0"].
Definition demo_amounts : list Z := [2048; 6145].
Example demo_split : splitProcessMiB truncate_only demo_bytes ["1"; "0"] (rq_tensorSplit demo_two) = Ok demo_amounts.
Proof. vm_compute. reflexivity. Qed.
Definition demo_after : list DeviceState :=
  [put_gpu (new_process demo_two 6145) (demo_gpu 0 "GPU-aa" 3072 13000 [demo_worker 7 2048; demo_worker 9 512]);
   put_gpu (new_process demo_two 2048) (demo_gpu 1 "GPU-bb" 0 16000 [])].
Lemma demo_placed : place_all demo_two (combine demo_indices demo_amounts) demo_gpus = Some demo_after.
Proof. vm_compute. reflexivity. Qed.

(** Too much for GPU 0, which is tried after GPU 1 was already changed. *)
Definition demo_big : Request := demo_request 77 (20000 * mib) ["1"; "0"].
Lemma demo_refused : place_all demo_big (combine demo_indices [5000; 15000]) demo_gpus = None.
Proof. vm_compute. reflexivity. Qed.

Lemma demo_two_ok : request_ok demo_two.
Proof. apply (bool_decide_unpack _). by vm_compute. Qed.
Lemma demo_big_ok : request_ok demo_big.
Proof. apply (bool_decide_unpack _). by vm_compute. Qed.
Lemma demo_two_targets : rq_targets demo_two = map Itoa demo_indices.
Proof. vm_compute. reflexivity. Qed.
Lemma demo_big_targets : rq_targets demo_big = map Itoa demo_indices.
Proof. vm_compute. reflexivity. Qed.
Lemma demo_two_amounts : amounts_of truncate_only demo_two = Ok demo_amounts.
Proof. vm_compute. reflexivity. Qed.
Lemma demo_big_amounts : amounts_of truncate_only demo_big = Ok [5000; 15000].
Proof. vm_compute. reflexivity. Qed.
Lemma demo_indices_some : demo_indices <> [].
Proof. done. Qed.

Lemma Register_atomic_witness :
  ((Register truncate_only demo_registry demo_two demo_machine).1 = Ok tt /\
   gpus (Register truncate_only demo_registry demo_two demo_machine).2 = demo_after) /\
  (exists e, (Register truncate_only demo_registry demo_big demo_machine).1 = Err e) /\
  gpus (Register truncate_only demo_registry demo_big demo_machine).2 = demo_gpus.
Proof.
  pose proof (Register_atomic truncate_only demo_manager demo_wired demo_lockable demo_lock_path demo_two demo_indices
    demo_two_ok demo_two_targets demo_indices_some demo_index_ok demo_machine demo_tidy) as Hr.
  pose proof (Register_atomic truncate_only demo_manager demo_wired demo_lockable demo_lock_path demo_big demo_indices
    demo_big_ok demo_big_targets demo_indices_some demo_index_ok demo_machine demo_tidy) as Hb.
  pose proof demo_two_amounts as E1.
  pose proof demo_big_amounts as E2.
  rewrite E1 in Hr. rewrite E2 in Hb. change (gpus demo_machine) with demo_gpus in *.
  rewrite demo_placed in Hr. rewrite demo_refused in Hb. exact (conj Hr Hb).
Defined.

Lemma demo_registered : (Register truncate_only demo_registry demo_two demo_machine).1 = Ok tt.
Proof.
  pose proof (register_run truncate_only demo_manager demo_wired demo_lockable demo_lock_path demo_two demo_indices
    demo_two_ok demo_two_targets demo_indices_some demo_index_ok demo_machine demo_tidy) as Hr.
  pose proof demo_two_amounts as E1.
  rewrite E1 in Hr. change (gpus demo_machine) with demo_gpus in Hr. rewrite demo_placed in Hr. apply Hr.
Qed.

Lemma Register_exact_witness :
  total_held 77 (gpus (Register truncate_only demo_registry demo_two demo_machine).2) = 8193 * mib.
Proof.
  refine (eq_trans (proj1 (Register_exact truncate_only demo_manager demo_wired demo_lockable demo_lock_path demo_two
    demo_indices demo_two_ok demo_two_targets demo_indices_some demo_index_ok demo_machine demo_amounts demo_tidy _ _
    demo_fresh _ demo_registered)) _).
  - apply (bool_decide_unpack _). by vm_compute.
  - by vm_compute.
  - vm_compute. reflexivity.
  - vm_compute. reflexivity.
Defined.

Lemma Register_Release_roundtrip_witness :
  gpus (Release demo_registry 77 ["1"; "0"] (Register truncate_only demo_registry demo_two demo_machine).2).2 = demo_gpus.
Proof.
  refine (proj1 (proj2 (Register_Release_roundtrip truncate_only demo_manager demo_wired demo_lockable demo_lock_path demo_two
    demo_indices demo_two_ok demo_two_targets demo_indices_some demo_index_ok demo_machine demo_tidy demo_fresh demo_registered))).
Defined.

(** A GPU named twice keeps only the last share: of 8 GiB, 4 are charged. *)
Lemma duplicate_target_undercharges :
  exists l, place_all (demo_request 77 (8192 * mib) ["1"; "1"]) (combine [1; 1] [4096; 4096]) demo_gpus = Some l /\
    splitProcessMiB truncate_only (8192 * mib) ["1"; "1"] [] = Ok [4096; 4096] /\ total_held 77 l = 4096 * mib.
Proof. eexists. split; [vm_compute; reflexivity |]. split; vm_compute; reflexivity. Qed.
End registry.
