(* ===== verification/LlamaServer.v ===== *)
(** * The fake llama server: [internal/fakellama/server.go]

    The life of the process ([Run], the release of its resources) over the
    interface of the process registry, and the HTTP handlers.  What the
    environment does at the points where [Run] waits is a list of events. *)
From Stdlib Require Import SpecFloat.
From S2P Require Import Prelude GoStrings GoStrconv GoPath GoJson GoTime GoFloat GoRat Control ProcessJson Observe Manager Node ProcessNode LlamaConfig LlamaRegistry.
Import control observe manager node process_node llama registry.

Module server.

Definition ErrInjectedCrash : string := "fakellama.ErrInjectedCrash".

(** ** The interface [ProcessRegistry] *)
Record ProcessRegistry (W : Type) := {
  reg_Register : Request -> M W unit;
  reg_Resize : Request -> M W unit;
  reg_Release : Z -> list string -> M W unit
}.
Arguments reg_Register {W}. Arguments reg_Resize {W}. Arguments reg_Release {W}.

(** ** The server *)
Record Server (W : Type) := { sv_cfg : Config; sv_registry : option (ProcessRegistry W); sv_pid : Z }.
Arguments sv_cfg {W}. Arguments sv_registry {W}. Arguments sv_pid {W}.

(** A line written with [fmt.Fprintf]: the format and its operands. *)
Record Line := printf { format : string; operands : list arg }.

(** Its variables, what it has written, and the world outside. *)
Record State (W : Type) := {
  ready : bool; registered : bool; addr : string; stdout : list Line; stderr : list Line; world : W
}.
Arguments ready {W}. Arguments registered {W}. Arguments addr {W}.
Arguments stdout {W}. Arguments stderr {W}. Arguments world {W}.

Definition NewServer {W} (cfg : Config) (registry : option (ProcessRegistry W)) (pid : Z) : Server W :=
  {| sv_cfg := cfg; sv_registry := registry; sv_pid := pid |}.
Definition initial {W} (w : W) : State W :=
  {| ready := false; registered := false; addr := ""; stdout := []; stderr := []; world := w |}.

(** What happens while [Run] waits: a case of its [select], or the signal
    handler of [main] releasing the resources. *)
Inductive Event :=
  | CtxDone
  | ServeStopped (err : option error)
  | LoadTimer
  | GrowthTimer
  | CrashTimer
  | ExternalRelease.

Section server.
Context {W : Type}.

Definition set_ready (b : bool) (st : State W) : State W :=
  {| ready := b; registered := registered st; addr := addr st; stdout := stdout st; stderr := stderr st; world := world st |}.
Definition set_registered (b : bool) (st : State W) : State W :=
  {| ready := ready st; registered := b; addr := addr st; stdout := stdout st; stderr := stderr st; world := world st |}.
Definition set_addr (a : string) (st : State W) : State W :=
  {| ready := ready st; registered := registered st; addr := a; stdout := stdout st; stderr := stderr st; world := world st |}.
Definition set_world (w : W) (st : State W) : State W :=
  {| ready := ready st; registered := registered st; addr := addr st; stdout := stdout st; stderr := stderr st; world := w |}.
Definition out (line : Line) (st : State W) : State W :=
  {| ready := ready st; registered := registered st; addr := addr st;
     stdout := stdout st ++ [line]; stderr := stderr st; world := world st |}.
Definition err (line : Line) (st : State W) : State W :=
  {| ready := ready st; registered := registered st; addr := addr st;
     stdout := stdout st; stderr := stderr st ++ [line]; world := world st |}.

(** A registry call. *)
Definition call {A} (m : M W A) (st : State W) : result A * State W :=
  let '(r, w') := m (world st) in (r, set_world w' st).

Implicit Type s : Server W.

Definition ReleaseResources s : State W -> option error * State W := fun st =>
  match sv_registry s with
  | None => (None, st)
  | Some reg =>
      if negb (registered st) then (None, st) else
      let '(r, st) := call (reg_Release reg (sv_pid s) (Targets (sv_cfg s))) (set_ready false st) in
      match r with
      | Err e => (Some e, st)
      | Ok _ => (None, set_registered false st)
      end
  end.

(** [ticks] is how often the timer fires before the context expires. *)
Definition DeadlineExceeded : string := "context.DeadlineExceeded".
Fixpoint releaseResourcesWithRetry s (ticks : nat) (st : State W) : option error * State W :=
  match ReleaseResources s st with
  | (None, st) => (None, st)
  | (Some e, st) =>
      match ticks with
      | O => (Some (Joined e (Sentinel DeadlineExceeded)), st)
      | S k => releaseResourcesWithRetry s k st
      end
  end.

Definition request s (bytes : Z) : Request :=
  {| rq_pid := sv_pid s; rq_name := "fake-llama-server"; rq_targets := Targets (sv_cfg s); rq_totalBytes := bytes;
     rq_tensorSplit := TensorSplit (sv_cfg s); rq_smUtil := SMUtil (sv_cfg s); rq_memUtil := MemoryUtil (sv_cfg s) |}.

(** The loop once the server is ready.  [None]: it still waits after these
    events.  A timer that is not armed never fires. *)
Fixpoint ready_loop s (reg : ProcessRegistry W) (currentBytes : Z) (growth : bool) (events : list Event) (st : State W) : option (result unit) * State W :=
  let cfg := sv_cfg s in
  match events with
  | [] => (None, st)
  | CtxDone :: _ => (Some (Ok tt), st)
  | ServeStopped (Some e) :: _ => (Some (Err (Wrapf "serve: %w" [] e)), st)
  | ServeStopped None :: _ => (Some (Err (Errorf "HTTP server stopped unexpectedly" [])), st)
  | GrowthTimer :: rest =>
      if negb growth then ready_loop s reg currentBytes growth rest st else
      if currentBytes >? u64_max ⊖ GrowthBytes cfg
      then (Some (Err (Errorf "fake llama-server VRAM growth overflows uint64" [])), st) else
      let currentBytes := currentBytes ⊕ GrowthBytes cfg in
      let '(r, st) := call (reg_Resize reg (request s currentBytes)) st in
      match r with
      | Err e => (Some (Err (Wrapf "fake llama-server VRAM growth: %w" [] e)), st)
      | Ok _ =>
          ready_loop s reg currentBytes false rest
            (out (printf "fake-llama-server: simulated VRAM grew to %d bytes" [AZ currentBytes]) st)
      end
  | CrashTimer :: rest =>
      if negb (CrashAfterReady cfg >? 0) then ready_loop s reg currentBytes growth rest st else
      (Some (Err (Sentinel ErrInjectedCrash)),
       err (printf "fake-llama-server: injected crash after readiness" []) (set_ready false st))
  | ExternalRelease :: rest => ready_loop s reg currentBytes growth rest (ReleaseResources s st).2
  | LoadTimer :: rest => ready_loop s reg currentBytes growth rest st
  end.

Definition become_ready s reg (required : Z) (events : list Event) (st : State W) : option (result unit) * State W :=
  let cfg := sv_cfg s in
  let st := set_ready true st in
  let st := out (printf "fake-llama-server: model load simulation complete; ready at http://%s" [AS (addr st)]) st in
  ready_loop s reg required ((GrowthAfter cfg >? 0) && (GrowthBytes cfg >? 0)) events st.

Fixpoint load_wait s reg (required : Z) (events : list Event) (st : State W) : option (result unit) * State W :=
  match events with
  | [] => (None, st)
  | CtxDone :: _ => (Some (Ok tt), st)
  | ServeStopped (Some e) :: _ => (Some (Err (Wrapf "serve during model load: %w" [] e)), st)
  | ServeStopped None :: _ => (Some (Err (Errorf "HTTP server stopped during model load" [])), st)
  | LoadTimer :: rest => become_ready s reg required rest st
  | ExternalRelease :: rest => load_wait s reg required rest (ReleaseResources s st).2
  | GrowthTimer :: rest | CrashTimer :: rest => load_wait s reg required rest st
  end.

(** The body of [Run] after the listener is open. *)
Definition serve s (reg : ProcessRegistry W) (required : Z) (events : list Event) (st : State W) : option (result unit) * State W :=
  let cfg := sv_cfg s in
  let st := out (printf "fake-llama-server: loading model %s" [AS (ModelPath cfg)]) st in
  let st := out (printf "fake-llama-server: selected fake GPU targets %s" [AS (Join (Targets cfg) ",")]) st in
  if ForceOOM cfg
  then (Some (Err (Sentinel ErrOutOfMemory)),
        err (printf "ggml_cuda_init: CUDA error: out of memory (injected by fake-llama-server)" []) st) else
  let '(r, st) := call (reg_Register reg (request s required)) st in
  match r with
  | Err e =>
      (Some (Err e), if errors_Is e ErrOutOfMemory
                     then err (printf "ggml_cuda_init: CUDA error: out of memory: %v" [AE e]) st else st)
  | Ok _ =>
      let st := set_registered true st in
      let st := out (printf "fake-llama-server: reserved %d simulated bytes for pid %d" [AZ required; AZ (sv_pid s)]) st in
      if LoadDelay cfg >? 0 then load_wait s reg required events st else become_ready s reg required events st
  end.

(** The deferred cleanup. *)
Definition finish_run s (ticks : nat) (runErr : result unit) (st : State W) : result unit * State W :=
  let '(e, st) := releaseResourcesWithRetry s ticks (set_ready false st) in
  (match e with
   | None => runErr
   | Some e =>
       let e := Wrapf "release fake llama-server resources: %w" [] e in
       Err (match runErr with Ok _ => e | Err r => Joined r e end)
   end, st).

Definition JoinHostPort (host port : string) : string :=
  if negb (free_of ":" host) then "[" +:+ host +:+ "]:" +:+ port else host +:+ ":" +:+ port.

(** [stat] is [os.Stat], [listen] is [net.Listen] with the address of the
    listener it opens. *)
Definition Run s (stat : string -> result FileInfo) (listen : string -> result string)
    (events : list Event) (ticks : nat) (st : State W) : option (result unit) * State W :=
  let cfg := sv_cfg s in
  match sv_registry s with
  | None => (Some (Err (Errorf "fake llama-server is not initialized" [])), st)
  | Some reg =>
      if sv_pid s =? 0 then (Some (Err (Errorf "fake llama-server requires a positive pid" [])), st) else
      if StartupFail cfg
      then (Some (Err (Errorf "fake llama-server injected startup failure" [])),
            err (printf "fake-llama-server: injected startup failure before model load" []) st) else
      match RequiredVRAMBytes stat cfg with
      | Err e => (Some (Err e), st)
      | Ok required =>
          match listen (JoinHostPort (Host cfg) (Itoa (Port cfg))) with
          | Err e => (Some (Err (Wrapf "listen: %w" [] e)), st)
          | Ok address =>
              match serve s reg required events (set_addr address st) with
              | (None, st) => (None, st)
              | (Some r, st) => let '(r, st) := finish_run s ticks r st in (Some r, st)
              end
          end
      end
  end.
End server.

(** ** What a registry promises to the server

    On what can be seen of the GPUs, [erase] takes the records of the server's
    pid away.  Placing records changes nothing else, a refused request changes
    nothing, and a release that succeeds has taken the records away.
    [available] is what a placed request shows of the targets. *)
Class LawfulRegistry {W V : Type} (reg : ProcessRegistry W) (pid : Z) (targets : list string)
    (view : W -> V) (erase : V -> V) (good : W -> Prop) (available : Prop) := {
  law_place : forall rq w, rq_pid rq = pid -> rq_targets rq = targets -> request_ok rq -> good w ->
    forall r, r = reg_Register reg rq w \/ r = reg_Resize reg rq w ->
    good r.2 /\ erase (view r.2) = erase (view w) /\ (is_ok r.1 = false -> view r.2 = view w) /\
    (is_ok r.1 = true -> available);
  law_release : forall w, good w ->
    let r := reg_Release reg pid targets w in
    good r.2 /\ erase (view r.2) = erase (view w) /\ (is_ok r.1 = true -> view r.2 = erase (view w))
}.

(** The events never make a growth timer fire after an external release. *)
Fixpoint orderly (events : list Event) : bool :=
  match events with
  | [] => true
  | ExternalRelease :: rest => forallb (fun e => match e with GrowthTimer => false | _ => true end) rest && orderly rest
  | _ :: rest => orderly rest
  end.

Section lawful.
Context {W V : Type} (s : Server W) (reg : ProcessRegistry W) (view : W -> V) (erase : V -> V) (good : W -> Prop)
  (available : Prop).
Context `{!LawfulRegistry reg (sv_pid s) (Targets (sv_cfg s)) view erase good available}.
Context (Hreg : sv_registry s = Some reg) (Hcfg : typed (sv_cfg s)) (Hpid : u32 (sv_pid s)) (Hpid0 : sv_pid s <> 0).
Context (v0 : V) (Hv0 : erase v0 = v0).

(** Between events: without the pid's records the GPUs look as at the start,
    and unless the server is registered they do so as they are. *)
Definition held_by_server (st : State W) : Prop :=
  good (world st) /\ erase (view (world st)) = v0 /\ (registered st = false -> view (world st) = v0) /\
  (registered st = true -> available).

Lemma request_server_ok bytes : u64 bytes -> request_ok (request s bytes).
Proof.
  intros Hb. pose proof (t_SMUtil _ Hcfg). pose proof (t_MemoryUtil _ Hcfg). do 6 (split; [done |]). exact Hb.
Qed.

Lemma ReleaseResources_keeps st : held_by_server st ->
  let r := ReleaseResources s st in
  held_by_server r.2 /\ (r.1 = None -> registered r.2 = false).
Proof.
  intros (Hg & He & Hr & Ha). unfold ReleaseResources. rewrite Hreg. destruct (registered st) eqn:Er; cbn [negb].
  - unfold call. cbn [world set_ready]. destruct (law_release (world st) Hg) as (Hg' & He' & Hok).
    destruct (reg_Release reg _ _ (world st)) as [[[] | e] w']; cbn in *; (split; [| done]).
    + split; [done |]. split; [exact (eq_trans He' He) |]. split; [| done]. intros _. exact (eq_trans (Hok eq_refl) He).
    + split; [done |]. split; [exact (eq_trans He' He) |]. cbn. rewrite Er. split; [done |]. intros _. by apply Ha.
  - cbn. split; [| done]. split; [done |]. split; [done |]. split; [| by rewrite Er]. intros _. by apply Hr.
Qed.

Lemma retry_keeps ticks st : held_by_server st ->
  let r := releaseResourcesWithRetry s ticks st in
  held_by_server r.2 /\ (r.1 = None -> registered r.2 = false).
Proof.
  revert st. induction ticks as [| k IH]; intros st Hst; cbn [releaseResourcesWithRetry];
    pose proof (ReleaseResources_keeps st Hst) as [Hs Hn]; destruct (ReleaseResources s st) as [[e |] st1]; cbn in *; auto.
  by split.
Qed.

Lemma ready_loop_keeps bytes growth events st : held_by_server st -> u64 bytes ->
  orderly events = true ->
  (registered st = true \/ forallb (fun e => match e with GrowthTimer => false | _ => true end) events = true) ->
  held_by_server (ready_loop s reg bytes growth events st).2.
Proof.
  revert bytes growth st. induction events as [| [| [e |] | | | |] events IH]; intros bytes growth st Hst Hb Ho Hor;
    cbn [ready_loop orderly forallb] in *; try exact Hst.
  - by apply IH.
  - destruct Hor as [Hor | ?]; [| done]. destruct growth; cbn [negb]; [| apply IH; auto].
    destruct (bytes >? _) eqn:Eov; [done |]. cbv zeta.
    pose proof (t_GrowthBytes _ Hcfg) as Hgb. apply gtb_false in Eov. rewrite wrap64_small in Eov by word.
    rewrite (wrap64_small (bytes + _)) by word. assert (u64 (bytes + GrowthBytes (sv_cfg s))) as Hb2 by word.
    destruct Hst as (Hg & He & Hr & Ha). unfold call.
    destruct (law_place (request s (bytes + GrowthBytes (sv_cfg s))) (world st) eq_refl eq_refl (request_server_ok _ Hb2) Hg
      _ (or_intror eq_refl)) as (Hg' & He' & Hfail & Hav).
    destruct (reg_Resize reg _ (world st)) as [[[] | e] w']; cbn in *.
    + apply IH; cbn; auto. split; [done |]. split; [exact (eq_trans He' He) |]. cbn. rewrite Hor. split; [done |]. intros _. by apply Ha.
    + split; [done |]. split; [exact (eq_trans He' He) |]. cbn. rewrite Hor. split; [done |]. intros _. by apply Ha.
  - destruct (_ >? 0); cbn [negb]; [exact Hst | by apply IH].
  - apply andb_true_iff in Ho as [Hno Ho]. apply IH; try done; [| by right].
    by apply ReleaseResources_keeps.
Qed.
Lemma load_wait_keeps bytes events st : held_by_server st -> u64 bytes -> orderly events = true ->
  (registered st = true \/ forallb (fun e => match e with GrowthTimer => false | _ => true end) events = true) ->
  held_by_server (load_wait s reg bytes events st).2.
Proof.
  revert st. induction events as [| [| [e |] | | | |] events IH]; intros st Hst Hb Ho Hor;
    cbn [load_wait orderly forallb] in *; try exact Hst.
  - unfold become_ready. by apply ready_loop_keeps.
  - destruct Hor; [| done]. by apply IH; [.. | left].
  - by apply IH.
  - apply andb_true_iff in Ho as [Hno Ho]. apply IH; try done; [| by right]. by apply ReleaseResources_keeps.
Qed.

Lemma serve_keeps required events st : held_by_server st -> registered st = false -> u64 required ->
  orderly events = true -> held_by_server (serve s reg required events st).2.
Proof.
  intros (Hg & He & Hr & Ha) Hnr Hb Ho. unfold serve. cbv zeta. destruct (ForceOOM (sv_cfg s)); [done |].
  unfold call. cbn [world out].
  destruct (law_place (request s required) (world st) eq_refl eq_refl (request_server_ok _ Hb) Hg
    _ (or_introl eq_refl)) as (Hg' & He' & Hfail & Hav).
  destruct (reg_Register reg _ (world st)) as [[[] | e] w']; cbn [fst snd is_ok] in *.
  - assert (forall l, held_by_server (out l (set_registered true (set_world w' (out
      (printf "fake-llama-server: selected fake GPU targets %s" [AS (Join (Targets (sv_cfg s)) ",")])
      (out (printf "fake-llama-server: loading model %s" [AS (ModelPath (sv_cfg s))]) st)))))) as Hst.
    { intros l. split; [done |]. split; [exact (eq_trans He' He) |]. split; [done |]. intros _. by apply Hav. }
    destruct (LoadDelay _ >? 0); [by apply load_wait_keeps; auto |]. unfold become_ready. apply ready_loop_keeps; auto.
    split; [done |]. split; [exact (eq_trans He' He) |]. split; [done |]. intros _. by apply Hav.
  - assert (view w' = v0) as Hv by (etransitivity; [by apply Hfail | by apply Hr]).
    destruct (errors_Is e ErrOutOfMemory); (split; [done |]; split; [exact (eq_trans He' He) |]; split; [by intros _ | cbn; by rewrite Hnr]).
Qed.

Lemma finish_run_keeps ticks r st : held_by_server st ->
  let f := finish_run s ticks r st in
  held_by_server f.2 /\ ((registered f.2 = false /\ f.1 = r) \/
    exists e, f.1 = Err (match r with Ok _ => e | Err r => Joined r e end)).
Proof.
  intros (Hg & He & Hr & Ha). unfold finish_run. destruct (retry_keeps ticks (set_ready false st)) as [Hs Hn]; [done |].
  destruct (releaseResourcesWithRetry _ _ _) as [[e |] st1]; cbn in *; (split; [done |]); [right; by eexists | left; auto].
Qed.

Lemma Run_keeps stat listen events ticks w r st :
  (forall path info, stat path = Ok info -> fi_size info < int64_cutoff) ->
  good w -> view w = v0 -> orderly events = true ->
  Run s stat listen events ticks (initial w) = (Some r, st) ->
  held_by_server st /\ (registered st = true -> is_ok r = false).
Proof.
  intros Hstat Hg Hv Ho. assert (held_by_server (initial w)) as H0 by (split; [done |]; split; [by cbn; rewrite Hv |]; by split).
  unfold Run. rewrite Hreg. pose proof Hpid0 as Hp. apply Z.eqb_neq in Hp. rewrite Hp.
  destruct (StartupFail (sv_cfg s)); [by intros [= _ <-] |].
  destruct (RequiredVRAMBytes stat (sv_cfg s)) as [required | e] eqn:Ereq; [| by intros [= _ <-]].
  apply required_exact in Ereq as (_ & _ & _ & Hb); [| done | by apply Hstat].
  destruct (listen _) as [address | e]; [| by intros [= _ <-]].
  assert (held_by_server (set_addr address (initial w))) as H1 by done.
  pose proof (serve_keeps required events _ H1 eq_refl Hb Ho) as Hserve.
  destruct (serve _ _ _ _ _) as [[r0 |] st0]; [| done]. destruct (finish_run_keeps ticks r0 st0 Hserve) as [Hf Hcase].
  destruct (finish_run s ticks r0 st0) as [r1 st1]. intros [= <- <-]. cbn in *. split; [done |]. intros Er.
  destruct Hcase as [[? _] | [e ->]]; [congruence | done].
Qed.
(** When a release of available targets never fails. *)
Lemma finish_run_reliable ticks r st : (available -> forall w, good w -> is_ok (reg_Release reg (sv_pid s) (Targets (sv_cfg s)) w).1 = true) ->
  held_by_server st -> let f := finish_run s ticks r st in f.1 = r /\ registered f.2 = false.
Proof.
  intros Hrel (Hg & He & Hr & Ha). unfold finish_run.
  assert ((releaseResourcesWithRetry s ticks (set_ready false st)).1 = None /\
    registered (releaseResourcesWithRetry s ticks (set_ready false st)).2 = false) as [E1 E2].
  { assert ((ReleaseResources s (set_ready false st)).1 = None /\ registered (ReleaseResources s (set_ready false st)).2 = false) as [E F].
    { unfold ReleaseResources. rewrite Hreg. cbn [registered set_ready]. destruct (registered st) eqn:Er; cbn [negb]; [| done].
      unfold call. cbn [world set_ready]. specialize (Hrel (Ha eq_refl) (world st) Hg).
      by destruct (reg_Release reg _ _ (world st)) as [[[] | e] w']. }
    destruct ticks; cbn [releaseResourcesWithRetry]; destruct (ReleaseResources s (set_ready false st)) as [[e |] st1]; done. }
  destruct (releaseResourcesWithRetry _ _ _) as [[e |] st1]; done.
Qed.

Lemma Run_reliable stat listen events ticks w r st :
  (available -> forall w, good w -> is_ok (reg_Release reg (sv_pid s) (Targets (sv_cfg s)) w).1 = true) ->
  (forall path info, stat path = Ok info -> fi_size info < int64_cutoff) ->
  good w -> view w = v0 -> orderly events = true ->
  Run s stat listen events ticks (initial w) = (Some r, st) ->
  registered st = false /\ view (world st) = v0.
Proof.
  intros Hrel Hstat Hg Hv Ho Hrun. destruct (Run_keeps _ _ _ _ _ _ _ Hstat Hg Hv Ho Hrun) as [Hheld _].
  assert (registered st = false) as Er; [| split; [done | by apply Hheld]].
  clear Hheld. revert Hrun.
  assert (held_by_server (initial w)) as H0 by (split; [done |]; split; [by cbn; rewrite Hv |]; by split).
  unfold Run. rewrite Hreg. pose proof Hpid0 as Hp. apply Z.eqb_neq in Hp. rewrite Hp.
  destruct (StartupFail (sv_cfg s)); [by intros [= _ <-] |].
  destruct (RequiredVRAMBytes stat (sv_cfg s)) as [required | e] eqn:Ereq; [| by intros [= _ <-]].
  apply required_exact in Ereq as (_ & _ & _ & Hb); [| done | by apply Hstat].
  destruct (listen _) as [address | e]; [| by intros [= _ <-]].
  assert (held_by_server (set_addr address (initial w))) as H1 by done.
  pose proof (serve_keeps required events _ H1 eq_refl Hb Ho) as Hserve.
  destruct (serve _ _ _ _ _) as [[r0 |] st0]; [| done]. destruct (finish_run_reliable ticks r0 st0 Hrel Hserve) as [_ Hcase].
  destruct (finish_run s ticks r0 st0) as [r1 st1]. by intros [= <- <-].
Qed.
End lawful.

(** *** The registry of this package keeps the promise on every node *)
Definition nvml_registry {W} `{OS W} (out_of_range : spec_float -> Z) (r : option (NVMLRegistry W)) : ProcessRegistry W :=
  {| reg_Register := registry.Register out_of_range r; reg_Resize := registry.Resize out_of_range r;
     reg_Release := registry.Release r |}.

Section on_node.
Context {W : Type} `{NvmlMockProcesses W} (out_of_range : spec_float -> Z).
Context (mg : Manager W) (Hwired : wired mg) (Hlock : forall w, lockable mg w) (Hpath : mg_MutationLockPath mg <> "").
Context (pid : Z) (indices : list Z) (Hne : indices <> []) (Hindices : Forall index_ok indices).
Context (shape : list Z).   (* the indices of the node's GPUs *)

Definition node_good (w : W) : Prop := all_tidy w /\ map Index (gpus w) = shape.
Definition all_present : Prop := Forall (fun index => index ∈ shape) indices.

#[export] Instance nvml_registry_lawful :
  LawfulRegistry (nvml_registry out_of_range (Some (NewNVMLRegistry (Some mg)))) pid (map Itoa indices)
    gpus (drop_all pid indices) node_good all_present.
Proof.
  split.
  - intros rq w Hp Ht Hok [Hg Hs] r Hr.
    assert (r = registry.Register out_of_range (Some (NewNVMLRegistry (Some mg))) rq w) as -> by by destruct Hr as [-> | ->].
    pose proof (register_run out_of_range mg Hwired Hlock Hpath rq indices Hok Ht Hne Hindices w Hg) as Hrun.
    cbv zeta in Hrun. destruct (amounts_of out_of_range rq) as [amounts | e] eqn:Ha; [| by rewrite Hrun].
    destruct (place_all _ _ _) as [l |] eqn:Ep.
    + destruct Hrun as (E & Eg & Hg'). destruct (place_all_present _ _ _ _ Ep) as [Hpresent Eindex].
      assert (length amounts = length indices) as Hl.
      { apply splitProcessMiB_spec in Ha as (Hl & _); [| apply Hok]. by rewrite Ht, length_map in Hl. }
      rewrite map_fst_combine in Hpresent by done. rewrite E, Eg. split; [split; [done | congruence] |].
      split; [| split; [done |]].
      * subst pid. apply (drop_place_all rq (combine indices amounts)); [| | done].
        -- destruct (gpus_ok w) as (Hdev & _). eapply Forall_impl; [exact Hdev |].
           by intros d (_ & _ & _ & _ & _ & _ & _ & _ & _ & ?).
        -- apply Forall_forall. intros [i a] Hia. apply list_elem_of_In in Hia. apply list_elem_of_In. by eapply in_combine_l.
      * intros _. unfold all_present. rewrite <- Hs. exact Hpresent.
    + destruct Hrun as [[e Ee] Eg]. unfold node_good, all_tidy. by rewrite Ee, Eg.
  - intros w [Hg Hs]. cbn [reg_Release nvml_registry]. unfold registry.Release.
    cbn [registry_manager mbind option_bind rg_manager NewNVMLRegistry].
    destruct (release_loop_run mg Hwired Hlock Hpath pid indices None w Hg Hindices) as (Eg & Hg' & _).
    destruct (release_loop _ _ _ None w) as [joined w']. cbn [fst snd] in *. rewrite Eg.
    split; [| by rewrite drop_all_idem]. split; [done |]. rewrite Eg. etransitivity; [apply drop_all_indices | done].
Qed.

Lemma nvml_release_reliable w : all_present -> node_good w ->
  is_ok (reg_Release (nvml_registry out_of_range (Some (NewNVMLRegistry (Some mg)))) pid (map Itoa indices) w).1 = true.
Proof.
  intros Hp [Hg Hs]. cbn [reg_Release nvml_registry]. unfold registry.Release.
  cbn [registry_manager mbind option_bind rg_manager NewNVMLRegistry].
  destruct (release_loop_run mg Hwired Hlock Hpath pid indices None w Hg Hindices) as (_ & _ & Hj).
  destruct (release_loop _ _ _ None w) as [joined w']. cbn [fst snd] in *.
  assert (joined = None) as ->; [| done]. apply Hj. split; [done |]. unfold has_gpu, all_present in *. by rewrite Hs.
Qed.
End on_node.
(** ** A waiting server returns when it is told to *)
Definition ends (events : list Event) : Prop := CtxDone ∈ events \/ exists e, ServeStopped e ∈ events.

Lemma ends_cons e events : ends (e :: events) ->
  match e with CtxDone | ServeStopped _ => True | _ => ends events end.
Proof. unfold ends. destruct e; set_solver. Qed.

Lemma ready_loop_returns {W} (s : Server W) reg bytes growth events st : ends events ->
  exists r st', ready_loop s reg bytes growth events st = (Some r, st').
Proof.
  revert bytes growth st. induction events as [| e events IH]; intros bytes growth st Hev.
  { destruct Hev as [Hx | [? Hx]]; by apply elem_of_nil in Hx. }
  apply ends_cons in Hev. destruct e as [| [e |] | | | |]; cbn [ready_loop]; auto; try by do 2 eexists.
  - destruct growth; cbn [negb]; [| auto]. destruct (_ >? _); [by do 2 eexists |]. cbv zeta.
    destruct (call _ _) as [[[] | e] st1]; [auto | by do 2 eexists].
  - destruct (_ >? 0); cbn [negb]; [by do 2 eexists | auto].
Qed.

Lemma load_wait_returns {W} (s : Server W) reg bytes events st : ends events ->
  exists r st', load_wait s reg bytes events st = (Some r, st').
Proof.
  revert st. induction events as [| e events IH]; intros st Hev.
  { destruct Hev as [Hx | [? Hx]]; by apply elem_of_nil in Hx. }
  apply ends_cons in Hev. destruct e as [| [e |] | | | |]; cbn [load_wait]; auto; try by do 2 eexists.
  by apply ready_loop_returns.
Qed.

(** ** Properties *)
(** ** On a node *)
Lemma run_restores_node {W} `{NvmlMockProcesses W} out_of_range (mg : Manager W) cfg pid indices stat listen events ticks w r st :
  wired mg -> (forall w, lockable mg w) -> mg_MutationLockPath mg <> "" ->
  typed cfg -> Targets cfg = map Itoa indices -> indices <> [] -> Forall index_ok indices ->
  u32 pid -> pid <> 0 -> all_tidy w -> fresh pid indices (gpus w) ->
  (forall path info, stat path = Ok info -> fi_size info < int64_cutoff) -> orderly events = true ->
  let s := NewServer cfg (Some (nvml_registry out_of_range (Some (NewNVMLRegistry (Some mg))))) pid in
  Run s stat listen events ticks (initial w) = (Some r, st) ->
  registered st = false /\ gpus (world st) = gpus w.
Proof.
  intros Hw Hl Hp Hcfg Ht Hne Hi Hpid Hpid0 Hg Hf Hstat Ho s Hrun.
  pose proof (nvml_registry_lawful out_of_range mg Hw Hl Hp pid indices Hne Hi (map Index (gpus w))) as Hlaw. rewrite <- Ht in Hlaw.
  refine (Run_reliable s _ gpus (drop_all pid indices) (node_good (map Index (gpus w))) (all_present indices (map Index (gpus w)))
    eq_refl Hcfg Hpid Hpid0 (gpus w) (drop_all_fresh _ _ _ Hf) stat listen events ticks w r st _ Hstat _ eq_refl Ho Hrun).
  - intros Hav w1 Hg1. cbn [sv_cfg sv_pid s NewServer]. rewrite Ht.
    by apply (nvml_release_reliable out_of_range mg Hw Hl Hp pid indices Hi (map Index (gpus w))).
  - by split.
Qed.

Lemma Run_returns {W} (s : Server W) stat listen events ticks st :
  (CtxDone ∈ events \/ exists e, ServeStopped e ∈ events) ->
  exists r st', Run s stat listen events ticks st = (Some r, st').
Proof.
  intros Hev. unfold Run. destruct (sv_registry s) as [reg |]; [| by do 2 eexists].
  destruct (sv_pid s =? 0); [by do 2 eexists |]. destruct (StartupFail _); [by do 2 eexists |].
  destruct (RequiredVRAMBytes _ _) as [required |]; [| by do 2 eexists]. destruct (listen _); [| by do 2 eexists].
  assert (exists r st', serve s reg required events (set_addr a st) = (Some r, st')) as (r & st' & ->).
  2: { destruct (finish_run s ticks r st') as [r1 st1]. by do 2 eexists. }
  unfold serve. cbv zeta. destruct (ForceOOM _); [by do 2 eexists |].
  destruct (call _ _) as [[[] | e] st1]; [| by do 2 eexists].
  destruct (LoadDelay _ >? 0); [by apply load_wait_returns | by apply ready_loop_returns].
Qed.

(** C25. [Run] returns.  Once the context is cancelled or the HTTP server has
    stopped, whatever other events surround it, whatever the registry
    answers, and whatever the configuration, the server does not keep
    waiting: the retries of the cleanup end with the context. *)
Theorem Run_terminates {W} (s : Server W) stat listen events ticks st :
  (CtxDone ∈ events \/ exists e, ServeStopped e ∈ events) ->
  exists r st', Run s stat listen events ticks st = (Some r, st').
Proof. apply Run_returns. Qed.
(** ** Witnesses *)
Definition hang_config : Config :=
  set_Targets ["1"; "0"] (set_GrowthAfter 1000000000 (set_GrowthBytes (512 * mib)
    (set_CrashAfterReady 5000000000 (set_ContextSize 0 demo_config)))).
Definition demo_server : Server Machine :=
  NewServer hang_config (Some (nvml_registry truncate_only (Some (NewNVMLRegistry (Some demo_manager))))) 77.
Definition demo_listen (address : string) : result string := Ok address.

Lemma hang_config_typed : typed hang_config.
Proof. constructor; repeat constructor; try done; by apply String.eqb_neq. Qed.
Lemma hang_config_targets : Targets hang_config = map Itoa demo_indices.
Proof. vm_compute. reflexivity. Qed.

(** The server loads, grows and is then cancelled. *)
Definition demo_events : list Event := [LoadTimer; GrowthTimer; CtxDone].

Lemma demo_pid : u32 77. Proof. done. Qed.
Lemma demo_pid_nonzero : 77 <> 0. Proof. done. Qed.
Lemma demo_stat_size path info : demo_stat path = Ok info -> fi_size info < int64_cutoff.
Proof. by intros [= <-]. Qed.
Lemma demo_orderly : orderly demo_events = true. Proof. done. Qed.

Lemma Run_terminates_witness :
  exists r st, Run demo_server demo_stat demo_listen demo_events 99 (initial demo_machine) = (Some r, st).
Proof. apply (Run_terminates demo_server). left. right. right. left. Defined.

(** The order matters.  With [HangShutdown] a signal releases the GPUs while
    the process stays; the growth timer then places the record again, and
    because the server no longer counts as registered nothing removes it when
    the process crashes. *)
Definition hang_events : list Event := [LoadTimer; ExternalRelease; GrowthTimer; CrashTimer].
Lemma hang_shutdown_leaks :
  let '(r, st) := Run demo_server demo_stat demo_listen hang_events 99 (initial demo_machine) in
  r = Some (Err (Sentinel ErrInjectedCrash)) /\ registered st = false /\
  total_held 77 (machine_gpus (world st)) = 2048 * mib.
Proof. vm_compute. done. Qed.
End server.
