(* ===== verification/LlamaHTTP.v ===== *)
(** * The HTTP surface of the fake llama server: the handlers of
    [internal/fakellama/server.go]

    A handler is a function of the server's configuration and readiness to
    the response it writes.  The decoder of request bodies, the clock and the
    fate of the client's connection are parameters. *)
From S2P Require Import Prelude GoStrings GoStrconv GoPath GoJson GoTime GoFloat GoRat Control Observe Manager Node ProcessNode LlamaConfig LlamaRegistry LlamaServer.
Import node llama server.

Module http.

(** ** JSON documents from Go maps: keys in byte order, no spaces *)
Fixpoint insert_field (kv : string * json) (l : list (string * json)) : list (string * json) :=
  match l with
  | [] => [kv]
  | kv' :: r => if String.leb kv.1 kv'.1 then kv :: l else kv' :: insert_field kv r
  end.
Definition json_map (fields : list (string * json)) : json := JObject (foldr insert_field [] fields).

Fixpoint compact_json (j : json) : string :=
  match j with
  | JText text => text
  | JArray items => "[" +:+ Join (map compact_json items) "," +:+ "]"
  | JObject fields =>
      "{" +:+ Join (map (fun kv => match kv with (k, v) => json_string k +:+ ":" +:+ compact_json v end) fields) "," +:+ "}"
  end.

Definition JStr (s : string) : json := JText (json_string s).
Definition JInt (n : Z) : json := JText (Itoa n).
Definition JNull : json := JText "null".

(** ** Responses *)
Record Response := { status : Z; headers : list (string * string); body : string }.

Definition json_headers : list (string * string) := [("Content-Type", "application/json")].
Definition writeJSON (code : Z) (value : json) : Response :=
  {| status := code; headers := json_headers; body := compact_json value +:+ chr newline |}.

Definition error_json (fields : list (string * json)) : json := json_map [("error", json_map fields)].

(** [requireReady]: the response when the request is rejected. *)
Definition requireReady (ready : bool) : option Response :=
  if ready then None else
  Some (writeJSON 503 (error_json [("message", JStr "model is still loading"); ("type", JStr "server_error")])).

Definition handleHealth (ready : bool) : Response :=
  if negb ready then writeJSON 503 (json_map [("status", JStr "loading")])
  else writeJSON 200 (json_map [("status", JStr "ok")]).

Section handlers.
Context (cfg : Config) (ready : bool).

Definition handleModels : Response :=
  match requireReady ready with
  | Some rejected => rejected
  | None =>
      let model := filepath.Base (ModelPath cfg) in
      writeJSON 200 (json_map [("object", JStr "list");
        ("data", JArray [json_map [("id", JStr model); ("object", JStr "model"); ("owned_by", JStr "fake-nvidia")]])])
  end.

Record chatRequest := { Model : string; Stream : bool }.

Definition bad_request : Response :=
  writeJSON 400 (error_json [("message", JStr "invalid JSON request"); ("type", JStr "invalid_request_error")]).
Definition model_of (request : chatRequest) : string :=
  if String.eqb (Model request) "" then filepath.Base (ModelPath cfg) else Model request.

(** *** Streams *)
(** What becomes of a write: it is sent and, after the token delay, the
    client is still there; it fails; or the client is gone after it. *)
Inductive Fate := Sent | WriteError | Cancelled.

(** [now i] is the Unix time of the [i]-th chunk, [fate i] what becomes of it. *)
Context (now : nat -> Z) (fate : nat -> Fate).

Definition chat_chunk (model : string) (created : Z) (delta : list (string * json)) (finish_reason : json) : json :=
  json_map [("id", JStr "chatcmpl-fake-nvidia"); ("object", JStr "chat.completion.chunk"); ("created", JInt created);
    ("model", JStr model);
    ("choices", JArray [json_map [("index", JInt 0); ("delta", json_map delta); ("finish_reason", finish_reason)]])].

Definition data_event (data : string) : string := "data: " +:+ data +:+ chr newline +:+ chr newline.

Definition word_event (model : string) (i : nat) (content : string) : string :=
  data_event (compact_json (chat_chunk model (now i) [("content", JStr content)] JNull)).
Definition final_event (model : string) (i : nat) : string :=
  data_event (compact_json (chat_chunk model (now i) [] (JStr "stop"))) +:+ data_event "[DONE]".

(** The content of each chunk: every word but the last has a space after it. *)
Fixpoint contents (words : list string) : list string :=
  match words with
  | [] => []
  | [word] => [word]
  | word :: rest => (word +:+ " ") :: contents rest
  end.

(** The loop over the chunks from the [i]-th, then the final event. *)
Fixpoint stream_from (model : string) (i : nat) (chunks : list string) : string :=
  match chunks with
  | [] => match fate i with WriteError => "" | _ => final_event model i end
  | content :: rest =>
      match fate i with
      | WriteError => ""
      | Sent => word_event model i content +:+ stream_from model (S i) rest
      | Cancelled =>
          word_event model i content +:+ (if TokenDelay cfg >? 0 then "" else stream_from model (S i) rest)
      end
  end.

(** [flusher]: whether the response writer can flush. *)
Definition writeChatStream (flusher : bool) (model : string) : Response :=
  if negb flusher then writeJSON 500 (error_json [("message", JStr "streaming unsupported")]) else
  {| status := 200;
     headers := [("Content-Type", "text/event-stream"); ("Cache-Control", "no-cache"); ("X-Accel-Buffering", "no")];
     body := stream_from model 0 (contents (Fields (llama.Response cfg))) |}.

(** [decoded] is the result of decoding the request's body. *)
Definition handleChatCompletions (flusher : bool) (decoded : result chatRequest) : Response :=
  match requireReady ready with
  | Some rejected => rejected
  | None =>
      match decoded with
      | Err _ => bad_request
      | Ok request =>
          let model := model_of request in
          if Stream request then writeChatStream flusher model else
          let completionTokens := Z.of_nat (length (Fields (llama.Response cfg))) in
          writeJSON 200 (json_map [("id", JStr "chatcmpl-fake-nvidia"); ("object", JStr "chat.completion");
            ("created", JInt (now 0%nat)); ("model", JStr model);
            ("choices", JArray [json_map [("index", JInt 0); ("finish_reason", JStr "stop");
              ("message", json_map [("role", JStr "assistant"); ("content", JStr (llama.Response cfg))])]]);
            ("usage", json_map [("prompt_tokens", JInt 1); ("completion_tokens", JInt completionTokens);
              ("total_tokens", JInt (completionTokens + 1))])])
      end
  end.

Definition handleCompletions (decoded : result chatRequest) : Response :=
  match requireReady ready with
  | Some rejected => rejected
  | None =>
      match decoded with
      | Err _ => bad_request
      | Ok request =>
          writeJSON 200 (json_map [("id", JStr "cmpl-fake-nvidia"); ("object", JStr "text_completion");
            ("created", JInt (now 0%nat)); ("model", JStr (model_of request));
            ("choices", JArray [json_map [("index", JInt 0); ("text", JStr (llama.Response cfg)); ("finish_reason", JStr "stop")]])])
      end
  end.

(** [Handler]: the routes of the mux; other paths and methods are answered by
    the library. *)
Definition Handler (method path : string) (flusher : bool) (decoded : result chatRequest) : option Response :=
  let get := String.eqb method "GET" || String.eqb method "HEAD" in   (* a GET pattern matches both *)
  let post := String.eqb method "POST" in
  if get && String.eqb path "/health" then Some (handleHealth ready) else
  if get && String.eqb path "/v1/models" then Some handleModels else
  if post && String.eqb path "/v1/chat/completions" then Some (handleChatCompletions flusher decoded) else
  if post && String.eqb path "/v1/completions" then Some (handleCompletions decoded) else None.
End handlers.

Example health_ex : body (handleHealth false) = compact_json (JObject [("status", JStr "loading")]) +:+ chr newline.
Proof. vm_compute. reflexivity. Qed.
(** ** Lemmas: readiness while the server waits *)
(** When the load is over: the events before its timer fires, during which the
    model loads, and those after it, during which it is served. *)
Fixpoint load_over (events : list Event) : option (list Event * list Event) :=
  match events with
  | [] => None
  | LoadTimer :: rest => Some ([], rest)
  | e :: rest => '(loading, serving) ← load_over rest; Some (e :: loading, serving)
  end.
Definition phases_of (cfg : Config) (events : list Event) : option (list Event * list Event) :=
  if LoadDelay cfg >? 0 then load_over events else Some ([], events).

#[export] Instance released_dec (events : list Event) : Decision (ExternalRelease ∈ events).
Proof.
  induction events as [| e events IH]; [right; by intros ?%elem_of_nil |]. destruct e; [.. | left; left];
    (destruct IH as [IH | IH]; [left; by right | right; by intros [? | ?]%elem_of_cons]).
Defined.

Section phases.
Context {W : Type} (s : Server W) (reg : ProcessRegistry W) (Hreg : sv_registry s = Some reg).

Lemma finish_run_not_ready ticks r st : server.ready (finish_run s ticks r st).2 = false.
Proof.
  unfold finish_run.
  assert (forall st, server.ready st = false -> server.ready (ReleaseResources s st).2 = false) as Hrel.
  { intros st0 H0. unfold ReleaseResources. destruct (sv_registry s) as [reg0 |]; [| done].
    destruct (registered st0); cbn [negb]; [| done]. unfold call.
    by destruct (reg_Release _ _ _ _) as [[[] | e] w']. }
  assert (forall st, server.ready st = false -> server.ready (releaseResourcesWithRetry s ticks st).2 = false) as Hretry.
  { induction ticks as [| k IH]; intros st0 H0; cbn [releaseResourcesWithRetry]; pose proof (Hrel st0 H0) as H1;
      destruct (ReleaseResources s st0) as [[e |] st1]; auto. }
  pose proof (Hretry (set_ready false st) eq_refl) as H1.
  by destruct (releaseResourcesWithRetry _ _ _) as [[e |] st1].
Qed.

(** A release does nothing to a server that is not registered, and stops the
    serving of one that is, even when the registry refuses it. *)
Lemma ReleaseResources_serving st : let st' := (ReleaseResources s st).2 in
  (registered st = false -> st' = st) /\ (registered st = true -> server.ready st' = false).
Proof.
  unfold ReleaseResources. rewrite Hreg. destruct (registered st); cbn [negb]; [| done]. split; [done |]. intros _. unfold call.
  by destruct (reg_Release _ _ _ _) as [[[] | e] w'].
Qed.

(** What a server that still waits has become since it was [st]. *)
Definition since (events : list Event) (st st' : State W) : Prop :=
  (server.ready st' = true -> server.ready st = true) /\ (registered st' = true -> registered st = true) /\
  (ExternalRelease ∉ events -> server.ready st' = server.ready st /\ registered st' = registered st) /\
  (ExternalRelease ∈ events -> server.ready st' = true -> registered st = false).

Lemma since_step e events st st1 st' : e <> ExternalRelease ->
  server.ready st1 = server.ready st -> registered st1 = registered st -> since events st1 st' -> since (e :: events) st st'.
Proof. unfold since. intros He <- <- H. rewrite elem_of_cons. naive_solver. Qed.

Lemma ready_loop_since bytes growth events st st' : ready_loop s reg bytes growth events st = (None, st') -> since events st st'.
Proof.
  revert bytes growth st. induction events as [| e events IH]; intros bytes growth st.
  { intros [= <-]. unfold since. split_and!; try done. by intros ?%elem_of_nil. }
  destruct e as [| [e |] | | | |]; cbn [ready_loop]; try done.
  - intros Hrun%IH. by eapply since_step.
  - destruct growth; cbn [negb]; [| intros Hrun%IH; by eapply since_step]. destruct (_ >? _); [done |]. cbv zeta. unfold call.
    destruct (reg_Resize _ _ _) as [[[] | e] w']; [| done]. intros Hrun%IH. eapply since_step; [done | | | exact Hrun]; done.
  - destruct (_ >? 0); cbn [negb]; [done |]. intros Hrun%IH. by eapply since_step.
  - intros Hrun%IH. destruct (ReleaseResources_serving st) as [Hno Hyes]. unfold since in *. rewrite elem_of_cons.
    destruct (registered st) eqn:Er; [specialize (Hyes eq_refl) | rewrite (Hno eq_refl) in Hrun; rewrite Er in Hrun; naive_solver].
    rewrite Hyes in Hrun. naive_solver.
Qed.

(** The phases of a server that waits, from the start of the load on. *)
Definition in_phase (phases : option (list Event * list Event)) (was_registered : bool) (st : State W) : Prop :=
  match phases with
  | None => server.ready st = false
  | Some (loading, serving) =>
      (ExternalRelease ∉ serving -> server.ready st = true) /\
      (server.ready st = true -> was_registered = true -> registered st = true \/ ExternalRelease ∈ loading) /\
      (server.ready st = true -> ExternalRelease ∈ serving -> registered st = false /\
        (was_registered = true -> ExternalRelease ∈ loading))
  end.

Lemma served_in_phase bytes events st st' : become_ready s reg bytes events st = (None, st') ->
  in_phase (Some ([], events)) (registered st) st'.
Proof.
  unfold become_ready. intros (H1 & H2 & H3 & H4)%ready_loop_since. cbn [server.ready registered out set_ready] in *.
  unfold in_phase. split_and!.
  - intros Hno. by destruct (H3 Hno) as [-> _].
  - intros Hr Hreg1. destruct (decide (ExternalRelease ∈ events)) as [Hin | Hno]; [by rewrite H4 in Hreg1 |].
    left. destruct (H3 Hno) as [_ ->]. done.
  - intros Hr Hin. rewrite (H4 Hin Hr) in *. split; [| done]. destruct (registered st'); [| done]. by discriminate H2.
Qed.

Lemma loads_in_phase bytes events st st' : server.ready st = false -> load_wait s reg bytes events st = (None, st') ->
  in_phase (load_over events) (registered st) st'.
Proof.
  revert st. induction events as [| e events IH]; intros st Hready; [by intros [= <-] |].
  destruct e as [| [e |] | | | |]; cbn [load_wait load_over]; try done.
  - apply served_in_phase.
  - intros Hrun%IH; [| done]. destruct (load_over events) as [[loading serving] |]; [| done].
    cbn [mbind option_bind in_phase] in *. setoid_rewrite elem_of_cons. naive_solver.
  - intros Hrun%IH; [| done]. destruct (load_over events) as [[loading serving] |]; [| done].
    cbn [mbind option_bind in_phase] in *. setoid_rewrite elem_of_cons. naive_solver.
  - destruct (ReleaseResources_serving st) as [Hno Hyes]. intros Hrun%IH.
    + destruct (load_over events) as [[loading serving] |]; [| done].
      cbn [mbind option_bind in_phase] in *. setoid_rewrite elem_of_cons.
      split_and!; [apply Hrun | by right; left | intros Hr Hin; split; [by apply Hrun | by left]].
    + destruct (registered st); [by apply Hyes | by rewrite Hno].
Qed.
End phases.

Lemma Run_phase {W} (s : Server W) stat listen events ticks w r st :
  Run s stat listen events ticks (initial w) = (r, st) ->
  match r with
  | Some _ => server.ready st = false
  | None => in_phase (phases_of (sv_cfg s) events) true st
  end.
Proof.
  unfold Run. destruct (sv_registry s) as [reg |] eqn:Hreg; [| by intros [= <- <-]].
  destruct (sv_pid s =? 0); [by intros [= <- <-] |]. destruct (StartupFail _); [by intros [= <- <-] |].
  destruct (RequiredVRAMBytes _ _) as [required |]; [| by intros [= <- <-]].
  destruct (listen _) as [address |]; [| by intros [= <- <-]].
  destruct (serve s reg required events (set_addr address (initial w))) as [[r0 |] st0] eqn:Es.
  { pose proof (finish_run_not_ready s reg Hreg ticks r0 st0). destruct (finish_run s ticks r0 st0). by intros [= <- <-]. }
  intros [= <- <-]. unfold serve in Es. cbv zeta in Es. destruct (ForceOOM _); [done |]. unfold call in Es.
  destruct (reg_Register _ _ _) as [[[] | e] w']; [| done]. unfold phases_of.
  destruct (LoadDelay (sv_cfg s) >? 0); [by apply (loads_in_phase s reg Hreg) in Es | by apply (served_in_phase s reg Hreg) in Es].
Qed.

(** ** Properties *)
(** C33. The server answers with anything but 503 exactly while it is ready,
    and it is ready exactly in the phase it should be, whatever happens.  (The
    server is looked at after any events: an outcome [None] says that [Run]
    still waits for the next one.)  No
    answer but 503 is given during the load and after [Run] has returned.
    Once the load is over and while [Run] waits, the server is ready as long
    as no signal has released its GPUs ([--fake-hang-shutdown]); a release
    then ends the serving, even when the registry refuses it.  While it is
    ready its records are registered, with one exception: a release during
    the load is forgotten when the load timer fires, after which the server
    answers without its records and a later signal no longer stops it
    ([released_during_load_serves]). *)
Theorem served_only_when_up {W} (s : Server W) stat listen events ticks w outcome st :
  Run s stat listen events ticks (initial w) = (outcome, st) ->
  (forall now fate method path flusher decoded response,
    Handler (sv_cfg s) (server.ready st) now fate method path flusher decoded = Some response ->
    (status response <> 503 <-> server.ready st = true)) /\
  (server.ready st = true -> outcome = None) /\
  match phases_of (sv_cfg s) events with
  | None => server.ready st = false
  | Some (loading, serving) =>
      (outcome = None -> ExternalRelease ∉ serving -> server.ready st = true) /\
      (server.ready st = true -> registered st = true \/ ExternalRelease ∈ loading) /\
      (server.ready st = true -> ExternalRelease ∈ serving -> ExternalRelease ∈ loading /\ registered st = false)
  end.
Proof.
  intros Hrun. split; [| split].
  - intros now fate method path flusher decoded response. unfold Handler. cbv zeta.
    repeat match goal with |- (if ?b then _ else _) = _ -> _ => destruct b end; intros [= <-];
      unfold handleHealth, handleModels, handleChatCompletions, handleCompletions, requireReady;
      destruct (server.ready st); cbn [negb]; try done; destruct decoded as [request |]; try done.
    unfold writeChatStream. destruct (Stream request), flusher; done.
  - apply Run_phase in Hrun. destruct outcome; [by rewrite Hrun | done].
  - apply Run_phase in Hrun. destruct outcome as [r |].
    + destruct (phases_of _ _) as [[loading serving] |]; [rewrite Hrun; naive_solver | done].
    + unfold in_phase in Hrun. destruct (phases_of _ _) as [[loading serving] |]; [naive_solver | done].
Qed.

(** *** Streams *)
Lemma contents_concat words : String.concat "" (contents words) = Join words " ".
Proof.
  induction words as [| word words IH]; [done |]. destruct words as [| w2 words]; [done |].
  change (contents (word :: w2 :: words)) with ((word +:+ " ") :: contents (w2 :: words)).
  assert (forall x l, String.concat "" (x :: l) = x +:+ String.concat "" l) as Hcons.
  { intros x l. destruct l; [by rewrite append_nil_r | done]. }
  rewrite Hcons, IH, append_assoc. done.
Qed.

(** All the events of a stream, from the [i]-th chunk. *)
Fixpoint all_events (now : nat -> Z) (model : string) (i : nat) (chunks : list string) : list string :=
  match chunks with
  | [] => [final_event now model i]
  | content :: rest => word_event now model i content :: all_events now model (S i) rest
  end.

Lemma stream_from_prefix cfg now fate model i chunks :
  exists k, stream_from cfg now fate model i chunks = String.concat "" (take k (all_events now model i chunks)) /\
    ((forall j, fate j = Sent) -> k = length (all_events now model i chunks)).
Proof.
  assert (forall x l, String.concat "" (x :: l) = x +:+ String.concat "" l) as Hcons.
  { intros x l. destruct l; [by rewrite append_nil_r | done]. }
  revert i. induction chunks as [| content chunks IH]; intros i; cbn [stream_from all_events].
  - destruct (fate i) eqn:Ef; [exists 1%nat | exists 0%nat | exists 1%nat]; cbn; (split; [done |]); intros Hs; [done | | done].
    specialize (Hs i). congruence.
  - destruct (IH (S i)) as (k & E & Hk). destruct (fate i) eqn:Ef.
    + exists (S k). cbn [take length]. rewrite Hcons, E. split; [done |]. intros Hs. by rewrite Hk.
    + exists 0%nat. split; [done |]. intros Hs. specialize (Hs i). congruence.
    + destruct (TokenDelay cfg >? 0).
      * exists 1%nat. cbn [take]. rewrite Hcons, append_nil_r. rewrite append_nil_r. split; [done |].
        intros Hs. specialize (Hs i). congruence.
      * exists (S k). cbn [take]. rewrite Hcons, E. split; [done |]. intros Hs. specialize (Hs i). congruence.
Qed.

(** A chat stream delivers the configured response: the chunks' contents
    put together are its words with single spaces between them, and what is
    written is a whole number of the stream's events from the first one on,
    all of them with the final [DONE] when the client stays. *)
Theorem chat_stream_exact cfg now fate model :
  let chunks := contents (Fields (llama.Response cfg)) in
  let events := all_events now model 0 chunks in
  String.concat "" chunks = Join (Fields (llama.Response cfg)) " " /\
  length events = S (length (Fields (llama.Response cfg))) /\
  exists k, body (writeChatStream cfg now fate true model) = String.concat "" (take k events) /\
    ((forall j, fate j = Sent) -> k = length events).
Proof.
  intros chunks events. split; [apply contents_concat |]. split; [| apply stream_from_prefix].
  assert (forall i l, length (all_events now model i l) = S (length l)) as Hlen.
  { intros i l. revert i. induction l as [| x l IH]; intros i; cbn; [done |]. by rewrite IH. }
  unfold events. rewrite Hlen. f_equal. unfold chunks. clear. induction (Fields _) as [| x l IH]; [done |].
  destruct l; [done |]. change (contents (x :: s :: l)) with ((x +:+ " ") :: contents (s :: l)). cbn [length] in *. by rewrite IH.
Qed.

Lemma released_during_load_serves :
  let '(outcome, st) := Run demo_server demo_stat demo_listen [ExternalRelease; LoadTimer; ExternalRelease] 99 (initial demo_machine) in
  outcome = None /\ server.ready st = true /\ registered st = false /\ status (handleHealth (server.ready st)) = 200 /\
  registry.total_held 77 (machine_gpus (world st)) = 0.
Proof. vm_compute. done. Qed.

(** A release while serving. *)
Lemma served_only_when_up_witness :
  exists outcome st, Run demo_server demo_stat demo_listen [LoadTimer; ExternalRelease] 99 (initial demo_machine) = (outcome, st) /\
    (server.ready st = true -> ExternalRelease ∈ []).
Proof.
  destruct (Run demo_server demo_stat demo_listen [LoadTimer; ExternalRelease] 99 (initial demo_machine)) as [outcome st] eqn:E.
  exists outcome, st. split; [done |]. intros Hr.
  refine (proj1 (proj2 (proj2 (proj2 (proj2 (served_only_when_up demo_server demo_stat demo_listen [LoadTimer; ExternalRelease] 99
    demo_machine outcome st E)))) Hr _)). by apply list_elem_of_singleton.
Defined.
End http.
