(* ===== verification/LlamaMain.v ===== *)
(** * The fake llama server's command: [cmd/fake-llama-server/main.go]

    The probes, the translation of the manager's [--device] selection into
    fake targets, the gate before registration, and [main] around
    [Server.Run]. *)
From Stdlib Require Import SpecFloat.
From S2P Require Import Prelude GoStrings GoStrconv GoPath Paths GoFlag GoFloat Control ProcessJson Observe Manager Node ProcessNode CudaEngine LlamaConfig LlamaRegistry LlamaServer.
Import control observe manager node process_node llama registry server.

Module llama_main.

Definition fakeLlamaServerVersion : string := "fake-llama-server 0.1.0 (fake-nvidia)".
Definition fakeLlamaServerHelp : string :=
"usage: fake-llama-server [options]

  -m, --model PATH            model path
      --host HOST             bind host
      --port N                bind port
  -c, --ctx-size N            context size
      --device DEVICES        comma-separated llama.cpp devices, for example CUDA0,CUDA1
      --main-gpu N            main GPU index
      --tensor-split SPLIT    comma-separated tensor split weights
      --fake-gpus DEVICES     fake-nvidia-only explicit device indices
      --fake-vram SIZE        fake-nvidia-only explicit VRAM reservation
      --fake-startup-fail     inject startup failure
      --fake-cuda-oom         inject CUDA out-of-memory failure
      --fake-crash-after-ready DURATION
                              crash after reaching ready state
      --fake-hang-shutdown    release GPU state but keep the process alive on shutdown
".

(** [handleInfoRequest]: the text it writes when it handles the request. *)
Fixpoint handleInfoRequest (args : list string) : option string :=
  match args with
  | [] => None
  | arg :: rest =>
      let arg := TrimSpace arg in
      if existsb (String.eqb arg) ["--version"; "-version"] then Some (fakeLlamaServerVersion +:+ chr newline) else
      if existsb (String.eqb arg) ["--help"; "-h"; "-help"] then Some fakeLlamaServerHelp else
      handleInfoRequest rest
  end.

Definition hasFakeGPUOverride (args : list string) : bool :=
  existsb (fun arg => let arg := TrimSpace arg in String.eqb arg "--fake-gpus" || HasPrefix arg "--fake-gpus=") args.

(** The loop of [withManagerDeviceTargets] over the arguments. *)
Fixpoint scan_devices (args : list string) (deviceValue : string) (found : bool) : result (string * bool) :=
  match args with
  | [] => Ok (deviceValue, found)
  | raw :: rest =>
      let arg := TrimSpace raw in
      if HasPrefix arg "--device=" then scan_devices rest (TrimSpace (TrimPrefix arg "--device=")) true else
      if negb (String.eqb arg "--device") then scan_devices rest deviceValue found else
      match rest with
      | [] => Err (Errorf "--device requires a value" [])
      | value :: rest1 => scan_devices rest1 (TrimSpace value) true
      end
  end.

Section main.
Context (unicode_upper : string -> string).

(** The index a device names. *)
Definition device_index (raw device : string) : result Z :=
  let indexText := if HasPrefix (ToUpper unicode_upper device) "CUDA" then drop_bytes 4 device else device in
  let bad := Errorf "unsupported fake NVIDIA device %q in --device %q" [AS device; AS raw] in
  match Atoi indexText with
  | Ok index => if index <? 0 then Err bad else Ok index
  | Err _ => Err bad
  end.

Fixpoint add_devices (raw : string) (parts targets : list string) (seen : gset string) : result (list string) :=
  match parts with
  | [] => Ok targets
  | part :: rest =>
      let device := TrimSpace part in
      if String.eqb device "" then Err (Errorf "invalid --device value %q" [AS raw]) else
      index ← device_index raw device;
      let target := Itoa index in
      if bool_decide (target ∈ seen) then add_devices raw rest targets seen
      else add_devices raw rest (targets ++ [target]) (seen ∪ {[target]})
  end.

Definition normalizeManagerDevices (raw : string) : result (list string) :=
  targets ← add_devices raw (Split raw ",") [] ∅;
  match targets with
  | [] => Err (Errorf "invalid --device value %q" [AS raw])
  | _ => Ok targets
  end.

Context (getenv : string -> string).

Definition withManagerDeviceTargets (args : list string) : result (list string) :=
  if negb (String.eqb (TrimSpace (getenv "FAKE_LLAMA_GPUS")) "") || hasFakeGPUOverride args then Ok args else
  '(deviceValue, found) ← scan_devices args "" false;
  if negb found then Ok args else
  targets ← normalizeManagerDevices deviceValue;
  Ok (args ++ ["--fake-gpus=" +:+ Join targets ","]).

(** ** [main] up to the server *)
Inductive Startup :=
  | Info (text : string)          (* written to standard output, exit 0 *)
  | Usage (e : error)             (* exit 2 *)
  | Launch (cfg : Config).

Definition startup (args : list string) : Startup :=
  match handleInfoRequest args with
  | Some text => Info text
  | None =>
      match (args ← withManagerDeviceTargets args; ParseConfig unicode_upper getenv args) with
      | Ok cfg => Launch cfg
      | Err e => Usage e
      end
  end.
End main.

(** ** [waitForRegisterGate] *)
(** One turn of the loop: what [os.Stat] says, then which of the context and
    the ticker is ready when the file is absent. *)
Inductive GateStat := GateExists | GateAbsent | GateError (e : error).
Inductive GateSelect := GateDone (e : error) | GateTick.

(** [None]: still waiting after these turns. *)
Fixpoint wait_gate (path : string) (turns : list (GateStat * GateSelect)) : option (result unit) :=
  match turns with
  | [] => None
  | (GateExists, _) :: _ => Some (Ok tt)
  | (GateError e, _) :: _ => Some (Err (Wrapf "inspect fake register gate %q: %w" [AS path] e))
  | (GateAbsent, GateDone e) :: _ => Some (Err e)
  | (GateAbsent, GateTick) :: rest => wait_gate path rest
  end.

Definition waitForRegisterGate (path : string) (turns : list (GateStat * GateSelect)) : option (result unit) :=
  let path := TrimSpace path in
  if String.eqb path "" then Some (Ok tt) else wait_gate path turns.


(** What a signal does: the handler releases the GPUs and the process hangs
    on, or it cancels the context. *)
Definition signal_event (cfg : Config) : Event := if HangShutdown cfg then ExternalRelease else CtxDone.


Section process.
Context {W : Type} `{OS W} (unicode_upper : string -> string) (out_of_range : spec_float -> Z).


End process.

Example devices_ex : normalizeManagerDevices id "CUDA1, cuda0,1,2" = Ok ["1"; "0"; "2"].
Proof. vm_compute. reflexivity. Qed.
Example devices_bad : map (fun s => is_ok (normalizeManagerDevices id s)) ["ROCm0"; "CUDA"; ""; "0,"; "CUDA-1"] =
  [false; false; false; false; false].
Proof. vm_compute. reflexivity. Qed.
Example startup_ex : startup id demo_env (["--device"; "CUDA1,CUDA0"] ++ demo_args) =
  Launch (set_Targets ["1"; "0"] demo_config).
Proof. vm_compute. reflexivity. Qed.

(** ** Lemmas *)
Lemma fields_func_word p w s cur : sforall (fun c => negb (p c)) w = true ->
  fields_func_from p (w +:+ s) cur = fields_func_from p s (cur +:+ w).
Proof.
  revert cur. induction w as [| c w IH]; intros cur; [by rewrite append_nil_r |].
  cbn [sforall]. intros [Hc Hw]%andb_true_iff. rewrite append_cons. cbn [fields_func_from].
  apply negb_true_iff in Hc. rewrite Hc, IH, append_assoc by done. done.
Qed.

Lemma FieldsFunc_Join p sep l : p sep = true ->
  Forall (fun s => s <> "" /\ sforall (fun c => negb (p c)) s = true) l -> FieldsFunc (Join l (chr sep)) p = l.
Proof.
  intros Hsep. induction 1 as [| x l [Hx Hw] Hl IH]; [done |]. unfold FieldsFunc in *. destruct l as [| y l].
  - cbn [Join String.concat]. rewrite <- (append_nil_r x) at 1. rewrite fields_func_word by done.
    change ("" +:+ x) with x. by destruct x.
  - change (Join (x :: y :: l) (chr sep)) with (x +:+ (sep ::: Join (y :: l) (chr sep))).
    rewrite fields_func_word by done. cbn [fields_func_from]. rewrite Hsep, IH.
    change ("" +:+ x) with x. by destruct x.
Qed.

Lemma splitList_Join_Itoa ns : Forall (fun n => 0 <= n) ns -> splitList (Join (map Itoa ns) ",") = map Itoa ns.
Proof.
  intros Hns. unfold splitList. change (Join (map Itoa ns) ",") with (Join (map Itoa ns) (chr ",")). rewrite FieldsFunc_Join; [| done |].
  - induction Hns as [| n ns Hn _ IH]; [done |]. cbn [map List.filter]. rewrite Itoa_nonneg by done.
    rewrite TrimSpace_graph by auto. rewrite (proj2 (String.eqb_neq _ "")) by auto. cbn [negb]. by rewrite IH.
  - apply Forall_map. eapply Forall_impl; [exact Hns |]. intros n Hn. cbn. rewrite Itoa_nonneg by done.
    split; [auto |]. eapply sforall_impl; [| by apply FormatUint_digits]. clear.
    intros c Hc. unfold is_digit, in_range in Hc. to_prop.
    assert (forall d, byte_val d < 48 \/ 57 < byte_val d -> char_eqb c d = false) as Hd
      by (intros d Hb; apply char_eqb_neq; intros ->; lia).
    unfold is_separator. rewrite !Hd by (first [by left | by right]). apply Z.eqb_neq. lia.
Qed.

(** Arguments are read from left to right. *)
Lemma parse_args_app u l1 l2 st st1 : parse_args u l1 st = Ok st1 -> parse_args u (l1 ++ l2) st = parse_args u l2 st1.
Proof.
  remember (length l1) as n eqn:Hn. revert l1 Hn st.
  induction n as [n IH] using lt_wf_ind. intros l1 -> st. destruct l1 as [| raw rest]; cbn; [by intros [= <-] |].
  destruct (split_arg raw) as [key inline]. destruct (flag_action u key) as [[set | set] |].
  - destruct inline as [v |].
    + destruct (set v st) as [st2 | e]; cbn; [| done]. apply (IH (length rest)); cbn; auto.
    + destruct rest as [| v rest]; [done |]. cbn. destruct (set v st) as [st2 | e]; cbn; [| done].
      apply (IH (length rest)); cbn; auto.
  - destruct (parseOptionalBool inline true) as [b | e]; cbn; [| done]. apply (IH (length rest)); cbn; auto.
  - apply (IH (length rest)); cbn; auto.
Qed.

(** *** Devices *)
Definition cuda_device (n : Z) : string := "CUDA" +:+ FormatUint n.
Definition keep_new (acc : list Z) (n : Z) : list Z := if decide (n ∈ acc) then acc else acc ++ [n].
(** The indices in order of first occurrence. *)
Definition first_occurrences (ns : list Z) : list Z := foldl keep_new [] ns.

Lemma cuda_device_graph n : 0 <= n -> sforall graph (cuda_device n) = true.
Proof. intros. unfold cuda_device. rewrite sforall_append, FormatUint_graph by done. done. Qed.

Lemma device_index_cuda u raw n : 0 <= n < int64_cutoff -> device_index u raw (cuda_device n) = Ok n.
Proof.
  intros Hn. unfold device_index, ToUpper.
  assert (is_ascii (cuda_device n) = true) as ->.
  { unfold is_ascii. eapply sforall_impl; [| apply cuda_device_graph; lia].
    intros c Hc. apply Z.ltb_lt. by apply graph_bound. }
  assert (string_map ascii_upper (cuda_device n) = "CUDA" +:+ string_map ascii_upper (FormatUint n)) as -> by done.
  rewrite HasPrefix_app. unfold cuda_device. change 4%nat with (String.length "CUDA"). rewrite drop_bytes_app.
  rewrite Atoi_nonneg by done. destruct (Z.ltb_spec n 0); [lia | done].
Qed.

Lemma add_devices_cuda u raw ns acc : Forall (fun n => 0 <= n < int64_cutoff) ns ->
  Forall (fun n => 0 <= n < int64_cutoff) acc ->
  add_devices u raw (map cuda_device ns) (map Itoa acc) (list_to_set (map Itoa acc)) =
  Ok (map Itoa (foldl keep_new acc ns)).
Proof.
  intros Hns. revert acc. induction Hns as [| n ns Hn Hns IH]; intros acc Hacc; [done |].
  cbn [map add_devices foldl]. rewrite TrimSpace_graph by (apply cuda_device_graph; lia).
  change (String.eqb (cuda_device n) "") with false. rewrite device_index_cuda by done. cbn [mbind result_bind].
  assert (Itoa n ∈ (list_to_set (map Itoa acc) : gset string) <-> n ∈ acc) as Hin.
  { rewrite elem_of_list_to_set, list_elem_of_fmap. split; [| by eauto]. intros (m & E & Hm).
    rewrite Forall_forall in Hacc. pose proof (Hacc m Hm). unfold int64_cutoff in *.
    apply Itoa_inj in E as ->; [done | unfold int64, int64_cutoff; lia ..]. }
  rewrite (bool_decide_ext _ _ Hin). unfold keep_new at 2. case_bool_decide; case_decide; try done; [by apply IH |].
  rewrite <- IH by (apply Forall_app; auto). f_equal; [by rewrite fmap_app |].
  rewrite fmap_app, list_to_set_app_L. set_solver.
Qed.

Lemma normalize_cuda u ns : ns <> [] -> Forall (fun n => 0 <= n < int64_cutoff) ns ->
  normalizeManagerDevices u (Join (map cuda_device ns) ",") = Ok (map Itoa (first_occurrences ns)) /\
  first_occurrences ns <> [].
Proof.
  intros Hne Hns.
  assert (first_occurrences ns <> []) as Hfirst.
  { destruct ns as [| n ns]; [done |]. unfold first_occurrences. cbn. change (keep_new [] n) with [n].
    assert (forall acc l, acc <> [] -> foldl keep_new acc l <> []) as Hgen; [| by apply Hgen].
    intros acc l. revert acc. induction l as [| m l IH]; intros acc Hacc; [done |]. cbn. apply IH.
    unfold keep_new. case_decide; [done | by destruct acc]. }
  split; [| done]. unfold normalizeManagerDevices.
  assert (Split (Join (map cuda_device ns) ",") "," = map cuda_device ns) as ->.
  { apply (paths.Split_Join _ ","); [by destruct ns |].
    apply Forall_map. eapply Forall_impl; [exact Hns |]. intros n [Hn _]. cbn. unfold cuda_device.
    rewrite free_of_append. change (free_of "," "CUDA") with true. by apply FormatUint_free. }
  rewrite (add_devices_cuda u _ ns [] Hns (List.Forall_nil _) : add_devices u _ _ [] ∅ = _). fold (first_occurrences ns). cbn [mbind result_bind]. by destruct (first_occurrences ns).
Qed.

Lemma first_occurrences_Forall (P : Z -> Prop) ns : Forall P ns -> Forall P (first_occurrences ns).
Proof.
  intros Hns. unfold first_occurrences. generalize (List.Forall_nil P). generalize (@nil Z).
  induction Hns as [| n ns Hn Hns IH]; intros acc Hacc; [done |]. cbn. apply IH. unfold keep_new.
  case_decide; [done |]. apply Forall_app. auto.
Qed.

Lemma cuda_devices_graph ns : Forall (fun n => 0 <= n < int64_cutoff) ns ->
  sforall graph (Join (map cuda_device ns) ",") = true.
Proof.
  induction 1 as [| n ns [Hn _] Hns IH]; [done |]. destruct ns as [| m ns]; [by apply cuda_device_graph |].
  change (Join (map cuda_device (n :: m :: ns)) ",") with (cuda_device n +:+ "," +:+ Join (map cuda_device (m :: ns)) ",").
  by rewrite !sforall_append, IH, cuda_device_graph.
Qed.

Lemma cuda_devices_no_override ns : ns <> [] -> Forall (fun n => 0 <= n < int64_cutoff) ns ->
  hasFakeGPUOverride [Join (map cuda_device ns) ","] = false.
Proof.
  intros Hne Hns. unfold hasFakeGPUOverride, existsb. rewrite TrimSpace_graph by (by apply cuda_devices_graph).
  destruct ns as [| n [| m ns]]; done.
Qed.

(** *** Arguments around the selection *)
(** An argument the scan for devices and overrides passes over. *)
Definition passes (raw : string) : bool :=
  let arg := TrimSpace raw in
  negb (HasPrefix arg "--device=") && negb (String.eqb arg "--device") &&
  negb (String.eqb arg "--fake-gpus") && negb (HasPrefix arg "--fake-gpus=").

Lemma scan_devices_passes l r v found : forallb passes l = true -> scan_devices (l ++ r) v found = scan_devices r v found.
Proof.
  induction l as [| a l IH]; [done |]. cbn [forallb app scan_devices]. intros [Ha Hl]%andb_true_iff. unfold passes in Ha.
  to_prop. destruct Ha as [[[-> Hd] _] _]. apply String.eqb_neq in Hd. rewrite Hd. cbn. by apply IH.
Qed.

Lemma passes_no_override l : forallb passes l = true -> hasFakeGPUOverride l = false.
Proof.
  induction l as [| a l IH]; [done |]. cbn. intros [Ha Hl]%andb_true_iff. unfold passes in Ha. cbv zeta in Ha.
  rewrite !andb_true_iff in Ha. destruct Ha as [[_ Hf%negb_true_iff] Hp%negb_true_iff]. rewrite Hf, Hp. by apply IH.
Qed.

Lemma hasFakeGPUOverride_app l r : hasFakeGPUOverride (l ++ r) = hasFakeGPUOverride l || hasFakeGPUOverride r.
Proof. apply existsb_app. Qed.

(** A selection appended to arguments that parse replaces the targets. *)
Lemma fake_gpus_appended u getenv args ns c : ns <> [] -> Forall (fun n => 0 <= n) ns ->
  ParseConfig u getenv args = Ok c ->
  ParseConfig u getenv (args ++ ["--fake-gpus=" +:+ Join (map Itoa ns) ","]) = Ok (set_Targets (map Itoa ns) c).
Proof.
  intros Hne Hns. unfold ParseConfig. intros (st0 & -> & (st & Hst & Hfin)%result_bind_ok)%result_bind_ok.
  cbn [mbind result_bind]. rewrite (parse_args_app _ _ _ _ _ Hst). cbn [parse_args].
  assert (split_arg ("--fake-gpus=" +:+ Join (map Itoa ns) ",") = ("fake-gpus", Some (Join (map Itoa ns) ","))) as -> by done.
  change (flag_action u "fake-gpus") with (Some (TakesValue (fun raw st =>
    Ok {| ps_cfg := set_Targets (splitList raw) (ps_cfg st); ps_mainGPU := ps_mainGPU st; ps_explicit := true |}))).
  cbn [mbind result_bind]. rewrite splitList_Join_Itoa by done. apply finish_ok in Hfin as (-> & Hhost & Hmodel & _).
  apply finish_ok. cbn [ps_explicit ps_cfg]. destruct (ps_cfg st) eqn:E, (ps_explicit st), ns; done.
Qed.

(** C34. The manager's selection [--device CUDAi,CUDAj,...] puts the server on
    exactly those GPUs, each once and in the order of first mention, and
    changes nothing else of the configuration that the arguments describe,
    unless fake GPUs were named explicitly. *)
Theorem manager_devices_select u getenv pre post ns c :
  let args := pre ++ ["--device"; Join (map cuda_device ns) ","] ++ post in
  TrimSpace (getenv "FAKE_LLAMA_GPUS") = "" -> forallb passes (pre ++ post) = true ->
  ns <> [] -> Forall (fun n => 0 <= n < int64_cutoff) ns ->
  handleInfoRequest args = None -> ParseConfig u getenv args = Ok c ->
  startup u getenv args = Launch (set_Targets (map Itoa (first_occurrences ns)) c).
Proof.
  intros args Henv Hpass Hne Hns Hinfo Hparse. unfold startup. rewrite Hinfo.
  rewrite forallb_app in Hpass. apply andb_true_iff in Hpass as [Hpre Hpost].
  set (value := Join (map cuda_device ns) ",") in *.
  assert (sforall graph value = true) as Hgraph by (by apply cuda_devices_graph).
  assert (hasFakeGPUOverride [value] = false) as Hover by (by apply cuda_devices_no_override).
  unfold withManagerDeviceTargets. rewrite Henv. cbn [negb String.eqb orb].
  assert (hasFakeGPUOverride args = false) as ->.
  { unfold args. change (["--device"; value] ++ post) with (["--device"] ++ [value] ++ post).
    by rewrite !hasFakeGPUOverride_app, (passes_no_override pre), (passes_no_override post), Hover by done. }
  assert (scan_devices args "" false = Ok (value, true)) as ->.
  { unfold args. rewrite scan_devices_passes by done. cbn [app scan_devices].
    change (HasPrefix (TrimSpace "--device") "--device=") with false.
    change (String.eqb (TrimSpace "--device") "--device") with true. cbn [negb].
    rewrite <- (app_nil_r post), scan_devices_passes by done. by rewrite (TrimSpace_graph value). }
  destruct (normalize_cuda u ns Hne Hns) as [Hnorm Hfirst]. cbn [mbind result_bind negb]. fold value in Hnorm.
  rewrite Hnorm. cbn [mbind result_bind]. erewrite fake_gpus_appended; [done | done | | exact Hparse].
  apply (Forall_impl (fun n => 0 <= n < int64_cutoff)); [by apply first_occurrences_Forall | by intros n []].
Qed.

Definition demo_post : list string := ["--tensor-split"; "1,1"; "--fake-vram=8GiB"].
Definition demo_selected : Config := Eval vm_compute in
  match ParseConfig id (env_of []) (["--model"; "/m.gguf"; "--device"; "CUDA2,CUDA0,CUDA2"] ++ demo_post) with
  | Ok c => c | Err _ => demo_config end.

Lemma manager_devices_select_witness :
  startup id (env_of []) (["--model"; "/m.gguf"; "--device"; "CUDA2,CUDA0,CUDA2"] ++ demo_post) =
  Launch (set_Targets ["2"; "0"] demo_selected).
Proof.
  apply (manager_devices_select id (env_of []) ["--model"; "/m.gguf"] demo_post [2; 0; 2] demo_selected);
    [reflexivity | reflexivity | discriminate | repeat constructor; done | reflexivity | vm_compute; reflexivity].
Defined.

(** ** Arguments read as flags that are not *)
(** A flag at the end that lacks its value takes the appended selection: the
    server starts on its default GPU instead of failing. *)
Lemma trailing_flag_swallows_devices :
  let args := ["--model"; "/m.gguf"; "--device"; "CUDA1"; "--fake-vram=8GiB"; "--host"] in
  ParseConfig id (env_of []) args = Err (Errorf "--%s requires a value" [AS "host"]) /\
  exists c, startup id (env_of []) args = Launch c /\ Host c = "--fake-gpus=1" /\ Targets c = ["0"].
Proof. split; [vm_compute; reflexivity |]. eexists. vm_compute. done. Qed.

(** A positional value spelled like a flag is read as one. *)
Lemma positional_value_read_as_flag :
  exists c, ParseConfig id (env_of []) ["--model"; "/m.gguf"; "--alias"; "m"; "--port"; "9000"] = Ok c /\
    ModelPath c = "--port" /\ Port c = 8080.
Proof. eexists. vm_compute. done. Qed.

(** ** The gate *)
(** The gate opens after any number of turns without the file, and only then;
    without a path it never waits. *)
Lemma wait_gate_opens path n s rest : TrimSpace path <> "" ->
  waitForRegisterGate path (repeat (GateAbsent, GateTick) n ++ (GateExists, s) :: rest) = Some (Ok tt) /\
  waitForRegisterGate path (repeat (GateAbsent, GateTick) n) = None.
Proof.
  intros Hp. unfold waitForRegisterGate. apply String.eqb_neq in Hp. rewrite Hp.
  induction n as [| n [IH1 IH2]]; cbn; auto.
Qed.







End llama_main.
