(* ===== verification/Bundle.v ===== *)
(** * Runtime bundles ([internal/runtimebundle/bundle.go]) *)
From S2P Require Import Prelude GoStrings GoPath Paths GoFiles Control.

Module bundle.
Import filepath files control.

Definition ConfigEnv : string := "MOCK_NVML_CONFIG".
Definition OverridesEnv : string := "MOCK_NVML_OVERRIDES".

Record Bundle := { Root : string }.
Definition New (root : string) : Bundle := {| Root := root |}.
Definition NvidiaSMI (b : Bundle) : string := path_join [Root b; "bin"; "nvidia-smi"].
Definition RealNvidiaSMI (b : Bundle) : string := path_join [Root b; "bin"; "nvidia-smi.real"].
Definition Control (b : Bundle) : string := path_join [Root b; "bin"; "nvml-mock-ctl"].
Definition FakeLlamaServer (b : Bundle) : string := path_join [Root b; "bin"; "fake-llama-server"].
Definition LibraryDir (b : Bundle) : string := path_join [Root b; "lib"].
Definition CUDA (b : Bundle) : string := path_join [LibraryDir b; "libcuda.so.1"].

(** ** [Validate] *)
(** The artifacts, and whether each must be executable. *)
Definition artifacts (b : Bundle) : list (string * bool) := [
  (NvidiaSMI b, true); (RealNvidiaSMI b, true); (Control b, true); (FakeLlamaServer b, true);
  (path_join [LibraryDir b; "libnvidia-ml.so.1"], false); (CUDA b, false)].
Definition aliases (b : Bundle) : list string :=
  map (fun name => path_join [LibraryDir b; name]) ["libcuda.so"; "libcudart.so.12"; "libcudart.so.13"; "libcudart.so"].

Definition executable (i : info) : bool := negb (Z.land (i_perm i) (rwx 1 1 1) =? 0).

Section validate.
Context {W : Type} `{Files W}.

Definition check_artifact (path : string) (must_run : bool) : M W unit :=
  i ← wrapM (Wrapf "runtime bundle missing %s: %w" [AS path]) (stat path);
  if negb (bool_decide (i_kind i = KRegular))
  then throw (Errorf "runtime bundle artifact is not a regular file: %s" [AS path]) else
  if must_run && negb (executable i)
  then throw (Errorf "runtime bundle artifact is not executable: %s" [AS path]) else mret tt.

Definition check_alias (alias : string) : M W unit :=
  i ← wrapM (Wrapf "runtime bundle missing CUDA alias %s: %w" [AS alias]) (lstat alias);
  if negb (bool_decide (i_kind i = KSymlink))
  then throw (Errorf "runtime bundle CUDA alias is not a symlink: %s" [AS alias]) else
  target ← wrapM (Wrapf "runtime bundle CUDA alias is broken %s: %w" [AS alias]) (stat alias);
  if negb (bool_decide (i_kind target = KRegular))
  then throw (Errorf "runtime bundle CUDA alias target is not a regular file: %s" [AS alias]) else mret tt.

Fixpoint check_all {A} (check : A -> M W unit) (l : list A) : M W unit :=
  match l with [] => mret tt | x :: l => _ ← check x; check_all check l end.

Definition Validate (b : Bundle) : M W unit :=
  if String.eqb (TrimSpace (Root b)) "" then throw (Errorf "runtime bundle root is required" []) else
  _ ← check_all (fun a => check_artifact a.1 a.2) (artifacts b);
  check_all check_alias (aliases b).
End validate.

(** ** [Environment] *)
(** The variables and the order in which they appear. *)
Record Env := { env : gmap string string; order : list string }.

Definition setEnv (key value : string) (e : Env) : Env :=
  {| env := <[key := value]> (env e);
     order := match env e !! key with Some _ => order e | None => order e ++ [key] end |}.

Definition deleteEnv (key : string) (e : Env) : Env :=
  match env e !! key with
  | None => e
  | Some _ => {| env := delete key (env e);
                 order := List.filter (fun existing => negb (String.eqb existing key)) (order e) |}
  end.

(** The entries of the base environment. *)
Definition add_entry (e : Env) (entry : string) : Env :=
  match Cut entry "=" with
  | Some (key, value) => if String.eqb key "" then e else setEnv key value e
  | None => e
  end.
Definition parse_base (base : list string) : Env := fold_left add_entry base {| env := ∅; order := [] |}.

(** A directory in front of a search path. *)
Definition prepend (dir : string) (old : option string) : string :=
  match old with
  | Some old => if negb (String.eqb old "") then dir +:+ ":" +:+ old else dir
  | None => dir
  end.

Definition set_or_delete (key value : string) (e : Env) : Env :=
  if negb (String.eqb value "") then setEnv key value e else deleteEnv key e.

Definition entries (e : Env) : list string :=
  omap (fun key => match env e !! key with Some value => Some (key +:+ "=" +:+ value) | None => None end) (order e).

Definition Environment (b : Bundle) (base : list string) (configPath overridesPath : string) : list string :=
  let e := parse_base base in
  let e := setEnv "PATH" (prepend (path_join [Root b; "bin"]) (env e !! "PATH")) e in
  let e := setEnv "LD_LIBRARY_PATH" (prepend (LibraryDir b) (env e !! "LD_LIBRARY_PATH")) e in
  let e := set_or_delete ConfigEnv configPath e in
  entries (set_or_delete OverridesEnv overridesPath e).

Example environment_ex : Environment (New "/opt/fake") ["A=1"; "PATH=/bin"; "=x"; "A=2"; "MOCK_NVML_OVERRIDES=/o"; "bad"] "/c.yaml" "" =
  ["A=2"; "PATH=/opt/fake/bin:/bin"; "LD_LIBRARY_PATH=/opt/fake/lib"; "MOCK_NVML_CONFIG=/c.yaml"].
Proof. vm_compute. reflexivity. Qed.

(** ** Lemmas *)
(** The order lists every variable once. *)
Record ordered (e : Env) : Prop := {
  or_nodup : NoDup (order e);
  or_keys key : key ∈ order e <-> is_Some (env e !! key);
  or_free : Forall (fun key => free_of "=" key = true) (order e)
}.

Lemma setEnv_ordered key value e : free_of "=" key = true -> ordered e -> ordered (setEnv key value e).
Proof.
  intros Hk [Hnd Hkeys Hf]. unfold setEnv. destruct (env e !! key) as [old |] eqn:E; constructor; cbn [env order]; try done.
  - intros k. rewrite Hkeys, lookup_insert_is_Some'. split; [by right |].
    intros [<- | ?]; [by rewrite E | done].
  - apply NoDup_app. split_and!; [done | | apply NoDup_singleton].
    intros k Hin ->%list_elem_of_singleton. apply Hkeys in Hin. rewrite E in Hin. by destruct Hin.
  - intros k. rewrite elem_of_app, list_elem_of_singleton, Hkeys, lookup_insert_is_Some'. naive_solver.
  - apply Forall_app. by repeat constructor.
Qed.

Lemma deleteEnv_ordered key e : ordered e -> ordered (deleteEnv key e).
Proof.
  intros [Hnd Hkeys Hf]. unfold deleteEnv. destruct (env e !! key) as [old |] eqn:E; [| done].
  assert (forall k, k ∈ List.filter (fun existing => negb (String.eqb existing key)) (order e) <-> k ∈ order e /\ k <> key) as Hin.
  { intros k. rewrite !list_elem_of_In, List.filter_In, negb_true_iff, String.eqb_neq. done. }
  constructor; cbn [env order].
  - by apply NoDup_ListNoDup, List.NoDup_filter, NoDup_ListNoDup.
  - intros k. rewrite Hin, Hkeys, lookup_delete_is_Some. naive_solver.
  - apply Forall_forall. intros k [Hk _]%Hin. rewrite Forall_forall in Hf. by apply Hf.
Qed.

Lemma env_setEnv key value e k : env (setEnv key value e) !! k = if String.eqb k key then Some value else env e !! k.
Proof.
  unfold setEnv. cbn [env]. destruct (String.eqb k key) eqn:E; to_prop.
  - subst. by rewrite lookup_insert_eq.
  - by rewrite lookup_insert_ne.
Qed.

Lemma env_deleteEnv key e k : env (deleteEnv key e) !! k = if String.eqb k key then None else env e !! k.
Proof.
  unfold deleteEnv. destruct (env e !! key) as [v |] eqn:E, (String.eqb k key) eqn:Ek; to_prop; subst; cbn [env]; try done.
  - by rewrite lookup_delete_eq.
  - by rewrite lookup_delete_ne.
Qed.

Lemma entry_values key e : ordered e -> key <> "" ->
  env_values key (entries e) = match env e !! key with Some v => [v] | None => [] end.
Proof.
  intros [Hnd Hkeys Hf] Hne. unfold entries.
  assert (forall l, NoDup l -> Forall (fun k => free_of "=" k = true) l ->
    env_values key (omap (fun k => match env e !! k with Some v => Some (k +:+ "=" +:+ v) | None => None end) l) =
    if bool_decide (key ∈ l) then match env e !! key with Some v => [v] | None => [] end else []) as Hl.
  { clear -Hne. induction l as [| k l IH]; intros Hnd Hf; [by rewrite bool_decide_false by apply not_elem_of_nil |].
    apply NoDup_cons in Hnd as [Hk Hnd]. apply Forall_cons in Hf as [Hkf Hf]. specialize (IH Hnd Hf).
    assert (forall v, entry_value key (k +:+ "=" +:+ v) = if String.eqb k key then [v] else []) as Hentry.
    { intros v. change (k +:+ "=" +:+ v) with (env_entry k v). unfold entry_value. rewrite Cut_entry by done. done. }
    cbn [omap list_omap]. destruct (decide (key = k)) as [<- | Hkk].
    - rewrite (bool_decide_false (key ∈ l)) in IH by done. rewrite bool_decide_true by apply list_elem_of_here.
      destruct (env e !! key) as [v |]; [| done]. rewrite env_values_cons, Hentry, String.eqb_refl. by f_equal.
    - assert (bool_decide (key ∈ k :: l) = bool_decide (key ∈ l)) as ->.
      { apply bool_decide_ext. rewrite elem_of_cons. tauto. }
      destruct (env e !! k) as [v |]; [| done]. rewrite env_values_cons, Hentry.
      by rewrite (proj2 (String.eqb_neq k key)) by done. }
  rewrite Hl by done. destruct (bool_decide (key ∈ order e)) eqn:E; [done |]. apply bool_decide_eq_false in E.
  rewrite Hkeys in E. destruct (env e !! key); [| done]. exfalso. apply E. by eexists.
Qed.

Lemma parse_base_spec base : ordered (parse_base base) /\
  forall key, key <> "" -> env (parse_base base) !! key = last (env_values key base).
Proof.
  unfold parse_base. induction base as [| entry base [IHo IHe]] using rev_ind.
  { split; [| done]. constructor; cbn; [apply NoDup_nil_2 | | constructor].
    intros k. rewrite lookup_empty. split; [by intros ?%not_elem_of_nil | by intros []]. }
  rewrite fold_left_app. cbn [fold_left]. set (e := fold_left add_entry base _) in *. unfold add_entry.
  assert (forall key, env_values key [entry] = entry_value key entry) as Hone by (intros key; apply app_nil_r).
  destruct (Cut entry "=") as [[k v] |] eqn:C.
  - destruct (String.eqb k "") eqn:Ek.
    + split; [done |]. intros key Hne. rewrite env_values_app, Hone. unfold entry_value. rewrite C.
      apply String.eqb_eq in Ek as ->. rewrite (proj2 (String.eqb_neq "" key)) by done. rewrite app_nil_r. by apply IHe.
    + split; [apply setEnv_ordered; [by eapply Cut_free | done] |]. intros key Hne.
      rewrite env_setEnv, env_values_app, Hone. unfold entry_value. rewrite C, (String.eqb_sym k key).
      destruct (String.eqb key k); [by rewrite last_snoc | rewrite app_nil_r; by apply IHe].
  - split; [done |]. intros key Hne. rewrite env_values_app, Hone. unfold entry_value. rewrite C, app_nil_r. by apply IHe.
Qed.

Definition or_default (value : string) : list string := if negb (String.eqb value "") then [value] else [].

(** The environment of a consumer: every variable is defined at most once;
    the bundle's directories come first on both search paths, followed by the
    last definition the base environment had; the two Mock NVML variables are
    the given paths, or absent even if the base had them; every other variable
    keeps the last definition of the base. *)
Theorem Environment_values b base configPath overridesPath key : key <> "" ->
  let inherited := last (env_values key base) in
  env_values key (Environment b base configPath overridesPath) =
  if String.eqb key "PATH" then [prepend (path_join [Root b; "bin"]) inherited] else
  if String.eqb key "LD_LIBRARY_PATH" then [prepend (LibraryDir b) inherited] else
  if String.eqb key ConfigEnv then or_default configPath else
  if String.eqb key OverridesEnv then or_default overridesPath else
  match inherited with Some v => [v] | None => [] end.
Proof.
  intros Hne inherited. unfold Environment. destruct (parse_base_spec base) as [Ho He].
  set (e0 := parse_base base) in *. set (e1 := setEnv "PATH" _ e0). set (e2 := setEnv "LD_LIBRARY_PATH" _ e1).
  assert (ordered e2) as Ho2 by (by repeat apply setEnv_ordered).
  assert (forall k v e, free_of "=" k = true -> ordered e -> ordered (set_or_delete k v e)) as Hset.
  { intros k v e Hk He'. unfold set_or_delete. destruct (negb _); [by apply setEnv_ordered | by apply deleteEnv_ordered]. }
  assert (forall k v e, env (set_or_delete k v e) !! key =
    if String.eqb key k then (if negb (String.eqb v "") then Some v else None) else env e !! key) as Hlook.
  { intros k v e. unfold set_or_delete. destruct (negb _); [apply env_setEnv | apply env_deleteEnv]. }
  rewrite entry_values by (done || by repeat apply Hset). rewrite !Hlook. subst e2 e1. rewrite !env_setEnv.
  change (String.eqb "LD_LIBRARY_PATH" "PATH") with false. cbn match.
  rewrite !(He _) by done. unfold inherited, or_default.
  destruct (String.eqb_spec key "PATH") as [-> | _]; [done |].
  destruct (String.eqb_spec key "LD_LIBRARY_PATH") as [-> | _]; [done |].
  destruct (String.eqb_spec key ConfigEnv) as [-> | _].
  { change (String.eqb ConfigEnv OverridesEnv) with false. by destruct (negb (String.eqb configPath "")). }
  destruct (String.eqb_spec key OverridesEnv) as [-> | _]; [by destruct (negb _) | done].
Qed.
End bundle.
