(* ===== verification/Injection.v ===== *)
(** * Container injection roots ([internal/injection/injection.go])

    [Prepare] builds the root next to its place and moves it there; [Down]
    removes it.  Both only ever touch a root that carries their marker. *)
From S2P Require Import Prelude GoStrings GoPath Paths GoFiles FilesLogic Bundle.

Module injection.
Import filepath paths files fileslogic.

Definition markerName : string := ".fake-nvidia-injection".
Definition markerContent : string := "fake-nvidia injection root v1" +:+ chr newline.

Record Layout := { Root : string; RuntimeDir : string; StateDir : string; ConfigPath : string; OverridesPath : string }.

Definition layoutFor (root : string) : Layout :=
  let state := path_join [root; "state"] in
  {| Root := root; RuntimeDir := path_join [root; "runtime"]; StateDir := state;
     ConfigPath := path_join [state; "config.yaml"]; OverridesPath := path_join [state; "overrides.yaml"] |}.

Definition within (parent child : string) : bool :=
  match Rel parent child with
  | Err _ => false
  | Ok rel =>
      if IsAbs rel then false else
      String.eqb rel "." || (negb (String.eqb rel "..") && negb (HasPrefix rel "../"))
  end.

Definition validateSeparation (root runtimeRoot : string) : result unit :=
  if String.eqb root (Clean "/") then Err (Errorf "refusing to use filesystem root as injection root" []) else
  if String.eqb root runtimeRoot then Err (Errorf "injection root must differ from runtime root" []) else
  if within root runtimeRoot then Err (Errorf "runtime root must not be inside injection root" []) else
  if within runtimeRoot root then Err (Errorf "injection root must not be inside runtime root" []) else Ok tt.

Section injection.
Context {W : Type} `{Files W}.

Definition cleanAbsolute (path : string) : M W string :=
  if String.eqb path "" then throw (Errorf "path is required" []) else
  abs ← Abs path;
  mret (Clean abs).

(** ** Ownership *)
Definition requireOwned (root : string) : M W unit :=
  attempt (read_file (path_join [root; markerName])) (fun data =>
    match data with
    | Err e =>
        if errors_Is e ErrNotExist then throw (Errorf "refusing to replace or remove unowned path %s" [AS root])
        else throw (Wrapf "read injection marker: %w" [] e)
    | Ok data =>
        if negb (String.eqb data markerContent)
        then throw (Errorf "refusing to replace or remove path with unknown marker %s" [AS root]) else mret tt
    end).

Definition requireOwnedOrAbsent (root : string) : M W unit :=
  attempt (lstat root) (fun r =>
    match r with
    | Err e => if errors_Is e ErrNotExist then mret tt else throw (Wrapf "inspect injection root: %w" [] e)
    | Ok _ => requireOwned root
    end).

(** ** Copying *)
Definition copyFile (src dst : string) (mode : Z) : M W unit :=
  _ ← open_read src;
  finally
    (_ ← create_excl dst mode;
     finally (_ ← io_copy dst src; file_close dst)
       (fun r w =>
          let w := ignore (file_close dst) w in
          match r with Ok _ => w | Err _ => ignore (remove dst) w end))
    (fun _ => ignore (file_close src)).

(** What [copyTree] does with each entry of the walk. *)
Definition copy_entry (src dst : string) (path : string) (d : option entry) (walkErr : option error) : M W unit :=
  match walkErr, d with
  | Some e, _ => throw e
  | None, None => mret tt   (* the walk gives an entry or an error *)
  | None, Some d =>
      rel ← lift (Rel src path);
      let target := if negb (String.eqb rel ".") then path_join [dst; rel] else dst in
      i ← entry_info path d;
      if bool_decide (e_kind d = KDir) then mkdir_all target (i_perm i) else
      if bool_decide (e_kind d = KSymlink) then linkTarget ← readlink path; symlink linkTarget target else
      if bool_decide (i_kind i = KRegular) then copyFile path target (i_perm i) else
      throw (Errorf "unsupported runtime artifact type %s (%s)" [AS path])   (* the mode's text is left out *)
  end.

Definition copyTree (src dst : string) : M W unit := WalkDir (copy_entry src dst) src.

Definition preserveOverrides (root destination : string) : M W unit :=
  let oldOverrides := path_join [root; "state"; "overrides.yaml"] in
  attempt (lstat oldOverrides) (fun r =>
    match r with
    | Err e => if errors_Is e ErrNotExist then mret tt else throw (Wrapf "inspect existing Mock NVML overrides: %w" [] e)
    | Ok i =>
        if negb (bool_decide (i_kind i = KRegular))
        then throw (Errorf "existing Mock NVML overrides is not a regular file: %s" [AS oldOverrides]) else
        wrapM (Wrapf "preserve Mock NVML overrides: %w" []) (copyFile oldOverrides destination (i_perm i))
    end).

(** ** [Prepare] *)
Definition remove_existing (rootAbs : string) : M W unit :=
  attempt (lstat rootAbs) (fun r =>
    match r with
    | Ok _ => wrapM (Wrapf "replace existing injection root: %w" []) (remove_all rootAbs)
    | Err e => if errors_Is e ErrNotExist then mret tt else throw (Wrapf "inspect existing injection root: %w" [] e)
    end).

(** The state directory of a new root. *)
Definition write_state (rootAbs configYAML : string) (layout : Layout) : M W unit :=
  _ ← wrapM (Wrapf "create state directory: %w" []) (mkdir_all (StateDir layout) (rwx 7 5 5));
  _ ← wrapM (Wrapf "write Mock NVML config: %w" []) (write_file (ConfigPath layout) configYAML (rwx 6 4 4));
  preserveOverrides rootAbs (OverridesPath layout).

(** Filling the temporary root. *)
Definition fill (rootAbs runtimeAbs configYAML tmp : string) : M W unit :=
  let layout := layoutFor tmp in
  _ ← wrapM (Wrapf "copy runtime bundle: %w" []) (copyTree runtimeAbs (RuntimeDir layout));
  _ ← write_state rootAbs configYAML layout;
  wrapM (Wrapf "write injection marker: %w" []) (write_file (path_join [tmp; markerName]) markerContent (rwx 6 4 4)).

(** From the temporary root to the installed one. *)
Definition install (rootAbs runtimeAbs configYAML tmp : string) : M W Layout :=
  _ ← fill rootAbs runtimeAbs configYAML tmp;
  _ ← remove_existing rootAbs;
  _ ← wrapM (Wrapf "install injection root: %w" []) (rename tmp rootAbs);
  mret (layoutFor rootAbs).

(** From the checks on. *)
Definition build (rootAbs runtimeAbs configYAML : string) : M W Layout :=
  let parent := filepath.Dir rootAbs in
  _ ← wrapM (Wrapf "create injection parent: %w" []) (mkdir_all parent (rwx 7 5 5));
  tmp ← wrapM (Wrapf "create temporary injection root: %w" []) (mkdir_temp parent ".fake-nvidia-prepare-");
  finally (install rootAbs runtimeAbs configYAML tmp)
    (fun r w => match r with Ok _ => w | Err _ => ignore (remove_all tmp) w end).

Definition Prepare (root runtimeRoot configYAML : string) : M W Layout :=
  if String.eqb (TrimSpace configYAML) "" then throw (Errorf "rendered Mock NVML config is required" []) else
  rootAbs ← wrapM (Wrapf "injection root: %w" []) (cleanAbsolute root);
  runtimeAbs ← wrapM (Wrapf "runtime root: %w" []) (cleanAbsolute runtimeRoot);
  _ ← lift (validateSeparation rootAbs runtimeAbs);
  _ ← bundle.Validate (bundle.New runtimeAbs);
  _ ← requireOwnedOrAbsent rootAbs;
  build rootAbs runtimeAbs configYAML.

(** ** [Down] *)
Definition Down (root : string) : M W unit :=
  rootAbs ← wrapM (Wrapf "injection root: %w" []) (cleanAbsolute root);
  if String.eqb rootAbs (Clean "/") then throw (Errorf "refusing to remove filesystem root" []) else
  attempt (lstat rootAbs) (fun r =>
    match r with
    | Err e => if errors_Is e ErrNotExist then mret tt else throw (Wrapf "inspect injection root: %w" [] e)
    | Ok _ =>
        _ ← requireOwned rootAbs;
        wrapM (Wrapf "remove injection root: %w" []) (remove_all rootAbs)
    end).
End injection.

(** ** Lemmas: paths *)
Lemma within_abs a b : plain_list a -> plain_list b -> within (abs_path a) (abs_path b) = bool_decide (a `prefix_of` b).
Proof.
  intros Ha Hb. unfold within. destruct (decide (a = b)) as [-> | Hne].
  { rewrite bool_decide_true by done. unfold Rel. by rewrite String.eqb_refl. }
  destruct (Rel_abs a b Ha Hb Hne) as (c & a' & b' & Ea & Eb & E & ->). destruct a' as [| x a'].
  - rewrite app_nil_r in Ea. subst a. cbn [map app]. rewrite bool_decide_true by (rewrite Eb; auto).
    rewrite Eb in Hb. apply Forall_app in Hb as [_ Hb]. destruct b' as [| y b']; [by rewrite app_nil_r in Eb |].
    apply Forall_cons in Hb as [Hy Hb]. apply plain_elem in Hy as (Hy1 & Hy2 & Hy3 & Hy4).
    assert (exists s, Join (y :: b') "/" = y +:+ s /\ (s = "" \/ exists s', s = slash ::: s')) as (s & -> & Hs).
    { destruct b' as [| z b']; [exists ""; split; [symmetry; apply append_nil_r | by left] |].
      exists ("/" +:+ Join (z :: b') "/"). split; [done | right; by eexists]. }
    assert (IsAbs (y +:+ s) = false) as ->.
    { destruct y as [| c1 y]; [done |]. rewrite append_cons. cbn in Hy4 |- *. apply andb_true_iff in Hy4 as [Hy4 _].
      by apply negb_true_iff in Hy4. }
    assert (String.eqb (y +:+ s) ".." = false) as ->.
    { apply String.eqb_neq. intros E'. destruct Hs as [-> | [s' ->]]; [by rewrite append_nil_r in E' |].
      assert (free_of slash (y +:+ (slash ::: s')) = true) as Hf by (by rewrite E').
      rewrite free_of_append in Hf. apply andb_true_iff in Hf as [_ Hf]. done. }
    assert (HasPrefix (y +:+ s) "../" = false) as ->; [| by destruct (String.eqb _ ".")].
    destruct (HasPrefix (y +:+ s) "../") eqn:Ep; [| done].
    apply HasPrefix_split in Ep as [u Eu]. exfalso. apply Hy3.
    change ("../" +:+ u) with (".." +:+ (slash ::: u)) in Eu. destruct Hs as [-> | [s' ->]].
    + rewrite append_nil_r in Eu. subst y. rewrite free_of_append in Hy4. apply andb_true_iff in Hy4 as [_ Hf]. done.
    + apply (f_equal (fun s => hd "" (Split s slash))) in Eu. by rewrite !Split_app in Eu.
  - rewrite bool_decide_false.
    + cbn [map app]. destruct (map (fun _ => "..") a' ++ b') as [| z l]; [done |].
      change (Join (".." :: z :: l) "/") with ("../" +:+ Join (z :: l) "/").
      rewrite HasPrefix_app. cbn. by rewrite andb_false_r.
    + intros [k ->]. by rewrite strip_common_prefix in E.
Qed.

(** ** Lemmas: copying *)
Section copying.
Context {W : Type} `{LawfulFiles W}.
Implicit Types (w : W) (l src dst x : list string).

Lemma copyFile_spec src l mode w q content :
  solid (tree_of w) src -> tree_of w !! src = Some (File q content) -> reaches (tree_of w) l ->
  post (copyFile (abs_path src) (abs_path l) mode) w (fun r w' =>
    match r with
    | Ok _ => tree_of w !! l = None /\ tree_of w' = <[l := File (Z.ldiff mode umask) content]> (tree_of w)
    | Err _ => only_under l (tree_of w) (tree_of w')
    end).
Proof.
  intros Hs Hsrc Hl. unfold copyFile. apply post_bind. eapply post_tree; [apply open_read_law |].
  intros [[] | e] w1 E1; [| rewrite E1; apply only_under_refl]. rewrite <- E1 in *.
  apply post_finally. apply post_bind. eapply post_writes; [by apply create_excl_law |]. intros [[] | e] w2 E2.
  2: { unfold ignore. rewrite file_close_law, E2. apply only_under_refl. }
  destruct E2 as [Hnone E2]. assert (src <> l) as Hne by congruence.
  apply post_finally, post_bind.
  assert (tree_of w2 !! l = Some (File (Z.ldiff mode umask) "")) as Hl2 by (by rewrite E2, lookup_insert_eq).
  eapply post_writes.
  { eapply (io_copy_law l src); [| | exact Hl2 |]; rewrite E2.
    - by apply reaches_insert.
    - apply reaches_insert; [apply Hs | done].
    - by rewrite lookup_insert_ne. }
  assert (forall w3 c', tree_of w3 = <[l := File (Z.ldiff mode umask) c']> (tree_of w2) ->
    only_under l (tree_of w1) (tree_of (ignore (file_close (abs_path src)) (ignore (remove (abs_path l)) (ignore (file_close (abs_path l)) w3))))) as Hfail.
  { intros w3 c' E3. unfold ignore. rewrite file_close_law. eapply only_under_trans.
    - instantiate (1 := tree_of w3). rewrite E3, E2, insert_insert_eq. apply only_under_insert.
    - rewrite <- (file_close_law (abs_path l) w3). set (w4 := (file_close _ w3).2).
      assert (reaches (tree_of w4) l) as Hr4.
      { subst w4. rewrite file_close_law, E3, E2. by repeat apply reaches_insert. }
      pose proof (remove_law l w4 Hr4) as Hrm. unfold writes in Hrm. destruct (remove (abs_path l) w4) as [[[] | e] w5]; cbn [fst snd] in *.
      + rewrite Hrm. apply only_under_delete.
      + rewrite Hrm. apply only_under_refl. }
  intros [[] | e] w3 E3; [| destruct E3 as [c' E3]; by eapply Hfail].
  eapply post_tree; [apply file_close_law |]. intros [[] | e] w4 E4; [| eapply Hfail; by rewrite E4].
  unfold ignore. rewrite !file_close_law, E4, E3, E2, insert_insert_eq. done.
Qed.

(** What a copy of an entry is. *)
Definition copied (n : node) : node :=
  match n with
  | files.Dir p => files.Dir (Z.ldiff p umask)
  | File p c => File (Z.ldiff p umask) c
  | Symlink target => Symlink target
  | Device p dev => Device p dev
  end.

Lemma copy_target src dst x : plain_list src -> plain_list dst -> plain_list x ->
  exists rel, Rel (abs_path src) (abs_path (src ++ x)) = Ok rel /\
    (if negb (String.eqb rel ".") then path_join [abs_path dst; rel] else abs_path dst) = abs_path (dst ++ x).
Proof.
  intros Hs Hd Hx. destruct (decide (x = [])) as [-> | Hne].
  - exists ".". rewrite !app_nil_r. split; [| done]. unfold Rel. by rewrite String.eqb_refl.
  - exists (Join x "/"). split; [by apply Rel_below |].
    assert (String.eqb (Join x "/") "." = false) as ->; [| by apply path_join_rel].
    apply String.eqb_neq. intros E. apply (f_equal (fun s => Split s slash)) in E.
    change (Join x "/") with (Join x (chr slash)) in E. rewrite Split_Join in E by (done || by apply plain_free).
    change (Split "." slash) with ["."] in E. subst x. by inversion Hx.
Qed.

(** What is known of an entry while the walk visits it. *)
Definition describes (d : entry) (n : node) : Prop :=
  e_kind d = kind_of n /\ forall i, e_info d = Some i -> i = info_of n.

Lemma entry_info_spec w l d n : tree_of w !! l = Some n -> describes d n ->
  post (entry_info (abs_path l) d) w (fun r w' =>
    tree_of w' = tree_of w /\ match r with Ok i => i = info_of n | Err _ => True end).
Proof.
  intros Hl [Hk Hi]. unfold entry_info. destruct (e_info d) as [i |].
  - apply post_ret. split; [done | by apply Hi].
  - eapply post_reads; [apply lstat_law; eapply entry_reaches; [apply tree_wf | exact Hl] |].
    intros r w' E Hr. split; [done |]. destruct r as [i | e]; [| done]. rewrite Hl in Hr. by injection Hr as <-.
Qed.

Lemma copy_entry_spec w src dst x d n :
  apart src dst -> plain_list dst -> tree_of w !! (src ++ x) = Some n -> describes d n ->
  (forall y, tree_of w !! (dst ++ x ++ y) = None) -> is_dir (tree_of w) (parent (dst ++ x)) ->
  post (copy_entry (abs_path src) (abs_path dst) (abs_path (src ++ x)) (Some d) None) w (fun r w' =>
    match r with
    | Ok _ => tree_of w' = <[dst ++ x := copied n]> (tree_of w)
    | Err _ => only_under (dst ++ x) (tree_of w) (tree_of w')
    end).
Proof.
  intros Hap Hdst Hn Hd Hfresh [pp Hpar]. pose proof (tree_wf w) as Hwf.
  destruct (well_formed_at _ _ _ Hwf Hn) as [[Hps Hpx]%Forall_app _].
  destruct (copy_target src dst x Hps Hdst Hpx) as (rel & Hrel & Htarget). cbn [copy_entry].
  rewrite Hrel. apply post_bind, post_lift. cbv zeta. rewrite Htarget. apply post_bind.
  eapply post_mono; [by apply entry_info_spec |]. intros r w1 [E1 Hr]. cbn beta in Hr.
  destruct r as [i | e]; [| rewrite E1; apply only_under_refl]. subst i. rewrite <- E1 in *. clear E1 w.
  assert (tree_of w1 !! (dst ++ x) = None) as Hnone by (rewrite <- (app_nil_r x); apply Hfresh).
  destruct (dst ++ x) as [| c l _] eqn:El using rev_ind.
  { apply app_eq_nil in El as [-> _]. destruct Hap as [_ []]. apply prefix_nil. }
  rewrite parent_snoc in Hpar.
  assert (plain c = true) as Hc.
  { assert (plain_list (l ++ [c])) as Hp by (rewrite <- El; by apply Forall_app).
    by apply plain_snoc in Hp as [_ ?]. }
  pose proof (dir_reaches _ _ _ _ Hwf Hpar Hc) as Hreach. destruct Hd as [Hk _]. rewrite Hk. clear Hk.
  destruct n as [p | p content | target | p dev]; cbn [kind_of perm_of info_of i_kind i_perm copied].
  - rewrite bool_decide_true by done. eapply post_writes; [apply mkdir_all_law; split; [done | by rewrite Hnone] |].
    intros [[] | e] w' [Hg Hdir]; [eapply grown_one; try done; by eexists |].
    eapply grown_only_under; try done. by eexists.
  - rewrite !bool_decide_false, bool_decide_true by done. eapply post_mono.
    { eapply copyFile_spec; [| exact Hn | done]. split; [by eapply entry_reaches | by rewrite Hn]. }
    intros [[] | e] w' Hw; [by destruct Hw as [_ ->] | done].
  - rewrite bool_decide_false, bool_decide_true by done. apply post_bind.
    eapply post_reads; [apply readlink_law; by eapply entry_reaches |]. intros [s | e] w2 E2 Hr; [| rewrite E2; apply only_under_refl].
    rewrite Hn in Hr. injection Hr as ->. rewrite <- E2 in *.
    eapply post_writes; [by apply symlink_law |]. intros [[] | e] w' Hw; [by destruct Hw as [_ ->] | rewrite Hw; apply only_under_refl].
  - rewrite !bool_decide_false by done. apply post_throw, only_under_refl.
Qed.

(** A subtree once its copy is complete. *)
Definition copies (t : tree) (src : list string) (t' : tree) (dst : list string) : Prop :=
  forall y, t' !! (dst ++ y) = copied <$> t !! (src ++ y).

Definition visit_spec (src dst : list string) (visit : string -> entry -> M W unit) (x : list string) : Prop :=
  forall w d n, tree_of w !! (src ++ x) = Some n -> describes d n ->
    (forall y, tree_of w !! (dst ++ x ++ y) = None) -> is_dir (tree_of w) (parent (dst ++ x)) ->
    post (visit (abs_path (src ++ x)) d) w (fun r w' =>
      only_under (dst ++ x) (tree_of w) (tree_of w') /\
      match r with Ok _ => copies (tree_of w) (src ++ x) (tree_of w') (dst ++ x) | Err _ => True end).

(** The entries of one directory. *)
Lemma walk_each_copy src dst x visit entries w :
  apart src dst -> (forall c, plain c = true -> visit_spec src dst visit (x ++ [c])) -> NoDup (map fst entries) ->
  plain_list (src ++ x) -> is_dir (tree_of w) (dst ++ x) ->
  (forall c k, (c, k) ∈ entries -> kind_of <$> tree_of w !! ((src ++ x) ++ [c]) = Some k) ->
  (forall c k y, (c, k) ∈ entries -> tree_of w !! (dst ++ x ++ c :: y) = None) ->
  post (walk_each visit (abs_path (src ++ x)) entries) w (fun r w' =>
    (forall q, (forall c k, (c, k) ∈ entries -> ~ (dst ++ x ++ [c]) `prefix_of` q) -> tree_of w' !! q = tree_of w !! q) /\
    match r with
    | Ok _ => forall c k y, (c, k) ∈ entries -> tree_of w' !! (dst ++ x ++ c :: y) = copied <$> tree_of w !! (src ++ x ++ c :: y)
    | Err _ => True
    end).
Proof.
  intros Hap Hvisit. revert w. induction entries as [| [c k] entries IH]; intros w Hnd Hp Hdir Hsrc Hfresh.
  { apply post_ret. split; [done |]. by intros c k y ?%not_elem_of_nil. }
  cbn [map fst] in Hnd. apply NoDup_cons in Hnd as [Hc Hnd]. cbn [walk_each]. apply post_bind.
  destruct (tree_of w !! ((src ++ x) ++ [c])) as [n |] eqn:En; [| specialize (Hsrc c k (list_elem_of_here _ _)); by rewrite En in Hsrc].
  assert (plain c = true) as Hpc by (by destruct (well_formed_at _ _ _ (tree_wf w) En) as [[_ ?]%plain_snoc _]).
  rewrite path_join_abs by (done || by repeat constructor).
  pose proof (Hsrc c k (list_elem_of_here _ _)) as Hk. rewrite En in Hk. injection Hk as Hk.
  assert (parent (dst ++ x ++ [c]) = dst ++ x) as Hpar by (rewrite app_assoc; apply parent_snoc).
  rewrite <- app_assoc in En |- *. eapply post_mono.
  { eapply (Hvisit c Hpc w); [exact En | split; [by symmetry | done] | | by rewrite Hpar].
    intros y. rewrite <- app_assoc. apply (Hfresh c k y), list_elem_of_here. }
  intros r w1 [Hu Hr]. cbn beta in *.
  assert (forall q, (forall c' k', (c', k') ∈ (c, k) :: entries -> ~ (dst ++ x ++ [c']) `prefix_of` q) ->
    tree_of w1 !! q = tree_of w !! q) as Hhead by (intros q Hq; apply Hu, (Hq c k), list_elem_of_here).
  destruct r as [[] | e]; [| by split].
  assert (forall z, tree_of w1 !! (src ++ z) = tree_of w !! (src ++ z)) as Hs by (intros z; apply Hu, apart_below, apart_sym, Hap).
  assert (forall c' k' y, (c', k') ∈ entries -> tree_of w1 !! (dst ++ x ++ c' :: y) = tree_of w !! (dst ++ x ++ c' :: y)) as Hother.
  { intros c' k' y Hin. apply Hu. intros Hpre. rewrite !app_assoc in Hpre. apply prefix_sibling in Hpre as ->.
    apply Hc, list_elem_of_fmap. by eexists (_, _). }
  eapply post_mono.
  { apply (IH w1); try done.
    - destruct Hdir as [p Hdir]. exists p. rewrite Hu; [done |]. rewrite app_assoc. apply not_prefix_snoc.
    - intros c' k' Hin. rewrite <- app_assoc, Hs, app_assoc. by apply Hsrc, list_elem_of_further.
    - intros c' k' y Hin. rewrite (Hother c' k' y Hin). by eapply Hfresh, list_elem_of_further. }
  intros r w2 [Hu2 Hr2]. split.
  - intros q Hq. rewrite Hu2; [by apply Hhead |]. intros c' k' Hin. by eapply Hq, list_elem_of_further.
  - destruct r as [[] | e]; [| done]. intros c' k' y Hin.
    apply elem_of_cons in Hin as [[= -> ->] | Hin].
    + rewrite Hu2.
      * specialize (Hr y). rewrite <- !app_assoc in Hr. exact Hr.
      * intros c' k' Hin Hpre. rewrite !app_assoc in Hpre. apply prefix_sibling in Hpre as ->.
        apply Hc, list_elem_of_fmap. by eexists (_, _).
    + rewrite (Hr2 c' k' y Hin). by rewrite Hs.
Qed.

Lemma walk_copy src dst : apart src dst -> plain_list dst -> forall fuel x, plain_list (src ++ x) ->
  (S max_depth <= fuel + length x)%nat -> (x <> [] -> (length (src ++ x) <= max_depth)%nat) ->
  visit_spec src dst (walk (copy_entry (abs_path src) (abs_path dst)) fuel) x.
Proof.
  intros Hap Hdst. induction fuel as [| fuel IH]; intros x Hp Hfuel Hlen w d n Hn Hd Hfresh Hpar.
  { exfalso. destruct x as [| c x]; [cbn in Hfuel; lia |]. specialize (Hlen ltac:(done)). rewrite length_app in Hlen. lia. }
  cbn [walk]. apply post_bind. eapply post_mono; [by eapply copy_entry_spec |]. intros r w1 Hr. cbn beta in Hr.
  destruct r as [[] | e]; [| by split].
  assert (forall z, tree_of w1 !! (src ++ z) = tree_of w !! (src ++ z)) as Hs.
  { intros z. rewrite Hr. apply lookup_insert_ne. intros E. apply (apart_below dst src x z); [by apply apart_sym |].
    by rewrite E. }
  assert (tree_of w1 !! (dst ++ x) = Some (copied n)) as Hroot by (by rewrite Hr, lookup_insert_eq).
  assert (forall c y, tree_of w1 !! (dst ++ x ++ c :: y) = None) as Hbelow.
  { intros c y. rewrite Hr, lookup_insert_ne; [by apply Hfresh |]. intros E. apply app_inv_head in E.
    rewrite <- (app_nil_r x) in E at 1. by apply app_inv_head in E. }
  assert (only_under (dst ++ x) (tree_of w) (tree_of w1)) as Hu1 by (rewrite Hr; apply only_under_insert).
  destruct Hd as [Hk _]. rewrite Hk. destruct (decide (kind_of n = KDir)) as [Hdir | Hdir].
  2: { rewrite bool_decide_false by done. apply post_ret. split; [done |]. intros [| c y]; rewrite <- !app_assoc.
       - by rewrite !app_nil_r, Hn.
       - rewrite Hbelow, app_assoc, (not_dir_below _ _ _ _ (tree_wf w) Hn) by done. done. }
  destruct n as [p | | |]; try done. rewrite bool_decide_true by done. cbn [negb copied] in *. apply post_attempt.
  rewrite <- Hs in Hn. eapply post_reads; [apply read_dir_law; eapply dir_solid; [apply tree_wf | exact Hn] |].
  intros r w2 E2 Hents. destruct r as [entries | e]; [| apply post_throw; by rewrite E2].
  destruct Hents as (_ & Hdepth & Hnd & Hents). rewrite <- E2 in *. clear E2.
  eapply post_mono.
  { apply walk_each_copy; try done.
    - intros c Hc. apply IH.
      + rewrite app_assoc. by apply plain_snoc.
      + rewrite length_app. cbn. lia.
      + intros _. rewrite app_assoc, length_app. cbn. lia.
    - by eexists.
    - intros c k Hin. by apply Hents. }
  intros r w3 [Hu3 Hr3]. split.
  { eapply only_under_trans; [exact Hu1 |]. intros q Hq. apply Hu3. intros c k _ [z ->]. apply Hq. rewrite !app_assoc.
    rewrite <- !(app_assoc (dst ++ x)). auto. }
  destruct r as [[] | e]; [| done]. intros [| c y]; rewrite <- !app_assoc.
  - rewrite !app_nil_r, <- Hs, Hn, Hu3, Hroot; [done |]. intros c k _. rewrite app_assoc. apply not_prefix_snoc.
  - rewrite <- Hs. destruct (tree_of w2 !! ((src ++ x) ++ [c])) as [m |] eqn:Em.
    + eapply (Hr3 c (kind_of m)), Hents. by rewrite Em.
    + change (c :: y) with ([c] ++ y). rewrite (app_assoc src), (app_assoc (src ++ x)).
      rewrite (absent_below _ _ _ (tree_wf w2) Em). cbn [app]. rewrite Hu3; [apply Hbelow |].
      intros c' k Hin Hpre. rewrite !app_assoc in Hpre. apply prefix_sibling in Hpre as ->.
      apply Hents in Hin. by rewrite Em in Hin.
Qed.

Lemma copyTree_spec w src dst : solid (tree_of w) src -> apart src dst -> plain_list dst ->
  (forall y, tree_of w !! (dst ++ y) = None) -> is_dir (tree_of w) (parent dst) ->
  post (copyTree (abs_path src) (abs_path dst)) w (fun r w' =>
    only_under dst (tree_of w) (tree_of w') /\
    match r with Ok _ => copies (tree_of w) src (tree_of w') dst | Err _ => True end).
Proof.
  intros [Hsrc _] Hap Hdst Hfresh Hpar. apply post_attempt. eapply post_reads; [by apply lstat_law |].
  intros [i | e] w1 E1 Hi; [| apply post_throw; rewrite E1; split; [apply only_under_refl | done]].
  rewrite <- E1 in *. destruct (tree_of w1 !! src) as [n |] eqn:Hn; [| done]. injection Hi as <-.
  pose proof (walk_copy src dst Hap Hdst (S (S max_depth)) []) as Hw. unfold visit_spec in Hw.
  rewrite !app_nil_r in Hw. apply Hw with (n := n); try done; [apply Hsrc | cbn; lia | by split; [| intros i [= <-]]].
Qed.
End copying.
End injection.
