(* ===== verification/InjectionSafety.v ===== *)
(** * What [Prepare] and [Down] do to the tree of files

    Nothing outside the injection root is changed, a root without the marker
    is left alone, and a prepared root holds exactly the copy of the runtime,
    the configuration, the overrides it had and the marker. *)
From S2P Require Import Prelude GoStrings GoPath Paths GoFiles FilesLogic Disk Bundle Injection.

Module injection_safety.
Import filepath paths files fileslogic disk injection.

Definition overrides_rel : list string := ["state"; "overrides.yaml"].

Section safety.
Context {W : Type} `{LawfulFiles W}.
Implicit Types (w : W) (r src : list string).

(** The elements of the absolute path a path stands for. *)
Definition resolve (path : string) : list string :=
  clean_elems (if IsAbs path then Clean path else path_join [cwd; path]).

(** The marker at [r] reads as it should. *)
Definition owned (t : tree) r : Prop := may_read t (r ++ [markerName]) markerContent.

(** No link on the way to the marker and the overrides of [r]. *)
Definition no_links (t : tree) r : Prop := solid t (r ++ [markerName]) /\ reaches t (r ++ overrides_rel).

(** ** Paths and ownership *)
Lemma resolve_plain path : path <> "" -> plain_list (resolve path) /\
  Clean (if IsAbs path then Clean path else path_join [cwd; path]) = abs_path (resolve path).
Proof.
  intros Hne. unfold resolve. set (p := if IsAbs path then _ else _).
  assert (IsAbs p = true) as Hp.
  { subst p. destruct (IsAbs path) eqn:E; [by rewrite (proj1 (Clean_rooted _ E)) |].
    pose proof cwd_abs as Hc. rewrite path_join_eq, !no_blanks_cons.
    rewrite (proj2 (String.eqb_neq cwd "")) by (intros E'; by rewrite E' in Hc).
    rewrite (proj2 (String.eqb_neq path "")) by done. cbn [no_blanks List.filter].
    change (Join [cwd; path] "/") with (cwd +:+ "/" +:+ path).
    assert (IsAbs (cwd +:+ "/" +:+ path) = true) as Hj by (by destruct cwd).
    by rewrite (proj1 (Clean_rooted _ Hj)). }
  by apply Clean_rooted in Hp as [-> ?].
Qed.

Lemma cleanAbsolute_spec path w : post (cleanAbsolute path) w (fun res w' =>
  tree_of w' = tree_of w /\
  match res with Ok a => a = abs_path (resolve path) /\ plain_list (resolve path) | Err _ => True end).
Proof.
  unfold cleanAbsolute. apply post_if; [by intros _; apply post_throw |]. intros Hne. apply String.eqb_neq in Hne.
  destruct (resolve_plain path Hne) as [Hp E]. apply post_bind. unfold Abs. destruct (IsAbs path).
  - apply post_ret, post_ret. done.
  - apply post_bind. eapply post_reads; [apply getwd_law |]. intros [d | e] w1 E1 Hd; [| done]. subst d.
    apply post_ret, post_ret. by rewrite E1.
Qed.

Lemma marker_path r : plain_list r -> path_join [abs_path r; markerName] = abs_path (r ++ [markerName]).
Proof. intros Hr. apply path_join_abs; [done | by repeat constructor]. Qed.

Lemma requireOwned_spec r w : plain_list r -> solid (tree_of w) (r ++ [markerName]) ->
  post (requireOwned (abs_path r)) w (fun res w' =>
    tree_of w' = tree_of w /\ match res with Ok _ => owned (tree_of w) r | Err _ => True end).
Proof.
  intros Hr Hs. unfold requireOwned. rewrite marker_path by done. apply post_attempt.
  eapply post_reads; [by apply read_file_law |]. intros [data | e] w1 E1 Hd.
  - apply post_if; [by intros _; apply post_throw |]. intros Hc. apply negb_false_iff, String.eqb_eq in Hc as ->.
    by apply post_ret.
  - by apply post_if; intros _; apply post_throw.
Qed.

Lemma requireOwnedOrAbsent_spec r w : plain_list r -> solid (tree_of w) (r ++ [markerName]) ->
  post (requireOwnedOrAbsent (abs_path r)) w (fun res w' =>
    tree_of w' = tree_of w /\ match res with Ok _ => tree_of w !! r = None \/ owned (tree_of w) r | Err _ => True end).
Proof.
  intros Hr Hs. pose proof (reaches_prefix _ _ _ (proj1 Hs) (not_eq_sym (@nil_cons _ markerName []))) as [Hreach _].
  unfold requireOwnedOrAbsent. apply post_attempt. eapply post_reads; [by apply lstat_law |]. intros [i | e] w1 E1 Hi.
  - eapply post_mono; [apply requireOwned_spec; [done | by rewrite E1] |]. intros res w2 [E2 Hres]. rewrite E1 in *.
    split; [done |]. destruct res; [by right | done].
  - apply post_if; intros He; [| by apply post_throw]. apply post_ret. split; [done |]. left. by apply Hi.
Qed.

(** ** The bundle *)
Lemma check_all_same {A : Type} (check : A -> M W unit) (l : list A) (w : W) :
  (forall x w, post (check x) w (fun _ w' => tree_of w' = tree_of w)) ->
  post (bundle.check_all check l) w (fun _ w' => tree_of w' = tree_of w).
Proof.
  intros Hc. revert w. induction l as [| x l IH]; intros w; [by apply post_ret |]. cbn. apply post_bind.
  eapply post_mono; [apply Hc |]. intros [[] | e] w1 E1; [| done]. eapply post_mono; [apply IH |].
  intros res w2 E2. by rewrite E2.
Qed.

Lemma check_artifact_spec path b w : post (bundle.check_artifact path b) w (fun res w' =>
  tree_of w' = tree_of w /\ (is_ok res = true -> is_ok (stat path w).1 = true)).
Proof.
  unfold bundle.check_artifact. apply post_bind, post_wrapM. unfold post at 1.
  pose proof (stat_same path w) as E. destruct (stat path w) as [[i | e] w1]; cbn [fst snd wrap_err] in *; [| by split].
  repeat (apply post_if; intros _; [by apply post_throw |]). by apply post_ret.
Qed.

Lemma check_alias_same path w : post (bundle.check_alias path) w (fun _ w' => tree_of w' = tree_of w).
Proof.
  unfold bundle.check_alias. apply post_bind, post_wrapM. eapply post_tree; [apply lstat_same |].
  intros [i | e] w1 E1; [| done]. cbn [wrap_err]. apply post_if; intros _; [by apply post_throw |].
  apply post_bind, post_wrapM. eapply post_tree; [apply stat_same |]. intros [j | e] w2 E2; cbn [wrap_err]; [| by rewrite E2].
  by apply post_if; intros _; [apply post_throw | apply post_ret]; rewrite E2.
Qed.

(** A bundle that validates is there. *)
Lemma Validate_spec src w : plain_list src -> reaches (tree_of w) src ->
  post (bundle.Validate (bundle.New (abs_path src))) w (fun res w' =>
    tree_of w' = tree_of w /\ match res with Ok _ => tree_of w !! src <> None | Err _ => True end).
Proof.
  intros Hp Hr. unfold bundle.Validate. apply post_if; intros _; [by apply post_throw |].
  set (b := bundle.New (abs_path src)).
  change (bundle.artifacts b) with ((bundle.NvidiaSMI b, true) :: tl (bundle.artifacts b)).
  generalize (tl (bundle.artifacts b)). intros rest. apply post_bind. cbn [bundle.check_all]. apply post_bind.
  eapply post_mono; [apply check_artifact_spec |]. cbn [fst snd]. intros res w1 [E1 Hok].
  destruct res as [[] | e]; [| by split]. specialize (Hok eq_refl).
  assert (tree_of w !! src <> None) as Hsrc.
  { intros Hnone. subst b. unfold bundle.NvidiaSMI, bundle.New in Hok. cbn [bundle.Root] in Hok.
    assert (forall k, tree_of w !! (src ++ k) = None) as Hbelow by (intros k; apply absent_below; [apply tree_wf | done]).
    rewrite (path_join_abs src ["bin"; "nvidia-smi"]) in Hok by (done || by repeat constructor).
    rewrite stat_law in Hok; [done | | apply Hbelow]. split; [apply Forall_app; split; [done | by repeat constructor] |].
    intros q target Hq _ Hsym. destruct (prefix_weak_total q src _ Hq (prefix_app_self _ _)) as [Hle | [k ->]].
    - destruct (decide (q = src)) as [-> | Hne]; [by rewrite Hnone in Hsym | by eapply Hr].
    - by rewrite Hbelow in Hsym. }
  rewrite <- E1 in *. eapply post_mono; [apply check_all_same |].
  { intros x w'. eapply post_mono; [apply check_artifact_spec |]. by intros ? ? []. }
  intros [[] | e] w2 E2; [| by rewrite E2]. rewrite <- E2 in *. eapply post_mono; [apply check_all_same; apply check_alias_same |].
  intros res w3 E3. split; [done |]. by destruct res.
Qed.

(** ** The steps of [install] *)
(** The overrides a refresh keeps. *)
Definition kept_overrides (t : tree) r : option node :=
  match t !! (r ++ overrides_rel) with Some (File p c) => Some (File (Z.ldiff p umask) c) | _ => None end.

Lemma preserveOverrides_spec r l w : plain_list r -> reaches (tree_of w) (r ++ overrides_rel) -> reaches (tree_of w) l ->
  tree_of w !! l = None ->
  post (preserveOverrides (abs_path r) (abs_path l)) w (fun res w' =>
    match res with
    | Ok _ => tree_of w' = match kept_overrides (tree_of w) r with Some n => <[l := n]> (tree_of w) | None => tree_of w end
    | Err _ => only_under l (tree_of w) (tree_of w')
    end).
Proof.
  intros Hr Hov Hl Hnone. unfold preserveOverrides.
  assert (path_join [abs_path r; "state"; "overrides.yaml"] = abs_path (r ++ overrides_rel)) as ->
    by (apply path_join_abs; [done | by repeat constructor]).
  apply post_attempt. eapply post_reads; [by apply lstat_law |]. unfold kept_overrides. intros [i | e] w1 E1 Hi.
  - destruct (tree_of w !! (r ++ overrides_rel)) as [n |] eqn:En; [| done]. injection Hi as <-. rewrite <- E1 in *.
    apply post_if; intros Hk; [apply post_throw, only_under_refl |]. apply negb_false_iff, bool_decide_eq_true in Hk.
    destruct n as [| p c | |]; try done. apply post_wrapM. eapply post_mono.
    { eapply copyFile_spec; [| exact En | done]. split; [done | by rewrite En]. }
    intros [[] | e] w2 Hw; [by destruct Hw as [_ ->] | done].
  - apply post_if; intros He; [| apply post_throw; rewrite E1; apply only_under_refl].
    apply post_ret. rewrite E1. by rewrite (Hi He).
Qed.

Lemma remove_existing_spec r w : reaches (tree_of w) r ->
  post (remove_existing (abs_path r)) w (fun res w' =>
    match res with
    | Ok _ => tree_of w' = prune r (tree_of w)
    | Err e => only_under r (tree_of w) (tree_of w') /\
        (tree_of w' = tree_of w \/ exists e', e = Wrapf "replace existing injection root: %w" [] e')
    end).
Proof.
  intros Hr. unfold remove_existing. apply post_attempt. eapply post_reads; [by apply lstat_law |]. intros [i | e] w1 E1 Hi.
  - rewrite <- E1 in *. apply post_wrapM. eapply post_writes; [by apply remove_all_law |].
    intros [[] | e] w2 Hw; [done |]. cbn [wrap_err]. destruct Hw as [Hu _]. split; [done | right; by eexists].
  - apply post_if; intros He.
    + apply post_ret. rewrite E1. apply map_eq. intros q. rewrite lookup_prune. destruct (decide _) as [[k ->] |]; [| done].
      apply absent_below; [apply tree_wf | by apply Hi].
    + apply post_throw. rewrite E1. split; [apply only_under_refl | by left].
Qed.

(** What is installed at [y] below the root, from the tree [t] before. *)
Definition installed (t : tree) r src (config : string) (y : list string) : option node :=
  if decide (y = [markerName]) then Some (File (Z.ldiff (rwx 6 4 4) umask) markerContent) else
  if decide (y = overrides_rel) then kept_overrides t r else
  if decide (y = ["state"; "config.yaml"]) then Some (File (Z.ldiff (rwx 6 4 4) umask) config) else
  if decide (y = ["state"]) then Some (files.Dir (Z.ldiff (rwx 7 5 5) umask)) else
  match y with
  | [] => Some (files.Dir (Z.ldiff (rwx 7 0 0) umask))
  | c :: z => if decide (c = "runtime") then copied <$> t !! (src ++ z) else None
  end.

(** An error of the last two steps, after which the old root may be gone. *)
Definition late_error (e : error) : Prop :=
  exists e', e = Wrapf "replace existing injection root: %w" [] e' \/ e = Wrapf "install injection root: %w" [] e'.

Lemma layoutFor_abs l : plain_list l -> layoutFor (abs_path l) = {|
  Root := abs_path l; RuntimeDir := abs_path (l ++ ["runtime"]); StateDir := abs_path (l ++ ["state"]);
  ConfigPath := abs_path ((l ++ ["state"]) ++ ["config.yaml"]);
  OverridesPath := abs_path ((l ++ ["state"]) ++ ["overrides.yaml"]) |}.
Proof.
  intros Hl. unfold layoutFor. rewrite !(path_join_abs l) by (done || by repeat constructor).
  rewrite !path_join_abs; try done; try (by repeat constructor); by apply plain_snoc.
Qed.

(** Writing one file into a directory. *)
Lemma write_new_spec l c content perm w : is_dir (tree_of w) l -> plain c = true -> tree_of w !! (l ++ [c]) = None ->
  post (write_file (abs_path (l ++ [c])) content perm) w (fun res w' =>
    match res with
    | Ok _ => tree_of w' = <[l ++ [c] := File (Z.ldiff perm umask) content]> (tree_of w)
    | Err _ => only_under (l ++ [c]) (tree_of w) (tree_of w')
    end).
Proof.
  intros [p Hd] Hc Hnone. pose proof (dir_reaches _ _ _ _ (tree_wf w) Hd Hc) as Hr.
  eapply post_writes; [apply write_file_law; split; [done | by rewrite Hnone] |].
  intros [[] | e] w' Hw; [| done]. by rewrite Hnone in Hw.
Qed.

Lemma mkdir_new_spec l c perm w : is_dir (tree_of w) l -> plain c = true -> tree_of w !! (l ++ [c]) = None ->
  post (mkdir_all (abs_path (l ++ [c])) perm) w (fun res w' =>
    match res with
    | Ok _ => tree_of w' = <[l ++ [c] := files.Dir (Z.ldiff perm umask)]> (tree_of w)
    | Err _ => only_under (l ++ [c]) (tree_of w) (tree_of w')
    end).
Proof.
  intros [p Hd] Hc Hnone. pose proof (dir_reaches _ _ _ _ (tree_wf w) Hd Hc) as Hr.
  eapply post_writes; [apply mkdir_all_law; split; [done | by rewrite Hnone] |].
  intros [[] | e] w' [Hg Hw].
  - eapply grown_one; try done; [apply tree_wf | by eexists].
  - eapply grown_only_under; try done; [apply tree_wf | by eexists].
Qed.

Lemma lookup_insert_below (tm k y : list string) (n : node) (s : tree) :
  <[tm ++ k := n]> s !! (tm ++ y) = if decide (y = k) then Some n else s !! (tm ++ y).
Proof.
  destruct (decide (y = k)) as [-> | Hne]; [apply lookup_insert_eq |].
  apply lookup_insert_ne. intros E. by apply app_inv_head in E.
Qed.

(** The five steps that fill the temporary root [tm]. *)
Definition staged (t : tree) r src (config : string) (tm : list string) (t' : tree) : Prop :=
  only_under tm t t' /\ forall y, t' !! (tm ++ y) = installed t r src config y.

Lemma staged_lookup (t t2 : tree) r src (config : string) (tm : list string) :
  t !! tm = Some (files.Dir (Z.ldiff (rwx 7 0 0) umask)) -> (forall c y, t !! (tm ++ c :: y) = None) ->
  only_under (tm ++ ["runtime"]) t t2 -> copies t src t2 (tm ++ ["runtime"]) ->
  let t4 := <[(tm ++ ["state"]) ++ ["config.yaml"] := File (Z.ldiff (rwx 6 4 4) umask) config]>
    (<[tm ++ ["state"] := files.Dir (Z.ldiff (rwx 7 5 5) umask)]> t2) in
  let t5 := match kept_overrides t r with Some n => <[(tm ++ ["state"]) ++ ["overrides.yaml"] := n]> t4 | None => t4 end in
  staged t r src config tm (<[tm ++ [markerName] := File (Z.ldiff (rwx 6 4 4) umask) markerContent]> t5).
Proof.
  intros Hroot Hnew Hu Hc t4 t5.
  assert (only_under tm t t4) as Hu4.
  { eapply only_under_trans; [by eapply only_under_weaken |]. eapply only_under_trans; [eapply only_under_weaken, only_under_insert |].
    unfold t4. rewrite <- (app_assoc tm). eapply only_under_weaken, only_under_insert. }
  split.
  - eapply only_under_trans; [| eapply only_under_weaken, only_under_insert]. unfold t5.
    destruct (kept_overrides t r) as [n |]; [| done]. eapply only_under_trans; [exact Hu4 |].
    rewrite <- (app_assoc tm). eapply only_under_weaken, only_under_insert.
  - pose proof (lookup_insert_below tm) as Hins.
    intros y. unfold installed. rewrite Hins. destruct (decide (y = [markerName])) as [| Hm]; [done |].
    assert (t4 !! (tm ++ y) = if decide (y = ["state"; "config.yaml"]) then Some (File (Z.ldiff (rwx 6 4 4) umask) config) else
      if decide (y = ["state"]) then Some (files.Dir (Z.ldiff (rwx 7 5 5) umask)) else t2 !! (tm ++ y)) as E4.
    { unfold t4. rewrite <- (app_assoc tm). cbn [app]. by rewrite !Hins. }
    assert (t2 !! (tm ++ y) = match y with [] => Some (files.Dir (Z.ldiff (rwx 7 0 0) umask))
      | c :: z => if decide (c = "runtime") then copied <$> t !! (src ++ z) else None end) as E2.
    { destruct y as [| c z].
      - rewrite app_nil_r, Hu; [done |]. apply not_prefix_snoc.
      - destruct (decide (c = "runtime")) as [-> | Hne].
        + specialize (Hc z). rewrite <- app_assoc in Hc. exact Hc.
        + rewrite Hu; [apply Hnew |]. by intros <-%prefix_sibling. }
    unfold t5. destruct (decide (y = overrides_rel)) as [-> | Hov].
    + destruct (kept_overrides t r) as [n |].
      * rewrite <- (app_assoc tm). cbn [app]. rewrite Hins. by rewrite decide_True.
      * rewrite E4. by rewrite E2.
    + destruct (kept_overrides t r) as [n |]; [| by rewrite E4, E2].
      rewrite <- (app_assoc tm). cbn [app]. rewrite Hins. rewrite decide_False by done. by rewrite E4, E2.
Qed.

Lemma copyTree_absent src dst w : plain_list src -> reaches (tree_of w) src -> tree_of w !! src = None ->
  post (copyTree (abs_path src) dst) w (fun res w' => tree_of w' = tree_of w /\ is_ok res = false).
Proof.
  intros Hp Hr Hnone. apply post_attempt. eapply post_reads; [by apply lstat_law |]. intros [i | e] w1 E1 Hi.
  - by rewrite Hnone in Hi.
  - by apply post_throw.
Qed.

(** The first two steps. *)
Lemma fill_runtime_spec src tm w : plain_list tm -> apart src tm -> solid (tree_of w) src ->
  tree_of w !! tm = Some (files.Dir (Z.ldiff (rwx 7 0 0) umask)) -> (forall c y, tree_of w !! (tm ++ c :: y) = None) ->
  post (copyTree (abs_path src) (abs_path (tm ++ ["runtime"]))) w (fun res w' =>
    only_under (tm ++ ["runtime"]) (tree_of w) (tree_of w') /\ is_dir (tree_of w') tm /\
    (forall c y, c <> "runtime" -> tree_of w' !! (tm ++ c :: y) = None) /\
    match res with Ok _ => copies (tree_of w) src (tree_of w') (tm ++ ["runtime"]) | Err _ => True end).
Proof.
  intros Htm Haps Hsrc Hroot Hnew. eapply post_mono.
  { apply (copyTree_spec w src (tm ++ ["runtime"])); try done.
    - destruct Haps as [H1 H2]. split; [| intros Hp; apply H2; by eapply prefix_app_l].
      intros [-> | Hp]%prefix_snoc_inv; [by apply H2 | done].
    - by apply plain_snoc.
    - intros y. rewrite <- app_assoc. apply Hnew.
    - rewrite parent_snoc. by eexists. }
  intros res w' [Hu Hc]. split_and!; try done.
  - eexists. rewrite Hu; [exact Hroot | apply not_prefix_snoc].
  - intros c y Hne. rewrite Hu; [apply Hnew |]. by intros <-%prefix_sibling.
Qed.

Lemma only_under_state l c t t' : only_under ((l ++ ["state"]) ++ [c]) t t' -> only_under l t t'.
Proof. rewrite <- app_assoc. apply only_under_weaken. Qed.

(** The state directory with the configuration and the overrides. *)
Lemma write_state_spec r config tm w : plain_list r -> plain_list tm -> apart tm r -> reaches (tree_of w) (r ++ overrides_rel) ->
  is_dir (tree_of w) tm -> (forall c y, c <> "runtime" -> tree_of w !! (tm ++ c :: y) = None) ->
  post (write_state (abs_path r) config (layoutFor (abs_path tm))) w (fun res w' =>
    only_under tm (tree_of w) (tree_of w') /\
    match res with
    | Ok _ =>
        let t4 := <[(tm ++ ["state"]) ++ ["config.yaml"] := File (Z.ldiff (rwx 6 4 4) umask) config]>
          (<[tm ++ ["state"] := files.Dir (Z.ldiff (rwx 7 5 5) umask)]> (tree_of w)) in
        tree_of w' = match kept_overrides (tree_of w) r with
                     | Some n => <[(tm ++ ["state"]) ++ ["overrides.yaml"] := n]> t4 | None => t4 end
    | Err _ => True
    end).
Proof.
  intros Hr Htm Hapr Hov Hd Hnew. unfold write_state. rewrite (layoutFor_abs tm) by done.
  cbn [StateDir ConfigPath OverridesPath].
  apply post_bind, post_wrapM. eapply post_mono; [by apply mkdir_new_spec, Hnew |].
  intros res3 w3 H3. destruct res3 as [[] | e]; cbn [wrap_err]; [| split; [by eapply only_under_weaken | done]].
  assert (forall c, tree_of w3 !! ((tm ++ ["state"]) ++ [c]) = None) as Hnew3.
  { intros c. rewrite H3, <- app_assoc, lookup_insert_below, decide_False by done. by apply Hnew. }
  assert (is_dir (tree_of w3) (tm ++ ["state"])) as Hd3 by (eexists; by rewrite H3, lookup_insert_eq).
  assert (only_under tm (tree_of w) (tree_of w3)) as Hu3 by (rewrite H3; eapply only_under_weaken, only_under_insert).
  apply post_bind, post_wrapM. eapply post_mono; [by apply write_new_spec, Hnew3 |].
  intros res4 w4 H4. destruct res4 as [[] | e]; cbn [wrap_err];
    [| split; [eapply only_under_trans; [exact Hu3 | by eapply only_under_state] | done]].
  assert (only_under tm (tree_of w) (tree_of w4)) as Hu4.
  { rewrite H4. eapply only_under_trans; [exact Hu3 | eapply only_under_state, only_under_insert]. }
  assert (forall k, ~ tm `prefix_of` (r ++ k)) as Hapr' by (intros k; rewrite <- (app_nil_r tm); by apply apart_below).
  assert (kept_overrides (tree_of w4) r = kept_overrides (tree_of w) r) as Hkept by (unfold kept_overrides; by rewrite Hu4).
  eapply post_mono.
  { apply preserveOverrides_spec; [done | by eapply reaches_outside | |].
    - destruct Hd3 as [p Hd3]. rewrite H4. apply reaches_insert; [| done]. eapply dir_reaches; [apply tree_wf | exact Hd3 | done].
    - rewrite H4, lookup_insert_ne; [apply Hnew3 |]. intros E. by apply app_inj_tail in E as [_ [=]]. }
  rewrite Hkept. intros res5 w5 H5.
  assert (only_under tm (tree_of w) (tree_of w5)) as Hu5.
  { eapply only_under_trans; [exact Hu4 |]. destruct res5; [| by eapply only_under_state]. rewrite H5.
    destruct (kept_overrides (tree_of w) r); [eapply only_under_state, only_under_insert | apply only_under_refl]. }
  split; [done |]. destruct res5; [| done]. cbv zeta. by rewrite H5, H4, H3.
Qed.

Lemma fill_spec r src config tm w : plain_list r -> plain_list tm -> apart tm r -> apart src tm ->
  reaches (tree_of w) (r ++ overrides_rel) -> solid (tree_of w) src ->
  tree_of w !! tm = Some (files.Dir (Z.ldiff (rwx 7 0 0) umask)) -> (forall c y, tree_of w !! (tm ++ c :: y) = None) ->
  post (fill (abs_path r) (abs_path src) config (abs_path tm)) w (fun res w' =>
    only_under tm (tree_of w) (tree_of w') /\
    match res with Ok _ => staged (tree_of w) r src config tm (tree_of w') | Err _ => True end).
Proof.
  intros Hr Htm Hapr Haps Hov Hsrc Hroot Hnew. unfold fill. cbv zeta.
  assert (RuntimeDir (layoutFor (abs_path tm)) = abs_path (tm ++ ["runtime"])) as -> by (by rewrite layoutFor_abs).
  apply post_bind, post_wrapM. eapply post_mono; [by apply fill_runtime_spec |].
  intros res2 w2 (Hu2 & Hd2 & Hnew2 & Hc2). apply only_under_weaken in Hu2 as Hu2'.
  destruct res2 as [[] | e]; cbn [wrap_err]; [| done].
  assert (forall k, ~ tm `prefix_of` (r ++ k)) as Hapr' by (intros k; rewrite <- (app_nil_r tm); by apply apart_below).
  assert (kept_overrides (tree_of w2) r = kept_overrides (tree_of w) r) as Hkept by (unfold kept_overrides; by rewrite Hu2').
  apply post_bind. eapply post_mono; [apply write_state_spec; try done; by eapply reaches_outside |].
  rewrite Hkept. intros res5 w5 [Hu5 H5]. destruct res5 as [[] | e]; [| split; [by eapply only_under_trans | done]].
  assert (forall y, y <> ["state"] -> y <> ["state"; "config.yaml"] -> y <> overrides_rel ->
    tree_of w5 !! (tm ++ y) = tree_of w2 !! (tm ++ y)) as H52.
  { intros y Hy1 Hy2 Hy3. rewrite <- !(app_assoc tm) in H5. cbn [app] in H5. rewrite H5.
    destruct (kept_overrides (tree_of w) r); rewrite !lookup_insert_below; by rewrite !decide_False. }
  rewrite marker_path by done. apply post_wrapM. eapply post_mono.
  { apply write_new_spec; [| done |].
    - destruct Hd2 as [p Hd2]. exists p. rewrite <- (app_nil_r tm) in Hd2 |- *. by rewrite H52.
    - rewrite H52 by done. by apply Hnew2. }
  intros res6 w6 H6. destruct res6 as [[] | e]; cbn [wrap_err].
  - assert (staged (tree_of w) r src config tm (tree_of w6)) as Hs by (rewrite H6, H5; by apply staged_lookup).
    split; [apply Hs | done].
  - split; [| done]. eapply only_under_trans; [exact Hu2' |]. eapply only_under_trans; [exact Hu5 | by eapply only_under_weaken].
Qed.

Lemma install_spec r src config tm w : plain_list r -> plain_list tm -> apart tm r -> apart src tm ->
  reaches (tree_of w) r -> reaches (tree_of w) (r ++ overrides_rel) -> solid (tree_of w) src ->
  tree_of w !! tm = Some (files.Dir (Z.ldiff (rwx 7 0 0) umask)) -> (forall c y, tree_of w !! (tm ++ c :: y) = None) ->
  post (install (abs_path r) (abs_path src) config (abs_path tm)) w (fun res w' =>
    (forall q, ~ tm `prefix_of` q -> ~ r `prefix_of` q -> tree_of w' !! q = tree_of w !! q) /\
    match res with
    | Ok lay => lay = layoutFor (abs_path r) /\
        (forall y, tree_of w' !! (r ++ y) = installed (tree_of w) r src config y) /\ (forall y, tree_of w' !! (tm ++ y) = None)
    | Err e => late_error e \/ only_under tm (tree_of w) (tree_of w')
    end).
Proof.
  intros Hr Htm Hapr Haps Hreach Hov Hsrc Hroot Hnew. unfold install. apply post_bind.
  eapply post_mono; [by apply fill_spec |]. intros res6 w6 [Hu6 Hstaged].
  destruct res6 as [[] | e]; [| split; [intros q Hq _; by apply Hu6 | by right]]. destruct Hstaged as [_ Hstaged].
  apply post_bind. eapply post_mono.
  { apply remove_existing_spec. eapply reaches_outside; [exact Hreach | exact Hu6 |]. apply Hapr. }
  intros res7 w7 H7. destruct res7 as [[] | e].
  2: { destruct H7 as [Hu7 H7]. split; [intros q Hq1 Hq2; by rewrite Hu7, Hu6 |].
       destruct H7 as [-> | [e' ->]]; [by right | left; by eexists; left]. }
  assert (forall q, ~ tm `prefix_of` q -> ~ r `prefix_of` q -> tree_of w7 !! q = tree_of w !! q) as Hout.
  { intros q Hq1 Hq2. rewrite H7, lookup_prune, decide_False by done. by apply Hu6. }
  assert (forall y, tree_of w7 !! (tm ++ y) = installed (tree_of w) r src config y) as Hst7.
  { intros y. rewrite H7, lookup_prune, decide_False; [apply Hstaged |].
    rewrite <- (app_nil_r r). by apply apart_below, apart_sym. }
  apply post_bind, post_wrapM. eapply post_writes.
  { apply rename_law; try apply Hapr.
    - pose proof (Hst7 []) as Ht7. rewrite app_nil_r in Ht7. eapply entry_reaches; [apply tree_wf | exact Ht7].
    - rewrite H7. eapply reaches_subset; [| apply prune_subset]. eapply reaches_outside; [exact Hreach | exact Hu6 | apply Hapr]. }
  intros [[] | e] w8 H8; cbn [wrap_err].
  - destruct H8 as (Hmoved & Hgone & Hsame). apply post_ret. split; [intros q Hq1 Hq2; by rewrite Hsame, Hout |].
    split; [done |]. split; [intros y; by rewrite Hmoved | done].
  - rewrite H8. split; [done |]. left. by eexists; right.
Qed.

(** ** [Prepare] *)
Lemma validateSeparation_abs r src : plain_list r -> plain_list src ->
  validateSeparation (abs_path r) (abs_path src) = Ok tt -> r <> [] /\ apart r src.
Proof.
  intros Hr Hs. unfold validateSeparation. change (Clean "/") with (abs_path []).
  rewrite !abs_path_eqb, !within_abs by (done || constructor). intros Hv. guards.
  split; [done |]. by split.
Qed.

Definition temp_like (name : string) : Prop := HasPrefix name ".fake-nvidia-prepare-" = true.

(** What [Prepare] may leave of a tree [t]: everything outside the root, plus
    directories above it and, when it fails, its temporary directory. *)
Definition outside_kept (ok : bool) (t t' : tree) r : Prop :=
  (forall q n, t !! q = Some n -> ~ r `prefix_of` q -> t' !! q = Some n) /\
  (forall q n, t !! q = None -> t' !! q = Some n -> ~ r `prefix_of` q ->
    (q `prefix_of` r /\ n = files.Dir (Z.ldiff (rwx 7 5 5) umask)) \/
    (ok = false /\ exists name z, q = parent r ++ name :: z /\ temp_like name)).

Lemma outside_kept_refl ok t r : outside_kept ok t t r.
Proof. split; [done |]. intros q n E1 E2. by rewrite E1 in E2. Qed.

Definition prepared (t : tree) r src (config : string) (res : result Layout) (t' : tree) : Prop :=
  match res with
  | Ok lay => lay = layoutFor (abs_path r) /\ forall y, t' !! (r ++ y) = installed t r src config y
  | Err e => late_error e \/ forall y, t' !! (r ++ y) = t !! (r ++ y)
  end.

(** The trees of a run: [t] before it, [t1] with the directories above the
    root, [t2] with the temporary directory, [t3] after [install] and [t4]
    after the cleanup. *)
Section run.
Variables (p : list string) (b name : string) (src : list string) (config : string) (t t1 t2 : tree).
Let r := p ++ [b].
Let tm := p ++ [name].
Let dir_perm : Z := Z.ldiff (rwx 7 5 5) umask.
Hypotheses (Hap : apart r src) (Hex : t !! src <> None) (Hb : ~ temp_like b) (Htemp : temp_like name).
Hypotheses (Hg1 : grown p dir_perm t t1) (Hwf1 : well_formed t1) (Hd1 : is_dir t1 p) (Hfresh : t1 !! tm = None).
Hypothesis (H2 : t2 = <[tm := files.Dir (Z.ldiff (rwx 7 0 0) umask)]> t1).

Lemma grown_above t' q n : grown p dir_perm t t' -> t !! q = None -> t' !! q = Some n -> q `prefix_of` r /\ n = files.Dir dir_perm.
Proof. intros [_ Hnew] E1 E2. destruct (Hnew q n E2 E1) as [Hq ->]. split; [by apply prefix_app_r | done]. Qed.

Lemma root_not_above k : ~ (r ++ k) `prefix_of` p.
Proof. intros Hk. apply (not_prefix_snoc p b). by eapply prefix_app_l. Qed.

Lemma source_not_above k : ~ (src ++ k) `prefix_of` p.
Proof. intros Hk. destruct Hap as [_ Hn]. apply Hn. subst r. apply prefix_app_r. by eapply prefix_app_l. Qed.

Lemma grown_run t' e : grown p dir_perm t t' -> outside_kept false t t' r /\ prepared t r src config (Err e) t'.
Proof.
  intros Hg. split; [split |].
  - intros q n E _. destruct Hg as [Hsub _]. by eapply lookup_weaken.
  - intros q n E1 E2 _. left. by eapply grown_above.
  - right. intros y. eapply grown_same; [done | apply root_not_above].
Qed.

Lemma temp_apart_root : apart tm r.
Proof. split; intros E%prefix_sibling; apply Hb; by rewrite <- E || by rewrite E. Qed.

Lemma temp_is_new k : t !! (tm ++ k) = None.
Proof.
  destruct (t !! (tm ++ k)) as [n |] eqn:En; [| done]. destruct Hg1 as [Hsub _].
  pose proof (lookup_weaken _ _ _ _ En Hsub) as En1. by rewrite absent_below in En1.
Qed.

Lemma temp_apart_source : apart src tm.
Proof.
  split.
  - intros [E | Hq]%prefix_snoc_inv.
    + apply Hex. rewrite E. change (p ++ [name]) with tm. rewrite <- (app_nil_r tm). apply temp_is_new.
    + apply (source_not_above []). by rewrite app_nil_r.
  - intros [k E]. apply Hex. rewrite E. apply temp_is_new.
Qed.

Lemma unchanged_so_far q : ~ q `prefix_of` p -> q <> tm -> t2 !! q = t !! q.
Proof. intros Hq Hne. rewrite H2, lookup_insert_ne by done. by eapply grown_same. Qed.

Lemma temp_below c y : t2 !! (tm ++ c :: y) = None.
Proof.
  rewrite H2, lookup_insert_ne; [by apply absent_below |].
  intros E. rewrite <- (app_nil_r tm) in E at 1. by apply app_inv_head in E.
Qed.

Lemma temp_reaches t3 : plain_list tm -> (forall q, ~ tm `prefix_of` q -> ~ r `prefix_of` q -> t3 !! q = t2 !! q) -> reaches t3 tm.
Proof.
  intros Htm Hout. split; [done |]. intros q target Hq Hne. rewrite Hout.
  - apply prefix_snoc_inv in Hq as [-> | Hq]; [done |]. rewrite H2, lookup_insert_ne by done. destruct Hd1 as [pm Hd].
    destruct (dir_solid _ _ _ Hwf1 Hd) as [[_ Habove] Hend].
    destruct (decide (q = p)) as [-> | Hqp]; [apply Hend | by apply Habove].
  - intros Htq. apply Hne. destruct Hq as [k1 E1], Htq as [k2 E2]. apply (f_equal length) in E1 as L1.
    rewrite E2, !length_app in L1. destruct k2; [by rewrite app_nil_r in E2 | cbn in L1; lia].
  - intros Hrq. destruct temp_apart_root as [_ Hn]. apply Hn. by etrans.
Qed.

(** The end of the run. *)
Variables (res : result Layout) (t3 t4 : tree).
Hypothesis (Hout : forall q, ~ tm `prefix_of` q -> ~ r `prefix_of` q -> t3 !! q = t2 !! q).
Hypothesis (Hres : match res with
    | Ok lay => lay = layoutFor (abs_path r) /\
        (forall y, t3 !! (r ++ y) = installed t2 r src config y) /\ (forall y, t3 !! (tm ++ y) = None)
    | Err e => late_error e \/ only_under tm t2 t3
    end).
Hypotheses (Hu4 : only_under tm t3 t4) (Hsame : is_ok res = true -> t4 = t3).

Lemma run_outside : outside_kept (is_ok res) t t4 r.
Proof.
  split.
  - intros q n En Hq. destruct (decide (tm `prefix_of` q)) as [[k ->] | Htq]; [by rewrite temp_is_new in En |].
    rewrite Hu4, Hout, H2, lookup_insert_ne by (done || by intros ->). destruct Hg1 as [Hsub _]. by eapply lookup_weaken.
  - intros q n En En4 Hq. destruct (decide (tm `prefix_of` q)) as [[k ->] | Htq].
    + right. destruct res as [lay | e]; cbn [is_ok] in *.
      * destruct Hres as (_ & _ & Hgone). by rewrite Hsame, Hgone in En4.
      * split; [done |]. exists name, k. subst r tm. rewrite parent_snoc, <- app_assoc. done.
    + left. rewrite Hu4, Hout, H2, lookup_insert_ne in En4 by (done || by intros ->). by eapply grown_above.
Qed.

Lemma run_prepared : prepared t r src config res t4.
Proof.
  assert (forall y, t2 !! (r ++ y) = t !! (r ++ y)) as Hr2.
  { intros y. apply unchanged_so_far; [apply root_not_above |]. intros E. destruct temp_apart_root as [_ Hn].
    apply Hn. rewrite <- E. auto. }
  destruct res as [lay | e]; cbn [is_ok prepared] in *.
  - destruct Hres as (-> & Hinst & _). split; [done |]. intros y. rewrite Hsame, Hinst by done.
    unfold installed, kept_overrides. rewrite Hr2. destruct y as [| c z]; [done |].
    rewrite (unchanged_so_far (src ++ z)); [done | apply source_not_above |].
    intros E. destruct temp_apart_source as [Hn _]. apply Hn. rewrite <- E. auto.
  - destruct Hres as [Hl | Hu]; [by left | right]. intros y. rewrite Hu4, Hu; [apply Hr2 | |];
      rewrite <- (app_nil_r tm); apply apart_below, temp_apart_root.
Qed.
End run.

Lemma build_spec p b src config w : plain_list (p ++ [b]) -> ~ temp_like b -> apart (p ++ [b]) src ->
  no_links (tree_of w) (p ++ [b]) -> solid (tree_of w) src -> tree_of w !! src <> None ->
  post (build (abs_path (p ++ [b])) (abs_path src) config) w (fun res w' =>
    outside_kept (is_ok res) (tree_of w) (tree_of w') (p ++ [b]) /\ prepared (tree_of w) (p ++ [b]) src config res (tree_of w')).
Proof.
  intros Hr Hb Hap [_ Hov] Hsrc Hex. apply plain_snoc in Hr as Hpb. destruct Hpb as [Hp Hplain].
  assert (reaches (tree_of w) (p ++ [b])) as Hreach by (by apply (reaches_prefix _ _ overrides_rel)).
  unfold build. cbv zeta. rewrite Dir_abs by done. apply post_bind, post_wrapM. eapply post_writes.
  { apply mkdir_all_law. apply (reaches_prefix _ _ [b]); done. }
  intros [[] | e] w1 [Hg1 Hd1]; cbn [wrap_err]; [| by apply grown_run].
  apply post_bind, post_wrapM. destruct Hd1 as [pm Hd1].
  eapply post_writes; [apply mkdir_temp_law; by eapply dir_solid, Hd1; apply tree_wf |].
  intros [tmp | e] w2 H2; cbn [wrap_err]; [| rewrite H2; by apply grown_run].
  destruct H2 as (name & -> & Hname & Htemp & Hfresh & H2).
  assert (is_dir (tree_of w1) p) as Hdir by (by eexists). pose proof (tree_wf w1) as Hwf1.
  assert (plain_list (p ++ [name])) as Htm by (by apply plain_snoc).
  apply post_finally. eapply post_mono.
  { apply (install_spec (p ++ [b]) src config (p ++ [name]) w2); try done.
    - by apply temp_apart_root.
    - by eapply temp_apart_source.
    - rewrite H2. apply reaches_insert; [by eapply grown_reaches | done].
    - rewrite H2. apply reaches_insert; [by eapply grown_reaches | done].
    - rewrite H2. apply solid_insert; [by eapply grown_solid | done].
    - by rewrite H2, lookup_insert_eq.
    - intros c y. by eapply temp_below. }
  intros res w3 [Hout Hres].
  destruct res as [lay | e]; [split; [eapply run_outside | eapply run_prepared]; try done; apply only_under_refl |].
  assert (only_under (p ++ [name]) (tree_of w3) (tree_of (ignore (remove_all (abs_path (p ++ [name]))) w3))) as Hrm.
  { assert (reaches (tree_of w3) (p ++ [name])) as Hr3 by (by eapply temp_reaches).
    pose proof (remove_all_law _ w3 Hr3) as Hw. unfold writes in Hw. unfold ignore.
    destruct (remove_all (abs_path (p ++ [name])) w3) as [[[] | e'] w4]; cbn [fst snd] in *; [rewrite Hw; apply only_under_prune | apply Hw]. }
  split; [eapply run_outside | eapply run_prepared]; done.
Qed.

Section commands.
Variables (root runtimeRoot config : string) (r src : list string).
Hypotheses (Hroot : resolve root = r) (Hsource : resolve runtimeRoot = src).

(** All that is known of a run of [Prepare]. *)
Definition prepare_result (t : tree) (res : result Layout) (t' : tree) : Prop :=
  outside_kept (is_ok res) t t' r /\ prepared t r src config res t' /\
  (t !! r <> None -> ~ owned t r -> t' = t /\ is_ok res = false) /\ (is_ok res = true -> r <> [] /\ apart r src).

Lemma prepare_refused (t : tree) e : prepare_result t (Err e) t.
Proof. split_and!; [apply outside_kept_refl | by right | done | done]. Qed.

Lemma Prepare_run w : no_links (tree_of w) r -> solid (tree_of w) src ->
  (forall p b, r = p ++ [b] -> ~ temp_like b) ->
  post (Prepare root runtimeRoot config) w (fun res w' => prepare_result (tree_of w) res (tree_of w')).
Proof.
  intros Hlinks Hsrc Hb. unfold Prepare. apply post_if; intros _; [apply post_throw, prepare_refused |].
  apply post_bind, post_wrapM. eapply post_mono; [apply cleanAbsolute_spec |]. intros [a | e] w1 [E1 Ha]; cbn [wrap_err];
    [| rewrite E1; apply prepare_refused]. destruct Ha as [-> Hr]. rewrite Hroot in *. rewrite <- E1 in *. clear E1.
  apply post_bind, post_wrapM. eapply post_mono; [apply cleanAbsolute_spec |]. intros [a | e] w2 [E2 Ha]; cbn [wrap_err];
    [| rewrite E2; apply prepare_refused]. destruct Ha as [-> Hs]. rewrite Hsource in *. rewrite <- E2 in *. clear E2.
  apply post_bind, post_lift. destruct (validateSeparation _ _) as [[] | e] eqn:Hv; [| apply prepare_refused].
  apply validateSeparation_abs in Hv as [Hne Hap]; [| done | done].
  apply post_bind. eapply post_mono; [by apply Validate_spec, Hsrc |]. intros [[] | e] w3 [E3 Hex];
    [| rewrite E3; apply prepare_refused]. rewrite <- E3 in *. clear E3.
  apply post_bind. eapply post_mono; [apply requireOwnedOrAbsent_spec; [done | apply Hlinks] |]. intros [[] | e] w4 [E4 Hown];
    [| rewrite E4; apply prepare_refused]. rewrite <- E4 in *. clear E4.
  destruct r as [| b p _] eqn:Er using rev_ind; [done |].
  eapply post_mono; [apply build_spec; try done; by eapply Hb |].
  intros res w5 [Hout Hprep]. unfold prepare_result. rewrite Er. split_and!; try done.
  intros Hsome Hno. by destruct Hown.
Qed.

Lemma Down_run w : solid (tree_of w) (r ++ [markerName]) -> post (Down root) w (fun res w' =>
  match res with
  | Ok _ => (tree_of w !! r = None /\ tree_of w' = tree_of w) \/
      (r <> [] /\ owned (tree_of w) r /\ tree_of w' = prune r (tree_of w))
  | Err _ => only_under r (tree_of w) (tree_of w') /\ tree_of w' ⊆ tree_of w /\
      (r = [] \/ ~ owned (tree_of w) r -> tree_of w' = tree_of w)
  end).
Proof.
  intros Hs. unfold Down. apply post_bind, post_wrapM. eapply post_mono; [apply cleanAbsolute_spec |].
  assert (forall t : tree, only_under r t t /\ t ⊆ t /\ (r = [] \/ ~ owned t r -> t = t)) as Hrefuse by done.
  intros [a | e] w1 [E1 Ha]; cbn [wrap_err]; [| rewrite E1; by apply Hrefuse].
  destruct Ha as [-> Hr]. rewrite Hroot in *. rewrite <- E1 in *. clear E1.
  change (Clean "/") with (abs_path []). rewrite abs_path_eqb by (done || constructor).
  apply post_if; intros Hne; [by apply post_throw, Hrefuse |]. apply bool_decide_eq_false in Hne.
  apply post_attempt. assert (reaches (tree_of w1) r) as Hreach by (by apply (reaches_prefix _ _ [markerName] (proj1 Hs))).
  eapply post_reads; [by apply lstat_law |]. intros [i | e] w2 E2 Hi.
  - rewrite <- E2 in *. clear E2. apply post_bind. eapply post_mono; [by apply requireOwned_spec |].
    intros [[] | e] w3 [E3 Hown]; [| rewrite E3; by apply Hrefuse]. rewrite <- E3 in *. clear E3.
    apply post_wrapM. eapply post_writes; [by apply remove_all_law |]. intros [[] | e] w4 Hw; cbn [wrap_err]; [by right |].
    destruct Hw as [Hu Hsub]. split_and!; [done | done | tauto].
  - apply post_if; intros He; [apply post_ret; left; by split; [apply Hi |] | apply post_throw; rewrite E2; by apply Hrefuse].
Qed.

End commands.

(** ** Properties *)
(** C7. Preparing an injection root never harms what is not its own.  Whatever
    fails, everything outside the root stays as it was; what is new there is
    a directory above the root or, after a failure, the temporary one; a path
    that exists without the marker is refused and nothing at all changes; and
    a failure before the last two steps leaves the root as it was. *)
Theorem Prepare_safe root runtimeRoot config w : let r := resolve root in let src := resolve runtimeRoot in
  no_links (tree_of w) r -> solid (tree_of w) src ->
  (forall p b, r = p ++ [b] -> ~ temp_like b) ->
  let '(res, w') := Prepare root runtimeRoot config w in
  outside_kept (is_ok res) (tree_of w) (tree_of w') r /\
  (tree_of w !! r <> None -> ~ owned (tree_of w) r -> tree_of w' = tree_of w /\ is_ok res = false) /\
  (forall e, res = Err e -> late_error e \/ forall y, tree_of w' !! (r ++ y) = tree_of w !! (r ++ y)).
Proof.
  intros r src H1 H2 H3. pose proof (Prepare_run root runtimeRoot config r src eq_refl eq_refl w H1 H2 H3) as Hrun. unfold post in Hrun.
  destruct (Prepare root runtimeRoot config w) as [res w']. destruct Hrun as (Hout & Hprep & Hown & _).
  split_and!; try done. intros e ->. exact Hprep.
Qed.

(** C8. What a prepared root holds, exactly: the copy of the runtime (directories,
    files and links, permissions less the umask), the configuration, the
    overrides of the root it replaces when it had some, and the marker;
    nothing else of the old root is left. *)
Theorem Prepare_installs root runtimeRoot config w lay w' : let r := resolve root in let src := resolve runtimeRoot in
  no_links (tree_of w) r -> solid (tree_of w) src ->
  (forall p b, r = p ++ [b] -> ~ temp_like b) ->
  Prepare root runtimeRoot config w = (Ok lay, w') ->
  r <> [] /\ apart r src /\ lay = layoutFor (abs_path r) /\ forall y, tree_of w' !! (r ++ y) = installed (tree_of w) r src config y.
Proof.
  intros r src H1 H2 H3 Hp. pose proof (Prepare_run root runtimeRoot config r src eq_refl eq_refl w H1 H2 H3) as Hrun. unfold post in Hrun. rewrite Hp in Hrun.
  destruct Hrun as (_ & [-> Hinst] & _ & Hne). by destruct (Hne eq_refl).
Qed.

(** C9. Removing an injection root only ever removes an owned one: success means
    there was nothing, or the root carried the marker and exactly its subtree
    is gone; the file system root and a path without the marker are refused
    without any change; and a removal that fails half-way has touched nothing
    outside the root. *)
Theorem Down_safe root w : let r := resolve root in solid (tree_of w) (r ++ [markerName]) ->
  let '(res, w') := Down root w in
  match res with
  | Ok _ => (tree_of w !! r = None /\ tree_of w' = tree_of w) \/
      (r <> [] /\ owned (tree_of w) r /\ tree_of w' = prune r (tree_of w))
  | Err _ => only_under r (tree_of w) (tree_of w') /\ tree_of w' ⊆ tree_of w /\
      (r = [] \/ ~ owned (tree_of w) r -> tree_of w' = tree_of w)
  end.
Proof. intros r Hs. pose proof (Down_run root r eq_refl w Hs) as Hrun. unfold post in Hrun. by destruct (Down root w) as [[[] | e] w']. Qed.
End safety.

(** ** Witnesses on the disk *)
Definition host_tree : tree := list_to_map (bundle_entries ++ [
  dir_at "/srv"; dir_at "/srv/fake"; dir_at "/srv/fake/state"; file_at "/srv/fake/.fake-nvidia-injection" (rwx 6 4 4) markerContent;
  file_at "/srv/fake/old" (rwx 6 4 4) "stale"; file_at "/srv/fake/state/overrides.yaml" (rwx 6 0 0) "kept"; file_at "/srv/other" (rwx 6 4 4) "x"]).
Lemma host_wf : well_formed host_tree.
Proof. apply (bool_decide_unpack _). vm_compute. exact I. Qed.
Definition host (plan : list bool) : Disk := make_disk host_tree host_wf plan.

Example prepare_ex :
  let w' := (Prepare "/srv/fake" "/rt" "version: 1" (host [])).2 in
  map (fun path => disk_tree w' !! clean_elems path)
    ["/srv/fake/old"; "/srv/fake/state/overrides.yaml"; "/srv/fake/state/config.yaml"; "/srv/fake/runtime/bin/nvidia-smi";
     "/srv/fake/runtime/lib/libcuda.so"; "/srv/other"; "/srv/.fake-nvidia-prepare-0"] =
  [None; Some (File (rwx 6 0 0) "kept"); Some (File (rwx 6 4 4) "version: 1"); Some (File (rwx 7 5 5) "smi");
   Some (Symlink "libcuda.so.1"); Some (File (rwx 6 4 4) "x"); None].
Proof. vm_compute. reflexivity. Qed.

(** The last step can fail after the old root is gone; the cleanup then takes
    the copy of its overrides away too. *)
Lemma failed_install_loses_overrides :
  let run := Prepare "/srv/fake" "/rt" "version: 1" (host (repeat false 93 ++ [true])) in
  run.1 = Err (Wrapf "install injection root: %w" [] EIO) /\
  disk_tree (host []) !! clean_elems "/srv/fake/state/overrides.yaml" = Some (File (rwx 6 0 0) "kept") /\
  map (fun path => disk_tree run.2 !! clean_elems path) ["/srv/fake"; "/srv/.fake-nvidia-prepare-0"] = [None; None].
Proof. vm_compute. done. Qed.

Lemma host_links : no_links (disk_tree (host [])) (resolve "/srv/fake").
Proof. split; [| apply (proj1 (clear_way_solid (disk_tree (host [])) (resolve "/srv/fake" ++ overrides_rel) eq_refl))]; by apply clear_way_solid. Qed.

Lemma host_source : solid (disk_tree (host [])) (resolve "/rt").
Proof. by apply clear_way_solid. Qed.

Lemma host_name p b : resolve "/srv/fake" = p ++ [b] -> ~ temp_like b.
Proof. change (resolve "/srv/fake") with (["srv"] ++ ["fake"]). by intros [_ <-]%app_inj_tail. Qed.

Lemma host_prepares : is_ok (Prepare "/srv/fake" "/rt" "version: 1" (host [])).1 = true.
Proof. vm_compute. reflexivity. Qed.

Lemma Prepare_safe_witness :
  let '(res, w') := Prepare "/srv/fake" "/rt" "version: 1" (host []) in
  outside_kept (is_ok res) (disk_tree (host [])) (disk_tree w') (resolve "/srv/fake").
Proof.
  pose proof (Prepare_safe "/srv/fake" "/rt" "version: 1" (host []) host_links host_source host_name) as Hs.
  destruct (Prepare "/srv/fake" "/rt" "version: 1" (host [])) as [res w']. apply Hs.
Defined.

Lemma Prepare_installs_witness : exists lay w', Prepare "/srv/fake" "/rt" "version: 1" (host []) = (Ok lay, w') /\
  forall y, disk_tree w' !! (resolve "/srv/fake" ++ y) = installed (disk_tree (host [])) (resolve "/srv/fake") (resolve "/rt") "version: 1" y.
Proof.
  pose proof host_prepares as Hok.
  destruct (Prepare "/srv/fake" "/rt" "version: 1" (host [])) as [[lay | e] w'] eqn:E; [| discriminate Hok].
  exists lay, w'. split; [reflexivity |].
  apply (Prepare_installs "/srv/fake" "/rt" "version: 1" (host []) lay w' host_links host_source host_name E).
Defined.

Lemma Down_safe_witness : let '(res, w') := Down "/srv/fake" (host []) in
  match res with
  | Ok _ => disk_tree w' = prune (resolve "/srv/fake") (disk_tree (host [])) \/ disk_tree w' = disk_tree (host [])
  | Err _ => True
  end.
Proof.
  pose proof (Down_safe "/srv/fake" (host []) (proj1 host_links)) as Hs.
  destruct (Down "/srv/fake" (host [])) as [[u | e] w']; [| exact I].
  destruct Hs as [[_ Hs] | (_ & _ & Hs)]; [right; exact Hs | left; exact Hs].
Defined.
End injection_safety.
