(* ===== verification/Kubernetes.v ===== *)
(** * Kubernetes: the CDI specification and the installer's manifest
    ([internal/kubernetes])

    [GenerateCDISpec] and its validators ([cdi.go]), and [RenderManifest]
    ([manifest.go]). *)
From S2P Require Import Prelude GoStrings GoStrconv GoPath Paths GoJson.

Module kubernetes.
Import filepath paths.

Definition DefaultCDIKind : string := "fake-nvidia.com/gpu".

(** ** [cdi.go]: validation *)
Definition isASCIIAlphanumeric (c : ascii) : bool :=
  let b := byte_val c in in_range 97 b 122 || in_range 65 b 90 || in_range 48 b 57.

(** [value[i]], guarded by the length at every use. *)
Definition byte_at (value : string) (i : nat) : ascii := default (byte_of 0) (String.get i value).

Definition validCDIName (value : string) : bool :=
  let n := String.length value in
  if (slen value =? 0) || (slen value >? 63) || negb (isASCIIAlphanumeric (byte_at value 0)) ||
     negb (isASCIIAlphanumeric (byte_at value (n - 1))) then false else
  forallb (fun i => let c := byte_at value i in
    isASCIIAlphanumeric c || char_eqb c "-" || char_eqb c "_" || char_eqb c ".") (seq 1 (n - 2)).

(** A rune of a label.  The loop ranges over runes; one that is not ASCII is
    refused, and so is the first of its bytes. *)
Definition label_rune (c : ascii) : bool :=
  let r := byte_val c in in_range 97 r 122 || in_range 48 r 57 || (r =? 45).

Fixpoint label_loop (len i : Z) (label : string) : bool :=
  match label with
  | EmptyString => true
  | r ::: rest =>
      if negb (label_rune r) || (char_eqb r "-" && ((i =? 0) || (i =? len - 1))) then false
      else label_loop len (i + 1) rest
  end.

(** [validDNSLabel] of [manifest.go], and the body of the loop below. *)
Definition validDNSLabel (value : string) : bool :=
  if (slen value =? 0) || (slen value >? 63) then false else label_loop (slen value) 0 value.

Definition validDNSSubdomain (value : string) : bool :=
  if (slen value =? 0) || (slen value >? 253) then false else
  forallb (fun label =>
    if (slen label =? 0) || (slen label >? 63) then false else label_loop (slen label) 0 label) (Split value ".").

Definition validCDIKind (kind : string) : bool :=
  if String.eqb kind "" || negb (String.eqb (TrimSpace kind) kind) then false else
  match Split kind "/" with
  | [vendor; name] => validDNSSubdomain vendor && validCDIName name
  | _ => false
  end.

(** ** [cdi.go]: the specification *)
Record cdiMount := { HostPath : string; ContainerPath : string; Options : list string }.
Record deviceNode := { Path : string; n_HostPath : string; Permissions : string }.
Record containerEdits := { Env : list string; Mounts : list cdiMount; DeviceNodes : list deviceNode }.
Record cdiDevice := { Name : string; d_ContainerEdits : containerEdits }.
Record cdiSpec := { CDIVersion : string; Kind : string; ContainerEdits : containerEdits; Devices : list cdiDevice }.

(** The JSON of the structures; [omitempty] drops an empty list. *)
Definition optional_array {A} (key : string) (f : A -> json) (l : list A) : list (string * json) :=
  match l with [] => [] | _ => [(key, JArray (map f l))] end.
Definition text_json (s : string) : json := JText (json_string s).

Definition mount_json (m : cdiMount) : json :=
  JObject ([field_string "hostPath" (HostPath m); field_string "containerPath" (ContainerPath m)] ++
    optional_array "options" text_json (Options m)).
Definition node_json (n : deviceNode) : json :=
  JObject ([field_string "path" (Path n); field_string "hostPath" (n_HostPath n)] ++
    optional_string "permissions" (Permissions n)).
Definition edits_json (e : containerEdits) : json :=
  JObject (optional_array "env" text_json (Env e) ++ optional_array "mounts" mount_json (Mounts e) ++
    optional_array "deviceNodes" node_json (DeviceNodes e)).
Definition device_json (d : cdiDevice) : json :=
  JObject [field_string "name" (Name d); ("containerEdits", edits_json (d_ContainerEdits d))].
Definition spec_json (s : cdiSpec) : json :=
  JObject [field_string "cdiVersion" (CDIVersion s); field_string "kind" (Kind s);
    ("containerEdits", edits_json (ContainerEdits s)); ("devices", JArray (map device_json (Devices s)))].

Definition node_only (nodes : list deviceNode) : containerEdits := {| Env := []; Mounts := []; DeviceNodes := nodes |}.

(** The node [/dev/<name>] of a container. *)
Definition device_at (nodeRoot name : string) : deviceNode :=
  {| Path := "/dev/" +:+ name; n_HostPath := path_join [nodeRoot; "dev"; name]; Permissions := "rw" |}.

Definition mount_options : list string := ["ro"; "nosuid"; "nodev"; "bind"].
Definition common_edits (nodeRoot : string) : containerEdits := {|
  Env := ["PATH=/opt/fake-nvidia/bin:/usr/local/sbin:/usr/local/bin:/usr/sbin:/usr/bin:/sbin:/bin";
    "LD_LIBRARY_PATH=/opt/fake-nvidia/lib"; "MOCK_NVML_CONFIG=/opt/fake-nvidia/state/config.yaml";
    "MOCK_NVML_OVERRIDES=/opt/fake-nvidia/state/overrides.yaml"];
  Mounts := [
    {| HostPath := path_join [nodeRoot; "runtime"; "bin"]; ContainerPath := "/opt/fake-nvidia/bin"; Options := mount_options |};
    {| HostPath := path_join [nodeRoot; "runtime"; "lib"]; ContainerPath := "/opt/fake-nvidia/lib"; Options := mount_options |};
    {| HostPath := path_join [nodeRoot; "state"]; ContainerPath := "/opt/fake-nvidia/state"; Options := mount_options |}];
  DeviceNodes := map (device_at nodeRoot) ["nvidiactl"; "nvidia-uvm"; "nvidia-uvm-tools"] |}.

Definition gpu_node (nodeRoot : string) (i : nat) : deviceNode := device_at nodeRoot ("nvidia" +:+ Itoa (Z.of_nat i)).

Definition cdi_devices (nodeRoot : string) (deviceCount : nat) : list cdiDevice :=
  map (fun i => {| Name := Itoa (Z.of_nat i); d_ContainerEdits := node_only [gpu_node nodeRoot i] |}) (seq 0 deviceCount) ++
  [{| Name := "all"; d_ContainerEdits := node_only (map (gpu_node nodeRoot) (seq 0 deviceCount)) |}].

Definition cdi_spec (kind nodeRoot : string) (deviceCount : Z) : cdiSpec := {|
  CDIVersion := "0.6.0"; Kind := kind; ContainerEdits := common_edits nodeRoot;
  Devices := cdi_devices nodeRoot (Z.to_nat deviceCount) |}.

(** [MarshalIndent] writes what an indenting encoder does, less the newline
    that is appended here. *)
Definition GenerateCDISpec (kind nodeRoot : string) (deviceCount : Z) : result string :=
  if negb (validCDIKind kind) then Err (Errorf "invalid CDI kind %q" [AS kind]) else
  if (deviceCount <=? 0) || (deviceCount >? 8)
  then Err (Errorf "device count must be between 1 and 8, got %d" [AZ deviceCount]) else
  if negb (IsAbs nodeRoot) then Err (Errorf "node root must be absolute" []) else
  let nodeRoot := Clean nodeRoot in
  if String.eqb nodeRoot "/" then Err (Errorf "node root must not be filesystem root" []) else
  Ok (encode_indented (spec_json (cdi_spec kind nodeRoot deviceCount))).

(** ** [manifest.go] *)
Record ManifestOptions := { Namespace : string; Image : string; CDIKind : string; DeviceCount : Z; ConfigYAML : string }.

Definition indentBlock (value prefix : string) : string :=
  unlines (map (fun line => prefix +:+ line) (Split (TrimSuffix value (chr newline)) newline)).

(** The template before and after the configuration. *)
Definition manifest_head (namespace : string) : list string := [
  "apiVersion: v1"; "kind: Namespace"; "metadata:"; "  name: " +:+ namespace; "  labels:";
  "    app.kubernetes.io/part-of: fake-nvidia"; "---";
  "apiVersion: v1"; "kind: ConfigMap"; "metadata:"; "  name: fake-nvidia-config"; "  namespace: " +:+ namespace; "  labels:";
  "    app.kubernetes.io/name: fake-nvidia"; "    app.kubernetes.io/component: config"; "data:"; "  config.yaml: |"].

Definition manifest_workload (namespace image : string) : list string := [
  "---"; "apiVersion: apps/v1"; "kind: DaemonSet"; "metadata:"; "  name: fake-nvidia"; "  namespace: " +:+ namespace; "  labels:";
  "    app.kubernetes.io/name: fake-nvidia"; "    app.kubernetes.io/component: node-installer"; "spec:"; "  selector:";
  "    matchLabels:"; "      app.kubernetes.io/name: fake-nvidia"; "      app.kubernetes.io/component: node-installer";
  "  template:"; "    metadata:"; "      labels:"; "        app.kubernetes.io/name: fake-nvidia";
  "        app.kubernetes.io/component: node-installer"; "    spec:"; "      nodeSelector:";
  "        fake-nvidia.com/enabled: " +:+ quoted "true"; "      terminationGracePeriodSeconds: 15"; "      tolerations:";
  "        - operator: Exists"; "      containers:"; "        - name: installer"; "          image: " +:+ image;
  "          imagePullPolicy: IfNotPresent"; "          securityContext:"; "            privileged: true"].

Definition manifest_args (deviceCount : Z) (cdiKind : string) : list string := [
  "          args:"; "            - --host-root=/host/var/lib/fake-nvidia"; "            - --node-root=/var/lib/fake-nvidia";
  "            - --cdi-dir=/host/var/run/cdi"; "            - --config=/config/config.yaml";
  "            - --runtime=/opt/fake-nvidia/runtime"; "            - --device-count=" +:+ Itoa deviceCount;
  "            - --cdi-kind=" +:+ cdiKind].

Definition manifest_tail : list string := [
  "          env:"; "            - name: PATH";
  "              value: /opt/fake-nvidia/runtime/bin:/usr/local/sbin:/usr/local/bin:/usr/sbin:/usr/bin:/sbin:/bin";
  "            - name: LD_LIBRARY_PATH"; "              value: /opt/fake-nvidia/runtime/lib"; "            - name: MOCK_NVML_CONFIG";
  "              value: /host/var/lib/fake-nvidia/state/config.yaml"; "            - name: MOCK_NVML_OVERRIDES";
  "              value: /host/var/lib/fake-nvidia/state/overrides.yaml"; "          volumeMounts:"; "            - name: node-var-lib";
  "              mountPath: /host/var/lib"; "            - name: cdi"; "              mountPath: /host/var/run/cdi";
  "            - name: config"; "              mountPath: /config"; "              readOnly: true"; "      volumes:";
  "        - name: node-var-lib"; "          hostPath:"; "            path: /var/lib"; "            type: Directory";
  "        - name: cdi"; "          hostPath:"; "            path: /var/run/cdi"; "            type: DirectoryOrCreate";
  "        - name: config"; "          configMap:"; "            name: fake-nvidia-config"].

Definition or_default (value fallback : string) : string := if String.eqb (TrimSpace value) "" then fallback else value.

Definition RenderManifest (opts : ManifestOptions) : result string :=
  let namespace := or_default (Namespace opts) "fake-nvidia-system" in
  if String.eqb (TrimSpace (Image opts)) "" then Err (Errorf "installer image is required" []) else
  let cdiKind := or_default (CDIKind opts) DefaultCDIKind in
  if (DeviceCount opts <=? 0) || (DeviceCount opts >? 8)
  then Err (Errorf "device count must be between 1 and 8, got %d" [AZ (DeviceCount opts)]) else
  if slen (TrimSpace (ConfigYAML opts)) =? 0 then Err (Errorf "mock NVML config is required" []) else
  if negb (validDNSLabel namespace) then Err (Errorf "invalid namespace %q" [AS namespace]) else
  if negb (validCDIKind cdiKind) then Err (Errorf "invalid CDI kind %q" [AS cdiKind]) else
  let config := indentBlock (ConfigYAML opts) "    " in
  Ok (unlines (manifest_head namespace) +:+ config +:+
    unlines (manifest_workload namespace (Image opts) ++ manifest_args (DeviceCount opts) cdiKind ++ manifest_tail)).

Example cdi_kinds : map validCDIKind ["foo.bar.baz/foo-bar123.B_az"; "nvidia.com/gpu"; "gpu"; "vendor.com/"; "vendor.com/gpu/extra";
  "Vendor.com/gpu"; "vendor..com/gpu"; "vendor.com/-gpu"; "vendor.com/gpu_"; " a/b"; "a-/b"] =
  [true; true; false; false; false; false; false; false; false; false; false].
Proof. vm_compute. reflexivity. Qed.
End kubernetes.
