(* ===== verification/KubernetesSpec.v ===== *)
(** * What the Kubernetes renderers promise

    The validators against a grammar of regular expressions, and what a CDI
    specification maps into a container. *)
From S2P Require Import Prelude GoStrings GoStrconv GoPath Paths GoJson Kubernetes.

Module kubernetes_spec.
Import filepath paths kubernetes.

(** ** Regular expressions over bytes *)
Inductive re :=
  | Class (p : ascii -> bool)
  | Seq (e1 e2 : re)
  | Opt (e : re)
  | Star (e : re).

Inductive matches : re -> string -> Prop :=
  | m_Class p c : p c = true -> matches (Class p) (chr c)
  | m_Seq e1 e2 s1 s2 : matches e1 s1 -> matches e2 s2 -> matches (Seq e1 e2) (s1 +:+ s2)
  | m_Opt_none e : matches (Opt e) ""
  | m_Opt_some e s : matches e s -> matches (Opt e) s
  | m_Star_nil e : matches (Star e) ""
  | m_Star_cons e s1 s2 : matches e s1 -> matches (Star e) s2 -> matches (Star e) (s1 +:+ s2).

Definition one_of (s : string) (c : ascii) : bool := negb (free_of c s).
Definition lower_alnum : ascii -> bool := one_of "abcdefghijklmnopqrstuvwxyz0123456789".
Definition alnum : ascii -> bool := one_of "abcdefghijklmnopqrstuvwxyzABCDEFGHIJKLMNOPQRSTUVWXYZ0123456789".
Definition also (p : ascii -> bool) (s : string) (c : ascii) : bool := p c || one_of s c.

(** [edge (inner* edge)?]: RFC 1123's labels and CDI's names. *)
Definition delimited (edge inner : ascii -> bool) : re := Seq (Class edge) (Opt (Seq (Star (Class inner)) (Class edge))).
Definition dns_label : re := delimited lower_alnum (also lower_alnum "-").
Definition cdi_name : re := delimited alnum (also alnum "-_.").

(** The kinds of CDI: a DNS subdomain, a slash, a name. *)
Definition cdi_kind (kind : string) : Prop :=
  exists labels name, kind = Join labels "." +:+ "/" +:+ name /\
    labels <> [] /\ Forall (fun l => matches dns_label l /\ slen l <= 63) labels /\ slen (Join labels ".") <= 253 /\
    matches cdi_name name /\ slen name <= 63.

(** *** Lemmas *)
Lemma star_class p s : matches (Star (Class p)) s <-> sforall p s = true.
Proof.
  split.
  - remember (Star (Class p)) as e eqn:E. induction 1 as [ | | | | | e s1 s2 H1 _ _ IH2]; try done.
    injection E as ->. rewrite sforall_append, IH2, andb_true_r by done. inversion H1 as [? c Hc | | | | |]; subst. cbn. by rewrite Hc.
  - induction s as [| c s IH]; cbn; [constructor |]. intros [Hc Hs]%andb_true_iff.
    change (c ::: s) with (chr c +:+ s). constructor; [by constructor | by apply IH].
Qed.

Definition last_is (p : ascii -> bool) (s : string) : bool := match srev s with c ::: _ => p c | EmptyString => false end.
Definition first_is (p : ascii -> bool) (s : string) : bool := match s with c ::: _ => p c | EmptyString => false end.

Lemma last_is_snoc p s c : last_is p (s +:+ chr c) = p c.
Proof. unfold last_is. rewrite srev_append. done. Qed.

Lemma delimited_spec edge inner s : (forall c, edge c = true -> inner c = true) ->
  matches (delimited edge inner) s <-> first_is edge s = true /\ last_is edge s = true /\ sforall inner s = true.
Proof.
  intros Hsub. split.
  - intros H. inversion H as [| ? ? s1 s2 H1 H2 | | | |]; subst. inversion H1 as [? c Hc | | | | |]; subst.
    inversion H2 as [| | | ? ? H3 | |]; subst.
    { change (chr c +:+ "") with (chr c). cbn. rewrite Hc, (Hsub _ Hc). done. }
    inversion H3 as [| ? ? s3 s4 H4 H5 | | | |]; subst. inversion H5 as [? d Hd | | | | |]; subst. apply star_class in H4.
    split; [done |]. split; [change (chr c +:+ (s3 +:+ chr d)) with ((c ::: s3) +:+ chr d); by rewrite last_is_snoc |].
    rewrite !sforall_append. cbn. by rewrite H4, (Hsub _ Hc), (Hsub _ Hd).
  - destruct s as [| c s]; [by intros [] |]. cbn [first_is]. intros (Hc & Hl & Hs).
    change (c ::: s) with (chr c +:+ s). constructor; [by constructor |].
    destruct (string_snoc s) as [-> | (t & d & ->)]; [constructor |]. constructor.
    change (c ::: t +:+ chr d) with ((c ::: t) +:+ chr d) in Hl. rewrite last_is_snoc in Hl.
    cbn [sforall] in Hs. apply andb_true_iff in Hs as [_ Hs]. rewrite sforall_append in Hs. apply andb_true_iff in Hs as [Ht _].
    constructor; [by apply star_class | by constructor].
Qed.


Lemma lower_alnum_spec c : lower_alnum c = label_rune c && negb (char_eqb c "-").
Proof. apply eqb_prop. each_byte c. Qed.
Lemma label_rune_spec c : also lower_alnum "-" c = label_rune c.
Proof. apply eqb_prop. each_byte c. Qed.
Lemma alnum_spec c : alnum c = isASCIIAlphanumeric c.
Proof. apply eqb_prop. each_byte c. Qed.

Lemma sforall_ext p q s : (forall c, p c = q c) -> sforall p s = sforall q s.
Proof. intros H. induction s as [| c s IH]; [done |]. cbn. by rewrite H, IH. Qed.

(** The loop over a label, from any byte of it on. *)
Lemma label_loop_spec len i s : 0 <= i -> i + slen s = len ->
  label_loop len i s = sforall label_rune s && (negb (i =? 0) || match s with c ::: _ => negb (char_eqb c "-") | _ => true end) &&
    match srev s with c ::: _ => negb (char_eqb c "-") | _ => true end.
Proof.
  revert i. induction s as [| c s IH]; intros i Hi Hlen; [by destruct (i =? 0) |]. cbn [label_loop sforall slen] in *.
  rewrite IH by lia. rewrite srev_cons. destruct (label_rune c); [| done]. cbn [negb orb andb].
  assert (negb (i + 1 =? 0) = true) as -> by (apply negb_true_iff; lia). cbn [orb]. rewrite andb_true_r.
  destruct (string_snoc s) as [-> | (t & d & ->)].
  - cbn [slen] in Hlen. assert ((i =? len - 1) = true) as -> by lia. change (srev "" +:+ chr c) with (chr c).
    cbn [sforall chr andb srev srev_app]. destruct (char_eqb c "-"), (i =? 0); done.
  - rewrite srev_append. assert (0 <= slen t) as Ht by (clear; induction t; cbn [slen]; lia).
    assert (slen (t +:+ chr d) = slen t + 1) as E by (clear; induction t as [| e t IH]; [done |]; rewrite append_cons; cbn [slen]; lia).
    rewrite E in *. assert ((i =? len - 1) = false) as -> by lia. rewrite orb_false_r.
    change (srev (chr d) +:+ srev t) with (d ::: srev t). change ((d ::: srev t) +:+ chr c) with (d ::: (srev t +:+ chr c)).
    destruct (char_eqb c "-"), (i =? 0), (sforall label_rune _), (char_eqb d "-"); done.
Qed.

Lemma sforall_last p s c r : sforall p s = true -> srev s = c ::: r -> p c = true.
Proof. intros Hs E. rewrite <- srev_sforall, E in Hs. cbn in Hs. by apply andb_true_iff in Hs as [? _]. Qed.

(** Both DNS validators check a label against the grammar. *)
Lemma validDNSLabel_spec s : validDNSLabel s = true <-> matches dns_label s /\ slen s <= 63.
Proof.
  unfold validDNSLabel, dns_label. rewrite delimited_spec.
  2: { intros c Hc. unfold also. by rewrite Hc. }
  rewrite (sforall_ext _ _ s label_rune_spec). destruct s as [| c s]; [split; [done | by intros [[] _]] |].
  assert (0 <= slen s) as Hs by (clear; induction s; cbn [slen]; lia).
  change (slen (c ::: s)) with (1 + slen s). assert ((1 + slen s =? 0) = false) as -> by lia. cbn [orb].
  destruct (1 + slen s >? 63) eqn:Hl; [split; [done | intros [_ ?]; lia] |].
  rewrite label_loop_spec by (cbn [slen]; lia). cbn [first_is]. rewrite lower_alnum_spec. unfold last_is.
  destruct (srev (c ::: s)) as [| d r] eqn:Er.
  { apply (f_equal String.length) in Er. by rewrite length_srev in Er. }
  rewrite lower_alnum_spec. cbn [sforall orb negb Z.eqb].
  split.
  - rewrite !andb_true_iff. intros [[[Hc Hall] Hh] Hd]. rewrite Hc, Hall, Hh, Hd.
    assert (label_rune d = true) as -> by (apply (sforall_last label_rune (c ::: s) d r); [cbn [sforall]; by rewrite Hc, Hall | done]).
    split; [done | lia].
  - intros [(Hc & Hd & Hall) _]. apply andb_true_iff in Hc as [Hc1 Hc2]. apply andb_true_iff in Hd as [Hd1 Hd2].
    by rewrite Hall, Hc2, Hd2.
Qed.

Lemma slen_length s : slen s = Z.of_nat (String.length s).
Proof. induction s as [| c s IH]; [done |]. cbn [slen String.length]. lia. Qed.

Lemma slen_app s t : slen (s +:+ t) = slen s + slen t.
Proof. induction s as [| c s IH]; [done |]. rewrite append_cons. cbn [slen]. lia. Qed.

Lemma byte_at_app t d i : (i < String.length t)%nat -> byte_at (t +:+ d) i = byte_at t i.
Proof. revert i. induction t as [| c t IH]; intros i Hi; cbn in Hi; [lia |]. destruct i as [| i]; [done |]. apply IH. lia. Qed.

Lemma byte_at_end t d : byte_at (t +:+ chr d) (String.length t) = d.
Proof. induction t as [| c t IH]; [done |]. exact IH. Qed.

Lemma forallb_byte_at p t d : forallb (fun i => p (byte_at (t +:+ d) i)) (seq 0 (String.length t)) = sforall p t.
Proof.
  induction t as [| c t IH]; [done |]. cbn [String.length seq forallb sforall]. f_equal.
  rewrite <- IH, <- seq_shift. generalize (seq 0 (String.length t)) as l. induction l as [| i l IHl]; [done |].
  cbn [map forallb]. by rewrite IHl.
Qed.

Lemma validCDIName_spec s : validCDIName s = true <-> matches cdi_name s /\ slen s <= 63.
Proof.
  assert (forall c, also alnum "-_." c = isASCIIAlphanumeric c || char_eqb c "-" || char_eqb c "_" || char_eqb c ".") as Hin.
  { intros c. apply eqb_prop. each_byte c. }
  unfold cdi_name. rewrite delimited_spec by (intros c Hc; unfold also; by rewrite Hc). rewrite (sforall_ext _ _ s Hin).
  unfold validCDIName. cbv zeta. destruct s as [| c s]; [split; [done | by intros [[] _]] |]. cbn [first_is]. rewrite alnum_spec.
  assert (0 <= slen s) as Hs by (rewrite slen_length; lia). cbn [slen]. assert ((1 + slen s =? 0) = false) as -> by lia.
  destruct (1 + slen s >? 63) eqn:Hl; [split; [done | intros [_ ?]; lia] |]. cbn [orb].
  change (byte_at (c ::: s) 0) with c. destruct (string_snoc s) as [-> | (t & d & ->)].
  - assert (last_is alnum (c ::: "") = isASCIIAlphanumeric c) as -> by apply alnum_spec.
    change (byte_at (c ::: "") (String.length (c ::: "") - 1)) with c. destruct (isASCIIAlphanumeric c) eqn:Ec; [| by split; [| intros [[] _]]]. cbn. rewrite Ec. done.
  - assert (String.length (c ::: t +:+ chr d) = S (S (String.length t))) as ->.
    { cbn [String.length]. f_equal. apply Nat2Z.inj. rewrite Nat2Z.inj_succ, <- !slen_length, slen_app. cbn [slen chr]. lia. }
    change (c ::: t +:+ chr d) with ((c ::: t) +:+ chr d). rewrite last_is_snoc, alnum_spec.
    replace (S (S (String.length t)) - 1)%nat with (String.length (c ::: t)) by (cbn; lia). rewrite byte_at_end.
    replace (S (S (String.length t)) - 2)%nat with (String.length t) by lia.
    rewrite <- seq_shift. rewrite sforall_append. cbn [sforall].
    set (p := fun c => isASCIIAlphanumeric c || _ || _ || _).
    assert (forall l, forallb (fun i => p (byte_at ((c ::: t) +:+ chr d) i)) (map S l) = forallb (fun i => p (byte_at (t +:+ chr d) i)) l) as Hshift.
    { induction l as [| i l IHl]; [done |]. cbn [map forallb]. by rewrite IHl. }
    change (forallb _ (map S _)) with (forallb (fun i => p (byte_at ((c ::: t) +:+ chr d) i)) (map S (seq 0 (String.length t)))).
    rewrite Hshift, forallb_byte_at. subst p. cbv beta.
    destruct (isASCIIAlphanumeric c) eqn:Ec, (isASCIIAlphanumeric d) eqn:Ed; cbn [negb orb andb sforall chr];
      rewrite ?andb_true_r; try (split; [done | by intros [(? & ? & ?) _]]).
    rewrite Ed. cbn [orb]. rewrite andb_true_r. split; [intros Ht; split; [done | lia] | by intros [(_ & _ & ?) _]].
Qed.

(** No separator and no space in what the classes allow. *)
Lemma class_bytes inner edge s : (forall c, edge c = true -> inner c = true) -> matches (delimited edge inner) s -> sforall inner s = true.
Proof. intros Hsub Hm. by apply delimited_spec in Hm as (_ & _ & ?). Qed.

Definition kind_byte (c : ascii) : bool := also alnum "-_." c.

Lemma label_bytes s : matches dns_label s -> sforall (fun c => kind_byte c && negb (char_eqb c ".")) s = true.
Proof.
  intros Hm%class_bytes; [| intros c Hc; unfold also; by rewrite Hc]. eapply sforall_impl, Hm. intros c Hc.
  assert (negb (also lower_alnum "-" c) || (kind_byte c && negb (char_eqb c ".")) = true) as Ho by each_byte c.
  by rewrite Hc in Ho.
Qed.

Lemma kind_byte_plain c : kind_byte c = true -> graph c && negb (char_eqb c slash) = true.
Proof. intros Hc. assert (negb (kind_byte c) || (graph c && negb (char_eqb c slash)) = true) as Ho by each_byte c. by rewrite Hc in Ho. Qed.

Lemma sforall_Join p l sep : Forall (fun s => sforall p s = true) l -> sforall p sep = true -> sforall p (Join l sep) = true.
Proof.
  intros Hl Hsep. destruct Hl as [| x l Hx Hl]; [done |]. revert x Hx.
  induction Hl as [| y l Hy Hl IH]; intros x Hx; [done |].
  change (Join (x :: y :: l) sep) with (x +:+ sep +:+ Join (y :: l) sep). rewrite !sforall_append, Hx, Hsep. by apply IH.
Qed.

Lemma subdomain_spec v : validDNSSubdomain v = true <->
  exists labels, v = Join labels "." /\ labels <> [] /\ Forall (fun l => matches dns_label l /\ slen l <= 63) labels /\ slen v <= 253.
Proof.
  unfold validDNSSubdomain. change (forallb _ (Split v ".")) with (forallb validDNSLabel (Split v ".")). split.
  - destruct (_ || _) eqn:E; [done |]. rewrite forallb_forall. intros Hall. exists (Split v ".").
    split; [symmetry; apply Join_Split |]. split; [apply Split_nonempty |]. split; [| to_prop; lia].
    apply Forall_forall. intros l Hl. apply validDNSLabel_spec, Hall. by apply list_elem_of_In.
  - intros (labels & -> & Hne & Hl & Hlen). destruct labels as [| l0 ls] eqn:El; [done |]. rewrite <- El in *.
    assert ((slen (Join labels ".") =? 0) = false) as ->.
    { assert (0 < slen l0).
      { rewrite El in Hl. apply Forall_cons in Hl as [[Hm _] _]. apply delimited_spec in Hm as [Hf _]; [| intros c Hc; unfold also; by rewrite Hc].
        destruct l0 as [| c l0]; [done |]. rewrite slen_length. cbn. lia. }
      subst labels. destruct ls as [| l1 ls]; [change (Join [l0] ".") with l0; lia |].
      change (Join (l0 :: l1 :: ls) ".") with (l0 +:+ "." +:+ Join (l1 :: ls) "."). rewrite slen_app.
      pose proof (slen_length ("." +:+ Join (l1 :: ls) ".")). lia. }
    assert ((slen (Join labels ".") >? 253) = false) as -> by lia. cbn [orb].
    change (Join labels ".") with (Join labels (chr ".")). rewrite Split_Join; [| by subst |].
    + apply forallb_forall. intros l Hin%list_elem_of_In. rewrite Forall_forall in Hl. by apply validDNSLabel_spec, Hl.
    + eapply Forall_impl; [exact Hl |]. intros l [Hm%label_bytes _]. eapply sforall_impl; [| exact Hm]. intros c Hc. by apply andb_true_iff in Hc as [_ ?].
Qed.

Lemma validCDIKind_spec kind : validCDIKind kind = true <-> cdi_kind kind.
Proof.
  unfold validCDIKind, cdi_kind. split.
  - destruct (_ || _) eqn:E; [done |]. pose proof (Join_Split kind slash) as Ej. change (Split kind "/") with (Split kind slash).
    destruct (Split kind slash) as [| vendor [| name [|]]]; try done. intros [Hv Hn]%andb_true_iff.
    apply subdomain_spec in Hv as (labels & -> & Hne & Hl & Hlen). apply validCDIName_spec in Hn as [Hm Hn].
    exists labels, name. done.
  - intros (labels & name & -> & Hne & Hl & Hlen & Hm & Hn).
    assert (sforall kind_byte (Join labels ".") = true) as Hv.
    { apply sforall_Join; [| done]. eapply Forall_impl; [exact Hl |]. intros l [Hml%label_bytes _].
      eapply sforall_impl; [| exact Hml]. intros c Hc. by apply andb_true_iff in Hc as [? _]. }
    assert (sforall kind_byte name = true) as Hnb by (eapply class_bytes, Hm; intros c Hc; unfold kind_byte, also; by rewrite Hc).
    assert (forall s, sforall kind_byte s = true -> sforall graph s = true /\ free_of slash s = true) as Hkb.
    { intros s Hs. split; (eapply sforall_impl; [| exact Hs]; intros c Hc%kind_byte_plain; by apply andb_true_iff in Hc as [? ?]). }
    apply Hkb in Hv as [Hvg Hvf]. apply Hkb in Hnb as [Hng Hnf].
    assert (validDNSSubdomain (Join labels ".") = true) as Hsub by (apply subdomain_spec; by exists labels).
    set (vendor := Join labels ".") in *. assert (String.eqb (vendor +:+ "/" +:+ name) "" = false) as -> by (by destruct vendor).
    rewrite TrimSpace_graph, String.eqb_refl by (rewrite !sforall_append; by rewrite Hvg, Hng). cbn [negb orb].
    change ("/" +:+ name) with (slash ::: name). change "/"%char with slash.
    rewrite Split_app by done. rewrite (Split_free name) by done. rewrite Hsub. by apply validCDIName_spec.
Qed.

(** ** The CDI specification *)
(** The device nodes of a container that asks for a device. *)
Definition container_nodes (spec : cdiSpec) (d : cdiDevice) : list deviceNode :=
  DeviceNodes (ContainerEdits spec) ++ DeviceNodes (d_ContainerEdits d).

(** A node [/dev/<name>] that comes from below the root's own [dev]. *)
Definition staged_node (root : list string) (node : deviceNode) : Prop :=
  exists name, plain name = true /\ Path node = abs_path ["dev"; name] /\ n_HostPath node = abs_path (root ++ ["dev"; name]).

Lemma plain_dev name : plain name = true -> plain_list ["dev"; name].
Proof. intros Hn. constructor; [done |]. by constructor. Qed.

Lemma device_at_staged root name : plain_list root -> plain name = true -> staged_node root (device_at (abs_path root) name).
Proof.
  intros Hr Hn. exists name. split; [done |]. cbn [device_at Path n_HostPath]. split; [done |].
  apply path_join_abs; [done |]. by repeat constructor.
Qed.

Lemma gpu_name_plain i : (i < 8)%nat -> plain ("nvidia" +:+ Itoa (Z.of_nat i)) = true.
Proof. intros Hi. do 8 (destruct i as [| i]; [reflexivity |]). lia. Qed.

Lemma cdi_device_nodes root k d node : d ∈ cdi_devices root k -> node ∈ DeviceNodes (d_ContainerEdits d) ->
  exists i, (i < k)%nat /\ node = gpu_node root i.
Proof.
  intros Hd Hn. unfold cdi_devices in Hd. apply elem_of_app in Hd as [(i & -> & Hi)%list_elem_of_fmap | ->%list_elem_of_singleton]; cbn in Hn.
  - apply list_elem_of_singleton in Hn as ->. apply elem_of_seq in Hi. exists i. split; [lia | done].
  - apply list_elem_of_fmap in Hn as (i & -> & Hi%elem_of_seq). exists i. split; [lia | done].
Qed.

Lemma devices_staged root k d node : plain_list root -> (k <= 8)%nat -> d ∈ cdi_devices (abs_path root) k ->
  node ∈ DeviceNodes (d_ContainerEdits d) -> staged_node root node.
Proof.
  intros Hr Hk Hd Hn. destruct (cdi_device_nodes _ _ _ _ Hd Hn) as (i & Hi & ->).
  apply device_at_staged; [done |]. apply gpu_name_plain. lia.
Qed.

Lemma common_staged root node : plain_list root -> node ∈ DeviceNodes (common_edits (abs_path root)) -> staged_node root node.
Proof.
  intros Hr Hn. cbn [common_edits DeviceNodes] in Hn. apply list_elem_of_fmap in Hn as (name & -> & Hn).
  apply device_at_staged; [done |]. repeat (apply elem_of_cons in Hn as [-> | Hn]; [done |]). by apply not_elem_of_nil in Hn.
Qed.

(** What does not depend on the root. *)
Lemma device_paths_eq root k :
  map (fun d => map Path (DeviceNodes (d_ContainerEdits d))) (cdi_devices root k) =
  map (fun d => map Path (DeviceNodes (d_ContainerEdits d))) (cdi_devices "/" k).
Proof. unfold cdi_devices. rewrite !map_app, !map_map. cbn [map d_ContainerEdits DeviceNodes node_only]. by rewrite !map_map. Qed.

Lemma small_count n : 1 <= n <= 8 -> Z.to_nat n ∈ [1; 2; 3; 4; 5; 6; 7; 8]%nat.
Proof. intros Hn. assert (exists k, n = Z.of_nat k /\ (1 <= k <= 8)%nat) as (k & -> & Hk) by (exists (Z.to_nat n); lia).
  rewrite Nat2Z.id. apply list_elem_of_In. do 9 (destruct k as [| k]; [cbn; lia |]). lia. Qed.

Lemma paths_distinct root n d : 1 <= n <= 8 -> d ∈ cdi_devices root (Z.to_nat n) ->
  NoDup (map Path (DeviceNodes (common_edits root) ++ DeviceNodes (d_ContainerEdits d))).
Proof.
  intros Hn%small_count Hd. rewrite map_app. change (map Path (DeviceNodes (common_edits root))) with (map Path (DeviceNodes (common_edits "/"))).
  assert (Forall (fun l => NoDup (map Path (DeviceNodes (common_edits "/")) ++ l))
    (map (fun d => map Path (DeviceNodes (d_ContainerEdits d))) (cdi_devices root (Z.to_nat n)))) as Hall.
  { rewrite device_paths_eq. revert Hn. generalize (Z.to_nat n) as k. clear. intros k Hk.
    repeat (apply elem_of_cons in Hk as [-> | Hk]; [apply (bool_decide_unpack _); vm_compute; exact I |]). by apply not_elem_of_nil in Hk. }
  rewrite Forall_forall in Hall. apply Hall. apply list_elem_of_fmap. by exists d.
Qed.

Lemma names_distinct root n : 1 <= n <= 8 -> NoDup (map Name (cdi_devices root (Z.to_nat n))).
Proof.
  intros Hn%small_count. assert (map Name (cdi_devices root (Z.to_nat n)) = map Name (cdi_devices "/" (Z.to_nat n))) as ->.
  { unfold cdi_devices. by rewrite !map_app, !map_map. }
  revert Hn. generalize (Z.to_nat n) as k. clear. intros k Hk.
  repeat (apply elem_of_cons in Hk as [-> | Hk]; [apply (bool_decide_unpack _); vm_compute; exact I |]). by apply not_elem_of_nil in Hk.
Qed.

Definition cdi_accepts (kind nodeRoot : string) (n : Z) : Prop :=
  validCDIKind kind = true /\ 1 <= n <= 8 /\ IsAbs nodeRoot = true /\ clean_elems nodeRoot <> [].

Lemma GenerateCDISpec_cases kind nodeRoot n :
  match GenerateCDISpec kind nodeRoot n with
  | Ok data => cdi_accepts kind nodeRoot n /\ data = encode_indented (spec_json (cdi_spec kind (abs_path (clean_elems nodeRoot)) n))
  | Err _ => ~ cdi_accepts kind nodeRoot n
  end.
Proof.
  unfold GenerateCDISpec, cdi_accepts. destruct (validCDIKind kind); cbn [negb]; [| by intros [? _]].
  destruct (_ || _) eqn:E; [intros (_ & ? & _); to_prop; lia |]. destruct (IsAbs nodeRoot) eqn:Ea; cbn [negb]; [| by intros (_ & _ & ? & _)].
  destruct (Clean_rooted nodeRoot Ea) as [-> Hp]. change "/" with (abs_path []). rewrite abs_path_eqb by (done || constructor).
  case_bool_decide; [by intros (_ & _ & _ & ?) |]. to_prop. split; [| done]. split_and!; done || lia.
Qed.

(** *** The validator accepts the grammar, nothing else *)
(** C20. A CDI kind is accepted exactly when it is one of the grammar. *)
Theorem validCDIKind_grammar kind : validCDIKind kind = true <-> cdi_kind kind.
Proof. apply validCDIKind_spec. Qed.

(** C18. A CDI specification never lets a fake device stand for a real one.  It
    is refused unless the kind is valid, there are one to eight devices and
    the root is absolute and not the root of the file system.  Otherwise the
    document has the devices [0] to [n-1], each with its own node, and [all]
    with all of them; a container that asks for one gets only nodes
    [/dev/<name>], each once, and the host's side of every node is below the
    root, which no node [/dev/<name>] of the host is. *)
Theorem GenerateCDISpec_isolated kind nodeRoot n :
  let root := clean_elems nodeRoot in
  match GenerateCDISpec kind nodeRoot n with
  | Err _ => ~ cdi_accepts kind nodeRoot n
  | Ok data => cdi_accepts kind nodeRoot n /\ exists spec, data = encode_indented (spec_json spec) /\ Kind spec = kind /\
      NoDup (map Name (Devices spec)) /\
      (exists gpus all, Devices spec = gpus ++ [all] /\ map Name gpus = map Itoa (seqZ 0 n) /\ Name all = "all" /\
        DeviceNodes (d_ContainerEdits all) = concat (map (fun d => DeviceNodes (d_ContainerEdits d)) gpus)) /\
      forall d, d ∈ Devices spec -> NoDup (map Path (container_nodes spec d)) /\
        forall node, node ∈ container_nodes spec d -> staged_node root node /\ forall name, plain name = true -> n_HostPath node <> abs_path ["dev"; name]
  end.
Proof.
  intros root. pose proof (GenerateCDISpec_cases kind nodeRoot n) as Hc. destruct (GenerateCDISpec kind nodeRoot n) as [data | e]; [| done].
  destruct Hc as [Hacc ->]. split; [done |]. destruct Hacc as (_ & Hn & Habs & Hne). destruct (Clean_rooted nodeRoot Habs) as [_ Hp].
  exists (cdi_spec kind (abs_path root) n). split; [done |]. split; [done |]. split; [by apply names_distinct |]. split.
  - exists (map (fun i => {| Name := Itoa (Z.of_nat i); d_ContainerEdits := node_only [gpu_node (abs_path root) i] |}) (seq 0 (Z.to_nat n))).
    eexists. split; [done |]. split; [| split; [done |]].
    + rewrite map_map. unfold seqZ. change (map Itoa) with (fmap (M:=list) Itoa). change (map _ (seq 0 (Z.to_nat n))) with ((fun i => Itoa (Z.of_nat i)) <$> seq 0 (Z.to_nat n)). rewrite <- list_fmap_compose. apply list_fmap_ext. intros i x _. cbn. f_equal. lia.
    + cbn. rewrite map_map. cbn. generalize (seq 0 (Z.to_nat n)) as l. induction l as [| i l IH]; [done |]. cbn. by rewrite <- IH.
  - intros d Hd. split; [by apply (paths_distinct _ n) |]. intros node Hnode.
    assert (staged_node root node) as Hs.
    { apply elem_of_app in Hnode as [Hnode | Hnode]; [by apply common_staged |]. eapply devices_staged; [done | | exact Hd | done]. lia. }
    split; [done |]. destruct Hs as (nm & Hnm & _ & ->). intros name Hname E.
    apply abs_path_inj in E; [| apply Forall_app; split; [done | by apply plain_dev] | by apply plain_dev].
    apply (f_equal length) in E. rewrite length_app in E. subst root. destruct (clean_elems nodeRoot); [done | cbn in E; lia].
Qed.
End kubernetes_spec.
