(* ===== verification/ManifestSpec.v ===== *)
(** * What a reader of the manifest finds

    The configuration is embedded as a literal block: a reader of YAML gets
    back exactly the text that was rendered.  The arguments are those the
    installer is started with. *)
From Stdlib Require Import SpecFloat.
From S2P Require Import Prelude GoStrings GoStrconv GoPath Paths GoJson GoFloat GoQuote Catalog Config Render Kubernetes KubernetesSpec.

Module manifest_spec.
Import paths kubernetes kubernetes_spec.

(** ** Reading YAML: literal blocks with clipped ends

    For texts without carriage returns.  The block's lines are indented as
    the first of them that is not blank, and more than the key; it ends
    before the first line that is indented less. *)
Fixpoint leading_spaces (s : string) : nat :=
  match s with c ::: r => if char_eqb c " " then S (leading_spaces r) else O | EmptyString => O end.
Definition blank (s : string) : bool := sforall (fun c => char_eqb c " ") s.

Fixpoint block_indent (lines : list string) : option nat :=
  match lines with [] => None | l :: rest => if blank l then block_indent rest else Some (leading_spaces l) end.

Fixpoint block_lines (n : nat) (lines : list string) : list string :=
  match lines with
  | [] => []
  | l :: rest => if negb (blank l) && (leading_spaces l <? n)%nat then [] else drop_bytes n l :: block_lines n rest
  end.

(** The lines after the first that is the header. *)
Fixpoint after (header : string) (lines : list string) : option (list string) :=
  match lines with [] => None | l :: rest => if String.eqb l header then Some rest else after header rest end.

Fixpoint drop_empty (l : list string) : list string :=
  match l with [] => [] | x :: r => if String.eqb x "" then drop_empty r else l end.
Definition clip (l : list string) : list string := rev (drop_empty (rev l)).

Definition literal_block (header text : string) : option string :=
  body ← after header (Split text newline);
  match block_indent body with
  | Some n => if (n <=? leading_spaces header)%nat then Some "" else Some (unlines (clip (block_lines n body)))
  | None => Some ""
  end.

Example literal_block_ex : literal_block " a: |" (unlines [" a: |"; "   x"; ""; "     y"; " "; " b: z"]) = Some (unlines ["x"; ""; "  y"]).
Proof. reflexivity. Qed.

(** The items of the list under a key, up to the next line that is no item. *)
Fixpoint items_of (bullet : string) (lines : list string) : list string :=
  match lines with [] => [] | l :: rest => if HasPrefix l bullet then TrimPrefix l bullet :: items_of bullet rest else [] end.
Fixpoint after_all (path lines : list string) : option (list string) :=
  match path with [] => Some lines | header :: path => rest ← after header lines; after_all path rest end.
Definition list_under (path : list string) (bullet text : string) : option (list string) :=
  items_of bullet <$> after_all path (Split text newline).

(** ** A text that can be embedded *)
(** Lines, of which the first starts at the margin and the last is not empty. *)
Definition block_text (text : string) : Prop :=
  exists first middle last, text = unlines (first :: middle ++ [last]) /\ first_graph first = true /\ last <> "" /\
    Forall (fun l => free_of newline l = true) (first :: middle ++ [last]).

(** *** Lemmas *)
Lemma unlines_app l1 l2 : unlines (l1 ++ l2) = unlines l1 +:+ unlines l2.
Proof. induction l1 as [| x l1 IH]; [done |]. cbn [app unlines]. rewrite IH, append_assoc. done. Qed.

Lemma unlines_Join l : l <> [] -> unlines l = Join l (chr newline) +:+ chr newline.
Proof.
  destruct l as [| x l]; [done |]. intros _. revert x. induction l as [| y l IH]; intros x; [done |].
  change (Join (x :: y :: l) (chr newline)) with (x +:+ chr newline +:+ Join (y :: l) (chr newline)).
  change (unlines (x :: y :: l)) with (x +:+ (newline ::: unlines (y :: l))). rewrite IH, !append_assoc. done.
Qed.

Lemma indentBlock_lines l prefix : l <> [] -> Forall (fun s => free_of newline s = true) l ->
  indentBlock (unlines l) prefix = unlines (map (fun line => prefix +:+ line) l).
Proof. intros Hne Hl. unfold indentBlock. rewrite (unlines_Join l) by done. rewrite TrimSuffix_app. by rewrite Split_Join by done. Qed.

Lemma leading_spaces_add n s : leading_spaces (spaces n +:+ s) = (n + leading_spaces s)%nat.
Proof. induction n as [| n IH]; [done |]. exact (f_equal S IH). Qed.

Lemma blank_spaces n s : blank (spaces n +:+ s) = blank s.
Proof. unfold blank. rewrite sforall_append. replace (sforall _ (spaces n)) with true; [done |]. by induction n. Qed.

Lemma block_lines_indented n lines rest :
  (match rest with l :: _ => negb (blank l) && (leading_spaces l <? n)%nat = true | [] => True end) ->
  block_lines n (map (fun line => spaces n +:+ line) lines ++ rest) = lines.
Proof.
  intros Hr. induction lines as [| l lines IH]; cbn [map app block_lines].
  - destruct rest as [| r rest]; [done |]. cbn [block_lines]. by rewrite Hr.
  - rewrite leading_spaces_add. assert ((n + leading_spaces l <? n)%nat = false) as -> by (apply Nat.ltb_ge; lia).
    rewrite andb_false_r, IH. f_equal. assert (String.length (spaces n) = n) as Hn by (clear; induction n as [| n IHn]; [done | exact (f_equal S IHn)]).
    rewrite <- Hn at 1. apply drop_bytes_app.
Qed.

Lemma first_graph_nonblank s : first_graph s = true -> blank s = false /\ leading_spaces s = O.
Proof.
  destruct s as [| c s]; [done |]. cbn. intros Hc. assert (char_eqb c " " = false) as ->; [| done].
  apply char_eqb_neq. intros ->. by vm_compute in Hc.
Qed.

Lemma clip_last l x : x <> "" -> clip (l ++ [x]) = l ++ [x].
Proof.
  intros Hx. unfold clip. rewrite rev_app_distr. cbn [rev app drop_empty]. rewrite (proj2 (String.eqb_neq _ _)) by done.
  change (x :: rev l) with ([x] ++ rev l). by rewrite rev_app_distr, rev_involutive.
Qed.

Lemma after_app header l1 l2 : Forall (fun l => l <> header) l1 -> after header (l1 ++ header :: l2) = Some l2.
Proof.
  induction 1 as [| x l Hx _ IH]; cbn [app after].
  - by rewrite String.eqb_refl.
  - by rewrite (proj2 (String.eqb_neq _ _)).
Qed.

(** A block is read back. *)
Lemma read_block header lead text rest n : (leading_spaces header < n)%nat -> block_text text ->
  Forall (fun l => l <> header /\ free_of newline l = true) lead -> free_of newline header = true ->
  Forall (fun l => free_of newline l = true) rest ->
  (match rest with l :: _ => negb (blank l) && (leading_spaces l <? n)%nat = true | [] => False end) ->
  literal_block header (unlines lead +:+ unlines [header] +:+ indentBlock text (spaces n) +:+ unlines rest) = Some text.
Proof.
  intros Hn (x & mid & y & -> & Hx & Hy & Hf) Hlead Hh Hrest Hend. set (lines := x :: mid ++ [y]) in *.
  rewrite indentBlock_lines by done. rewrite <- !unlines_app. unfold literal_block. rewrite Split_unlines.
  2: { apply Forall_app. split; [eapply Forall_impl; [exact Hlead |]; by intros l [_ ?] |]. constructor; [done |].
       apply Forall_app. split; [| done]. apply Forall_map. eapply Forall_impl; [exact Hf |]. intros l Hl.
       rewrite free_of_append, Hl, andb_true_r. clear. by induction n. }
  change ([header] ++ ?z) with (header :: z). rewrite <- !app_assoc. cbn [app]. rewrite after_app.
  2: { eapply Forall_impl; [exact Hlead |]. by intros l [? _]. }
  cbn [mbind option_bind]. rewrite <- app_assoc.
  set (body := map _ lines ++ _). destruct (first_graph_nonblank x Hx) as [Hb Hl].
  assert (block_indent body = Some n) as ->.
  { subst body lines. cbn [map app block_indent]. rewrite blank_spaces, Hb, leading_spaces_add, Hl. by rewrite Nat.add_0_r. }
  rewrite (proj2 (Nat.leb_gt _ _)) by done. subst body. rewrite block_lines_indented by (destruct rest; [done | exact Hend]).
  subst lines. change (x :: mid ++ [y]) with ((x :: mid) ++ [y]). by rewrite clip_last.
Qed.

(** ** Rendered lines have no newline *)
Lemma shortest_line m e : one_line (shortest m e).1.
Proof.
  unfold shortest. destruct (ratio _ _ _) as [num den], (shortest_from _ _ _ _ _ _) as [d s], (strip_zeros _ _ _) as [d' s'].
  apply FormatUint_line.
Qed.
Lemma FormatFloat_line v : one_line (FormatFloat v).
Proof.
  unfold FormatFloat. destruct v as [[] | [] | | s m e]; try done.
  pose proof (shortest_line m e) as Hs. destruct (shortest m e) as [text dp]. cbn [fst] in Hs. cbv zeta.
  apply one_line_app; [by destruct s |]. unfold fmtE, fmtF; cbv zeta; one_line.
Qed.
#[local] Hint Resolve FormatFloat_line : one_line.

Lemma kv_one_line key v : one_line key -> one_line v -> one_line (render.kv key v).
Proof. unfold render.kv. auto with one_line. Qed.
#[local] Hint Resolve kv_one_line : one_line.

(** Everything the renderer writes is one line per line. *)
Lemma lines_app P (l1 l2 : list string) : Forall P l1 -> Forall P l2 -> Forall P (l1 ++ l2).
Proof. intros. by apply Forall_app. Qed.
Lemma lines_if P (b : bool) (l1 l2 : list string) : Forall P l1 -> Forall P l2 -> Forall P (if b then l1 else l2).
Proof. by destruct b. Qed.
(** ... and inside the devices no line is empty. *)
Definition written (s : string) : Prop := s <> "" /\ one_line s.
Ltac lines := repeat match goal with
  | |- Forall _ (_ ++ _) => apply lines_app
  | |- Forall _ (if _ then _ else _) => apply lines_if
  | |- Forall _ (_ :: _) => constructor
  | |- Forall _ [] => constructor
  | |- written _ => split; [discriminate |]
  end; one_line.

Lemma concat_lines {A} P (f : A -> list string) l : (forall a, Forall P (f a)) -> Forall P (concat (map f l)).
Proof. intros Hf. induction l as [| a l IH]; [constructor |]. by apply lines_app. Qed.

Lemma renderProcess_lines is_print p : Forall written (render.renderProcess is_print p).
Proof. unfold render.renderProcess. lines. Qed.
Lemma renderFailure_lines is_print f : Forall written (render.renderFailure is_print f).
Proof. unfold render.renderFailure. lines. Qed.
Lemma renderDevice_lines is_print d : Forall written (render.renderDevice is_print d).
Proof.
  unfold render.renderDevice. lines.
  - destruct (config.d_Processes d) as [| p l]; [constructor |]. constructor; [done |].
    apply (concat_lines _ _ (p :: l)). apply renderProcess_lines.
  - destruct (config.d_Failure d); [apply renderFailure_lines | constructor].
Qed.

Lemma devices_lines is_print ds : Forall written (concat (map (render.renderDevice is_print) ds)).
Proof. apply concat_lines, renderDevice_lines. Qed.

Lemma renderLines_lines is_print cfg : Forall one_line (render.renderLines is_print cfg).
Proof.
  unfold render.renderLines, render.renderSystem. lines. eapply Forall_impl; [apply devices_lines |]. by intros x [_ ?].
Qed.

(** What the renderer writes can be embedded in a block. *)
Lemma RenderYAML_block is_print cfg text : render.RenderYAML is_print cfg = Ok text -> block_text text.
Proof.
  unfold render.RenderYAML. destruct (String.eqb _ _); [done |].
  destruct (config.mc_Devices cfg) as [| d0 ds] eqn:Ed; [done |]. destruct (_ >? _); [done |].
  intros H. assert (text = unlines (render.renderLines is_print cfg)) as -> by congruence. clear H.
  pose proof (renderLines_lines is_print cfg) as Hall. unfold render.renderLines in *. rewrite Ed in *.
  pose proof (devices_lines is_print (d0 :: ds)) as Hdev.
  destruct (concat (map (render.renderDevice is_print) (d0 :: ds))) as [| y l _] eqn:El using rev_ind.
  { cbn in El. by unfold render.renderDevice in El. }
  apply Forall_app in Hdev as [_ [Hy _]%Forall_cons]. destruct Hy as [Hy _].
  exists (render.kv "version" (Quote is_print (config.mc_Version cfg))), ("" :: render.renderSystem is_print cfg ++ [""; "device_defaults: {}"; ""; "devices:"] ++ l), y.
  assert ([render.kv "version" (Quote is_print (config.mc_Version cfg)); ""] ++ render.renderSystem is_print cfg ++
    [""; "device_defaults: {}"; ""; "devices:"] ++ l ++ [y] =
    render.kv "version" (Quote is_print (config.mc_Version cfg)) ::
    ("" :: render.renderSystem is_print cfg ++ [""; "device_defaults: {}"; ""; "devices:"] ++ l) ++ [y]) as E.
  { cbn [app]. by rewrite <- !app_assoc. }
  rewrite E in Hall. rewrite E. done.
Qed.

(** ** The manifest *)
Definition config_key : string := "  config.yaml: |".
Definition args_path : list string := ["kind: DaemonSet"; "          args:"].
Definition bullet : string := "            - ".

(** The command line of the installer. *)
Definition installer_args (deviceCount : Z) (cdiKind : string) : list string := [
  "--host-root=/host/var/lib/fake-nvidia"; "--node-root=/var/lib/fake-nvidia"; "--cdi-dir=/host/var/run/cdi";
  "--config=/config/config.yaml"; "--runtime=/opt/fake-nvidia/runtime"; "--device-count=" +:+ Itoa deviceCount;
  "--cdi-kind=" +:+ cdiKind].

Lemma label_line s : validDNSLabel s = true -> one_line s /\ free_of ":" s = true.
Proof.
  intros [Hm%label_bytes _]%validDNSLabel_spec. split; (eapply sforall_impl; [| exact Hm]; intros c Hc;
    apply andb_true_iff in Hc as [Hc _]; destruct (char_eqb c _) eqn:E; [| done]; apply char_eqb_eq in E as ->; by vm_compute in Hc).
Qed.

Lemma kind_line s : validCDIKind s = true -> one_line s.
Proof.
  intros (labels & name & -> & _ & Hl & _ & Hm & _)%validCDIKind_spec.
  assert (forall t, sforall kind_byte t = true -> one_line t) as Hkb.
  { intros t Ht. eapply sforall_impl; [| exact Ht]. intros c Hc%kind_byte_plain. apply andb_true_iff in Hc as [Hc _].
    apply negb_true_iff, char_eqb_neq. intros ->. by vm_compute in Hc. }
  one_line.
  - apply Hkb, sforall_Join; [| done]. eapply Forall_impl; [exact Hl |]. intros l [Hb%label_bytes _].
    eapply sforall_impl; [| exact Hb]. intros c Hc. by apply andb_true_iff in Hc as [? _].
  - apply Hkb. eapply class_bytes, Hm. intros c Hc. unfold kind_byte, also. by rewrite Hc.
Qed.

Lemma head_lines namespace : one_line namespace -> Forall one_line (manifest_head namespace).
Proof. intros. unfold manifest_head. lines. Qed.
Lemma workload_lines namespace image : one_line namespace -> one_line image -> Forall one_line (manifest_workload namespace image).
Proof. intros. unfold manifest_workload. lines. Qed.
Lemma args_lines count kind : one_line kind -> Forall one_line (manifest_args count kind).
Proof. intros. unfold manifest_args. lines. Qed.
Lemma tail_lines : Forall one_line manifest_tail.
Proof. unfold manifest_tail. lines. Qed.

(** The lines of a manifest. *)
Definition manifest_rest (namespace image kind : string) (count : Z) : list string :=
  manifest_workload namespace image ++ manifest_args count kind ++ manifest_tail.

Section manifest.
Variables (namespace image kind text : string) (count : Z).
Hypotheses (Hns : one_line namespace) (Himage : one_line image) (Hkind : one_line kind) (Htext : block_text text).
Let manifest : string := unlines (manifest_head namespace) +:+ indentBlock text "    " +:+ unlines (manifest_rest namespace image kind count).

Lemma rest_lines : Forall one_line (manifest_rest namespace image kind count).
Proof. apply lines_app; [by apply workload_lines | apply lines_app; [by apply args_lines | apply tail_lines]]. Qed.

Lemma manifest_config : literal_block config_key manifest = Some text.
Proof.
  unfold manifest. assert (manifest_head namespace = removelast (manifest_head namespace) ++ [config_key]) as E by done.
  rewrite E, unlines_app, append_assoc. change "    " with (spaces 4).
  pose proof (head_lines _ Hns) as Hh. rewrite E in Hh. apply Forall_app in Hh as [Hh _].
  apply read_block; try done; [cbn; lia | | apply rest_lines].
  apply Forall_and. split; [| exact Hh]. unfold manifest_head. repeat constructor; discriminate.
Qed.

Lemma manifest_command : list_under args_path bullet manifest = Some (installer_args count kind).
Proof.
  destruct Htext as (x & mid & y & -> & _ & _ & Hf). unfold manifest, list_under. rewrite indentBlock_lines by done.
  rewrite <- !unlines_app. rewrite Split_unlines.
  2: { apply lines_app; [by apply head_lines | apply lines_app; [| apply rest_lines]]. apply Forall_map. eapply Forall_impl; [exact Hf |].
       intros l Hl. change (one_line ("    " +:+ l)). by apply one_line_app. }
  set (body := map _ _). unfold manifest_rest, args_path. cbn [after_all].
  assert (manifest_workload namespace image = ["---"; "apiVersion: apps/v1"] ++ "kind: DaemonSet" :: drop 3 (manifest_workload namespace image)) as -> by done.
  rewrite <- !app_assoc. cbn [app]. rewrite (app_assoc (manifest_head namespace)).
  change (?l ++ "---" :: "apiVersion: apps/v1" :: ?r) with (l ++ ["---"; "apiVersion: apps/v1"] ++ r). rewrite app_assoc.
  rewrite after_app.
  2: { apply lines_app; [apply lines_app |]; [unfold manifest_head; repeat constructor; discriminate | | by repeat constructor].
       apply Forall_map, Forall_forall. intros l _. discriminate. }
  cbn [mbind option_bind]. unfold manifest_args. cbn [app]. rewrite after_app by (unfold manifest_workload; repeat constructor; discriminate).
  cbn [mbind option_bind fmap option_fmap option_map]. reflexivity.
Qed.
End manifest.

Lemma RenderManifest_ok opts m : RenderManifest opts = Ok m ->
  let namespace := or_default (Namespace opts) "fake-nvidia-system" in
  let kind := or_default (CDIKind opts) DefaultCDIKind in
  validDNSLabel namespace = true /\ validCDIKind kind = true /\ 1 <= DeviceCount opts <= 8 /\
  m = unlines (manifest_head namespace) +:+ indentBlock (ConfigYAML opts) "    " +:+
    unlines (manifest_rest namespace (Image opts) kind (DeviceCount opts)).
Proof.
  unfold RenderManifest, manifest_rest. intros H. cbv zeta in *. destruct (String.eqb (TrimSpace (Image opts)) ""); [done |].
  destruct ((DeviceCount opts <=? 0) || _) eqn:Ec; [done |]. destruct (_ =? 0); [done |].
  destruct (validDNSLabel _) eqn:El; [| done]. destruct (validCDIKind _) eqn:Ek; [| done]. cbn [negb] in H.
  split_and!; [done | done | to_prop; lia.. | congruence].
Qed.

(** A manifest is read back: the configuration, and the installer's command line. *)
Lemma RenderManifest_reads opts m : RenderManifest opts = Ok m -> block_text (ConfigYAML opts) -> one_line (Image opts) ->
  let kind := or_default (CDIKind opts) DefaultCDIKind in
  literal_block config_key m = Some (ConfigYAML opts) /\
  list_under args_path bullet m = Some (installer_args (DeviceCount opts) kind) /\
  validCDIKind kind = true /\ 1 <= DeviceCount opts <= 8.
Proof.
  intros (Hns & Hkind & Hc & ->)%RenderManifest_ok Htext Himage. cbv zeta. apply label_line in Hns as [Hns _].
  pose proof (kind_line _ Hkind) as Hk. split; [by apply manifest_config | split; [by apply manifest_command | done]].
Qed.
End manifest_spec.
