(* ===== verification/Installer.v ===== *)
(** * The node installer: [cmd/fake-nvidia-k8s-installer/main.go]

    It prepares the host's injection root, stages the device nodes, publishes
    the CDI specification, waits for a signal and removes it all.  What
    happens on the node until the signal is a parameter, and so is what the
    message on standard output does to the world. *)
From S2P Require Import Prelude GoStrings GoStrconv GoPath Paths GoFlag GoFiles FilesLogic Injection Kubernetes.

Module installer.
Import filepath paths files injection kubernetes.

(** [uint32] shifts wrap; the minor number has eight bits. *)
Definition makeDevice (major minor : Z) : Z := Z.lor (Z.land (Z.shiftl major 8) (2 ^ 32 - 1)) (Z.land minor 0xff).

Record DeviceNumber := { name : string; major : Z; minor : Z }.

Definition device_numbers (count : nat) : list DeviceNumber :=
  [{| name := "nvidiactl"; major := 195; minor := 255 |};
   {| name := "nvidia-uvm"; major := 511; minor := 0 |};
   {| name := "nvidia-uvm-tools"; major := 511; minor := 1 |}] ++
  map (fun i => {| name := "nvidia" +:+ Itoa (Z.of_nat i); major := 195; minor := Z.of_nat i |}) (seq 0 count).

Definition installer_flags : FlagSet := [
  ("host-root", KString); ("node-root", KString); ("cdi-dir", KString); ("config", KString); ("runtime", KString);
  ("device-count", KInt); ("cdi-kind", KString)].

Section installer.
Context {W : Type} `{Files W}.

(** ** Device nodes *)
Fixpoint make_nodes (root : string) (nodes : list DeviceNumber) : M W unit :=
  match nodes with
  | [] => mret tt
  | node :: rest =>
      let path := path_join [root; name node] in
      attempt (mknod path (rwx 6 6 6) (makeDevice (major node) (minor node))) (fun r =>
        match r with
        | Err e =>
            if errors_Is e ErrExist then make_nodes root rest
            else throw (Wrapf "create fake device node %s: %w" [AS path] e)
        | Ok _ => make_nodes root rest
        end)
  end.

Definition createDeviceNodes (root : string) (count : Z) : M W unit :=
  if (count <=? 0) || (count >? 8) then throw (Errorf "device count must be between 1 and 8, got %d" [AZ count]) else
  _ ← wrapM (Wrapf "create device directory: %w" []) (mkdir_all root (rwx 7 5 5));
  make_nodes root (device_numbers (Z.to_nat count)).

(** ** The CDI specification *)
(** From the temporary file on. *)
Definition replace_file (path content tmpName : string) (mode : Z) : M W unit :=
  attempt (file_chmod tmpName mode) (fun r =>
    match r with
    | Err e => fun w => (Err e, ignore (file_close tmpName) w)
    | Ok _ =>
        attempt (file_write tmpName content) (fun r =>
          match r with
          | Err e => fun w => (Err e, ignore (file_close tmpName) w)
          | Ok _ =>
              _ ← file_close tmpName;
              wrapM (Wrapf "install CDI spec: %w" []) (rename tmpName path)
          end)
    end).

(** Nothing, or what is to be installed anyway, is in the way. *)
Definition inspect_spec (path content : string) : M W unit :=
  attempt (read_file path) (fun r =>
    match r with
    | Ok current =>
        if negb (String.eqb current content) then throw (Errorf "refusing to replace unowned CDI spec %s" [AS path]) else mret tt
    | Err e => if negb (errors_Is e ErrNotExist) then throw (Wrapf "inspect CDI spec: %w" [] e) else mret tt
    end).

Definition installOwnedFile (path content : string) (mode : Z) : M W unit :=
  _ ← wrapM (Wrapf "create CDI directory: %w" []) (mkdir_all (filepath.Dir path) (rwx 7 5 5));
  _ ← inspect_spec path content;
  tmpName ← create_temp (filepath.Dir path) ".fake-nvidia-cdi-";
  finally (replace_file path content tmpName mode) (fun _ => ignore (remove tmpName)).

Definition removeOwnedFile (path content : string) : M W unit :=
  attempt (read_file path) (fun r =>
    match r with
    | Err e => if errors_Is e ErrNotExist then mret tt else throw e
    | Ok current =>
        if negb (String.eqb current content) then throw (Errorf "refusing to remove changed CDI spec %s" [AS path]) else remove path
    end).

(** ** [run] *)
Context (printf : string -> W -> W) (until_signal : W -> W).

(** From the installed specification to its removal. *)
Definition serve (hostRoot specPath spec : string) (deviceCount : Z) (cdiKind : string) : M W unit :=
  fun w =>
    let w := printf ("installed " +:+ Itoa deviceCount +:+ " fake NVIDIA device(s); CDI kind " +:+ cdiKind +:+ chr newline) w in
    let w := until_signal w in
    (_ ← removeOwnedFile specPath spec; Down hostRoot) w.

(** From the prepared injection root to the installed specification: its path
    and its content. *)
Definition stage (layout : Layout) (nodeRoot cdiDir cdiKind : string) (deviceCount : Z) : M W (string * string) :=
  _ ← createDeviceNodes (path_join [Root layout; "dev"]) deviceCount;
  spec ← lift (GenerateCDISpec cdiKind nodeRoot deviceCount);
  let specPath := path_join [cdiDir; "fake-nvidia.json"] in
  _ ← installOwnedFile specPath spec (rwx 6 4 4);
  mret (specPath, spec).

(** Everything after the injection root is prepared. *)
Definition publish (layout : Layout) (hostRoot nodeRoot cdiDir cdiKind : string) (deviceCount : Z) : M W unit :=
  '(specPath, spec) ← stage layout nodeRoot cdiDir cdiKind deviceCount;
  finally (serve hostRoot specPath spec deviceCount cdiKind) (fun _ => ignore (removeOwnedFile specPath spec)).

Definition run (args : list string) : M W unit :=
  p ← lift (Parse installer_flags args);
  let hostRoot := flag_string p "host-root" "/host/var/lib/fake-nvidia" in
  let nodeRoot := flag_string p "node-root" "/var/lib/fake-nvidia" in
  let cdiDir := flag_string p "cdi-dir" "/host/var/run/cdi" in
  let configPath := flag_string p "config" "/config/config.yaml" in
  let runtimeRoot := flag_string p "runtime" "/opt/fake-nvidia/runtime" in
  let deviceCount := flag_num p "device-count" 1 in
  let cdiKind := flag_string p "cdi-kind" DefaultCDIKind in
  match flag_args p with
  | _ :: _ => throw (Errorf "unexpected arguments: %v" (map AS (flag_args p)))
  | [] =>
      configYAML ← wrapM (Wrapf "read config: %w" []) (read_file configPath);
      layout ← Prepare hostRoot runtimeRoot configYAML;
      finally (publish layout hostRoot nodeRoot cdiDir cdiKind deviceCount)
        (fun r w => match r with Ok _ => w | Err _ => ignore (Down hostRoot) w end)
  end.
End installer.
End installer.
