(* ===== verification/InstallerSpec.v ===== *)
(** * What the installer does to the node

    Every device node that the CDI specification names is staged; the
    specification is never written over, or removed from under, somebody
    else's; and after a signal everything is gone again. *)
From S2P Require Import Prelude GoStrings GoStrconv GoPath Paths GoJson GoFlag GoFiles FilesLogic Disk Injection InjectionSafety Kubernetes KubernetesSpec Installer.

Module installer_spec.
Import filepath paths files fileslogic injection injection_safety kubernetes kubernetes_spec installer.

Definition spec_name : string := "fake-nvidia.json".

(** The flags. *)
Definition host_root (p : Parsed) : string := flag_string p "host-root" "/host/var/lib/fake-nvidia".
Definition node_root (p : Parsed) : string := flag_string p "node-root" "/var/lib/fake-nvidia".
Definition cdi_dir (p : Parsed) : string := flag_string p "cdi-dir" "/host/var/run/cdi".
Definition config_path (p : Parsed) : string := flag_string p "config" "/config/config.yaml".
Definition runtime_root (p : Parsed) : string := flag_string p "runtime" "/opt/fake-nvidia/runtime".
Definition device_count (p : Parsed) : Z := flag_num p "device-count" 1.
Definition cdi_kind_flag (p : Parsed) : string := flag_string p "cdi-kind" DefaultCDIKind.

(** The nodes of a list of numbers in the directory [dev]. *)
Fixpoint add_nodes (perm : Z) (dev : list string) (nodes : list DeviceNumber) (t : tree) : tree :=
  match nodes with
  | [] => t
  | n :: rest => add_nodes perm dev rest (<[dev ++ [name n] := Device perm (makeDevice (major n) (minor n))]> t)
  end.

Lemma add_nodes_other (perm : Z) (dev : list string) (nodes : list DeviceNumber) (t : tree) (q : list string) : (forall n, n ∈ nodes -> q <> dev ++ [name n]) ->
  add_nodes perm dev nodes t !! q = t !! q.
Proof.
  revert t. induction nodes as [| n nodes IH]; intros t Hq; [done |]. cbn [add_nodes]. rewrite IH.
  - apply lookup_insert_ne. intros E. symmetry in E. revert E. apply Hq. apply elem_of_cons. by left.
  - intros m Hm. apply Hq. apply elem_of_cons. by right.
Qed.

Lemma add_nodes_at (perm : Z) (dev : list string) (nodes : list DeviceNumber) (t : tree) (n : DeviceNumber) : NoDup (map name nodes) -> n ∈ nodes ->
  add_nodes perm dev nodes t !! (dev ++ [name n]) = Some (Device perm (makeDevice (major n) (minor n))).
Proof.
  revert t. induction nodes as [| m nodes IH]; intros t Hnd Hn; [by apply elem_of_nil in Hn |]. cbn [map add_nodes] in *.
  apply NoDup_cons in Hnd as [Hm Hnd]. apply elem_of_cons in Hn as [-> | Hn]; [| by apply IH].
  rewrite add_nodes_other; [apply lookup_insert_eq |]. intros k Hk E. apply app_inv_head in E. injection E as E. apply Hm.
  rewrite E. change (map name nodes) with (name <$> nodes). by apply list_elem_of_fmap_2.
Qed.

Lemma not_below (l y : list string) (x : string) : l <> l ++ x :: y.
Proof. intros E. apply (f_equal length) in E. rewrite length_app in E. cbn in E. lia. Qed.

Section spec.
Context {W : Type} `{LawfulFiles W}.
Implicit Types (w : W) (l c r dev : list string).

(** ** Device nodes *)
Lemma make_nodes_spec dev nodes w : is_dir (tree_of w) dev -> NoDup (map name nodes) ->
  Forall (fun n => plain (name n) = true /\ tree_of w !! (dev ++ [name n]) = None) nodes ->
  post (make_nodes (abs_path dev) nodes) w (fun res w' =>
    match res with
    | Ok _ => tree_of w' = add_nodes (Z.ldiff (rwx 6 6 6) umask) dev nodes (tree_of w)
    | Err _ => only_under dev (tree_of w) (tree_of w')
    end).
Proof.
  revert w. induction nodes as [| n nodes IH]; intros w [p Hdir] Hnd Hall; [by apply post_ret |].
  cbn [make_nodes map] in *. apply NoDup_cons in Hnd as [Hn Hnd]. apply Forall_cons in Hall as [[Hplain Hfresh] Hall].
  assert (plain_list dev) as Hdev by (by destruct (well_formed_at _ _ _ (tree_wf w) Hdir)).
  cbv zeta. rewrite path_join_abs by (done || by repeat constructor). apply post_attempt. eapply post_writes.
  { apply mknod_law. eapply dir_reaches; [apply tree_wf | exact Hdir | done]. }
  intros [[] | e] w1 H1.
  - destruct H1 as [_ E1]. eapply post_mono; [apply IH; [| done |] |].
    + exists p. rewrite E1, lookup_insert_ne; [done |]. intros E. by apply (not_prefix_snoc dev (name n)); rewrite E.
    + rewrite Forall_forall in Hall |- *. intros m Hm. destruct (Hall m Hm) as [? Hf]. split; [done |].
      rewrite E1, lookup_insert_ne; [done |]. intros E. apply app_inv_head in E. injection E as E. apply Hn. rewrite E.
      change (map name nodes) with (name <$> nodes). by apply list_elem_of_fmap_2.
    + intros [[] | e] w2 H2; [by rewrite H2, E1 |]. eapply only_under_trans; [| exact H2]. rewrite E1.
      apply (only_under_weaken _ [name n]), only_under_insert.
  - destruct H1 as [E1 Hex]. apply post_if; intros He; [by destruct Hex |]. apply post_throw. rewrite E1. apply only_under_refl.
Qed.

Lemma device_names_distinct count : 1 <= count <= 8 -> NoDup (map name (device_numbers (Z.to_nat count))).
Proof.
  intros Hn%small_count. revert Hn. generalize (Z.to_nat count) as k. intros k Hk.
  repeat (apply elem_of_cons in Hk as [-> | Hk]; [apply (bool_decide_unpack _); vm_compute; exact I |]). by apply not_elem_of_nil in Hk.
Qed.

Lemma device_name_plain count n : 1 <= count <= 8 -> n ∈ device_numbers (Z.to_nat count) -> plain (name n) = true.
Proof.
  intros Hc Hn. unfold device_numbers in Hn. apply elem_of_app in Hn as [Hn | Hn].
  - repeat (apply elem_of_cons in Hn as [-> | Hn]; [done |]). by apply not_elem_of_nil in Hn.
  - apply list_elem_of_fmap in Hn as (i & -> & Hi%elem_of_seq). apply gpu_name_plain. lia.
Qed.

(** Staging in a fresh directory of the root. *)
Lemma createDeviceNodes_spec r count w : is_dir (tree_of w) r -> (forall y, tree_of w !! (r ++ "dev" :: y) = None) ->
  post (createDeviceNodes (path_join [abs_path r; "dev"]) count) w (fun res w' =>
    match res with
    | Ok _ => 1 <= count <= 8 /\ tree_of w' = add_nodes (Z.ldiff (rwx 6 6 6) umask) (r ++ ["dev"]) (device_numbers (Z.to_nat count))
        (<[r ++ ["dev"] := files.Dir (Z.ldiff (rwx 7 5 5) umask)]> (tree_of w))
    | Err _ => only_under (r ++ ["dev"]) (tree_of w) (tree_of w')
    end).
Proof.
  intros [p Hr] Hnew. destruct (well_formed_at _ _ _ (tree_wf w) Hr) as [Hplain _].
  rewrite path_join_abs by (done || by repeat constructor). unfold createDeviceNodes.
  apply post_if; intros Hc; [apply post_throw, only_under_refl |]. assert (1 <= count <= 8) as Hcount by (to_prop; lia).
  apply post_bind, post_wrapM. eapply post_mono; [apply mkdir_new_spec; [by exists p | done | apply Hnew] |].
  intros [[] | e] w1 H1; cbn [wrap_err]; [| exact H1].
  assert (forall y, tree_of w1 !! ((r ++ ["dev"]) ++ [y]) = None) as Hfresh.
  { intros y. rewrite H1, lookup_insert_ne, <- app_assoc; [apply Hnew |]. intros E. by apply (not_prefix_snoc (r ++ ["dev"]) y); rewrite <- E. }
  eapply post_mono; [apply make_nodes_spec |].
  - rewrite H1. eexists. apply lookup_insert_eq.
  - by apply device_names_distinct.
  - apply Forall_forall. intros n Hn. split; [by eapply device_name_plain | apply Hfresh].
  - intros [[] | e] w2 H2; [split; [done |]; by rewrite H2, H1 |]. eapply only_under_trans; [| exact H2]. rewrite H1. apply only_under_insert.
Qed.

(** ** The CDI specification *)
Definition cdi_temp (name : string) : Prop := HasPrefix name ".fake-nvidia-cdi-" = true.

(** What the installation of a file at [l] in the directory [c] may have
    added when it failed: directories, and its temporary file. *)
Definition additions c (t t' : tree) : Prop :=
  t ⊆ t' /\ forall q n, t' !! q = Some n -> t !! q = None ->
    (q `prefix_of` c /\ n = files.Dir (Z.ldiff (rwx 7 5 5) umask)) \/ (exists name, q = c ++ [name] /\ cdi_temp name).

Lemma grown_additions c (t t' : tree) : grown c (Z.ldiff (rwx 7 5 5) umask) t t' -> additions c t t'.
Proof. intros [Hs Hn]. split; [done |]. intros q n E1 E2. left. by apply Hn. Qed.

(** Only a fresh entry of the directory may differ. *)
Lemma additions_temp c (name : string) (t t1 t2 : tree) : additions c t t1 -> t1 !! (c ++ [name]) = None -> cdi_temp name ->
  (forall q, q <> c ++ [name] -> t2 !! q = t1 !! q) -> additions c t t2.
Proof.
  intros [Hs Hn] Hnone Hname Hsame. split.
  - apply map_subseteq_spec. intros q n E. assert (t1 !! q = Some n) as E1 by (by eapply lookup_weaken).
    rewrite Hsame; [done |]. intros ->. by rewrite Hnone in E1.
  - intros q n E2 E. destruct (decide (q = c ++ [name])) as [-> | Hne]; [right; by exists name |].
    apply Hn; [by rewrite <- Hsame | done].
Qed.

Lemma replace_file_spec c (f name content : string) (mode : Z) w : is_dir (tree_of w) c -> plain f = true -> plain name = true -> f <> name ->
  (exists p, tree_of w !! (c ++ [name]) = Some (File p "")) -> (forall y, y <> [] -> tree_of w !! (c ++ f :: y) = None) ->
  post (replace_file (abs_path (c ++ [f])) content (abs_path (c ++ [name])) mode) w (fun res w' =>
    match res with
    | Ok _ => tree_of w' = <[c ++ [f] := File mode content]> (delete (c ++ [name]) (tree_of w))
    | Err _ => exists p s, tree_of w' = <[c ++ [name] := File p s]> (tree_of w)
    end).
Proof.
  intros [pd Hd] Hf Hplain Hne [p Htmp] Hbelow. pose proof (dir_reaches _ _ _ _ (tree_wf w) Hd Hplain) as Hr.
  unfold replace_file. apply post_attempt. eapply post_writes; [by eapply file_chmod_law |]. intros [[] | e] w1 E1.
  2: { exists p, "". cbn. unfold ignore. by rewrite file_close_law, E1, insert_id. }
  apply post_attempt. eapply post_writes; [eapply file_write_law; rewrite E1; [by apply reaches_insert | apply lookup_insert_eq] |].
  intros [[] | e] w2 E2.
  2: { destruct E2 as [s E2]. exists mode, s. cbn. unfold ignore. by rewrite file_close_law, E2, E1, insert_insert_eq. }
  rewrite E1, insert_insert_eq in E2. apply post_bind. eapply post_tree; [apply file_close_law |].
  intros [[] | e] w3 E3; [| exists mode, content; by rewrite E3]. apply post_wrapM. rewrite E2 in E3. eapply post_writes.
  { apply rename_law; rewrite ?E3.
    - by apply reaches_insert.
    - apply reaches_insert; [| done]. eapply dir_reaches; [apply tree_wf | exact Hd | done].
    - intros Hp%prefix_sibling. by apply Hne.
    - intros Hp%prefix_sibling. by apply Hne. }
  intros [[] | e] w4 H4; cbn [wrap_err]; [| exists mode, content; by rewrite H4].
  destruct H4 as (Hmoved & Hgone & Hsame).
  assert (forall y, y <> [] -> tree_of w3 !! ((c ++ [name]) ++ y) = None) as Hfile.
  { intros y Hy. eapply not_dir_below; [apply tree_wf | rewrite E3; apply lookup_insert_eq | done | done]. }
  apply map_eq. intros q. destruct (decide ((c ++ [f]) `prefix_of` q)) as [[y ->] | Hq].
  - rewrite Hmoved. destruct y as [| x y]; [by rewrite !app_nil_r, E3, !lookup_insert_eq |].
    rewrite Hfile by done. rewrite lookup_insert_ne by apply not_below. rewrite lookup_delete_ne.
    + rewrite <- app_assoc. symmetry. by apply Hbelow.
    + intros E. rewrite <- app_assoc in E. apply app_inv_head in E. by injection E as ->.
  - rewrite lookup_insert_ne by (intros <-; by apply Hq). destruct (decide ((c ++ [name]) `prefix_of` q)) as [[y ->] | Hq2].
    + rewrite Hgone. destruct y as [| x y]; [by rewrite app_nil_r, lookup_delete_eq |]. rewrite lookup_delete_ne.
      * specialize (Hfile (x :: y)). rewrite E3, lookup_insert_ne in Hfile by apply not_below. by rewrite Hfile by done.
      * apply not_below.
    + rewrite lookup_delete_ne by (intros <-; by apply Hq2). rewrite Hsame by done. rewrite E3, lookup_insert_ne; [done |]. intros <-. by apply Hq2.
Qed.

Lemma inspect_spec_spec l (content : string) w : solid (tree_of w) l ->
  post (inspect_spec (abs_path l) content) w (fun res w' => tree_of w' = tree_of w /\
    match res with Ok _ => tree_of w !! l = None \/ may_read (tree_of w) l content | Err _ => True end).
Proof.
  intros Hs. unfold inspect_spec. apply post_attempt. eapply post_reads; [by apply read_file_law |]. intros [s | e] w1 E1 Hr.
  - apply post_if; intros Hc; [by apply post_throw |]. apply negb_false_iff, String.eqb_eq in Hc as ->. apply post_ret. split; [done | by right].
  - apply post_if; intros Hc; [by apply post_throw |]. apply negb_false_iff in Hc. apply post_ret. split; [done | left; by apply Hr].
Qed.

Lemma remove_entry c (name : string) w : is_dir (tree_of w) c -> plain name = true ->
  let w' := ignore (remove (abs_path (c ++ [name]))) w in
  tree_of w' = tree_of w \/ tree_of w' = delete (c ++ [name]) (tree_of w).
Proof.
  intros [p Hd] Hn. cbv zeta. pose proof (remove_law (c ++ [name]) w) as Hr. unfold writes in Hr. unfold ignore.
  destruct (remove _ w) as [[[] | e] w1]; cbn [fst snd] in *; [right | left]; apply Hr; eapply dir_reaches; eauto using tree_wf.
Qed.

(** From the temporary file on. *)
Lemma replace_new_spec c (f content : string) (mode : Z) w (t0 : tree) :
  is_dir (tree_of w) c -> plain f = true -> ~ cdi_temp f -> additions c t0 (tree_of w) ->
  (forall y, y <> [] -> tree_of w !! (c ++ f :: y) = None) ->
  post (create_temp (abs_path c) ".fake-nvidia-cdi-" ≫= fun tmp =>
      finally (replace_file (abs_path (c ++ [f])) content tmp mode) (fun _ => ignore (remove tmp))) w (fun res w' =>
    match res with
    | Ok _ => tree_of w' = <[c ++ [f] := File mode content]> (tree_of w)
    | Err _ => additions c t0 (tree_of w')
    end).
Proof.
  intros Hd Hf Hnt Hadd Hbelow. pose proof (tree_wf w) as Hwf. apply post_bind. eapply post_writes.
  { apply create_temp_law. destruct Hd as [p Hd]. by eapply dir_solid. }
  intros [path | e] w2 H2; [| by rewrite H2]. destruct H2 as (name & -> & Hname & Htemp & Hnone & H2).
  assert (f <> name) as Hne by by intros ->. assert (c <> c ++ [name]) as Hc by apply not_below.
  assert (is_dir (tree_of w2) c) as Hd2 by (destruct Hd as [p Hd]; exists p; by rewrite H2, lookup_insert_ne).
  apply post_finally. eapply post_mono.
  { apply replace_file_spec; try done; [rewrite H2; eexists; apply lookup_insert_eq |]. intros y Hy.
    rewrite H2, lookup_insert_ne; [by apply Hbelow |]. intros E. apply app_inv_head in E. by injection E as ->. }
  intros [[] | e] w3 H3.
  - rewrite H2, delete_insert_id in H3 by done. assert (is_dir (tree_of w3) c) as Hd3.
    { destruct Hd as [p Hd]. exists p. rewrite H3, lookup_insert_ne; [done |]. apply not_eq_sym, not_below. }
    destruct (remove_entry c name w3 Hd3 Hname) as [-> | ->]; [done |]. rewrite H3. apply delete_id.
    rewrite lookup_insert_ne; [done |]. intros E. apply app_inj_tail in E as [_ E]. by apply Hne.
  - destruct H3 as (p & s & H3). rewrite H2, insert_insert_eq in H3. assert (is_dir (tree_of w3) c) as Hd3.
    { destruct Hd as [p' Hd]. exists p'. by rewrite H3, lookup_insert_ne. }
    eapply additions_temp; [exact Hadd | exact Hnone | exact Htemp |]. intros q Hq.
    destruct (remove_entry c name w3 Hd3 Hname) as [-> | ->]; rewrite ?lookup_delete_ne by done; by rewrite H3, lookup_insert_ne.
Qed.

Lemma installOwnedFile_spec c (f content : string) (mode : Z) w : plain_list (c ++ [f]) -> ~ cdi_temp f -> solid (tree_of w) (c ++ [f]) ->
  post (installOwnedFile (abs_path (c ++ [f])) content mode) w (fun res w' =>
    match res with
    | Ok _ => (tree_of w !! (c ++ [f]) = None \/ may_read (tree_of w) (c ++ [f]) content) /\
        exists t1, grown c (Z.ldiff (rwx 7 5 5) umask) (tree_of w) t1 /\ tree_of w' = <[c ++ [f] := File mode content]> t1
    | Err _ => additions c (tree_of w) (tree_of w')
    end).
Proof.
  intros [Hc Hf]%plain_snoc Hnt Hs. unfold installOwnedFile. rewrite Dir_abs by done. apply post_bind, post_wrapM.
  assert (additions c (tree_of w) (tree_of w)) as Hrefl by (split; [done |]; intros q n E1 E2; by rewrite E1 in E2).
  eapply post_writes; [apply mkdir_all_law; apply (reaches_prefix _ _ [f]); [apply Hs | done] |].
  intros [[] | e] w1 [Hg Hd]; cbn [wrap_err]; [| by apply grown_additions].
  apply post_bind. eapply post_mono; [apply inspect_spec_spec; by eapply grown_solid |].
  intros [[] | e] w2 [E2 Hin]; [| rewrite E2; by apply grown_additions]. rewrite <- E2 in *. clear E2.
  assert (tree_of w2 !! (c ++ [f]) = tree_of w !! (c ++ [f])) as Hsame by (eapply grown_same; [exact Hg | apply not_prefix_snoc]).
  eapply post_mono; [apply (replace_new_spec c f content mode w2 (tree_of w)); [done | done | done | by apply grown_additions |] |].
  - intros y Hy. change (c ++ f :: y) with (c ++ [f] ++ y). rewrite app_assoc. destruct Hin as [Hin | Hin].
    + apply absent_below; [apply tree_wf | done].
    + unfold may_read in Hin. destruct (tree_of w2 !! (c ++ [f])) as [n |] eqn:En; [| done].
      eapply not_dir_below; [apply tree_wf | exact En | by destruct n | done].
  - intros [[] | e] w3 H3; [| done]. split; [| by exists (tree_of w2)]. unfold may_read in *. by rewrite Hsame in Hin.
Qed.

Lemma removeOwnedFile_spec l (content : string) w : solid (tree_of w) l ->
  post (removeOwnedFile (abs_path l) content) w (fun res w' =>
    match res with
    | Ok _ => (tree_of w !! l = None \/ may_read (tree_of w) l content) /\ tree_of w' = delete l (tree_of w)
    | Err _ => tree_of w' = tree_of w
    end).
Proof.
  intros Hs. unfold removeOwnedFile. apply post_attempt. eapply post_reads; [by apply read_file_law |]. intros [s | e] w1 E1 Hr.
  - apply post_if; intros Hc; [by apply post_throw |]. apply negb_false_iff, String.eqb_eq in Hc as ->. rewrite <- E1 in *.
    eapply post_writes; [apply remove_law, Hs |]. intros [[] | e] w2 H2; [split; [by right | done] | done].
  - apply post_if; intros Hc; [| by apply post_throw]. apply post_ret. apply Hr in Hc as Hn. split; [by left |].
    rewrite E1. symmetry. by apply delete_id.
Qed.

(** ** Staging *)
Lemma solid_outside (t t' : tree) k l : solid t l -> only_under k t t' -> ~ k `prefix_of` l -> solid t' l.
Proof. intros [Hr Hl] Hu Hk. split; [by eapply reaches_outside |]. intros target. by rewrite Hu. Qed.

(** The tree with the nodes of [count] devices below the root. *)
Definition staged_tree r (count : Z) (t : tree) : tree :=
  add_nodes (Z.ldiff (rwx 6 6 6) umask) (r ++ ["dev"]) (device_numbers (Z.to_nat count))
    (<[r ++ ["dev"] := files.Dir (Z.ldiff (rwx 7 5 5) umask)]> t).

Lemma staged_only_under r (count : Z) (t : tree) : only_under (r ++ ["dev"]) t (staged_tree r count t).
Proof.
  intros q Hq. unfold staged_tree. rewrite add_nodes_other, lookup_insert_ne; [done | by intros <-; apply Hq |].
  intros n _ ->. apply Hq. auto.
Qed.

Section stage.
Variables (r c : list string) (layout : Layout) (nodeRoot kind : string) (count : Z).
Let l := c ++ [spec_name].
Hypotheses (Hlayout : Root layout = abs_path r) (Hcdi : plain_list c) (Hap : ~ r `prefix_of` l).

Lemma stage_spec w : is_dir (tree_of w) r -> (forall y, tree_of w !! (r ++ "dev" :: y) = None) -> solid (tree_of w) l ->
  post (stage layout nodeRoot (abs_path c) kind count) w (fun res w' =>
    match res with
    | Ok (path, spec) => path = abs_path l /\ GenerateCDISpec kind nodeRoot count = Ok spec /\
        (tree_of w !! l = None \/ may_read (tree_of w) l spec) /\
        exists t1, grown c (Z.ldiff (rwx 7 5 5) umask) (staged_tree r count (tree_of w)) t1 /\
          tree_of w' = <[l := File (rwx 6 4 4) spec]> t1
    | Err _ => forall q n, tree_of w !! q = Some n -> ~ (r ++ ["dev"]) `prefix_of` q -> tree_of w' !! q = Some n
    end).
Proof.
  intros Hd Hnew Hs. unfold stage. rewrite Hlayout. apply post_bind. eapply post_mono; [by apply createDeviceNodes_spec |].
  assert (~ (r ++ ["dev"]) `prefix_of` l) as Hap2 by (intros Hp; apply Hap; by eapply prefix_app_l).
  intros [[] | e] w1 H1; [| intros q n Hq Hn; by rewrite H1]. destruct H1 as [Hcount H1]. fold (staged_tree r count (tree_of w)) in H1.
  pose proof (staged_only_under r count (tree_of w)) as Hu. rewrite <- H1 in *.
  apply post_bind, post_lift. destruct (GenerateCDISpec kind nodeRoot count) as [spec | e] eqn:Eg; [| intros q n Hq Hn; by rewrite Hu].
  cbv zeta. rewrite path_join_abs by (done || by repeat constructor). change ["fake-nvidia.json"] with [spec_name]. fold l.
  apply post_bind. eapply post_mono.
  { apply installOwnedFile_spec; [by apply plain_snoc | by vm_compute | by eapply solid_outside]. }
  intros [[] | e] w2 H2.
  - apply post_ret. split; [done |]. split; [done |]. destruct H2 as [Hin (t1 & Hg & H2)]. split; [| by exists t1].
    unfold may_read in *. by rewrite <- (Hu l).
  - intros q n Hq Hn. destruct H2 as [Hsub _]. eapply lookup_weaken; [| exact Hsub]. by rewrite Hu.
Qed.

(** The deferred removal, whatever happened before. *)
Lemma removal_spec path spec w : solid (tree_of w) l -> path = abs_path l ->
  let t' := tree_of (ignore (removeOwnedFile path spec) w) in
  (t' = tree_of w \/ (t' = delete l (tree_of w) /\ (tree_of w !! l = None \/ may_read (tree_of w) l spec))).
Proof.
  intros Hs ->. cbv zeta. pose proof (removeOwnedFile_spec l spec w Hs) as Hr. unfold post in Hr. unfold ignore.
  destruct (removeOwnedFile _ _ w) as [[[] | e] w1]; cbn [fst snd] in *; [right | by left]. by destruct Hr.
Qed.
End stage.

(** A prepared root: nothing on the way to the specification becomes a link. *)
Lemma outside_kept_solid r l (t t' : tree) : outside_kept true t t' r -> ~ r `prefix_of` l -> solid t l -> solid t' l.
Proof.
  intros [Hkept Hnew] Hl [[Hp Hway] Hend].
  assert (forall q target, q `prefix_of` l -> t' !! q = Some (Symlink target) -> t !! q = Some (Symlink target)) as Hq.
  { intros q target Hpre E. assert (~ r `prefix_of` q) as Hr by (intros Hr; apply Hl; by etrans).
    destruct (t !! q) as [n |] eqn:En; [by rewrite <- E, (Hkept q n) |].
    destruct (Hnew q _ En E Hr) as [[_ ?] | [? _]]; done. }
  split; [split; [done |]; intros q target Hpre Hne E; by eapply Hway, Hq | intros target E; by eapply Hend, Hq].
Qed.

Lemma entry_solid w l n : tree_of w !! l = Some n -> (forall target, n <> Symlink target) -> solid (tree_of w) l.
Proof. intros Hl Hn. split; [eapply entry_reaches; [apply tree_wf | exact Hl] |]. intros target. rewrite Hl. intros [= E]. by apply (Hn target). Qed.

Lemma container_node_number kind root count d node : 1 <= count <= 8 ->
  d ∈ Devices (cdi_spec kind root count) -> node ∈ container_nodes (cdi_spec kind root count) d ->
  exists num, num ∈ device_numbers (Z.to_nat count) /\ node = device_at root (name num).
Proof.
  intros Hc Hd Hn. apply elem_of_app in Hn as [Hn | Hn].
  - cbn [ContainerEdits cdi_spec common_edits DeviceNodes] in Hn. apply list_elem_of_fmap in Hn as (nm & -> & Hn).
    assert (nm ∈ map name (take 3 (device_numbers (Z.to_nat count)))) as Hin by done.
    change (map name) with (fmap (M:=list) name) in Hin. apply list_elem_of_fmap in Hin as (num & -> & Hin).
    exists num. split; [| done]. unfold device_numbers. apply elem_of_app. by left.
  - cbn [Devices cdi_spec] in Hd. destruct (cdi_device_nodes _ _ _ _ Hd Hn) as (i & Hi & ->).
    exists {| name := "nvidia" +:+ Itoa (Z.of_nat i); major := 195; minor := Z.of_nat i |}. split; [| done].
    unfold device_numbers. apply elem_of_app. right. apply list_elem_of_fmap. exists i. split; [done |]. apply elem_of_seq. lia.
Qed.

(** What [Prepare] leaves for the next steps. *)
Lemma prepared_root hostRoot runtimeRoot config w : let r := resolve hostRoot in
  no_links (tree_of w) r -> solid (tree_of w) (resolve runtimeRoot) -> (forall p b, r = p ++ [b] -> ~ temp_like b) ->
  post (Prepare hostRoot runtimeRoot config) w (fun res w' =>
    outside_kept (is_ok res) (tree_of w) (tree_of w') r /\
    match res with
    | Ok lay => Root lay = abs_path r /\ is_dir (tree_of w') r /\ (forall y, tree_of w' !! (r ++ "dev" :: y) = None) /\
        (exists p, tree_of w' !! (r ++ ["state"; "config.yaml"]) = Some (File p config)) /\
        (exists p s, tree_of w' !! (r ++ [markerName]) = Some (File p s))
    | Err _ => True
    end).
Proof.
  intros r H1 H2 H3. eapply post_mono; [by eapply Prepare_run |]. intros res w' (Hout & Hprep & _ & _). split; [done |].
  destruct res as [lay | e]; [| done]. destruct Hprep as [-> Hin]. split; [done |].
  split; [| split; [| split]]; [eexists; pose proof (Hin []) as E; rewrite app_nil_r in E; exact E | | |].
  - intros y. rewrite Hin. unfold installed. by rewrite !decide_False by done.
  - eexists. rewrite Hin. unfold installed. rewrite decide_False by done. rewrite decide_False by done. by rewrite decide_True.
  - do 2 eexists. rewrite Hin. unfold installed. by rewrite decide_True.
Qed.

(** ** [run] *)
Section run.
Context (printf : string -> W -> W) (until_signal : W -> W).
Variables (args c lc : list string) (p : Parsed).
Let hostRoot := host_root p.
Let nodeRoot := node_root p.
Let runtimeRoot := runtime_root p.
Let kind := cdi_kind_flag p.
Let count := device_count p.
Let r := resolve hostRoot.
Let l := c ++ [spec_name].
Hypotheses (Hparse : Parse installer_flags args = Ok p).
Hypotheses (Hcdi : cdi_dir p = abs_path c) (Hc : plain_list c) (Hconf : config_path p = abs_path lc).
Hypotheses (Hap : ~ r `prefix_of` l) (Hbase : forall q b, r = q ++ [b] -> ~ temp_like b).
Hypotheses (Hprint : forall text w, tree_of (printf text w) = tree_of w).

(** The deferred removal of the root when the rest fails. *)
Lemma cleanup_outside w : solid (tree_of w) (r ++ [markerName]) -> only_under r (tree_of w) (tree_of (ignore (Down hostRoot) w)).
Proof.
  intros Hs. pose proof (Down_run hostRoot r eq_refl w Hs) as Hd. unfold post in Hd. unfold ignore.
  destruct (Down hostRoot w) as [[[] | e] w']; cbn [fst snd] in *; [| by destruct Hd].
  destruct Hd as [[_ ->] | (_ & _ & ->)]; [apply only_under_refl | apply only_under_prune].
Qed.

(** A run, from the tree it starts on: what it does before [publish]. *)
Lemma run_prepares w (Q : result unit -> W -> Prop) :
  solid (tree_of w) lc -> no_links (tree_of w) r -> solid (tree_of w) (resolve runtimeRoot) -> solid (tree_of w) l ->
  (forall e w', outside_kept false (tree_of w) (tree_of w') r -> Q (Err e) w') ->
  (forall lay w1, outside_kept true (tree_of w) (tree_of w1) r -> Root lay = abs_path r -> is_dir (tree_of w1) r ->
    (forall y, tree_of w1 !! (r ++ "dev" :: y) = None) -> (exists q s, tree_of w1 !! (r ++ [markerName]) = Some (File q s)) ->
    solid (tree_of w1) l ->
    post (publish printf until_signal lay hostRoot nodeRoot (abs_path c) kind count) w1
      (fun res w' => Q res (match res with Ok _ => w' | Err _ => ignore (Down hostRoot) w' end))) ->
  post (run printf until_signal args) w Q.
Proof.
  intros Hlc Hlinks Hsrc Hl Hfail Hrest. unfold run. apply post_bind, post_lift. rewrite Hparse. cbv zeta.
  destruct (flag_args p) as [| a rest]; [| apply post_throw, Hfail, outside_kept_refl].
  change (flag_string p "config" _) with (config_path p). change (flag_string p "cdi-dir" _) with (cdi_dir p).
  rewrite Hconf, Hcdi. apply post_bind, post_wrapM. eapply post_reads; [by apply read_file_law |]. intros [config | e] w1 E1 _; cbn [wrap_err].
  2: { apply Hfail. rewrite E1. apply outside_kept_refl. }
  rewrite <- E1 in *. apply post_bind. eapply post_mono; [by apply prepared_root |]. intros [lay | e] w2 [Hout Hp]; [| by apply Hfail].
  destruct Hp as (Hlay & Hd & Hdev & _ & Hmark). apply post_finally. apply Hrest; try done. by eapply outside_kept_solid.
Qed.

Lemma foreign_kept w perm content data : GenerateCDISpec kind nodeRoot count = Ok data -> tree_of w !! l = Some (File perm content) ->
  content <> data -> solid (tree_of w) lc -> no_links (tree_of w) r -> solid (tree_of w) (resolve runtimeRoot) ->
  post (run printf until_signal args) w (fun res w' => is_ok res = false /\ tree_of w' !! l = Some (File perm content)).
Proof.
  intros Hgen Hl Hne Hlc Hlinks Hsrc. apply run_prepares; try done; [by eapply entry_solid | |].
  - intros e w' [Hkept _]. split; [done | by apply Hkept].
  - intros lay w1 [Hkept _] Hlay Hd Hdev (q & s & Hmark) Hs1. apply post_bind. eapply post_mono; [by apply (stage_spec r c) |].
    pose proof (Hkept _ _ Hl Hap) as Hl1. intros [[path spec] | e] w2 H2.
    + destruct H2 as (_ & Hgen' & Hin & _). rewrite Hgen in Hgen'. injection Hgen' as <-. exfalso.
      unfold may_read in Hin. change (c ++ [spec_name]) with l in Hin. rewrite Hl1 in Hin. by destruct Hin.
    + split; [done |]. rewrite cleanup_outside; [| | done].
      * apply H2; [done |]. intros Hp. apply Hap. by eapply prefix_app_l.
      * eapply entry_solid; [apply H2; [exact Hmark |] | done]. by intros ?%prefix_sibling.
Qed.

(** What the signal finds ([t]) and what is left ([t']). *)
Definition withdrawn (spec : string) (t t' : tree) : Prop :=
  (t !! l = None \/ may_read t l spec) /\ (t !! r = None \/ (r <> [] /\ owned t r)) /\ t' = prune r (delete l t).

(** Nothing that was free of links gets one while the installer waits. *)
Definition keeps_ways : Prop := forall w l, solid (tree_of w) l -> solid (tree_of (until_signal w)) l.

Lemma owned_delete (spec : string) (t : tree) : may_read (delete l t) (r ++ [markerName]) spec -> may_read t (r ++ [markerName]) spec.
Proof. unfold may_read. rewrite lookup_delete_ne; [done |]. intros E. apply Hap. rewrite E. auto. Qed.

Lemma serve_withdraws (spec : string) w : keeps_ways -> solid (tree_of w) l -> solid (tree_of w) (r ++ [markerName]) ->
  post (serve printf until_signal hostRoot (abs_path l) spec count kind) w (fun res w' =>
    match res with Ok _ => exists w2, tree_of w2 = tree_of w /\ withdrawn spec (tree_of (until_signal w2)) (tree_of w') /\ solid (tree_of w') l | Err _ => True end).
Proof.
  intros Hkeep Hl Hm. set (w2 := printf ("installed " +:+ Itoa count +:+ " fake NVIDIA device(s); CDI kind " +:+ kind +:+ chr newline) w).
  assert (tree_of w2 = tree_of w) as E2 by apply Hprint. set (w3 := until_signal w2).
  assert (solid (tree_of w3) l) as Hl3 by (apply Hkeep; by rewrite E2).
  assert (solid (tree_of w3) (r ++ [markerName])) as Hm3 by (apply Hkeep; by rewrite E2).
  change (post (removeOwnedFile (abs_path l) spec ≫= fun _ => Down hostRoot) w3 (fun res w' =>
    match res with Ok _ => exists w2, tree_of w2 = tree_of w /\ withdrawn spec (tree_of (until_signal w2)) (tree_of w') /\ solid (tree_of w') l | Err _ => True end)).
  apply post_bind. eapply post_mono; [by apply removeOwnedFile_spec |]. intros [[] | e] w4 H4; [| done]. destruct H4 as [Hin E4].
  assert (delete l (tree_of w3) ⊆ tree_of w3) as Hsub by apply delete_subseteq.
  assert (forall x, solid (tree_of w3) x -> forall t : tree, t ⊆ tree_of w3 -> solid t x) as Hsolid.
  { intros x [Hr Hx] t Ht. split; [by eapply reaches_subset |]. intros target E. eapply Hx. by eapply lookup_weaken. }
  eapply post_mono; [apply (Down_run hostRoot r eq_refl); rewrite E4; by apply Hsolid |]. intros [[] | e] w5 H5; [| done].
  exists w2. split; [done |]. fold w3.
  assert (tree_of w5 = prune r (delete l (tree_of w3)) /\ (tree_of w3 !! r = None \/ (r <> [] /\ owned (tree_of w3) r))) as [E5 Hr5].
  { destruct H5 as [[Hnone E5] | (Hne & Hown & E5)].
    - rewrite E4 in *. split.
      + rewrite E5. apply map_eq. intros q. rewrite lookup_prune. destruct (decide _) as [[k ->] |]; [| done].
        rewrite <- E4. apply absent_below; [apply tree_wf | by rewrite E4].
      + left. rewrite lookup_delete_ne in Hnone; [done |]. intros E. apply Hap. by rewrite E.
    - rewrite E4 in *. split; [done |]. right. split; [done |]. by apply (owned_delete markerContent). }
  split; [done |]. rewrite E5. apply Hsolid; [done |]. etrans; [apply prune_subset | done].
Qed.

Lemma run_withdrawn w : keeps_ways -> solid (tree_of w) lc -> no_links (tree_of w) r -> solid (tree_of w) (resolve runtimeRoot) -> solid (tree_of w) l ->
  post (run printf until_signal args) w (fun res w' => is_ok res = true -> exists spec w2,
    GenerateCDISpec kind nodeRoot count = Ok spec /\ tree_of w2 !! l = Some (File (rwx 6 4 4) spec) /\
    withdrawn spec (tree_of (until_signal w2)) (tree_of w')).
Proof.
  intros Hkeep Hlc Hlinks Hsrc Hl. apply run_prepares; try done.
  intros lay w1 [Hkept _] Hlay Hd Hdev (q & s & Hmark) Hs1. apply post_bind. eapply post_mono; [by apply (stage_spec r c) |].
  intros [[path spec] | e] w2 H2; [| done]. destruct H2 as (-> & Hgen & _ & t1 & [Hsub Hnew] & E2). fold l in E2 |- *.
  apply post_finally. assert (forall q n, staged_tree r count (tree_of w1) !! q = Some n -> q <> l -> tree_of w2 !! q = Some n) as Hin2.
  { intros x n Hx Hne. rewrite E2, lookup_insert_ne by done. by eapply lookup_weaken. }
  eapply post_mono; [apply serve_withdraws; [done | |] |].
  - eapply entry_solid; [rewrite E2; apply lookup_insert_eq | done].
  - eapply (entry_solid _ _ (File q s)); [apply Hin2 | done].
    + rewrite staged_only_under; [exact Hmark |]. by intros ?%prefix_sibling.
    + intros E. apply Hap. rewrite <- E. auto.
  - intros [[] | e] w5 H5 Hok; [| done]. destruct H5 as (w3 & E3 & Hw & Hs5). exists spec, w3. split; [done |].
    split; [rewrite E3, E2; apply lookup_insert_eq |]. destruct Hw as (Ha & Hb & E5).
    destruct (removal_spec c (abs_path l) spec w5 Hs5 eq_refl) as [-> | [-> _]]; [done |]. split; [done |]. split; [done |].
    rewrite E5. apply delete_id. change (c ++ [spec_name]) with l. rewrite lookup_prune, lookup_delete_eq. by destruct (decide _).
Qed.
End run.

(** ** Properties *)
(** C11. The installer stages what its CDI specification names.  When the root
    is prepared and the specification published, the file of the
    specification holds the document, which replaced nothing else; every
    device node that a container may ask for has its host's side [dev/<name>]
    staged below the root as seen by the installer, with the numbers of that
    device; and the directory mounted as the state holds the configuration. *)
Theorem stage_serves_cdi hostRoot runtimeRoot config nodeRoot kind count c w lay w1 path data w2 :
  let r := resolve hostRoot in let l := c ++ [spec_name] in
  no_links (tree_of w) r -> solid (tree_of w) (resolve runtimeRoot) -> (forall p b, r = p ++ [b] -> ~ temp_like b) ->
  plain_list c -> ~ r `prefix_of` l -> solid (tree_of w) l ->
  Prepare hostRoot runtimeRoot config w = (Ok lay, w1) ->
  stage lay nodeRoot (abs_path c) kind count w1 = (Ok (path, data), w2) ->
  path = abs_path l /\ tree_of w2 !! l = Some (File (rwx 6 4 4) data) /\
  (tree_of w !! l = None \/ may_read (tree_of w) l data) /\
  exists spec, data = encode_indented (spec_json spec) /\
    (forall d node, d ∈ Devices spec -> node ∈ container_nodes spec d -> exists num, num ∈ device_numbers (Z.to_nat count) /\
      Path node = abs_path ["dev"; name num] /\ n_HostPath node = abs_path (clean_elems nodeRoot ++ ["dev"; name num]) /\
      tree_of w2 !! (r ++ ["dev"; name num]) = Some (Device (Z.ldiff (rwx 6 6 6) umask) (makeDevice (major num) (minor num)))) /\
    {| HostPath := abs_path (clean_elems nodeRoot ++ ["state"]); ContainerPath := "/opt/fake-nvidia/state"; Options := mount_options |}
      ∈ Mounts (ContainerEdits spec) /\
    exists p, tree_of w2 !! (r ++ ["state"; "config.yaml"]) = Some (File p config).
Proof.
  intros r l H1 H2 H3 Hc Hap Hs Hprep Hstage.
  pose proof (prepared_root hostRoot runtimeRoot config w H1 H2 H3) as Hp. unfold post in Hp. rewrite Hprep in Hp. cbn [fst snd] in Hp.
  destruct Hp as (Hout & Hlay & Hd & Hdev & (pc & Hconf) & _).
  assert (solid (tree_of w1) l) as Hs1 by (by eapply outside_kept_solid).
  pose proof (stage_spec r c lay nodeRoot kind count Hlay Hc Hap w1 Hd Hdev Hs1) as Hst. unfold post in Hst. rewrite Hstage in Hst.
  destruct Hst as (-> & Hgen & Hin & t1 & [Hsub _] & E2). split; [done |]. cbn [snd] in E2. rewrite E2. split; [apply lookup_insert_eq |].
  assert (forall y, l <> r ++ y) as Hly by (intros y E; apply Hap; rewrite E; auto).
  split.
  { destruct Hout as [Hkept Hnew]. unfold may_read in *. destruct (tree_of w !! l) as [n |] eqn:En; [| by left].
    fold l in Hin. rewrite (Hkept _ _ En Hap) in Hin. by destruct Hin as [? | ?]; [| right]. }
  pose proof (GenerateCDISpec_cases kind nodeRoot count) as Hcases. rewrite Hgen in Hcases. destruct Hcases as [(_ & Hcount & Habs & _) ->].
  destruct (Clean_rooted nodeRoot Habs) as [_ Hpr]. eexists. split; [done |]. split; [| split].
  - intros d node Hdd Hnode. destruct (container_node_number _ _ _ _ _ Hcount Hdd Hnode) as (num & Hnum & ->). exists num. split; [done |].
    pose proof (device_name_plain _ _ Hcount Hnum) as Hpl. split; [done |].
    split; [apply path_join_abs; [done | by apply plain_dev] |]. rewrite lookup_insert_ne by apply Hly.
    eapply lookup_weaken; [| exact Hsub]. unfold staged_tree. change (r ++ ["dev"; name num]) with (r ++ ["dev"] ++ [name num]). rewrite app_assoc.
    apply add_nodes_at; [by apply device_names_distinct | done].
  - cbn [ContainerEdits cdi_spec common_edits Mounts]. rewrite !elem_of_cons. right. right. left.
    f_equal. symmetry. apply path_join_abs; [done | by repeat constructor].
  - exists pc. rewrite lookup_insert_ne by apply Hly. eapply lookup_weaken; [| exact Hsub]. rewrite staged_only_under; [exact Hconf |].
    change (r ++ ["state"; "config.yaml"]) with (r ++ "state" :: ["config.yaml"]). by intros ?%prefix_sibling.
Qed.

(** A node on which the installer can be started: its CDI directory and its
    configuration are clean absolute paths, the specification is outside the
    root, and no links are in the way. *)
Record node_setup (args : list string) (p : Parsed) c (config : list string) w : Prop := {
  ns_parse : Parse installer_flags args = Ok p;
  ns_cdi : cdi_dir p = abs_path c;
  ns_cdi_plain : plain_list c;
  ns_config : config_path p = abs_path config;
  ns_config_solid : solid (tree_of w) config;
  ns_outside : ~ resolve (host_root p) `prefix_of` (c ++ [spec_name]);
  ns_name : forall q b, resolve (host_root p) = q ++ [b] -> ~ temp_like b;
  ns_links : no_links (tree_of w) (resolve (host_root p));
  ns_runtime : solid (tree_of w) (resolve (runtime_root p))
}.

(** C13. The installer never replaces somebody else's CDI specification: when
    the file is there with other content than the one to publish, the run
    fails and the file is as it was, whatever else goes wrong. *)
Theorem run_keeps_foreign_spec printf until_signal args p c config w perm content data :
  node_setup args p c config w -> (forall text w, tree_of (printf text w) = tree_of w) ->
  GenerateCDISpec (cdi_kind_flag p) (node_root p) (device_count p) = Ok data ->
  tree_of w !! (c ++ [spec_name]) = Some (File perm content) -> content <> data ->
  let '(res, w') := run printf until_signal args w in
  is_ok res = false /\ tree_of w' !! (c ++ [spec_name]) = Some (File perm content).
Proof.
  intros [] Hprint Hgen Hl Hne.
  assert (post (run printf until_signal args) w (fun res w' => is_ok res = false /\ tree_of w' !! (c ++ [spec_name]) = Some (File perm content)))
    as Hp by by eapply foreign_kept.
  unfold post in Hp. by destruct (run printf until_signal args w).
Qed.

(** C12. A run that succeeds leaves the node as the signal found it, less the
    specification and the injection root: the specification had been
    published, nobody had put another in its place, the root was the
    installer's own, and nothing else is removed. *)
Theorem run_withdraws printf until_signal args p c config w w' :
  node_setup args p c config w -> solid (tree_of w) (c ++ [spec_name]) ->
  (forall text w, tree_of (printf text w) = tree_of w) -> keeps_ways until_signal ->
  run printf until_signal args w = (Ok tt, w') ->
  exists spec w2, GenerateCDISpec (cdi_kind_flag p) (node_root p) (device_count p) = Ok spec /\
    tree_of w2 !! (c ++ [spec_name]) = Some (File (rwx 6 4 4) spec) /\
    withdrawn c p spec (tree_of (until_signal w2)) (tree_of w').
Proof.
  intros [] Hl Hprint Hkeep Hrun.
  assert (post (run printf until_signal args) w (fun res w' => is_ok res = true -> exists spec w2,
    GenerateCDISpec (cdi_kind_flag p) (node_root p) (device_count p) = Ok spec /\
    tree_of w2 !! (c ++ [spec_name]) = Some (File (rwx 6 4 4) spec) /\
    withdrawn c p spec (tree_of (until_signal w2)) (tree_of w'))) as Hp by by eapply run_withdrawn.
  unfold post in Hp. rewrite Hrun in Hp. by apply Hp.
Qed.
End spec.

(** ** Witnesses on the disk *)
Import disk.

(** A node with a packaged runtime at [/rt], a configuration and, where [spec]
    says so, a CDI specification of another vendor. *)
Definition node_entries (spec : option string) : list (list string * node) :=
  bundle_entries ++ [dir_at "/srv"; dir_at "/cdi"; file_at "/config.yaml" (rwx 6 4 4) "version: 1"] ++
  match spec with Some s => [file_at "/cdi/fake-nvidia.json" (rwx 6 4 4) s] | None => [] end.
Definition node_tree (spec : option string) : tree := list_to_map (node_entries spec).
Lemma free_wf : well_formed (node_tree None).
Proof. apply (bool_decide_unpack _). vm_compute. exact I. Qed.
Lemma taken_wf : well_formed (node_tree (Some "foreign")).
Proof. apply (bool_decide_unpack _). vm_compute. exact I. Qed.
Definition free_node : Disk := make_disk (node_tree None) free_wf [].
Definition taken_node : Disk := make_disk (node_tree (Some "foreign")) taken_wf [].

Definition demo_args : list string := ["--host-root=/srv/fake"; "--cdi-dir"; "/cdi"; "-config=/config.yaml"; "--runtime=/rt"; "--device-count=2"].
Definition demo_flags : Parsed := match Parse installer_flags demo_args with Ok p => p | Err _ => {| actual := ∅; flag_args := [] |} end.
Definition silent (_ : string) (w : Disk) : Disk := w.
Definition run_demo : Disk -> result unit * Disk := run silent (fun w => w) demo_args.

Example run_ex : (is_ok (run_demo free_node).1, disk_tree (run_demo free_node).2 !! ["cdi"; "fake-nvidia.json"], disk_tree (run_demo free_node).2 !! ["srv"; "fake"]) = (true, None, None).
Proof. vm_compute. reflexivity. Qed.

Lemma demo_installer_parse : Parse installer_flags demo_args = Ok demo_flags.
Proof. vm_compute. reflexivity. Qed.
Lemma demo_root : resolve (host_root demo_flags) = ["srv"; "fake"].
Proof. vm_compute. reflexivity. Qed.
Lemma demo_name q b : ["srv"; "fake"] = q ++ [b] -> ~ temp_like b.
Proof. change ["srv"; "fake"] with (["srv"] ++ ["fake"]). by intros [_ <-]%app_inj_tail. Qed.

(** The ways on a node of the demo. *)
Definition demo_ways (t : tree) : bool :=
  forallb (clear_way t) [["config.yaml"]; ["srv"; "fake"; markerName]; ["srv"; "fake"; "state"; "overrides.yaml"]; ["rt"]; ["cdi"; spec_name]].

Lemma demo_setup (d : Disk) : demo_ways (disk_tree d) = true ->
  node_setup demo_args demo_flags ["cdi"] ["config.yaml"] d /\ solid (disk_tree d) ["cdi"; spec_name].
Proof.
  unfold demo_ways. cbn [forallb]. rewrite !andb_true_iff. intros (H1 & H2 & H3 & H4 & H5 & _).
  split; [| by apply clear_way_solid]. constructor.
  - apply demo_installer_parse.
  - vm_compute. reflexivity.
  - by repeat constructor.
  - vm_compute. reflexivity.
  - by apply clear_way_solid.
  - rewrite demo_root. by intros [k [=]].
  - intros q b. rewrite demo_root. apply demo_name.
  - rewrite demo_root. split; [by apply (clear_way_solid _ (["srv"; "fake"] ++ [markerName])) |].
    by apply (clear_way_solid _ (["srv"; "fake"] ++ overrides_rel)).
  - assert (resolve (runtime_root demo_flags) = ["rt"]) as -> by (vm_compute; reflexivity). by apply clear_way_solid.
Qed.

Definition demo_spec : string :=
  match GenerateCDISpec (cdi_kind_flag demo_flags) (node_root demo_flags) (device_count demo_flags) with Ok s => s | Err _ => "" end.
Lemma demo_spec_ok : GenerateCDISpec (cdi_kind_flag demo_flags) (node_root demo_flags) (device_count demo_flags) = Ok demo_spec.
Proof. vm_compute. reflexivity. Qed.

Lemma taken_ways : demo_ways (disk_tree taken_node) = true. Proof. vm_compute. reflexivity. Qed.
Lemma free_ways : demo_ways (disk_tree free_node) = true. Proof. vm_compute. reflexivity. Qed.
Lemma taken_foreign : disk_tree taken_node !! (["cdi"] ++ [spec_name]) = Some (File (rwx 6 4 4) "foreign").
Proof. vm_compute. reflexivity. Qed.
Lemma foreign_differs : "foreign" <> demo_spec.
Proof. vm_compute. discriminate. Qed.
Lemma silent_quiet text (w : Disk) : tree_of (silent text w) = tree_of w.
Proof. done. Qed.
Lemma waits_quietly : keeps_ways (fun w : Disk => w).
Proof. by intros w l. Qed.

Lemma run_keeps_foreign_spec_witness :
  let '(res, w') := run_demo taken_node in is_ok res = false /\ disk_tree w' !! ["cdi"; spec_name] = Some (File (rwx 6 4 4) "foreign").
Proof.
  exact (run_keeps_foreign_spec silent (fun w => w) demo_args demo_flags ["cdi"] ["config.yaml"] taken_node (rwx 6 4 4) "foreign" demo_spec
    (proj1 (demo_setup taken_node taken_ways)) silent_quiet demo_spec_ok taken_foreign foreign_differs).
Defined.

Lemma free_runs : is_ok (run_demo free_node).1 = true.
Proof. vm_compute. reflexivity. Qed.

Lemma run_withdraws_witness : exists w' spec w2, run_demo free_node = (Ok tt, w') /\ spec = demo_spec /\
  withdrawn ["cdi"] demo_flags spec (disk_tree w2) (disk_tree w').
Proof.
  pose proof free_runs as Hok. destruct (run_demo free_node) as [[[] | e] w'] eqn:E; [| discriminate Hok].
  destruct (run_withdraws silent (fun w => w) demo_args demo_flags ["cdi"] ["config.yaml"] free_node w'
    (proj1 (demo_setup free_node free_ways)) (proj2 (demo_setup free_node free_ways)) silent_quiet waits_quietly E) as (spec & w2 & Hg & _ & Hw).
  exists w', spec, w2. rewrite demo_spec_ok in Hg. split; [reflexivity |]. split; [congruence | exact Hw].
Defined.

(** The root prepared, and the specification staged. *)
Definition demo_prepared : result Layout * Disk := Prepare (host_root demo_flags) (runtime_root demo_flags) "version: 1" free_node.
Definition demo_staged (lay : Layout) (w1 : Disk) : result (string * string) * Disk :=
  stage lay (node_root demo_flags) (abs_path ["cdi"]) (cdi_kind_flag demo_flags) 2 w1.
Lemma demo_stages : match demo_prepared with (Ok lay, w1) => is_ok (demo_staged lay w1).1 | _ => false end = true.
Proof. vm_compute. reflexivity. Qed.

Lemma stage_serves_cdi_witness : exists lay w1 path data w2, demo_prepared = (Ok lay, w1) /\ demo_staged lay w1 = (Ok (path, data), w2) /\
  disk_tree w2 !! ["cdi"; spec_name] = Some (File (rwx 6 4 4) data).
Proof.
  destruct (proj1 (demo_setup free_node free_ways)) as [_ _ Hc _ _ Hout Hname Hlinks Hrt].
  pose proof demo_stages as Hok. destruct demo_prepared as [[lay | e] w1] eqn:E1; [| discriminate Hok].
  destruct (demo_staged lay w1) as [[[path data] | e] w2] eqn:E2; [| discriminate Hok].
  exists lay, w1, path, data, w2. split; [reflexivity |]. split; [exact E2 |].
  apply (stage_serves_cdi (host_root demo_flags) (runtime_root demo_flags) "version: 1" (node_root demo_flags) (cdi_kind_flag demo_flags) 2 ["cdi"]
    free_node lay w1 path data w2 Hlinks Hrt Hname Hc Hout (proj2 (demo_setup free_node free_ways)) E1 E2).
Defined.
End installer_spec.
