(* ===== verification/Upstream.v ===== *)
(** * The upstream pin: [internal/upstream/upstream.go]

    The repository and revision the development environment is built from,
    and the documented layers of overrides. *)
From S2P Require Import Prelude.

Module upstream.
Definition Repository : string := "NVIDIA/k8s-test-infra".
Definition Revision : string := "f7bbbf025110c63c04567cf42e357af32fa2f62d".
Definition MockNVMLPath : string := "pkg/gpu/mocknvml".
Definition ConfigurationPath : string := "docs/configuration.md".
Definition ControlPath : string := "docs/nvml-mock-ctl.md".
Definition DefaultOverrideTTL : string := "1s".
Definition UpstreamGoVersion : string := "1.26.6".
Definition NvidiaSMIPackage : string := "nvidia-utils-580".
Definition NvidiaSMIVersion : string := "580.65.06-0ubuntu1".
Definition OverrideLayers : list string := ["base"; "all"; "device"].
Definition RuntimeMutable : list string := ["memory"; "utilization"; "processes"; "temperature"; "power"; "failure"].
Definition RestartRequired : list string :=
  ["name"; "architecture"; "brand"; "compute_capability"; "uuid"; "pci.bus_id"; "bar1_memory"].
End upstream.
