(* ===== verification/FakeNvidia.v ===== *)
(** * The command [fake-nvidia]: [cmd/fake-nvidia]

    [main.go], [injection.go] and [kubernetes.go]: the catalog's listings,
    [render], [up], [down], [kubernetes] and the control command line.  What
    opening and decoding a specification gives is a parameter; flag errors do
    not print their usage text here. *)
From S2P Require Import Prelude GoStrings GoStrconv GoPath Paths GoFlag GoQuote GoFiles Control Catalog Config CudaEngine Render ControlCLI Injection Kubernetes Upstream.

Module fake_nvidia.
Import config controlcli.

Definition usage_text : string :=
"fake-nvidia profile/configuration, injection, and control tool

usage:
  fake-nvidia profiles
  fake-nvidia topologies
  fake-nvidia version
  fake-nvidia render --profile <id> [--count N] [--vram-mib MiB]
  fake-nvidia render --device <profile[@MiB]> [--device ...]
  fake-nvidia render --topology <id>
  fake-nvidia render --spec <config.json>
  fake-nvidia up --profile <id> [--gpus N] [--vram-mib MiB]
  fake-nvidia up --topology <id>
  fake-nvidia down [--root .fake-nvidia]
  fake-nvidia kubernetes --profile <id> [--gpus N] [--vram-mib MiB] [--image <ref>]
  fake-nvidia kubernetes --topology <id> [--image <ref>]
  fake-nvidia ctl <control command> [args...]

render writes upstream Mock NVML YAML. up prepares an isolated runtime/state root for
Docker/Compose injection, kubernetes renders the Phase 9 ConfigMap/node-installer
DaemonSet from the same profiles, and down removes only fake-nvidia-owned injection
roots. ctl composes the upstream nvml-mock-ctl override mechanism and is also
available as the standalone fake-nvidia-ctl binary.
".

(** ** Devices of the command line *)
(** [raw[:at]] and [raw[at+1:]] for [at = strings.LastIndexByte(raw, sep)]. *)
Fixpoint cut_last (s : string) (sep : ascii) : option (string * string) :=
  match s with
  | EmptyString => None
  | c ::: r =>
      match cut_last r sep with
      | Some (a, b) => Some (c ::: a, b)
      | None => if char_eqb c sep then Some (EmptyString, r) else None
      end
  end.

Definition plain_request (profile : string) (vramMiB : Z) : DeviceRequest :=
  {| r_Profile := profile; r_VRAMMiB := vramMiB; r_UsedMiB := 0; r_GPUUtil := 0; r_MemoryUtil := 0;
     r_TemperatureC := None; r_PowerDrawMW := None; r_Processes := []; r_Failure := None |}.

Definition parseDevice (raw : string) : result DeviceRequest :=
  let invalid := Errorf "invalid --device %q" [AS raw] in
  '(profile, vram) ←
    match cut_last raw "@" with
    | None => Ok (raw, 0)
    | Some (profile, text) =>
        if String.eqb profile "" || String.eqb text "" then Err invalid else
        match ParseUint text u64_max with
        | Err _ => Err (Errorf "invalid VRAM in --device %q" [AS raw])
        | Ok parsed => if parsed =? 0 then Err (Errorf "invalid VRAM in --device %q" [AS raw]) else Ok (profile, parsed)
        end
    end;
  if String.eqb (TrimSpace profile) "" then Err invalid else Ok (plain_request profile vram).

Fixpoint parse_devices (raws : list string) : result (list DeviceRequest) :=
  match raws with
  | [] => Ok []
  | raw :: rest => d ← parseDevice raw; ds ← parse_devices rest; Ok (d :: ds)
  end.

(** ** Flags *)
Definition render_flags : FlagSet := [
  ("profile", KString); ("count", KInt); ("vram-mib", KUint); ("topology", KString); ("spec", KString);
  ("driver-version", KString); ("cuda-version", KString); ("output", KString); ("device", KList)].
Definition up_flags : FlagSet := [
  ("profile", KString); ("topology", KString); ("gpus", KInt); ("vram-mib", KUint); ("runtime-dir", KString);
  ("root", KString); ("driver-version", KString); ("cuda-version", KString)].
Definition down_flags : FlagSet := [("root", KString)].
Definition kubernetes_flags : FlagSet := [
  ("profile", KString); ("topology", KString); ("gpus", KInt); ("vram-mib", KUint); ("driver-version", KString);
  ("cuda-version", KString); ("namespace", KString); ("image", KString); ("cdi-kind", KString); ("output", KString)].

Definition no_arguments (p : Parsed) : result unit :=
  match flag_args p with [] => Ok tt | args => Err (Errorf "unexpected arguments: %s" [AS (Join args " ")]) end.

Definition flag_system (p : Parsed) : System :=
  {| s_DriverVersion := flag_string p "driver-version" "580.173.02"; s_CUDAVersion := flag_string p "cuda-version" "13.0" |}.

(** What [up] and [kubernetes] compose from a profile or a topology. *)
Definition compose_selection (catalog : option profiles.Catalog) (p : Parsed) : result MockConfig :=
  let profile := flag_string p "profile" "" in
  let topology := flag_string p "topology" "" in
  let gpus := flag_num p "gpus" 1 in
  let vram := flag_num p "vram-mib" 0 in
  if Bool.eqb (String.eqb profile "") (String.eqb topology "")
  then Err (Errorf "choose exactly one of --profile or --topology" []) else
  if negb (String.eqb profile "") then
    devices ← Repeated profile gpus vram;
    Compose catalog {| sp_System := flag_system p; sp_Devices := devices |}
  else if negb (gpus =? 1) || negb (vram =? 0)
  then Err (Errorf "--gpus and --vram-mib are only valid with --profile" [])
  else ComposeTopology catalog (flag_system p) topology.

(** How many of the four selections of [render] are made. *)
Definition selected (p : Parsed) : Z :=
  Z.b2z (negb (String.eqb (flag_string p "profile" "") "")) + Z.b2z (negb (String.eqb (flag_string p "topology" "") "")) +
  Z.b2z (match flag_list p "device" with [] => false | _ => true end) +
  Z.b2z (negb (String.eqb (flag_string p "spec" "") "")).

(** [render] without a specification file. *)
Definition compose_render (catalog : option profiles.Catalog) (p : Parsed) : result MockConfig :=
  let topology := flag_string p "topology" "" in
  let profile := flag_string p "profile" "" in
  if negb (String.eqb topology "") then ComposeTopology catalog (flag_system p) topology else
  if negb (String.eqb profile "") then
    devices ← Repeated profile (flag_num p "count" 1) (flag_num p "vram-mib" 0);
    Compose catalog {| sp_System := flag_system p; sp_Devices := devices |}
  else
    devices ← parse_devices (flag_list p "device");
    Compose catalog {| sp_System := flag_system p; sp_Devices := devices |}.

Section commands.
Context {W : Type} `{OS W} `{Console W} `{files.Files W}.
(** Opening a specification: the outcomes of the decoder's two calls. *)
Context (open_spec : string -> M W (result Spec * result unit)).

Definition usage (write : string -> M W unit) : M W unit := write usage_text.

(** [stdout] or a file. *)
Definition write_output (output data : string) : M W unit :=
  if String.eqb output "-" then stdout_write data else files.write_file output data (files.rwx 6 4 4).

(** ** [render] *)
Definition load_spec (catalog : option profiles.Catalog) (path : string) : M W MockConfig :=
  doc ← open_spec path;
  let spec := LoadSpecJSON doc.1 doc.2 in
  files.attempt (files.file_close path) (fun closed =>
    spec ← lift spec;
    _ ← lift closed;
    lift (Compose catalog spec)).

Definition runRender (catalog : option profiles.Catalog) (args : list string) : M W unit :=
  p ← lift (Parse render_flags args);
  _ ← lift (no_arguments p);
  if negb (selected p =? 1)
  then throw (Errorf "choose exactly one of --profile, --topology, --spec, or one/more --device" []) else
  let specPath := flag_string p "spec" "" in
  cfg ← (if negb (String.eqb specPath "") then load_spec catalog specPath else lift (compose_render catalog p));
  data ← lift (render.RenderYAML printable_rune cfg);
  write_output (flag_string p "output" "-") data.

(** ** [up] and [down] *)
Definition defaultRuntimeDir : string :=
  let value := TrimSpace (cuda.Getenv os_environ "FAKE_NVIDIA_RUNTIME_DIR") in
  if String.eqb value "" then ".runtime" else value.

Definition runUp (catalog : option profiles.Catalog) (args : list string) : M W unit :=
  p ← lift (Parse up_flags args);
  _ ← lift (no_arguments p);
  cfg ← lift (compose_selection catalog p);
  data ← lift (render.RenderYAML printable_rune cfg);
  layout ← injection.Prepare (flag_string p "root" ".fake-nvidia") (flag_string p "runtime-dir" defaultRuntimeDir) data;
  let root := injection.Root layout in
  _ ← stdout_write ("prepared fake-nvidia injection root: " +:+ root +:+ chr newline);
  _ ← stdout_write ("export FAKE_NVIDIA_ROOT=" +:+ Quote printable_rune root +:+ chr newline);
  stdout_write ("use examples/docker/compose.override.yaml (or examples/llamacpp-manager/compose.fake-nvidia.yaml) with your consumer stack" +:+ chr newline).

Definition runDown (args : list string) : M W unit :=
  p ← lift (Parse down_flags args);
  _ ← lift (no_arguments p);
  let root := flag_string p "root" ".fake-nvidia" in
  _ ← injection.Down root;
  stdout_write ("removed fake-nvidia injection root: " +:+ root +:+ chr newline).

(** ** [kubernetes] *)
Definition runKubernetes (catalog : option profiles.Catalog) (args : list string) : M W unit :=
  p ← lift (Parse kubernetes_flags args);
  _ ← lift (no_arguments p);
  cfg ← lift (compose_selection catalog p);
  configYAML ← lift (render.RenderYAML printable_rune cfg);
  manifest ← lift (kubernetes.RenderManifest {|
    kubernetes.Namespace := flag_string p "namespace" "fake-nvidia-system";
    kubernetes.Image := flag_string p "image" "fake-nvidia-k8s:local";
    kubernetes.CDIKind := flag_string p "cdi-kind" kubernetes.DefaultCDIKind;
    kubernetes.DeviceCount := Z.of_nat (length (mc_Devices cfg));
    kubernetes.ConfigYAML := configYAML |});
  write_output (flag_string p "output" "-") manifest.

(** ** [run] *)
Fixpoint print_lines (ids : list string) : M W unit :=
  match ids with [] => mret tt | id :: rest => _ ← stdout_write (id +:+ chr newline); print_lines rest end.

Definition run (args : list string) (stdin : string) : M W unit :=
  match args with
  | [] => _ ← usage stderr_write; throw (Errorf "command is required" [])
  | command :: rest =>
      c ← lift embedded_catalog;
      if String.eqb command "profiles" then print_lines (profiles.ProfileIDs c) else
      if String.eqb command "topologies" then print_lines (profiles.TopologyIDs c) else
      if String.eqb command "version"
      then stdout_write ("upstream " +:+ upstream.Repository +:+ "@" +:+ upstream.Revision +:+ chr newline) else
      if String.eqb command "render" then runRender (Some c) rest else
      if String.eqb command "up" then runUp (Some c) rest else
      if String.eqb command "down" then runDown rest else
      if String.eqb command "kubernetes" then runKubernetes (Some c) rest else
      if String.eqb command "ctl" then controlcli.Run rest stdin else
      if existsb (String.eqb command) ["help"; "-h"; "--help"] then usage stdout_write else
      _ ← usage stderr_write; throw (Errorf "unknown command %q" [AS command])
  end.

(** ** The mains: the exit status; the error's text is a parameter *)
Definition exit_with (error_text : error -> string) (program : string) (m : M W unit) (w : W) : Z * W :=
  match m w with
  | (Ok _, w) => (0, w)
  | (Err e, w) => (1, (stderr_write (program +:+ ": " +:+ error_text e +:+ chr newline) w).2)
  end.
Definition main (error_text : error -> string) (args : list string) (stdin : string) : W -> Z * W :=
  exit_with error_text "fake-nvidia" (run args stdin).
Definition ctl_main (error_text : error -> string) (args : list string) (stdin : string) : W -> Z * W :=
  exit_with error_text "fake-nvidia-ctl" (controlcli.Run args stdin).
End commands.
End fake_nvidia.
