(* ===== verification/FakeNvidiaSpec.v ===== *)
(** * What the command [fake-nvidia] promises

    The manifest of [kubernetes] carries the rendered configuration and starts
    the installer for the same devices; the ways to select devices agree. *)
From S2P Require Import Prelude GoStrings GoStrconv GoPath Paths GoFlag GoQuote GoFiles Control Catalog Config CudaEngine Render ControlCLI Injection Kubernetes KubernetesSpec ManifestSpec Disk InjectionSafety Installer InstallerSpec FakeNvidia.

Module fake_nvidia_spec.
Import config controlcli kubernetes kubernetes_spec manifest_spec installer installer_spec fake_nvidia.

(** ** Selections *)
Lemma ParseInt0_FormatUint n : 0 < n < int64_cutoff -> ParseInt0 (FormatUint n) = Ok n.
Proof.
  intros Hn. assert (u64 n) as Hu by (unfold int64_cutoff in Hn; word).
  destruct (digits_first (fuel_for n) n "") as (d & r & Hd & E); [lia | apply fuel_for_enough; lia |].
  pose proof (ParseUint0_FormatUint n Hu) as Hp. unfold FormatUint in *. rewrite E in *. cbn [ParseInt0].
  assert (forall c, byte_val c < 48 -> char_eqb (digit_char d) c = false) as Hc.
  { intros c Hc. apply char_eqb_neq. intros <-. rewrite digit_char_val in Hc by lia. lia. }
  rewrite (Hc "-"%char), (Hc "+"%char) by done. cbn [orb]. rewrite Hp. cbn [mbind result_bind negb andb].
  assert ((n >=? int64_cutoff) = false) as -> by lia. done.
Qed.

(** ** The installer's command line is understood by the installer *)
Lemma flag_loop_inline fs set name k value v rest :
  good_name name = true -> formal fs name = Some k -> set_flag k value = Ok v ->
  flag_loop fs set (("--" +:+ name +:+ "=" +:+ value) :: rest) = flag_loop fs (<[name := merge_value (set !! name) v]> set) rest.
Proof.
  unfold good_name. intros [Hb Hf]%andb_true_iff Hk Hv. apply negb_true_iff in Hb. cbn [flag_loop].
  assert (classify ("--" +:+ name +:+ "=" +:+ value) = TFlag (name +:+ "=" +:+ value)) as -> by by destruct name.
  assert (bad_syntax (name +:+ "=" +:+ value) = false) as -> by by destruct name.
  assert (split_flag (name +:+ "=" +:+ value) = (name, Some value)) as ->; [| by rewrite Hk, Hv].
  unfold split_flag. assert (Cut (name +:+ "=" +:+ value) "=" = Some (name, value)) as ->; [| done].
  clear Hb Hk. induction name as [| c name IH]; [done |]. rewrite append_cons. unfold free_of in Hf. cbn [sforall Cut] in *.
  apply andb_true_iff in Hf as [Hc Hf]. apply negb_true_iff in Hc. rewrite Hc. by rewrite IH.
Qed.

Lemma installer_args_parse n kind : 1 <= n <= 8 -> exists ip, Parse installer_flags (installer_args n kind) = Ok ip /\
  flag_args ip = [] /\ device_count ip = n /\ cdi_kind_flag ip = kind /\ node_root ip = "/var/lib/fake-nvidia".
Proof.
  intros Hn. eexists. split.
  - unfold Parse, installer_args.
    rewrite (flag_loop_inline _ _ "host-root" KString "/host/var/lib/fake-nvidia" (FString _)) by done.
    rewrite (flag_loop_inline _ _ "node-root" KString "/var/lib/fake-nvidia" (FString _)) by done.
    rewrite (flag_loop_inline _ _ "cdi-dir" KString "/host/var/run/cdi" (FString _)) by done.
    rewrite (flag_loop_inline _ _ "config" KString "/config/config.yaml" (FString _)) by done.
    rewrite (flag_loop_inline _ _ "runtime" KString "/opt/fake-nvidia/runtime" (FString _)) by done.
    rewrite (flag_loop_inline _ _ "device-count" KInt (Itoa n) (FNum n)); [| done | done |].
    2: { cbn [set_flag]. rewrite Itoa_nonneg by lia. rewrite ParseInt0_FormatUint; [done |]. unfold int64_cutoff. lia. }
    rewrite (flag_loop_inline _ _ "cdi-kind" KString kind (FString kind)) by done. reflexivity.
  - cbn [merge_value]. unfold device_count, cdi_kind_flag, node_root, flag_num, flag_string. cbn [actual flag_args].
    split; [done |]. by rewrite ?lookup_insert_eq, ?lookup_insert_ne by done.
Qed.

Lemma cut_last_append a b sep : free_of sep b = true -> cut_last (a +:+ (sep ::: b)) sep = Some (a, b).
Proof.
  intros Hb. assert (cut_last b sep = None) as Hn.
  { revert Hb. unfold free_of. induction b as [| c b IH]; [done |]. cbn [sforall cut_last]. intros [Hc Hb]%andb_true_iff.
    rewrite IH by done. by apply negb_true_iff in Hc as ->. }
  induction a as [| c a IH].
  - change ("" +:+ (sep ::: b)) with (sep ::: b). cbn [cut_last]. by rewrite Hn, char_eqb_refl.
  - rewrite append_cons. cbn [cut_last]. by rewrite IH.
Qed.

(** A profile with its memory, as [--device] writes it. *)
Definition device_text (profile : string) (vram : Z) : string := profile +:+ "@" +:+ FormatUint vram.

Lemma parseDevice_text profile vram : TrimSpace profile <> "" -> 0 < vram < 2 ^ 64 -> parseDevice (device_text profile vram) = Ok (plain_request profile vram).
Proof.
  intros Hp Hv. assert (profile <> "") as Hne by by intros ->. unfold parseDevice, device_text. cbv zeta.
  change ("@" +:+ FormatUint vram) with ("@"%char ::: FormatUint vram).
  assert (free_of "@" (FormatUint vram) = true) as Hf by (apply FormatUint_free; [lia | done]).
  rewrite cut_last_append by done. rewrite (proj2 (String.eqb_neq profile "")) by done.
  rewrite (proj2 (String.eqb_neq (FormatUint vram) "")) by apply FormatUint_nonempty.
  cbn [orb]. rewrite ParseUint_FormatUint by word. rewrite (proj2 (Z.eqb_neq vram 0)) by lia. cbn.
  by rewrite (proj2 (String.eqb_neq _ _)).
Qed.

Definition device_args (text : string) (n : nat) : list string := concat (replicate n ["--device"; text]).

Lemma flag_loop_device text n set l : set !! "device" = Some (FList l) ->
  flag_loop render_flags set (device_args text n) = Ok {| actual := <["device" := FList (l ++ replicate n text)]> set; flag_args := [] |}.
Proof.
  revert set l. induction n as [| n IH]; intros set l Hs; cbn [device_args replicate concat app].
  - change (flag_loop _ _ _) with (Ok {| actual := set; flag_args := [] |}). rewrite app_nil_r, insert_id; done.
  - change ("--device" :: text :: concat (replicate n ["--device"; text])) with (("--" +:+ "device") :: text :: device_args text n).
    rewrite (flag_loop_value _ _ _ KList _ (FList [text])) by done. rewrite Hs. cbn [merge_value].
    rewrite (IH _ (l ++ [text])) by apply lookup_insert_eq. by rewrite insert_insert_eq, <- app_assoc.
Qed.

Lemma parse_device_args text n : (0 < n)%nat ->
  Parse render_flags (device_args text n) = Ok {| actual := {["device" := FList (replicate n text)]}; flag_args := [] |}.
Proof.
  intros Hn. destruct n as [| n]; [lia |]. unfold Parse, device_args. cbn [replicate concat app].
  change "--device" with ("--" +:+ "device") at 1. rewrite (flag_loop_value _ _ _ KList _ (FList [text])) by done.
  change (merge_value (∅ !! "device") (FList [text])) with (FList [text]).
  change (concat (replicate n ["--device"; text])) with (device_args text n).
  rewrite (flag_loop_device _ _ _ [text]) by apply lookup_insert_eq. by rewrite insert_insert_eq.
Qed.

Definition profile_args (profile : string) (n vram : Z) : list string :=
  ["--profile"; profile; "--count"; FormatUint n; "--vram-mib"; FormatUint vram].

Lemma parse_profile_args profile n vram : 0 < n < int64_cutoff -> u64 vram ->
  Parse render_flags (profile_args profile n vram) =
  Ok {| actual := <["vram-mib" := FNum vram]> (<["count" := FNum n]> {["profile" := FString profile]}); flag_args := [] |}.
Proof.
  intros Hn Hv. unfold Parse, profile_args.
  change "--profile" with ("--" +:+ "profile"). rewrite (flag_loop_value _ _ _ KString _ (FString profile)) by done.
  change "--count" with ("--" +:+ "count"). rewrite (flag_loop_value _ _ _ KInt _ (FNum n)); [| done | done | cbn [set_flag]; by rewrite ParseInt0_FormatUint].
  change "--vram-mib" with ("--" +:+ "vram-mib"). rewrite (flag_loop_value _ _ _ KUint _ (FNum vram)); [| done | done | cbn [set_flag]; by rewrite ParseUint0_FormatUint].
  reflexivity.
Qed.

Lemma parse_devices_replicate raw d n : parseDevice raw = Ok d -> parse_devices (replicate n raw) = Ok (replicate n d).
Proof. intros Hd. induction n as [| n IH]; [done |]. cbn [replicate parse_devices]. rewrite Hd. cbn. by rewrite IH. Qed.

(** An installer whose flags are [ip] gets as far as a valid CDI specification
    of [n] devices of that kind. *)
Definition publishes (ip : Parsed) (kind : string) (n : Z) : Prop :=
  flag_args ip = [] /\ device_count ip = n /\ cdi_kind_flag ip = kind /\
  is_ok (GenerateCDISpec (cdi_kind_flag ip) (node_root ip) (device_count ip)) = true.

Example parse_devices_ex : map (fun raw => match parseDevice raw with Ok d => Some (r_Profile d, r_VRAMMiB d) | Err _ => None end)
  ["t4"; "t4@1024"; "a@b@7"; "@7"; "t4@"; "t4@0"; "t4@x"; " "] =
  [Some ("t4", 0); Some ("t4", 1024); Some ("a@b", 7); None; None; None; None; None].
Proof. vm_compute. reflexivity. Qed.

Section spec.
Context {W : Type} `{OS W} `{Console W} `{files.Files W}.

(** C10. The manifest of [fake-nvidia kubernetes] is faithful to the request.
    When the manifest goes to standard output and the image name is one line
    ([RenderManifest] writes the name as it is, without checking it: a newline
    in it would put further lines into the document), what is written is a manifest whose ConfigMap, read as YAML, holds
    exactly the configuration that the same selection renders, whatever its
    strings are; and whose installer, started with the arguments written
    there, publishes a valid CDI specification for the same number of devices
    and the requested kind. *)
Theorem kubernetes_manifest_faithful catalog args p w w' :
  Parse kubernetes_flags args = Ok p -> flag_string p "output" "-" = "-" ->
  one_line (flag_string p "image" "fake-nvidia-k8s:local") ->
  runKubernetes catalog args w = (Ok tt, w') ->
  exists cfg text m ia ip, compose_selection catalog p = Ok cfg /\ render.RenderYAML printable_rune cfg = Ok text /\
    stdout_write m w = (Ok tt, w') /\ literal_block config_key m = Some text /\
    list_under args_path bullet m = Some ia /\ Parse installer_flags ia = Ok ip /\
    publishes ip (or_default (flag_string p "cdi-kind" DefaultCDIKind) DefaultCDIKind) (Z.of_nat (length (mc_Devices cfg))).
Proof.
  intros Hp Hout Himage. unfold runKubernetes. rewrite Hp. unfold mbind, M_bind, lift. cbv beta iota.
  destruct (no_arguments p) as [[] | e]; [| done]. destruct (compose_selection catalog p) as [cfg | e] eqn:Ec; [| done].
  destruct (render.RenderYAML printable_rune cfg) as [text | e] eqn:Er; [| done].
  match goal with |- context [RenderManifest ?o] => set (opts := o); destruct (RenderManifest opts) as [m | e] eqn:Em; [| done] end.
  unfold write_output. rewrite Hout. intros Hw.
  destruct (RenderManifest_reads opts m Em (RenderYAML_block _ _ _ Er) Himage) as (Hconf & Hargs & Hkind & Hcount).
  set (kind := or_default (CDIKind opts) DefaultCDIKind) in *.
  destruct (installer_args_parse (DeviceCount opts) kind Hcount) as (ip & Hip & Hnone & Hn & Hk & Hroot).
  exists cfg, text, m, (installer_args (DeviceCount opts) kind), ip. unfold publishes. split_and!; try done.
  rewrite Hk, Hn, Hroot. pose proof (GenerateCDISpec_cases kind "/var/lib/fake-nvidia" (DeviceCount opts)) as Hcase.
  destruct (GenerateCDISpec _ _ _); [done |]. destruct Hcase. unfold cdi_accepts. split_and!; try done; apply Hcount.
Qed.

(** C19. The two ways to ask [render] for [n] devices of a profile with a given
    memory are equivalent: [--profile P --count n --vram-mib V], and [n]
    times [--device P@V].  Output, errors and effects are the same, for every
    profile name that is not blank (at signs included), known or not. *)
Theorem render_selections_equivalent (open_spec : string -> M W (result Spec * result unit)) catalog profile n vram w :
  TrimSpace profile <> "" -> 0 < n < int64_cutoff -> 0 < vram < 2 ^ 64 ->
  runRender open_spec catalog (profile_args profile n vram) w =
  runRender open_spec catalog (device_args (device_text profile vram) (Z.to_nat n)) w.
Proof.
  intros Hp Hn Hv. assert (profile <> "") as Hne by by intros ->. assert (u64 vram) as Hu by word.
  unfold runRender. rewrite parse_profile_args, parse_device_args by (done || lia).
  set (p1 := {| actual := <["vram-mib" := _]> _; flag_args := [] |}). set (p2 := {| actual := {["device" := _]}; flag_args := [] |}).
  assert (compose_render catalog p1 = compose_render catalog p2) as Hcompose.
  { unfold compose_render. change (flag_string p1 "topology" "") with "". change (flag_string p2 "topology" "") with "".
    change (flag_string p1 "profile" "") with profile. change (flag_string p2 "profile" "") with "".
    change (flag_list p2 "device") with (replicate (Z.to_nat n) (device_text profile vram)).
    rewrite (proj2 (String.eqb_neq profile "")) by done. cbn [String.eqb negb].
    rewrite (parse_devices_replicate _ (plain_request profile vram)) by by apply parseDevice_text.
    unfold Repeated. change (flag_num p1 "count" 1) with n. change (flag_num p1 "vram-mib" 0) with vram.
    assert ((n <=? 0) = false) as -> by lia. reflexivity. }
  assert (selected p1 = 1) as Hs1.
  { unfold selected. change (flag_string p1 "profile" "") with profile. by rewrite (proj2 (String.eqb_neq profile "")) by done. }
  assert (selected p2 = 1) as Hs2.
  { unfold selected. change (flag_list p2 "device") with (replicate (Z.to_nat n) (device_text profile vram)).
    destruct (Z.to_nat n) eqn:En; [lia | done]. }
  unfold mbind, M_bind, lift. cbv beta iota. change (no_arguments p1) with (Ok tt). change (no_arguments p2) with (Ok tt). cbv iota.
  rewrite Hs1, Hs2. change (flag_string p1 "spec" "") with "". change (flag_string p2 "spec" "") with "". cbn [Z.eqb Pos.eqb negb String.eqb].
  by rewrite Hcompose.
Qed.
End spec.

(** ** Witnesses: a host with a disk and its standard output *)
Import disk.
Record Host := { host_disk : disk.Disk; host_out : string }.
Definition on_host {A : Type} (m : M disk.Disk A) : M Host A := fun h =>
  let '(r, d) := m (host_disk h) in (r, {| host_disk := d; host_out := host_out h |}).

#[export] Instance host_files : files.Files Host := {
  files.getwd := on_host files.getwd; files.lstat path := on_host (files.lstat path); files.stat path := on_host (files.stat path);
  files.read_file path := on_host (files.read_file path); files.read_dir path := on_host (files.read_dir path);
  files.readlink path := on_host (files.readlink path); files.mkdir_all path perm := on_host (files.mkdir_all path perm);
  files.mkdir_temp path pattern := on_host (files.mkdir_temp path pattern);
  files.create_temp path pattern := on_host (files.create_temp path pattern);
  files.write_file path content perm := on_host (files.write_file path content perm);
  files.symlink target path := on_host (files.symlink target path); files.mknod path perm dev := on_host (files.mknod path perm dev);
  files.rename path path2 := on_host (files.rename path path2); files.remove path := on_host (files.remove path);
  files.remove_all path := on_host (files.remove_all path); files.open_read path := on_host (files.open_read path);
  files.create_excl path perm := on_host (files.create_excl path perm); files.io_copy path src := on_host (files.io_copy path src);
  files.file_write path content := on_host (files.file_write path content);
  files.file_chmod path perm := on_host (files.file_chmod path perm); files.file_close path := on_host (files.file_close path);
  files.max_depth := @files.max_depth disk.Disk _
}.

#[export] Instance host_os : OS Host := {
  os_environ := ["FAKE_NVIDIA_RUNTIME_DIR=/rt"];
  os_read_file _ _ := Err (Errorf "not found" []);
  os_exec _ _ _ h := (("", Some (Errorf "not found" [])), h);
  os_mkdir_all _ h := (None, h);
  os_open_lock _ h := (None, h);
  os_flock_ex _ h := (None, h);
  os_flock_un _ h := h;
  os_close_lock _ h := h
}.

#[export] Instance host_console : Console Host := {
  stdout_write text h := (Ok tt, {| host_disk := host_disk h; host_out := host_out h +:+ text |});
  stderr_write _ h := (Ok tt, h); write_file _ _ h := (Ok tt, h);
  open_document _ _ := Err (Errorf "not found" []);
  timer _ _ h := (Ok tt, h); interrupted _ := None; embedded_catalog := Ok demo_catalog;
  printable_rune _ := false
}.

Definition no_spec (_ : string) : M Host (result Spec * result unit) := throw (Errorf "not found" []).
Definition demo_host : Host := {| host_disk := injection_safety.host []; host_out := "" |}.
Definition on_demo (args : list string) : result unit * Host := fake_nvidia.run no_spec args "" demo_host.

(** [up] over an owned root, then [down]. *)
Example up_ex : let '(r, h) := on_demo ["up"; "--profile"; "rtx4090-24gb"; "--gpus=2"; "--root"; "/srv/fake"] in
  (is_ok r, is_ok (fake_nvidia.run no_spec ["down"; "--root=/srv/fake"] "" h).1) = (true, true).
Proof. vm_compute. reflexivity. Qed.

Definition demo_kubernetes : list string := ["--profile=rtx4090-24gb"; "--gpus"; "2"; "--driver-version"; "a" +:+ chr newline +:+ "data: b"].
Definition demo_parsed : Parsed := match Parse kubernetes_flags demo_kubernetes with Ok p => p | Err _ => {| actual := ∅; flag_args := [] |} end.
Definition demo_kubernetes_run : result unit * Host := runKubernetes (Some demo_catalog) demo_kubernetes demo_host.
Lemma demo_kubernetes_parse : Parse kubernetes_flags demo_kubernetes = Ok demo_parsed.
Proof. vm_compute. reflexivity. Qed.
Lemma demo_kubernetes_output : flag_string demo_parsed "output" "-" = "-".
Proof. vm_compute. reflexivity. Qed.
Lemma demo_kubernetes_image : one_line (flag_string demo_parsed "image" "fake-nvidia-k8s:local").
Proof. vm_compute. reflexivity. Qed.
Lemma demo_kubernetes_ok : is_ok demo_kubernetes_run.1 = true.
Proof. vm_compute. reflexivity. Qed.

Lemma kubernetes_manifest_faithful_witness : exists h text m, demo_kubernetes_run = (Ok tt, h) /\
  stdout_write m demo_host = (Ok tt, h) /\ literal_block config_key m = Some text.
Proof.
  pose proof demo_kubernetes_ok as Hok. destruct demo_kubernetes_run as [[[] | e] h] eqn:E; [| discriminate Hok].
  destruct (kubernetes_manifest_faithful (Some demo_catalog) demo_kubernetes demo_parsed demo_host h demo_kubernetes_parse
    demo_kubernetes_output demo_kubernetes_image E) as (cfg & text & m & ia & ip & _ & _ & Hw & Hb & _).
  exists h, text, m. split; [reflexivity |]. split; [exact Hw | exact Hb].
Defined.

Lemma render_selections_equivalent_witness :
  runRender no_spec (Some demo_catalog) (profile_args "rtx4090-24gb" 3 16384) demo_host =
  runRender no_spec (Some demo_catalog) (device_args (device_text "rtx4090-24gb" 16384) 3) demo_host.
Proof.
  apply (render_selections_equivalent no_spec (Some demo_catalog) "rtx4090-24gb" 3 16384 demo_host); [discriminate | | ]; by split.
Defined.
End fake_nvidia_spec.
