(* ===== verification/UpDown.v ===== *)
(** * [fake-nvidia up] and [down] over the file system

    The two commands compose [Prepare] and [Down]: one undoes the other. *)
From S2P Require Import Prelude GoStrings GoPath Paths GoFlag GoFiles FilesLogic Disk Control Catalog Config ControlCLI Injection InjectionSafety FakeNvidia FakeNvidiaSpec.

Module up_down.
Import config controlcli disk filepath paths files fileslogic injection injection_safety fake_nvidia fake_nvidia_spec.

Section commands.
Context {W : Type} `{OS W} `{Console W} `{LawfulFiles W}.
Implicit Types (w : W).
Hypothesis stdout_keeps : forall text w, tree_of (stdout_write text w).2 = tree_of w.

Lemma written text res w w' : stdout_write text w = (res, w') -> tree_of w' = tree_of w.
Proof. intros E. pose proof (stdout_keeps text w) as Hs. by rewrite E in Hs. Qed.

(** What [up], and then [down], leave of the tree [t]. *)
Definition restored (t t' : tree) (r : list string) : Prop :=
  (forall y, t' !! (r ++ y) = None) /\
  (forall q n, t !! q = Some n -> ~ r `prefix_of` q -> t' !! q = Some n) /\
  (forall q n, t' !! q = Some n -> t !! q = None -> q `prefix_of` r /\ q <> r /\ n = files.Dir (Z.ldiff (rwx 7 5 5) umask)).

Lemma runUp_prepares catalog args p w w' : Parse up_flags args = Ok p -> runUp catalog args w = (Ok tt, w') ->
  exists config lay w1, injection.Prepare (flag_string p "root" ".fake-nvidia") (flag_string p "runtime-dir" defaultRuntimeDir) config w = (Ok lay, w1) /\
    tree_of w' = tree_of w1.
Proof.
  intros Hp Hrun. unfold runUp in Hrun. rewrite Hp in Hrun. apply M_bind_inv in Hrun as (? & w0 & [= <- <-] & Hrun).
  apply M_bind_inv in Hrun as (? & w0 & [= _ <-] & Hrun). apply M_bind_inv in Hrun as (cfg & w0 & [= _ <-] & Hrun).
  apply M_bind_inv in Hrun as (data & w0 & [= _ <-] & Hrun). apply M_bind_inv in Hrun as (lay & w1 & Hprep & Hrun).
  exists data, lay, w1. split; [done |]. cbv zeta in Hrun.
  apply M_bind_inv in Hrun as (? & w2 & E2 & Hrun). apply M_bind_inv in Hrun as (? & w3 & E3 & E4).
  by rewrite (written _ _ _ _ E4), (written _ _ _ _ E3), (written _ _ _ _ E2).
Qed.
Lemma runDown_removes args p w w' : Parse down_flags args = Ok p -> runDown args w = (Ok tt, w') ->
  exists w1, injection.Down (flag_string p "root" ".fake-nvidia") w = (Ok tt, w1) /\ tree_of w' = tree_of w1.
Proof.
  intros Hp Hrun. unfold runDown in Hrun. rewrite Hp in Hrun. apply M_bind_inv in Hrun as (? & w0 & [= <- <-] & Hrun).
  apply M_bind_inv in Hrun as (? & w0 & [= _ <-] & Hrun). cbv zeta in Hrun. apply M_bind_inv in Hrun as ([] & w1 & Hdown & E).
  exists w1. split; [done |]. by apply written in E.
Qed.

Lemma pruned_restores (t t1 t2 : tree) (r : list string) : outside_kept true t t1 r -> only_under r t1 t2 ->
  restored t (prune r t2) r.
Proof.
  intros [Hkept Hnew] Hu. unfold restored. split_and!.
  - intros y. rewrite lookup_prune. rewrite decide_True; [done | by exists y].
  - intros q n Hq Hr. rewrite lookup_prune, decide_False, Hu by done. by apply Hkept.
  - intros q n Hq Hnone. rewrite lookup_prune in Hq. destruct (decide (r `prefix_of` q)) as [| Hr]; [done |].
    rewrite Hu in Hq by done. destruct (Hnew q n Hnone Hq Hr) as [[Hpre ->] | [? _]]; [| done].
    split_and!; [done | by intros -> | done].
Qed.

(** C14. [down] undoes [up].  After [up] on a root, whatever containers have
    written below it in the meantime, a [down] of the same root that succeeds
    leaves the file system as it was before [up], less whatever the root held
    and with at most the directories above it in addition. *)
Theorem up_down_roundtrip catalog up_args down_args pu pd w w1 w2 w3 : let root := flag_string pu "root" ".fake-nvidia" in
  let r := resolve root in
  Parse up_flags up_args = Ok pu -> Parse down_flags down_args = Ok pd -> flag_string pd "root" ".fake-nvidia" = root ->
  no_links (tree_of w) r ->
  solid (tree_of w) (resolve (flag_string pu "runtime-dir" defaultRuntimeDir)) ->
  (forall p b, r = p ++ [b] -> ~ temp_like b) ->
  runUp catalog up_args w = (Ok tt, w1) ->
  only_under r (tree_of w1) (tree_of w2) -> solid (tree_of w2) (r ++ [injection.markerName]) ->
  runDown down_args w2 = (Ok tt, w3) ->
  restored (tree_of w) (tree_of w3) r.
Proof.
  intros root r Hpu Hpd Hroot Hlinks Hsrc Hname Hup Hu Hs Hdown.
  apply (runUp_prepares _ _ _ _ _ Hpu) in Hup as (config & lay & wp & Hprep & Ep).
  apply (runDown_removes _ _ _ _ Hpd) in Hdown as (wd & Hdown & Ed). fold root in Hprep. rewrite Hroot in Hdown.
  pose proof (Prepare_run root _ config r _ eq_refl eq_refl w Hlinks Hsrc Hname) as Hr.
  unfold post in Hr. rewrite Hprep in Hr. destruct Hr as (Hkept & _). cbn [fst snd is_ok] in Hkept. rewrite <- Ep in Hkept.
  pose proof (Down_run root r eq_refl w2 Hs) as Hd. unfold post in Hd. rewrite Hdown in Hd. cbn [fst snd] in Hd.
  rewrite Ed. assert (tree_of wd = prune r (tree_of w2)) as ->; [| by eapply pruned_restores].
  destruct Hd as [[Hnone ->] | (_ & _ & ->)]; [| done].
  apply map_eq. intros q. rewrite lookup_prune. destruct (decide _) as [[k ->] |]; [| done].
  apply absent_below; [apply tree_wf | done].
Qed.
End commands.

(** ** Witness *)
Definition host_tree_of (h : Host) : tree := disk_tree (host_disk h).

Lemma on_host_tree {A : Type} (m : M disk.Disk A) (h : Host) :
  host_tree_of (on_host m h).2 = disk_tree (m (host_disk h)).2 /\ (on_host m h).1 = (m (host_disk h)).1.
Proof. unfold on_host, host_tree_of. by destruct (m (host_disk h)). Qed.

Lemma on_host_reads {A : Type} (m : M disk.Disk A) (h : Host) P : reads disk_tree m (host_disk h) P -> reads host_tree_of (on_host m) h P.
Proof. unfold reads. by destruct (on_host_tree m h) as [-> ->]. Qed.

Lemma on_host_writes {A : Type} (m : M disk.Disk A) (h : Host) P : writes disk_tree m (host_disk h) P -> writes host_tree_of (on_host m) h P.
Proof. unfold writes. by destruct (on_host_tree m h) as [-> ->]. Qed.

#[export] Instance host_lawful : LawfulFiles Host.
Proof.
  refine {| tree_of := host_tree_of; umask := @umask disk.Disk _ _; cwd := @cwd disk.Disk _ _ |}.
  - intros w. exact (tree_wf (W:=disk.Disk) (host_disk w)).
  - exact (cwd_abs (W:=disk.Disk)).
  - intros w. apply on_host_reads. exact (getwd_law (W:=disk.Disk) (host_disk w)).
  - intros l w Hr. apply on_host_reads. exact (lstat_law (W:=disk.Disk) l (host_disk w) Hr).
  - intros path w. etransitivity; [apply on_host_tree | exact (lstat_same (W:=disk.Disk) path (host_disk w))].
  - intros path w. etransitivity; [apply on_host_tree | exact (stat_same (W:=disk.Disk) path (host_disk w))].
  - intros l w Hr Hn. change (is_ok (on_host (stat (abs_path l)) w).1 = false).
    rewrite (proj2 (on_host_tree _ _)). by apply (stat_law (W:=disk.Disk)).
  - intros l w Hr. apply on_host_reads. exact (read_file_law (W:=disk.Disk) l (host_disk w) Hr).
  - intros l w Hr. apply on_host_reads. exact (read_dir_law (W:=disk.Disk) l (host_disk w) Hr).
  - intros l w Hr. apply on_host_reads. exact (readlink_law (W:=disk.Disk) l (host_disk w) Hr).
  - intros l perm w Hr. apply on_host_writes. exact (mkdir_all_law (W:=disk.Disk) l perm (host_disk w) Hr).
  - intros l pattern w Hr. apply on_host_writes. exact (mkdir_temp_law (W:=disk.Disk) l pattern (host_disk w) Hr).
  - intros l pattern w Hr. apply on_host_writes. exact (create_temp_law (W:=disk.Disk) l pattern (host_disk w) Hr).
  - intros l content perm w Hr. apply on_host_writes. exact (write_file_law (W:=disk.Disk) l content perm (host_disk w) Hr).
  - intros target l w Hr. apply on_host_writes. exact (symlink_law (W:=disk.Disk) target l (host_disk w) Hr).
  - intros l perm dev w Hr. apply on_host_writes. exact (mknod_law (W:=disk.Disk) l perm dev (host_disk w) Hr).
  - intros l l2 w Hr Hr2 Hl Hl2. apply on_host_writes. exact (rename_law (W:=disk.Disk) l l2 (host_disk w) Hr Hr2 Hl Hl2).
  - intros l w Hr. apply on_host_writes. exact (remove_law (W:=disk.Disk) l (host_disk w) Hr).
  - intros l w Hr. apply on_host_writes. exact (remove_all_law (W:=disk.Disk) l (host_disk w) Hr).
  - intros path w. etransitivity; [apply on_host_tree | exact (open_read_law (W:=disk.Disk) path (host_disk w))].
  - intros path w. etransitivity; [apply on_host_tree | exact (file_close_law (W:=disk.Disk) path (host_disk w))].
  - intros l perm w Hr. apply on_host_writes. exact (create_excl_law (W:=disk.Disk) l perm (host_disk w) Hr).
  - intros l src w p c q content Hr Hrs Hl Hsrc. apply on_host_writes. exact (io_copy_law (W:=disk.Disk) l src (host_disk w) p c q content Hr Hrs Hl Hsrc).
  - intros l content w p Hr Hl. apply on_host_writes. exact (file_write_law (W:=disk.Disk) l content (host_disk w) p Hr Hl).
  - intros l perm w p c Hr Hl. apply on_host_writes. exact (file_chmod_law (W:=disk.Disk) l perm (host_disk w) p c Hr Hl).
Defined.

Definition demo_up : list string := ["--profile"; "rtx4090-24gb"; "--root"; "/srv/new/gpu"].
Definition demo_down : list string := ["--root=/srv/new/gpu"].
Definition demo_after_up : Host := (runUp (Some demo_catalog) demo_up demo_host).2.
Definition flags_of (fs : FlagSet) (args : list string) : Parsed :=
  match Parse fs args with Ok p => p | Err _ => {| actual := ∅; flag_args := [] |} end.

Lemma demo_up_ok : runUp (Some demo_catalog) demo_up demo_host = (Ok tt, demo_after_up).
Proof.
  assert (is_ok (runUp (Some demo_catalog) demo_up demo_host).1 = true) as Hok by (vm_compute; reflexivity).
  unfold demo_after_up. by destruct (runUp (Some demo_catalog) demo_up demo_host) as [[[] | e] h].
Qed.

Lemma demo_down_ok : runDown demo_down demo_after_up = (Ok tt, (runDown demo_down demo_after_up).2).
Proof.
  assert (is_ok (runDown demo_down demo_after_up).1 = true) as Hok by (vm_compute; reflexivity).
  by destruct (runDown demo_down demo_after_up) as [[[] | e] h].
Qed.

Lemma demo_paths : no_links (host_tree_of demo_host) (resolve "/srv/new/gpu") /\ solid (host_tree_of demo_host) (resolve "/rt") /\
  solid (host_tree_of demo_after_up) (resolve "/srv/new/gpu" ++ [markerName]).
Proof.
  split; [split |]; [apply clear_way_solid; vm_compute; reflexivity | | split; apply clear_way_solid; vm_compute; reflexivity].
  apply (proj1 (clear_way_solid (host_tree_of demo_host) (resolve "/srv/new/gpu" ++ overrides_rel) ltac:(vm_compute; reflexivity))).
Qed.

Lemma demo_root_name p b : resolve "/srv/new/gpu" = p ++ [b] -> ~ temp_like b.
Proof. change (resolve "/srv/new/gpu") with (["srv"; "new"] ++ ["gpu"]). by intros [_ <-]%app_inj_tail. Qed.

Lemma demo_stdout_keeps text (h : Host) : host_tree_of (stdout_write text h).2 = host_tree_of h.
Proof. reflexivity. Qed.

Lemma up_down_roundtrip_witness : restored (host_tree_of demo_host) (host_tree_of (runDown demo_down demo_after_up).2) (resolve "/srv/new/gpu").
Proof.
  apply (@up_down_roundtrip Host host_os host_console host_files host_lawful demo_stdout_keeps (Some demo_catalog) demo_up demo_down (flags_of up_flags demo_up) (flags_of down_flags demo_down)
    demo_host demo_after_up demo_after_up (runDown demo_down demo_after_up).2 ltac:(reflexivity) ltac:(reflexivity) ltac:(reflexivity)
    (proj1 demo_paths) (proj1 (proj2 demo_paths)) demo_root_name demo_up_ok (only_under_refl _ _) (proj2 (proj2 demo_paths)) demo_down_ok).
Defined.
End up_down.
