(* ===== verification/NvmlPmon.v ===== *)
(** * Per-process utilisation from NVML: [internal/nvmlpmon/collect_linux.go]

    The C statics are the record [Loader]; the dynamic loader, the functions
    of the library and [malloc] are the class [Native].  A symbol is its
    address.  A C function that fills an output parameter returns what it
    leaves there. *)
From S2P Require Import Prelude GoStrings GoStrconv GoJson Pmon.

Module nvmlpmon.
Import pmon.

Record NvmlSample := { pid : Z; smUtil : Z; memUtil : Z; encUtil : Z; decUtil : Z }.

Class Native (W : Type) := {
  dlopen : string -> W -> (option Z * option string) * W;          (* the handle; what [dlerror] then says *)
  dlsym : Z -> string -> W -> (option Z * option string) * W;
  dlclose : Z -> W -> W;
  call_init : Z -> W -> Z * W;
  call_shutdown : Z -> W -> Z * W;
  call_count : Z -> Z -> W -> (Z * Z) * W;                          (* return code, count *)
  call_handle : Z -> Z -> W -> (Z * Z) * W;                         (* return code, device *)
  (* device, capacity ([None]: no buffer), count: return code, count, the buffer's first [count] samples *)
  call_utilization : Z -> Z -> option Z -> Z -> W -> (Z * Z * list NvmlSample) * W;
  call_name : Z -> Z -> Z -> W -> (Z * string) * W;                 (* return code, the buffer as a C string *)
  malloc : Z -> W -> bool
}.

Definition NVML_SUCCESS : Z := 0.
Definition NVML_ERROR_FUNCTION_NOT_FOUND : Z := 13.
Definition processNameBufferSize : Z := 4096.

(** The static variables of the C part. *)
Record Loader := {
  nvml_lib : option Z;
  p_nvmlInit : option Z;
  p_nvmlShutdown : option Z;
  p_nvmlDeviceGetCount : option Z;
  p_nvmlDeviceGetHandleByIndex : option Z;
  p_nvmlDeviceGetProcessUtilization : option Z;
  p_nvmlSystemGetProcessName : option Z;
  nvml_error : string
}.

Definition with_error (text : string) (l : Loader) : Loader := {|
  nvml_lib := nvml_lib l; p_nvmlInit := p_nvmlInit l; p_nvmlShutdown := p_nvmlShutdown l;
  p_nvmlDeviceGetCount := p_nvmlDeviceGetCount l; p_nvmlDeviceGetHandleByIndex := p_nvmlDeviceGetHandleByIndex l;
  p_nvmlDeviceGetProcessUtilization := p_nvmlDeviceGetProcessUtilization l;
  p_nvmlSystemGetProcessName := p_nvmlSystemGetProcessName l; nvml_error := text |}.

Definition with_lib (lib : option Z) (l : Loader) : Loader := {|
  nvml_lib := lib; p_nvmlInit := p_nvmlInit l; p_nvmlShutdown := p_nvmlShutdown l;
  p_nvmlDeviceGetCount := p_nvmlDeviceGetCount l; p_nvmlDeviceGetHandleByIndex := p_nvmlDeviceGetHandleByIndex l;
  p_nvmlDeviceGetProcessUtilization := p_nvmlDeviceGetProcessUtilization l;
  p_nvmlSystemGetProcessName := p_nvmlSystemGetProcessName l; nvml_error := nvml_error l |}.

(** [snprintf] into 512 bytes. *)
Definition set_nvml_error (text : option string) (l : Loader) : Loader :=
  with_error (take_bytes 511 (default "unknown dynamic loader error" text)) l.

(** The loader's state and the world. *)
Definition NS (W : Type) : Type := Loader * W.

Section native.
Context {W : Type} `{Native W}.

(** ** The loader *)
Definition required_symbol (lib : Z) (name : string) (s : NS W) : option Z * NS W :=
  let '(l, w) := s in
  let '((symbol, err), w1) := dlsym lib name w in
  match err with
  | Some text => (None, (set_nvml_error (Some text) l, w1))
  | None => (symbol, (l, w1))
  end.

Definition optional_symbol (lib : Z) (primary : string) (fallback : option string) (s : NS W) : option Z * NS W :=
  let '(l, w) := s in
  let '((symbol, err), w1) := dlsym lib primary w in
  match symbol, err with
  | Some p, None => (Some p, (l, w1))
  | _, _ =>
      match fallback with
      | None => (None, (l, w1))
      | Some name =>
          let '((symbol, err), w2) := dlsym lib name w1 in
          (match err with Some _ => None | None => symbol end, (l, w2))
      end
  end.

(** The library under its versioned name, or the plain one. *)
Definition open_library (s : NS W) : option Z * NS W :=
  let '(l, w) := s in
  let l := with_error "" l in
  let '((lib, err), w1) := dlopen "libnvidia-ml.so.1" w in
  match lib with
  | Some h => (Some h, (l, w1))
  | None =>
      let '((lib, err), w2) := dlopen "libnvidia-ml.so" w1 in
      match lib with
      | Some h => (Some h, (l, w2))
      | None => (None, (set_nvml_error err l, w2))
      end
  end.

Definition is_null (p : option Z) : bool := match p with None => true | Some _ => false end.

(** The five symbols without which the library is closed again. *)
Definition symbol_missing (l : Loader) : bool :=
  is_null (p_nvmlInit l) || is_null (p_nvmlShutdown l) || is_null (p_nvmlDeviceGetCount l) ||
  is_null (p_nvmlDeviceGetHandleByIndex l) || is_null (p_nvmlDeviceGetProcessUtilization l).

Definition resolve_symbols (lib : Z) (s : NS W) : NS W :=
  let '(init, s) := optional_symbol lib "nvmlInit_v2" (Some "nvmlInit") s in
  let '(shutdown, s) := required_symbol lib "nvmlShutdown" s in
  let '(count, s) := optional_symbol lib "nvmlDeviceGetCount_v2" (Some "nvmlDeviceGetCount") s in
  let '(handle, s) := optional_symbol lib "nvmlDeviceGetHandleByIndex_v2" (Some "nvmlDeviceGetHandleByIndex") s in
  let '(utilization, s) := required_symbol lib "nvmlDeviceGetProcessUtilization" s in
  let '(name, s) := optional_symbol lib "nvmlSystemGetProcessName" None s in
  ({| nvml_lib := Some lib; p_nvmlInit := init; p_nvmlShutdown := shutdown; p_nvmlDeviceGetCount := count;
      p_nvmlDeviceGetHandleByIndex := handle; p_nvmlDeviceGetProcessUtilization := utilization;
      p_nvmlSystemGetProcessName := name; nvml_error := nvml_error s.1 |}, s.2).

Definition fnvml_open (s : NS W) : Z * NS W :=
  match nvml_lib s.1 with
  | Some _ => (0, s)
  | None =>
      match open_library s with
      | (None, s) => (-1, (with_lib None s.1, s.2))
      | (Some lib, s) =>
          let '(l, w) := resolve_symbols lib s in
          if symbol_missing l then
            let l := if String.eqb (nvml_error l) "" then set_nvml_error (Some "required NVML symbol is unavailable") l else l in
            (-1, (with_lib None l, dlclose lib w))
          else (0, (l, w))
      end
  end.

Definition fnvml_error (s : NS W) : string := nvml_error s.1.

(** A call through a pointer that is null does not happen after a
    successful open; it would crash. *)
Definition address (p : option Z) : Z := default 0 p.

Definition fnvml_init (s : NS W) : Z * NS W :=
  let '(ret, w) := call_init (address (p_nvmlInit s.1)) s.2 in (ret, (s.1, w)).
Definition fnvml_shutdown (s : NS W) : Z * NS W :=
  match p_nvmlShutdown s.1 with
  | None => (NVML_SUCCESS, s)
  | Some p => let '(ret, w) := call_shutdown p s.2 in (ret, (s.1, w))
  end.
Definition fnvml_device_count (count : Z) (s : NS W) : (Z * Z) * NS W :=
  let '(r, w) := call_count (address (p_nvmlDeviceGetCount s.1)) count s.2 in (r, (s.1, w)).
Definition fnvml_device_handle (index : Z) (s : NS W) : (Z * Z) * NS W :=
  let '(r, w) := call_handle (address (p_nvmlDeviceGetHandleByIndex s.1)) index s.2 in (r, (s.1, w)).
Definition fnvml_process_utilization (device : Z) (capacity : option Z) (count : Z) (s : NS W) : (Z * Z * list NvmlSample) * NS W :=
  let '(r, w) := call_utilization (address (p_nvmlDeviceGetProcessUtilization s.1)) device capacity count s.2 in (r, (s.1, w)).
Definition fnvml_process_name (pid length : Z) (s : NS W) : (Z * string) * NS W :=
  match p_nvmlSystemGetProcessName s.1 with
  | None => ((NVML_ERROR_FUNCTION_NOT_FOUND, ""), s)
  | Some p => let '(r, w) := call_name p pid length s.2 in (r, (s.1, w))
  end.

Definition fnvml_close (s : NS W) : NS W :=
  let w := match nvml_lib s.1 with Some lib => dlclose lib s.2 | None => s.2 end in
  ({| nvml_lib := None; p_nvmlInit := None; p_nvmlShutdown := None; p_nvmlDeviceGetCount := None;
      p_nvmlDeviceGetHandleByIndex := None; p_nvmlDeviceGetProcessUtilization := None;
      p_nvmlSystemGetProcessName := None; nvml_error := nvml_error s.1 |}, w).

(** ** [Collect] *)
Definition processName (pid : Z) (s : NS W) : string * NS W :=
  if negb (malloc processNameBufferSize s.2) then ("", s) else
  let '((ret, name), s) := fnvml_process_name pid processNameBufferSize s in
  (if negb (ret =? 0) then "" else name, s).

Fixpoint to_samples (index : Z) (samples : list NvmlSample) (s : NS W) : list Sample * NS W :=
  match samples with
  | [] => ([], s)
  | sample :: rest =>
      let '(name, s) := processName (pid sample) s in
      let '(result_, s) := to_samples index rest s in
      ({| GPUIndex := index; s_PID := pid sample; s_Type := "C"; s_SMUtil := smUtil sample; s_MemoryUtil := memUtil sample;
          s_EncoderUtil := encUtil sample; s_DecoderUtil := decUtil sample; s_Name := name |} :: result_, s)
  end.

Definition sample_size : Z := 32.

(** One turn of the loop over the devices. *)
Definition collect_device (index : Z) : M (NS W) (list Sample) := fun s =>
  let '((ret, device), s) := fnvml_device_handle index s in
  if negb (ret =? 0) then (Err (Errorf "nvmlDeviceGetHandleByIndex(%d): return code %d" [AZ index; AZ ret]), s) else
  let '((probeRet, sampleCount, _), s) := fnvml_process_utilization device None 0 s in
  let probe_failed := (Err (Errorf "nvmlDeviceGetProcessUtilization(%d) probe: return code %d" [AZ index; AZ probeRet]), s) in
  if sampleCount =? 0 then (if negb (probeRet =? 0) then probe_failed else (Ok [], s)) else
  if negb (probeRet =? 0) && negb (probeRet =? 7) then probe_failed else
  if negb (malloc (sampleCount * sample_size) s.2) then (Err (Errorf "allocate %d NVML process samples" [AZ sampleCount]), s) else
  let '((ret, fillCount, samples), s) := fnvml_process_utilization device (Some sampleCount) sampleCount s in
  if negb (ret =? 0) then (Err (Errorf "nvmlDeviceGetProcessUtilization(%d): return code %d" [AZ index; AZ ret]), s) else
  let '(result_, s) := to_samples index samples s in (Ok result_, s).

Fixpoint collect_from (index : Z) (remaining : nat) : M (NS W) (list Sample) :=
  match remaining with
  | O => mret []
  | S n => here ← collect_device index; rest ← collect_from (index + 1) n; mret (here ++ rest)
  end.

(** A function whose deferred call runs whatever it returns. *)
Definition deferring {A} (body : M (NS W) A) (deferred : NS W -> NS W) : M (NS W) A := fun s => let '(r, s) := body s in (r, deferred s).

Definition Collect : M (NS W) (list Sample) := fun s =>
  let '(opened, s) := fnvml_open s in
  if negb (opened =? 0) then (Err (Errorf "load NVML: %s" [AS (fnvml_error s)]), s) else
  deferring (fun s =>
    let '(ret, s) := fnvml_init s in
    if negb (ret =? 0) then (Err (Errorf "nvmlInit: return code %d" [AZ ret]), s) else
    deferring (fun s =>
      let '((ret, deviceCount), s) := fnvml_device_count 0 s in
      if negb (ret =? 0) then (Err (Errorf "nvmlDeviceGetCount: return code %d" [AZ ret]), s) else
      collect_from 0 (Z.to_nat deviceCount) s) (fun s => (fnvml_shutdown s).2) s) fnvml_close s.
End native.

(** Without Linux and cgo ([collect_stub.go]). *)
Definition Collect_stub {W : Type} : M W (list Sample) := throw (Errorf "NVML pmon collection requires linux with cgo enabled" []).
End nvmlpmon.
