(* ===== verification/SmiWrapper.v ===== *)
(** * The [nvidia-smi] wrapper: [cmd/nvidia-smi-wrapper/main.go]

    One-shot [pmon] is answered from NVML; every other command line goes to
    the real binary beside the wrapper.  The text of an error ([%v]) is a
    parameter. *)
From S2P Require Import Prelude GoStrings GoPath Pmon NvmlPmon.

Module smi_wrapper.
Import filepath pmon nvmlpmon.

(** What [Cmd.Run] returns. *)
Inductive RunError := ExitError (code : Z) | OtherError (e : error).

Section wrapper.
Context {W : Type} `{Native W} (error_text : error -> string).
(** The process's output streams, its own path, and running a command with
    the same streams and environment. *)
Context (stdout_write stderr_write : string -> M (NS W) unit) (os_Executable : M (NS W) string).
Context (run_command : string -> list string -> NS W -> option RunError * NS W).

(** [Fprintf(stderr, ...)], whose error is ignored. *)
Definition print_error (text : string) (s : NS W) : NS W := (stderr_write (text +:+ chr newline) s).2.

Definition delegate (args : list string) (s : NS W) : Z * NS W :=
  match os_Executable s with
  | (Err e, s) => (1, print_error ("resolve nvidia-smi wrapper path: " +:+ error_text e) s)
  | (Ok executable, s) =>
      let realBinary := path_join [Dir executable; "nvidia-smi.real"] in
      match run_command realBinary args s with
      | (None, s) => (0, s)
      | (Some (ExitError code), s) => (code, s)
      | (Some (OtherError e), s) => (1, print_error ("run " +:+ realBinary +:+ ": " +:+ error_text e) s)
      end
  end.

Definition run (args : list string) (s : NS W) : Z * NS W :=
  if Matches args then
    match Collect s with
    | (Err e, s) => (1, print_error ("nvidia-smi pmon compatibility: " +:+ error_text e) s)
    | (Ok samples, s) =>
        match Render stdout_write samples s with
        | (Err e, s) => (1, print_error ("nvidia-smi pmon compatibility: " +:+ error_text e) s)
        | (Ok _, s) => (0, s)
        end
    end
  else delegate args s.
End wrapper.
End smi_wrapper.
