(* ===== verification/NvmlSpec.v ===== *)
(** * What the collector and the wrapper promise

    [Accounted]: how often the library is open and initialised.  The
    collector leaves both as they were, whatever the library answers.
    [ServesNvml]: a library that lists devices and processes; the wrapper
    prints exactly the table that the observer expects of [nvidia-smi]. *)
From S2P Require Import Prelude GoStrings GoStrconv GoPath Pmon Control Observe NvmlPmon SmiWrapper.

Module nvml_spec.
Import control observe pmon nvmlpmon smi_wrapper.

(** How often the library is open, and initialised. *)
Record Usage := { opened : Z; started : Z }.
Definition open_one (n : Z) (u : Usage) : Usage := {| opened := opened u + n; started := started u |}.
Definition start_one (n : Z) (u : Usage) : Usage := {| opened := opened u; started := started u + n |}.

(** The library keeps these counts; its answers are arbitrary. *)
Class Accounted (W : Type) `{Native W} := {
  usage : W -> Usage;
  acc_dlopen name w : let '((lib, _), w1) := dlopen name w in
    usage w1 = match lib with Some _ => open_one 1 (usage w) | None => usage w end;
  acc_dlsym lib name w : usage (dlsym lib name w).2 = usage w;
  acc_dlclose lib w : usage (dlclose lib w) = open_one (-1) (usage w);
  acc_init p w : let '(ret, w1) := call_init p w in usage w1 = if ret =? 0 then start_one 1 (usage w) else usage w;
  acc_shutdown p w : usage (call_shutdown p w).2 = start_one (-1) (usage w);
  acc_count p n w : usage (call_count p n w).2 = usage w;
  acc_handle p i w : usage (call_handle p i w).2 = usage w;
  acc_utilization p d c n w : usage (call_utilization p d c n w).2 = usage w;
  acc_name p i n w : usage (call_name p i n w).2 = usage w
}.

Definition closed (l : Loader) : Prop := nvml_lib l = None.

Section balance.
Context {W : Type} `{Accounted W}.
Implicit Types (s : NS W) (l : Loader).

Definition count_of s : Usage := usage s.2.

(** An operation that leaves the loader and the counts alone. *)
Definition neutral s s' : Prop := s'.1 = s.1 /\ count_of s' = count_of s.
Lemma neutral_refl s : neutral s s. Proof. done. Qed.
Lemma neutral_trans s1 s2 s3 : neutral s1 s2 -> neutral s2 s3 -> neutral s1 s3.
Proof. intros [H1 H2] [H3 H4]. split; congruence. Qed.

Lemma optional_symbol_usage lib primary fallback s : count_of (optional_symbol lib primary fallback s).2 = count_of s.
Proof.
  destruct s as [l w]. unfold optional_symbol, count_of. pose proof (acc_dlsym lib primary w) as E1.
  destruct (dlsym lib primary w) as [[symbol err] w1]. cbn [snd] in *.
  assert (usage (match fallback with
    | None => (None, (l, w1))
    | Some name => let '((symbol, err), w2) := dlsym lib name w1 in (match err with Some _ => None | None => symbol end, (l, w2))
    end).2.2 = usage w) as Hf.
  { destruct fallback as [name |]; [| done]. pose proof (acc_dlsym lib name w1) as E2.
    destruct (dlsym lib name w1) as [[? ?] w2]. cbn [snd] in *. congruence. }
  by destruct symbol, err.
Qed.

Lemma required_symbol_usage lib name s : count_of (required_symbol lib name s).2 = count_of s.
Proof.
  destruct s as [l w]. unfold required_symbol, count_of. pose proof (acc_dlsym lib name w) as E1.
  destruct (dlsym lib name w) as [[symbol []] w1]; done.
Qed.

Lemma resolve_symbols_usage lib s : count_of (resolve_symbols lib s) = count_of s /\ nvml_lib (resolve_symbols lib s).1 = Some lib.
Proof.
  unfold resolve_symbols.
  repeat (match goal with
  | |- context [optional_symbol ?lib ?p ?f ?s] => pose proof (optional_symbol_usage lib p f s); destruct (optional_symbol lib p f s)
  | |- context [required_symbol ?lib ?p ?s] => pose proof (required_symbol_usage lib p s); destruct (required_symbol lib p s)
  end; cbn [snd] in * ).
  split; [| done]. unfold count_of in *. cbn. congruence.
Qed.

Lemma fnvml_open_usage s : closed s.1 -> let '(ret, s') := fnvml_open s in
  (ret = 0 /\ ((exists lib, nvml_lib s'.1 = Some lib) /\ symbol_missing s'.1 = false) /\ count_of s' = open_one 1 (count_of s)) \/
  (ret = -1 /\ closed s'.1 /\ count_of s' = count_of s).
Proof.
  destruct s as [l w]. unfold closed, fnvml_open. cbn [fst snd]. intros ->. unfold open_library.
  assert (forall lib w1, usage w1 = open_one 1 (usage w) ->
    let '(ret, s') := (let '(l, w) := resolve_symbols lib (with_error "" l, w1) in
      if symbol_missing l then
        let l := if String.eqb (nvml_error l) "" then set_nvml_error (Some "required NVML symbol is unavailable") l else l in
        (-1, (with_lib None l, dlclose lib w))
      else (0, (l, w))) in
    (ret = 0 /\ ((exists lib, nvml_lib s'.1 = Some lib) /\ symbol_missing s'.1 = false) /\ count_of s' = open_one 1 (count_of (l, w))) \/
    (ret = -1 /\ nvml_lib s'.1 = None /\ count_of s' = count_of (l, w))) as Hopen.
  { intros lib w1 E1. destruct (resolve_symbols_usage lib (with_error "" l, w1)) as [Eu El].
    destruct (resolve_symbols lib (with_error "" l, w1)) as [l2 w2]. unfold count_of in *. cbn [fst snd] in *. rewrite E1 in Eu.
    destruct (symbol_missing l2) eqn:Em; [right | left; eauto]. split; [done |]. split; [done |].
    cbn [snd]. rewrite acc_dlclose, Eu. unfold open_one. destruct (usage w). cbn. f_equal. lia. }
  pose proof (acc_dlopen "libnvidia-ml.so.1" w) as E1. destruct (dlopen "libnvidia-ml.so.1" w) as [[[lib |] err] w1].
  - by apply Hopen.
  - pose proof (acc_dlopen "libnvidia-ml.so" w1) as E2. destruct (dlopen "libnvidia-ml.so" w1) as [[[lib |] err2] w2].
    + rewrite E1 in E2. by apply Hopen.
    + right. split; [done |]. split; [done |]. unfold count_of. cbn [snd]. congruence.
Qed.

(** Calls that only ask. *)
Lemma processName_neutral pid s : neutral s (processName pid s).2.
Proof.
  unfold processName. destruct (negb _); [apply neutral_refl |]. unfold fnvml_process_name.
  destruct (p_nvmlSystemGetProcessName s.1) as [p |]; [| apply neutral_refl]. pose proof (acc_name p pid processNameBufferSize s.2) as E.
  destruct (call_name _ _ _ _) as [[ret name] w]. by split.
Qed.

Lemma to_samples_neutral index samples s : neutral s (to_samples index samples s).2.
Proof.
  revert s. induction samples as [| x samples IH]; intros s; [apply neutral_refl |]. cbn [to_samples].
  pose proof (processName_neutral (pid x) s) as H1. destruct (processName (pid x) s) as [name s1].
  pose proof (IH s1) as H2. destruct (to_samples index samples s1) as [rest s2]. by eapply neutral_trans.
Qed.

Lemma fnvml_process_utilization_neutral device capacity count s : neutral s (fnvml_process_utilization device capacity count s).2.
Proof.
  unfold fnvml_process_utilization. pose proof (acc_utilization (address (p_nvmlDeviceGetProcessUtilization s.1)) device capacity count s.2) as E.
  destruct (call_utilization _ _ _ _ _) as [r w]. by split.
Qed.

Lemma collect_device_neutral index s : neutral s (collect_device index s).2.
Proof.
  unfold collect_device, fnvml_device_handle. pose proof (acc_handle (address (p_nvmlDeviceGetHandleByIndex s.1)) index s.2) as E1.
  destruct (call_handle _ _ _) as [[ret device] w1]. assert (neutral s (s.1, w1)) as H1 by (by split). revert H1. generalize (s.1, w1) as s1. clear E1. intros s1 H1.
  destruct (negb (ret =? 0)); [done |].
  pose proof (fnvml_process_utilization_neutral device None 0 s1) as H2. destruct (fnvml_process_utilization device None 0 s1) as [[[probeRet n] buf] s2].
  cbn [snd] in H2. assert (neutral s s2) as H3 by (by eapply neutral_trans).
  destruct (n =? 0); [by destruct (negb _) |]. destruct (_ && _); [done |]. destruct (negb (malloc _ _)); [done |].
  pose proof (fnvml_process_utilization_neutral device (Some n) n s2) as H4. destruct (fnvml_process_utilization device (Some n) n s2) as [[[ret2 fill] samples] s3].
  cbn [snd] in H4. assert (neutral s s3) as H5 by (by eapply neutral_trans). destruct (negb _); [done |].
  pose proof (to_samples_neutral index samples s3) as H6. destruct (to_samples index samples s3) as [out s4]. by eapply neutral_trans.
Qed.

Lemma collect_from_neutral index n s : neutral s (collect_from index n s).2.
Proof.
  revert index s. induction n as [| n IH]; intros index s; [apply neutral_refl |]. cbn [collect_from]. unfold mbind, M_bind.
  pose proof (collect_device_neutral index s) as H1. destruct (collect_device index s) as [[here | e] s1]; [| done].
  pose proof (IH (index + 1) s1) as H2. destruct (collect_from (index + 1) n s1) as [[rest | e] s2]; by eapply neutral_trans.
Qed.

(** C21. The collector gives back what it takes, whatever the library answers
    and wherever it fails: afterwards the library is closed as often as it
    was opened, initialised as often as it was shut down, and no handle of it
    is left, so the next call starts afresh. *)
Theorem Collect_balanced s : closed s.1 -> let '(r, s') := Collect s in closed s'.1 /\ usage s'.2 = usage s.2.
Proof.
  intros Hc. unfold Collect. pose proof (fnvml_open_usage s Hc) as Ho. destruct (fnvml_open s) as [ret s1].
  destruct Ho as [(-> & [[lib Hlib] Hsym] & E1) | (-> & Hc1 & E1)]; [| done]. cbn [Z.eqb negb]. unfold deferring.
  unfold fnvml_init. pose proof (acc_init (address (p_nvmlInit s1.1)) s1.2) as E2. destruct (call_init _ _) as [ret2 w2].
  assert (forall s2 : NS W, s2.1 = s1.1 -> count_of s2 = count_of s1 -> closed (fnvml_close s2).1 /\ usage (fnvml_close s2).2 = usage s.2) as Hclose.
  { intros s2 El Eu. split; [done |]. unfold fnvml_close. cbn [snd]. rewrite El, Hlib, acc_dlclose. unfold count_of in *.
    rewrite Eu, E1. unfold open_one. destruct (usage s.2). cbn. f_equal. lia. }
  destruct (ret2 =? 0) eqn:Er; cbn [negb]; [| by apply Hclose].
  unfold symbol_missing in Hsym. destruct (p_nvmlShutdown s1.1) as [ps |] eqn:Ep; [| by rewrite orb_true_r in Hsym].
  assert (forall s2 : NS W, neutral (s1.1, w2) s2 -> let s3 := (fnvml_shutdown s2).2 in closed (fnvml_close s3).1 /\ usage (fnvml_close s3).2 = usage s.2) as Hend.
  { intros s2 [El Eu]. cbv zeta. unfold fnvml_shutdown. cbn [fst] in El. rewrite El, Ep. pose proof (acc_shutdown ps s2.2) as E3.
    destruct (call_shutdown ps s2.2) as [ret3 w3]. cbn [snd] in *. apply Hclose; [done |]. unfold count_of in *. cbn [snd] in *.
    rewrite E3, Eu, E2. unfold start_one. destruct (usage s1.2). cbn. f_equal. lia. }
  unfold fnvml_device_count. pose proof (acc_count (address (p_nvmlDeviceGetCount (s1.1, w2).1)) 0 (s1.1, w2).2) as E3.
  destruct (call_count _ _ _) as [[ret3 n] w3]. cbn [fst snd] in *.
  assert (neutral (s1.1, w2) (s1.1, w3)) as Hn by (by split).
  destruct (negb (ret3 =? 0)); [by apply (Hend (s1.1, w3)) |].
  pose proof (collect_from_neutral 0 (Z.to_nat n) (s1.1, w3)) as H4. destruct (collect_from _ _ _) as [r s4].
  apply (Hend s4). by eapply neutral_trans.
Qed.
End balance.

(** ** A library that lists devices and processes *)
Class ServesNvml (W : Type) `{Native W} := {
  view : W -> list (list NvmlSample);      (* the processes of every device *)
  name_of : Z -> string;                   (* empty where the library has none *)
  srv_lib : Z;
  srv_sym : string -> Z;
  srv_device : Z -> Z;
  srv_open w : exists err w1, dlopen "libnvidia-ml.so.1" w = ((Some srv_lib, err), w1) /\ view w1 = view w;
  srv_resolves name w : exists w1, dlsym srv_lib name w = ((Some (srv_sym name), None), w1) /\ view w1 = view w;
  srv_init w : exists w1, call_init (srv_sym "nvmlInit_v2") w = (0, w1) /\ view w1 = view w;
  srv_count n w : exists w1, call_count (srv_sym "nvmlDeviceGetCount_v2") n w = ((0, Z.of_nat (length (view w))), w1) /\ view w1 = view w;
  srv_handle i w : (i < length (view w))%nat ->
    exists w1, call_handle (srv_sym "nvmlDeviceGetHandleByIndex_v2") (Z.of_nat i) w = ((0, srv_device (Z.of_nat i)), w1) /\ view w1 = view w;
  (* the size is asked for without a buffer; 7 is NVML_ERROR_INSUFFICIENT_SIZE *)
  srv_probe i samples w : view w !! i = Some samples -> exists ret w1,
    call_utilization (srv_sym "nvmlDeviceGetProcessUtilization") (srv_device (Z.of_nat i)) None 0 w =
      ((ret, Z.of_nat (length samples), []), w1) /\ view w1 = view w /\ (ret = 0 \/ ret = 7) /\ (samples = [] -> ret = 0);
  srv_fill i samples w : view w !! i = Some samples -> let n := Z.of_nat (length samples) in exists w1,
    call_utilization (srv_sym "nvmlDeviceGetProcessUtilization") (srv_device (Z.of_nat i)) (Some n) n w =
      ((0, n, samples), w1) /\ view w1 = view w;
  srv_name id w : exists ret text w1, call_name (srv_sym "nvmlSystemGetProcessName") id processNameBufferSize w = ((ret, text), w1) /\
    view w1 = view w /\ (if ret =? 0 then text else "") = name_of id;
  srv_malloc n w : malloc n w = true
}.

Definition listed `{ServesNvml W} (index : Z) (x : NvmlSample) : Sample := {|
  GPUIndex := index; s_PID := pid x; s_Type := "C"; s_SMUtil := smUtil x; s_MemoryUtil := memUtil x;
  s_EncoderUtil := encUtil x; s_DecoderUtil := decUtil x; s_Name := name_of (pid x) |}.

(** The samples of the devices from [i] on. *)
Fixpoint listing `{ServesNvml W} (i : nat) (devices : list (list NvmlSample)) : list Sample :=
  match devices with [] => [] | samples :: rest => map (listed (Z.of_nat i)) samples ++ listing (S i) rest end.

Section serves.
Context {W : Type} `{ServesNvml W}.
Implicit Types (s : NS W) (l : Loader).

(** The loader after a successful open. *)
Definition loaded l : Prop :=
  p_nvmlInit l = Some (srv_sym "nvmlInit_v2") /\ p_nvmlDeviceGetCount l = Some (srv_sym "nvmlDeviceGetCount_v2") /\
  p_nvmlDeviceGetHandleByIndex l = Some (srv_sym "nvmlDeviceGetHandleByIndex_v2") /\
  p_nvmlDeviceGetProcessUtilization l = Some (srv_sym "nvmlDeviceGetProcessUtilization") /\
  p_nvmlSystemGetProcessName l = Some (srv_sym "nvmlSystemGetProcessName").

Lemma optional_found primary fallback l w : exists w1, optional_symbol srv_lib primary fallback (l, w) = (Some (srv_sym primary), (l, w1)) /\ view w1 = view w.
Proof. destruct (srv_resolves primary w) as (w1 & E & Hv). exists w1. unfold optional_symbol. by rewrite E. Qed.
Lemma required_found name l w : exists w1, required_symbol srv_lib name (l, w) = (Some (srv_sym name), (l, w1)) /\ view w1 = view w.
Proof. destruct (srv_resolves name w) as (w1 & E & Hv). exists w1. unfold required_symbol. by rewrite E. Qed.

Lemma fnvml_open_loads s : closed s.1 -> exists l w, fnvml_open s = (0, (l, w)) /\ loaded l /\ view w = view s.2.
Proof.
  destruct s as [l w]. unfold closed, fnvml_open, open_library. cbn [fst snd]. intros ->.
  destruct (srv_open w) as (err & w1 & -> & E1). unfold resolve_symbols.
  destruct (optional_found "nvmlInit_v2" (Some "nvmlInit") (with_error "" l) w1) as (w2 & -> & E2).
  destruct (required_found "nvmlShutdown" (with_error "" l) w2) as (w3 & -> & E3).
  destruct (optional_found "nvmlDeviceGetCount_v2" (Some "nvmlDeviceGetCount") (with_error "" l) w3) as (w4 & -> & E4).
  destruct (optional_found "nvmlDeviceGetHandleByIndex_v2" (Some "nvmlDeviceGetHandleByIndex") (with_error "" l) w4) as (w5 & -> & E5).
  destruct (required_found "nvmlDeviceGetProcessUtilization" (with_error "" l) w5) as (w6 & -> & E6).
  destruct (optional_found "nvmlSystemGetProcessName" None (with_error "" l) w6) as (w7 & -> & E7).
  unfold symbol_missing. cbn [is_null p_nvmlInit p_nvmlShutdown p_nvmlDeviceGetCount p_nvmlDeviceGetHandleByIndex p_nvmlDeviceGetProcessUtilization orb].
  do 2 eexists. split; [reflexivity |]. split; [done |]. cbn [snd]. congruence.
Qed.

Lemma processName_listed id l w : loaded l -> exists w1, processName id (l, w) = (name_of id, (l, w1)) /\ view w1 = view w.
Proof.
  intros (_ & _ & _ & _ & Hn). unfold processName, fnvml_process_name. cbn [snd fst]. rewrite srv_malloc, Hn. cbn [negb].
  destruct (srv_name id w) as (ret & text & w1 & -> & Hv & <-). exists w1. by destruct (ret =? 0).
Qed.

Lemma to_samples_listed i samples l w : loaded l ->
  exists w1, to_samples (Z.of_nat i) samples (l, w) = (map (listed (Z.of_nat i)) samples, (l, w1)) /\ view w1 = view w.
Proof.
  intros Hl. revert w. induction samples as [| x samples IH]; intros w; [by exists w |]. cbn [to_samples map].
  destruct (processName_listed (pid x) l w Hl) as (w1 & -> & E1). destruct (IH w1) as (w2 & -> & E2). exists w2. split; [done | congruence].
Qed.

Lemma collect_device_listed i samples l w : loaded l -> view w !! i = Some samples ->
  exists w1, collect_device (Z.of_nat i) (l, w) = (Ok (map (listed (Z.of_nat i)) samples), (l, w1)) /\ view w1 = view w.
Proof.
  intros Hl Hi. pose proof Hl as (_ & _ & Hh & Hu & _). unfold collect_device, fnvml_device_handle. cbn [fst snd]. rewrite Hh. cbn [address default].
  destruct (srv_handle i w) as (w1 & E & Hv1); [by eapply lookup_lt_Some |]. unfold address. cbn [default from_option id]. rewrite E. cbn [Z.eqb negb].
  rewrite <- Hv1 in Hi. unfold fnvml_process_utilization. cbn [fst snd]. rewrite Hu. unfold address. cbn [default from_option id].
  destruct (srv_probe i samples w1 Hi) as (ret & w2 & E2 & Hv2 & Hret & Hnil). rewrite E2.
  rewrite <- Hv2 in Hi. destruct samples as [| x samples].
  - cbn [length Z.of_nat Z.eqb map]. rewrite Hnil by done. exists w2. split; [done | congruence].
  - assert ((Z.of_nat (length (x :: samples)) =? 0) = false) as -> by (apply Z.eqb_neq; cbn [length]; lia).
    assert (negb (ret =? 0) && negb (ret =? 7) = false) as -> by (destruct Hret as [-> | ->]; done). cbn [snd]. rewrite srv_malloc. cbn [negb fst].
    rewrite Hu. destruct (srv_fill i (x :: samples) w2 Hi) as (w3 & E3 & Hv3). cbn [default from_option id]. rewrite E3. cbn [Z.eqb negb].
    destruct (to_samples_listed i (x :: samples) l w3 Hl) as (w4 & -> & E4). exists w4. split; [done | congruence].
Qed.

Lemma collect_from_listed i l w : loaded l -> (i <= length (view w))%nat ->
  exists w1, collect_from (Z.of_nat i) (length (view w) - i) (l, w) = (Ok (listing i (drop i (view w))), (l, w1)).
Proof.
  intros Hl. remember (length (view w) - i)%nat as n eqn:En. revert i w En. induction n as [| n IH]; intros i w En Hi.
  - exists w. rewrite drop_ge by lia. done.
  - destruct (lookup_lt_is_Some_2 (view w) i) as [samples Hs]; [lia |]. cbn [collect_from]. unfold mbind, M_bind.
    destruct (collect_device_listed i samples l w Hl Hs) as (w1 & -> & Hv). replace (Z.of_nat i + 1) with (Z.of_nat (S i)) by lia.
    destruct (IH (S i) w1) as (w2 & ->); [rewrite Hv; lia | rewrite Hv; lia |]. exists w2. rewrite Hv.
    rewrite (drop_S (view w) samples i Hs). done.
Qed.

Lemma Collect_listing s : closed s.1 -> (Collect s).1 = Ok (listing 0 (view s.2)).
Proof.
  intros Hc. unfold Collect. destruct (fnvml_open_loads s Hc) as (l & w & -> & Hl & Hv). cbn [Z.eqb negb]. unfold deferring.
  pose proof Hl as (Hinit & Hcount & _). unfold fnvml_init. cbn [fst snd]. rewrite Hinit. unfold address. cbn [default from_option id].
  destruct (srv_init w) as (w1 & -> & E1). cbn [Z.eqb negb]. unfold fnvml_device_count. cbn [fst snd]. rewrite Hcount. unfold address. cbn [default from_option id].
  destruct (srv_count 0 w1) as (w2 & -> & E2). cbn [Z.eqb negb]. rewrite Nat2Z.id.
  destruct (collect_from_listed 0 l w2 Hl) as (w3 & E3); [lia |]. rewrite Nat.sub_0_r in E3. rewrite E2 in E3. change (Z.of_nat 0) with 0 in E3. rewrite E3.
  cbn [fst]. change (drop 0 (view w1)) with (view w1). congruence.
Qed.
End serves.

(** ** The wrapper *)
(** What NVML tells of a process. *)
Definition nvml_sample (p : Process) : NvmlSample :=
  {| pid := PID p; smUtil := SMUtil p; memUtil := MemoryUtil p; encUtil := EncoderUtil p; decUtil := DecoderUtil p |}.

(** The devices as the wrapper shows them: NVML does not tell a process's type,
    and the collector writes C for every one. *)
Definition as_compute_process (p : Process) : Process := {|
  PID := PID p; Type_ := "C"; Name := Name p; UsedMemoryMiB := UsedMemoryMiB p; SMUtil := SMUtil p; MemoryUtil := MemoryUtil p;
  EncoderUtil := EncoderUtil p; DecoderUtil := DecoderUtil p |}.
Definition as_compute (d : DeviceState) : DeviceState := observe.set_Processes (map as_compute_process) d.

Lemma as_compute_id d : Forall (fun p => Type_ p = "C") (Processes d) -> as_compute d = d.
Proof.
  unfold as_compute, observe.set_Processes. intros Hps. destruct d as [i u n tot us fr g m ps]. cbn in *. f_equal.
  induction Hps as [| p ps Hp _ IH]; [done |]. cbn. rewrite IH. f_equal. destruct p. cbn in *. by subst.
Qed.

Lemma as_compute_all devices : Forall (fun d => Forall (fun p => Type_ p = "C") (Processes d)) devices -> map as_compute devices = devices.
Proof. induction 1 as [| d devices Hd _ IH]; [done |]. cbn [map]. by rewrite as_compute_id, IH. Qed.

Lemma as_compute_ok devices : node_ok devices -> node_ok (map as_compute devices).
Proof.
  intros (Hd & Hi & Hu). unfold node_ok. rewrite !map_map. split; [| by split]. apply Forall_map. eapply Forall_impl; [exact Hd |].
  intros d (H1 & H2 & H3 & H4 & H5 & H6 & H7 & H8 & Hps & Hnd). unfold device_ok. cbn. rewrite map_map. split_and!; try done; try apply H1.
  apply Forall_map. eapply Forall_impl; [exact Hps |]. intros p (? & _ & ?). split; [done |]. split; [by left | done].
Qed.

(** The library tells of the devices: they are numbered in order, and it knows
    the names of their processes. *)
Definition lists_devices {W : Type} `{ServesNvml W} (devices : list DeviceState) (w : W) : Prop :=
  view w = map (fun d => map nvml_sample (Processes d)) devices /\
  (forall i d, devices !! i = Some d -> Index d = Z.of_nat i /\ Forall (fun p => name_of (PID p) = Name p) (Processes d)).

Section wrapper.
Context {W : Type} `{ServesNvml W} (error_text : error -> string).
Context (stdout_write stderr_write : string -> M (NS W) unit) (os_Executable : M (NS W) string).
Context (run_command : string -> list string -> NS W -> option RunError * NS W).
(** What has been written to standard output. *)
Context (out : NS W -> string).
Hypothesis (Hout : forall text s, exists s', stdout_write text s = (Ok tt, s') /\ out s' = out s +:+ text).

Lemma listing_samples (devices : list DeviceState) i :
  (forall j d, devices !! j = Some d -> Index d = Z.of_nat (i + j) /\ Forall (fun p => name_of (PID p) = Name p) (Processes d)) ->
  listing i (map (fun d => map nvml_sample (Processes d)) devices) = observe.samples_of (map as_compute devices).
Proof.
  revert i. induction devices as [| d devices IH]; intros i Hd; [done |]. cbn [map listing]. unfold observe.samples_of. cbn [flat_map].
  destruct (Hd 0%nat d eq_refl) as [Hi Hps]. rewrite Nat.add_0_r in Hi. f_equal.
  - rewrite map_map. change (Processes (as_compute d)) with (map as_compute_process (Processes d)).
    induction Hps as [| p ps Hn _ IHps]; [done |]. cbn [map]. f_equal; [| exact IHps].
    unfold listed, observe.sample_of, nvml_sample. cbn. by rewrite Hi, Hn.
  - apply IH. intros j d' Hj. destruct (Hd (S j) d' Hj) as [Hi' Hps']. split; [rewrite Hi'; lia | done].
Qed.

Lemma write_rows_out l s : exists s', write_rows stdout_write l s = (Ok tt, s') /\ out s' = out s +:+ unlines (map render_row l).
Proof.
  revert s. induction l as [| x l IH]; intros s; [exists s; by rewrite append_nil_r |]. cbn [write_rows]. unfold write_line.
  destruct (Hout (render_row x +:+ chr newline) s) as (s1 & E1 & O1). rewrite (M_bind_ok _ _ _ _ _ E1).
  destruct (IH s1) as (s2 & E2 & O2). exists s2. split; [done |]. cbn [map unlines]. by rewrite O2, O1, !append_assoc.
Qed.

Lemma Render_out samples s : exists s', Render stdout_write samples s = (Ok tt, s') /\ out s' = out s +:+ table samples.
Proof.
  unfold Render. cbv zeta. unfold write_line.
  destruct (Hout (header1 +:+ chr newline) s) as (s1 & E1 & O1). rewrite (M_bind_ok _ _ _ _ _ E1).
  destruct (Hout (header2 +:+ chr newline) s1) as (s2 & E2 & O2). rewrite (M_bind_ok _ _ _ _ _ E2).
  destruct (write_rows_out (sort_samples samples) s2) as (s3 & E3 & O3). exists s3. split; [done |].
  rewrite O3, O2, O1. unfold table, table_lines. cbn [unlines]. by rewrite !append_assoc.
Qed.

(** C17. The wrapper answers [nvidia-smi pmon] for the observer.  Over an NVML
    library that lists a node's devices and knows the names of their
    processes, each of the three command lines that it recognises exits with
    0 after printing exactly the table of the processes, except that every
    process has the type C, which NVML does not tell.  The observer that reads
    this table beside the process query sees the node with these types; so it
    sees the node as it is, as the class [NvidiaSmi] asks, when all processes
    are compute processes, and a graphics process as a compute process
    ([graphics_read_as_compute]). *)
Theorem wrapper_serves_pmon devices args s : closed s.1 -> Matches args = true -> lists_devices devices s.2 ->
  let s1 := (Collect s).2 in let text := table (observe.samples_of (map as_compute devices)) in
  (exists s', run error_text stdout_write stderr_write os_Executable run_command args s = (0, s') /\ out s' = out s1 +:+ text) /\
  (node_ok devices -> attachPmon (map (set_Processes (map query_view)) devices) text = map as_compute devices) /\
  (Forall (fun d => Forall (fun p => Type_ p = "C") (Processes d)) devices -> map as_compute devices = devices).
Proof.
  intros Hc Hm [Hview Hdev]. cbv zeta. split; [| split].
  - unfold run. rewrite Hm. pose proof (Collect_listing s Hc) as Hl.
    destruct (Collect s) as [r s1]. cbn [fst snd] in *. rewrite Hview, listing_samples in Hl by done. subst r.
    destruct (Render_out (observe.samples_of (map as_compute devices)) s1) as (s2 & -> & O2). by exists s2.
  - intros Hok%as_compute_ok. etransitivity; [| exact (attachPmon_print _ Hok)]. f_equal. rewrite map_map. apply map_ext. intros d.
    unfold as_compute, set_Processes. cbn. f_equal. by rewrite map_map.
  - apply as_compute_all.
Qed.
End wrapper.

(** ** Witnesses: a library over a list of processes *)
Record Lib := { lib_view : list (list NvmlSample); lib_usage : Usage; lib_out : string }.
Definition use (f : Usage -> Usage) (w : Lib) : Lib := {| lib_view := lib_view w; lib_usage := f (lib_usage w); lib_out := lib_out w |}.
Definition lib_symbol (name : string) : Z :=
  if String.eqb name "nvmlInit_v2" then 1 else if String.eqb name "nvmlShutdown" then 2 else 3.
Definition lib_samples (device : Z) (w : Lib) : list NvmlSample := default [] (lib_view w !! Z.to_nat device).

#[export] Instance lib_native : Native Lib := {
  dlopen _ w := ((Some 1, None), use (open_one 1) w);
  dlsym _ name w := ((Some (lib_symbol name), None), w);
  dlclose _ w := use (open_one (-1)) w;
  call_init _ w := (0, use (start_one 1) w);
  call_shutdown _ w := (0, use (start_one (-1)) w);
  call_count _ _ w := ((0, Z.of_nat (length (lib_view w))), w);
  call_handle _ index w := ((0, index), w);
  call_utilization _ device capacity _ w :=
    let l := lib_samples device w in
    match capacity, l with
    | None, [] => ((0, 0, []), w)
    | None, _ => ((7, Z.of_nat (length l), []), w)
    | Some _, _ => ((0, Z.of_nat (length l), l), w)
    end;
  call_name _ _ _ w := ((0, "worker"), w);
  malloc _ _ := true
}.

#[export] Instance lib_accounted : Accounted Lib.
Proof. refine {| usage := lib_usage |}; try done. intros p d [c |] n w; cbn; [done |]. by destruct (lib_samples d w). Defined.

#[export] Instance lib_serves : ServesNvml Lib.
Proof.
  refine {| view := lib_view; name_of := fun _ => "worker"; srv_lib := 1; srv_sym := lib_symbol; srv_device := id |}; try done.
  - intros w. by exists None, (use (open_one 1) w).
  - intros name w. by exists w.
  - intros w. by exists (use (start_one 1) w).
  - intros n w. by exists w.
  - intros i w _. by exists w.
  - intros i samples w Hi. cbn. unfold lib_samples, id. rewrite Nat2Z.id, Hi. cbn. destruct samples as [| x l].
    + exists 0, w. split; [done |]. split; [done |]. by split; [left |].
    + exists 7, w. split; [done |]. split; [done |]. by split; [right |].
  - intros i samples w Hi n. cbn. unfold lib_samples, id. rewrite Nat2Z.id, Hi. by exists w.
  - intros id w. by exists 0, "worker", w.
Defined.

Definition closed_loader : Loader := {|
  nvml_lib := None; p_nvmlInit := None; p_nvmlShutdown := None; p_nvmlDeviceGetCount := None; p_nvmlDeviceGetHandleByIndex := None;
  p_nvmlDeviceGetProcessUtilization := None; p_nvmlSystemGetProcessName := None; nvml_error := "" |}.

Definition demo_process (id : Z) : Process :=
  {| PID := id; Type_ := if id =? 7 then "G" else "C"; Name := "worker"; UsedMemoryMiB := 64; SMUtil := 40; MemoryUtil := 20; EncoderUtil := 0; DecoderUtil := 1 |}.
Definition demo_device (index : Z) (ids : list Z) : DeviceState :=
  {| Index := index; UUID := "GPU"; ds_Name := "GPU"; TotalBytes := 0; UsedBytes := 0; FreeBytes := 0; GPUUtilization := 0;
     MemoryUtilization := 0; Processes := map demo_process ids |}.
Definition demo_devices : list DeviceState := [demo_device 0 [9; 7]; demo_device 1 []; demo_device 2 [3]].
Definition demo_lib : Lib :=
  {| lib_view := map (fun d => map nvml_sample (Processes d)) demo_devices; lib_usage := {| opened := 0; started := 0 |}; lib_out := "" |}.
Definition demo_write (text : string) : M (NS Lib) unit := fun s =>
  (Ok tt, (s.1, {| lib_view := lib_view s.2; lib_usage := lib_usage s.2; lib_out := lib_out s.2 +:+ text |})).
Lemma demo_writes text (s : NS Lib) : exists s', demo_write text s = (Ok tt, s') /\ lib_out s'.2 = lib_out s.2 +:+ text.
Proof. by eexists. Qed.

Lemma demo_lists : lists_devices demo_devices demo_lib.
Proof.
  split; [done |]. intros i d Hi. do 3 (destruct i as [| i]; [injection Hi as <-; split; [done | by repeat constructor] |]). done.
Qed.

Lemma Collect_balanced_witness : closed closed_loader /\ let '(r, s') := Collect (closed_loader, demo_lib) in closed s'.1 /\ usage s'.2 = usage demo_lib.
Proof. split; [reflexivity |]. apply (Collect_balanced (closed_loader, demo_lib)). reflexivity. Defined.

Lemma wrapper_serves_pmon_witness : exists s',
  run (fun _ => "") demo_write demo_write (throw (Errorf "" [])) (fun _ _ s => (None, s)) ["pmon"; "-c"; "1"; "-s"; "u"] (closed_loader, demo_lib) = (0, s') /\
  lib_out s'.2 = table (samples_of (map as_compute demo_devices)).
Proof.
  destruct (wrapper_serves_pmon (fun _ => "") demo_write demo_write (throw (Errorf "" [])) (fun _ _ s => (None, s)) (fun s => lib_out s.2) demo_writes
    demo_devices ["pmon"; "-c"; "1"; "-s"; "u"] (closed_loader, demo_lib)) as [(s' & E & O) _]; [reflexivity | reflexivity | exact demo_lists |].
  exists s'. split; [exact E |]. rewrite O. vm_compute. reflexivity.
Defined.

(** A process of type G that the wrapper shows is read as one of type C. *)
Lemma graphics_read_as_compute :
  let seen := attachPmon (map (set_Processes (map query_view)) demo_devices) (table (samples_of (map as_compute demo_devices))) in
  map (fun d => map Type_ (Processes d)) demo_devices = [["C"; "G"]; []; ["C"]] /\
  map (fun d => map Type_ (Processes d)) seen = [["C"; "C"]; []; ["C"]].
Proof. vm_compute. done. Qed.
End nvml_spec.
